(** * chromanode: the scanner's synchroniser, its event service and the
    colored-coin rescanner

    A shallow embedding of

    - [app.es6/scanner/service.js]  (module [Service]),
    - [app.es6/scanner/sync.js]     (module [ScannerSync]),
    - the colored-coin [Sync] class (module [ColorSync]),

    over an explicit model of what these files talk to: the tables of the
    PostgreSQL store, the notification bus, and the node.  JavaScript values
    that the code passes around untyped (the [err] and [opts] arguments) are
    kept as a small value type, so that a call with a missing argument means
    here what it means in JavaScript. *)

From Stdlib Require Import ZArith List String Ascii Bool Lia.
From stdpp Require Import base option list strings gmap pretty.

Set Warnings "-register-all".

Open Scope string_scope.
Open Scope Z_scope.
Open Scope list_scope.

(** ** JavaScript values and the lodash helpers the sources use *)
Module JS.

Inductive jsval : Type :=
| JUndefined
| JNull
| JBool (b : bool)
| JNum (n : Z)
| JStr (s : string)
| JClient                                  (* a pg.Client host object *)
| JObj (fields : list (string * jsval)).

(** Own property lookup, [obj[key]]; [None] is a missing property. *)
Fixpoint prop (fields : list (string * jsval)) (key : string) : option jsval :=
  match fields with
  | [] => None
  | (k, v) :: rest => if String.eqb k key then Some v else prop rest key
  end.

(** ToBoolean, as [!x] and [if (x)] use it. *)
Definition truthy (v : jsval) : bool :=
  match v with
  | JUndefined | JNull => false
  | JBool b => b
  | JNum n => negb (n =? 0)%Z
  | JStr s => negb (String.eqb s EmptyString)
  | JClient | JObj _ => true
  end.

Definition not (v : jsval) : jsval := JBool (negb (truthy v)).

(** [v === null] *)
Definition is_null (v : jsval) : bool :=
  match v with JNull => true | _ => false end.

(** ToString, as the global [escape] applies it to its argument. *)
Definition to_string (v : jsval) : string :=
  match v with
  | JUndefined => "undefined"
  | JNull => "null"
  | JBool true => "true"
  | JBool false => "false"
  | JNum n => pretty n
  | JStr s => s
  | JClient | JObj _ => "[object Object]"
  end.

(** [_.get(object, key)] for a one-segment path: [undefined] when the
    object is [null] or [undefined], or has no such property. *)
Definition get (object : jsval) (key : string) : jsval :=
  match object with
  | JObj fields => default JUndefined (prop fields key)
  | _ => JUndefined
  end.

(** [_.has(object, key)] *)
Definition has (object : jsval) (key : string) : bool :=
  match object with
  | JObj fields => bool_decide (is_Some (prop fields key))
  | _ => false
  end.

(** The global [escape]: the characters [A-Z a-z 0-9 @ * _ + - . /] stay,
    any other code unit below 256 becomes [%XX] (upper-case hex) and a code
    unit of 256 and above [%uXXXX].  The characters of [string] are code
    units below 256, and they are the strings of this development:
    [escape_string] is [escape] on them, and [escape_units] below is
    [escape] on any sequence of 16-bit code units. *)
Definition escape_keeps (a : ascii) : bool :=
  let n := N_of_ascii a in
  ((48 <=? n) && (n <=? 57) || (65 <=? n) && (n <=? 90)
   || (97 <=? n) && (n <=? 122)
   || (n =? 64) || (n =? 42) || (n =? 95) || (n =? 43)
   || (n =? 45) || (n =? 46) || (n =? 47))%N.

Definition hex_digit (n : N) : ascii :=
  (if n <? 10 then ascii_of_N (48 + n) else ascii_of_N (55 + n))%N.

Fixpoint escape_string (s : string) : string :=
  match s with
  | EmptyString => EmptyString
  | String a rest =>
      if escape_keeps a then String a (escape_string rest)
      else let n := N_of_ascii a in
           String "%" (String (hex_digit (n / 16)) (String (hex_digit (n mod 16))
                                                       (escape_string rest)))
  end.

Definition escape (v : jsval) : jsval := JStr (escape_string (to_string v)).

(** [escape] on the code units of any string. *)
Fixpoint escape_units (units : list N) : string :=
  match units with
  | [] => EmptyString
  | n :: rest =>
      if (n <? 256)%N then
        if escape_keeps (ascii_of_N n) then String (ascii_of_N n) (escape_units rest)
        else String "%" (String (hex_digit (n / 16)) (String (hex_digit (n mod 16))
                                                         (escape_units rest)))
      else String "%" (String "u"
             (String (hex_digit (n / 4096)) (String (hex_digit ((n / 256) mod 16))
             (String (hex_digit ((n / 16) mod 16)) (String (hex_digit (n mod 16))
                                                            (escape_units rest))))))
  end.

(** The code units of a [string]. *)
Definition code_units (s : string) : list N := map N_of_ascii (list_ascii_of_string s).


(** The cooked value of the text of a string or template literal: a
    backslash followed by a character that starts no escape sequence
    stands for that character. ([\x] and [\u] sequences do not occur in
    the sources.) *)
Fixpoint cook (raw : string) : string :=
  match raw with
  | EmptyString => EmptyString
  | String "\" (String c rest) =>
      let c' := if Ascii.eqb c "n" then ascii_of_N 10
                else if Ascii.eqb c "t" then ascii_of_N 9
                else if Ascii.eqb c "r" then ascii_of_N 13
                else if Ascii.eqb c "b" then ascii_of_N 8
                else if Ascii.eqb c "f" then ascii_of_N 12
                else if Ascii.eqb c "v" then ascii_of_N 11
                else c in
      String c' (cook rest)
  | String c rest => String c (cook rest)
  end.

(** lodash on arrays of strings. *)
Definition mem (x : string) (l : list string) : bool :=
  existsb (String.eqb x) l.

(** [_.uniq]: first occurrences, in order. *)
Fixpoint uniq_acc (seen l : list string) : list string :=
  match l with
  | [] => []
  | x :: rest => if mem x seen then uniq_acc seen rest
                 else x :: uniq_acc (x :: seen) rest
  end.
Definition uniq (l : list string) : list string := uniq_acc [] l.

(** [_.difference(a, b)]: the members of [a] that are not in [b]. *)
Definition difference (a b : list string) : list string :=
  List.filter (fun x => negb (mem x b)) a.

(** [_.union(a, b)] where [a] may be [undefined]. *)
Definition union (a : option (list string)) (b : list string) : list string :=
  uniq (default [] a ++ b).

(** [_.without(a, x)] where [a] may be [undefined]. *)
Definition without (a : option (list string)) (x : string) : list string :=
  List.filter (fun y => negb (String.eqb y x)) (default [] a).

End JS.

(** ** bitcore objects, as far as the synchronisers read them *)
Module Bitcore.

Record Input := {
  prevTxId : string;            (* [input.prevTxId.toString('hex')] *)
  outputIndex : Z }.

(** [addresses] is what [script2addresses(output.script, network, false)]
    returns for the script (an external library): [] for a script that pays
    to no address. *)
Record Output := {
  satoshis : Z;
  script : string;              (* [output.script.toHex()] *)
  addresses : list string }.

Record Transaction := {
  id : string;
  raw : string;                 (* [tx.toString()] *)
  inputs : list Input;
  outputs : list Output }.

(** A header, with the previous hash as [util.encode(header.prevHash)]
    gives it. *)
Record BlockHeader := {
  header_raw : string;          (* [header.toString()] *)
  prevHash : string }.

Record Block := {
  hash : string;
  header : BlockHeader;
  transactions : list Transaction }.

End Bitcore.

(** Modelled from the spec: [ZERO_HASH] of [lib/const], which is not part of
    the sources at hand: the all-zero 32-byte hash, in hex. *)
Definition ZERO_HASH : string :=
  "0000000000000000000000000000000000000000000000000000000000000000".

(** ** The tables of the store *)
Module Schema.

Record block_row := {
  b_height : Z;
  b_hash : string;
  b_header : Bitcore.BlockHeader;
  b_txids : string }.

Record tx_row := {
  t_txid : string;
  t_height : option Z;          (* [None] is SQL NULL: unconfirmed *)
  t_tx : string }.

Record history_row := {
  h_address : string;
  h_txid : string;
  h_index : Z;
  h_value : Z;
  h_script : string;
  h_height : option Z;
  h_input_txid : option string;
  h_input_height : option Z }.

Record cc_row := {
  c_txid : string;
  c_blockhash : option string;
  c_height : option Z }.

Record cc_definition := {
  d_id : Z;
  d_desc : string }.

(** What an INSERT does when a row with the same key is there already. *)
Inductive conflict := Reject | Keep.

(** The tables are kept as lists of rows, in insertion order, so that a
    duplicated row would show. *)
Record database := {
  blocks : list block_row;
  transactions : list tx_row;
  history : list history_row;
  cc_scanned : list cc_row;
  cc_definitions : list cc_definition;
  on_conflict : conflict }.

Definition with_blocks (d : database) (x : list block_row) : database :=
  {| blocks := x; transactions := transactions d; history := history d;
     cc_scanned := cc_scanned d; cc_definitions := cc_definitions d;
     on_conflict := on_conflict d |}.

Definition with_transactions (d : database) (x : list tx_row) : database :=
  {| blocks := blocks d; transactions := x; history := history d;
     cc_scanned := cc_scanned d; cc_definitions := cc_definitions d;
     on_conflict := on_conflict d |}.

Definition with_history (d : database) (x : list history_row) : database :=
  {| blocks := blocks d; transactions := transactions d; history := x;
     cc_scanned := cc_scanned d; cc_definitions := cc_definitions d;
     on_conflict := on_conflict d |}.

Definition with_cc_scanned (d : database) (x : list cc_row) : database :=
  {| blocks := blocks d; transactions := transactions d; history := history d;
     cc_scanned := x; cc_definitions := cc_definitions d;
     on_conflict := on_conflict d |}.

Definition with_cc_definitions (d : database) (x : list cc_definition) : database :=
  {| blocks := blocks d; transactions := transactions d; history := history d;
     cc_scanned := cc_scanned d; cc_definitions := x;
     on_conflict := on_conflict d |}.

Inductive result (A : Type) : Type :=
| Ok (a : A)
| Err (msg : string).
Arguments Ok {A} a.
Arguments Err {A} msg.

End Schema.

(** ** The SQL statements

    The scanner's [sql.js] and the schema are not part of the sources at
    hand.  Each statement below is named after the path under which the code
    reaches it ([SQL.select.blocks.latest] is [select_blocks_latest]) and
    does what the specification says of that step; the keys of the tables
    are those of the specification's data model. *)
Module SQL.
Import Schema.

Definition statement (A : Type) : Type := database -> result (A * database).

(** A [bytea] parameter in hex format, ['\\x' + hex], read back as the hex
    text that [toString('hex')] gives for the column.  Every call site in the
    sources passes this format; another text is left as it is. *)
Definition bytea (param : string) : string :=
  match param with
  | String "\" (String "x" hex) => hex
  | _ => param
  end.

Definition above (f : Z) (h : option Z) : bool :=
  match h with Some x => (f <? x)%Z | None => false end.

Definition insert_row {R : Type} (taken : bool) (row : R) (table : list R)
    (c : conflict) : result (list R) :=
  if taken then match c with Reject => Err "duplicate key" | Keep => Ok table end
  else Ok (table ++ [row]).

Definition reading {A : Type} (f : database -> A) : statement A :=
  fun d => Ok (f d, d).

Definition tx_exists (txid : string) (d : database) : bool :=
  existsb (fun t => String.eqb (t_txid t) txid) (transactions d).

Definition spends (prev : string) (index : Z) (r : history_row) : bool :=
  String.eqb (h_txid r) prev && (h_index r =? index)%Z.

Definition addresses_of (rows : list history_row) : list string :=
  map h_address rows.

(** *** blocks *)

(** Modelled from the spec: the row with the greatest height, if any. *)
Fixpoint max_block (l : list block_row) : option block_row :=
  match l with
  | [] => None
  | b :: rest =>
      match max_block rest with
      | None => Some b
      | Some m => if (b_height m <=? b_height b)%Z then Some b else Some m
      end
  end.

(** Modelled from the spec: "derived from the max-height block row". *)
Definition select_blocks_latest : statement (list block_row) :=
  reading (fun d => option_list (max_block (blocks d))).

(** Modelled from the spec: [db.block_at(height)]. *)
Definition select_blocks_byHeight (height : Z) : statement (list block_row) :=
  reading (fun d => List.filter (fun b => (b_height b =? height)%Z) (blocks d)).

(** Modelled from the spec: the block row at a height, with its txids. *)
Definition select_blocks_txIdsByHeight (height : Z) : statement (list block_row) :=
  select_blocks_byHeight height.

(** Modelled from the spec: "Insert the block row"; the key is the height.
    The row keeps the header bytes; the previous hash that bitcore reads
    from them is kept along. *)
Definition insert_blocks_row (height : Z) (hash : string)
    (header : Bitcore.BlockHeader) (txids : string) : statement unit :=
  fun d =>
    match insert_row (existsb (fun b => (b_height b =? height)%Z) (blocks d))
            {| b_height := height; b_hash := bytea hash; b_header := header;
               b_txids := bytea txids |} (blocks d) (on_conflict d) with
    | Ok t => Ok (tt, with_blocks d t)
    | Err m => Err m
    end.

(** Modelled from the spec: "Select all block rows with height > f". *)
Definition select_fromHeight (f : Z) : statement (list block_row) :=
  reading (fun d => List.filter (fun b => (f <? b_height b)%Z) (blocks d)).

(** Modelled from the spec: "Delete those block rows". *)
Definition delete_blocks_fromHeight (f : Z) : statement unit :=
  fun d => Ok (tt, with_blocks d
                     (List.filter (fun b => negb (f <? b_height b)%Z) (blocks d))).

(** *** transactions *)

(** Modelled from the spec: how many rows have this txid.  (pg hands the
    count over as a decimal string, which the code compares with ['0'].) *)
Definition select_transactions_exists (txid : string) : statement nat :=
  reading (fun d =>
    length (List.filter (fun t => String.eqb (t_txid t) (bytea txid)) (transactions d))).

(** Modelled from the spec: "which of P exist as transaction rows". *)
Definition select_transactions_existsMany (txids : list string) : statement (list string) :=
  reading (fun d =>
    map t_txid (List.filter (fun t => JS.mem (t_txid t) (map bytea txids))
                            (transactions d))).

(** Modelled from the spec: the stored unconfirmed transactions. *)
Definition select_transactions_unconfirmed : statement (list string) :=
  reading (fun d =>
    map t_txid (List.filter (fun t => negb (bool_decide (is_Some (t_height t))))
                            (transactions d))).

(** Modelled from the spec: the raw transaction of a txid. *)
Definition select_transactions_byTxId (txid : string) : statement (list tx_row) :=
  reading (fun d =>
    List.filter (fun t => String.eqb (t_txid t) (bytea txid)) (transactions d)).

Definition insert_tx (txid : string) (height : option Z) (raw : string) : statement unit :=
  fun d =>
    match insert_row (tx_exists (bytea txid) d)
            {| t_txid := bytea txid; t_height := height; t_tx := bytea raw |}
            (transactions d) (on_conflict d) with
    | Ok t => Ok (tt, with_transactions d t)
    | Err m => Err m
    end.

(** Modelled from the spec: "Insert the transaction row (unconfirmed)". *)
Definition insert_transactions_unconfirmed (txid raw : string) : statement unit :=
  insert_tx txid None raw.

(** Modelled from the spec: "insert a confirmed transaction row". *)
Definition insert_transactions_confirmed (txid : string) (height : Z) (raw : string)
  : statement unit :=
  insert_tx txid (Some height) raw.

(** Modelled from the spec: "set its height = h". *)
Definition update_transactions_makeConfirmed (height : Z) (txid : string) : statement unit :=
  fun d => Ok (tt, with_transactions d
    (map (fun t => if String.eqb (t_txid t) (bytea txid)
                   then {| t_txid := t_txid t; t_height := Some height; t_tx := t_tx t |}
                   else t) (transactions d))).

(** Modelled from the spec: "Set height = null on all transaction rows with
    height > f". *)
Definition update_transactions_makeUnconfirmed (f : Z) : statement unit :=
  fun d => Ok (tt, with_transactions d
    (map (fun t => if above f (t_height t)
                   then {| t_txid := t_txid t; t_height := None; t_tx := t_tx t |}
                   else t) (transactions d))).

(** Modelled from the spec: "delete the transaction rows" of the unconfirmed
    transactions that left the mempool. *)
Definition delete_transactions_unconfirmedByTxIds (txids : list string) : statement unit :=
  fun d => Ok (tt, with_transactions d
    (List.filter (fun t => negb (JS.mem (t_txid t) (map bytea txids)
                                 && negb (bool_decide (is_Some (t_height t)))))
                 (transactions d))).

(** *** history *)

Definition set_height (h : option Z) (r : history_row) : history_row :=
  {| h_address := h_address r; h_txid := h_txid r; h_index := h_index r;
     h_value := h_value r; h_script := h_script r; h_height := h;
     h_input_txid := h_input_txid r; h_input_height := h_input_height r |}.

Definition set_input (t : option string) (h : option Z) (r : history_row) : history_row :=
  {| h_address := h_address r; h_txid := h_txid r; h_index := h_index r;
     h_value := h_value r; h_script := h_script r; h_height := h_height r;
     h_input_txid := t; h_input_height := h |}.

Definition same_output (address txid : string) (index : Z) (r : history_row) : bool :=
  String.eqb (h_address r) address && String.eqb (h_txid r) txid
  && (h_index r =? index)%Z.

Definition insert_output (address txid : string) (index value : Z) (script : string)
    (height : option Z) : statement unit :=
  fun d =>
    match insert_row (existsb (same_output address (bytea txid) index) (history d))
            {| h_address := address; h_txid := bytea txid; h_index := index;
               h_value := value; h_script := bytea script; h_height := height;
               h_input_txid := None; h_input_height := None |}
            (history d) (on_conflict d) with
    | Ok t => Ok (tt, with_history d t)
    | Err m => Err m
    end.

(** Modelled from the spec: "for each address insert a history row". *)
Definition insert_history_unconfirmedOutput (address txid : string) (index value : Z)
    (script : string) : statement unit :=
  insert_output address txid index value script None.

(** Modelled from the spec: "insert a confirmed history row (height = h)". *)
Definition insert_history_confirmedOutput (address txid : string) (index value : Z)
    (script : string) (height : Z) : statement unit :=
  insert_output address txid index value script (Some height).

(** An UPDATE ... RETURNING address over the rows a predicate selects. *)
Definition update_returning (sel : history_row -> bool)
    (f : history_row -> history_row) : statement (list string) :=
  fun d => Ok (addresses_of (List.filter sel (history d)),
               with_history d (map (fun r => if sel r then f r else r) (history d))).

(** Modelled from the spec: "update the history row (prev_txid, prev_index)
    to record input_txid = txid, input_height = null, returning that row's
    address". *)
Definition update_history_addUnconfirmedInput (txid prev : string) (index : Z)
  : statement (list string) :=
  update_returning (spends (bytea prev) index) (set_input (Some (bytea txid)) None).

(** Modelled from the spec: "update the history row (prev_txid, prev_index)
    to set input_txid, input_height = h". *)
Definition update_history_addConfirmedInput (txid : string) (height : Z)
    (prev : string) (index : Z) : statement (list string) :=
  update_returning (spends (bytea prev) index)
                   (set_input (Some (bytea txid)) (Some height)).

(** Modelled from the spec: "simply upgrade input_height to h". *)
Definition update_history_makeInputConfirmed (height : Z) (prev : string) (index : Z)
  : statement (list string) :=
  update_returning (spends (bytea prev) index)
                   (fun r => set_input (h_input_txid r) (Some height) r).

(** Modelled from the spec: "set height = h on every history row whose
    producing tx is txid". *)
Definition update_history_makeOutputConfirmed (height : Z) (txid : string)
  : statement (list string) :=
  update_returning (fun r => String.eqb (h_txid r) (bytea txid))
                   (set_height (Some height)).

(** Modelled from the spec: "Set height = null on all history rows with
    height > f (producer side)". *)
Definition update_history_makeOutputsUnconfirmed (f : Z) : statement unit :=
  fun d => Ok (tt, with_history d
    (map (fun r => if above f (h_height r) then set_height None r else r) (history d))).

(** Modelled from the spec: "Set input_height = null on all history rows
    with input_height > f". *)
Definition update_history_makeInputsUnconfirmed (f : Z) : statement unit :=
  fun d => Ok (tt, with_history d
    (map (fun r => if above f (h_input_height r)
                   then set_input (h_input_txid r) None r else r) (history d))).

(** Modelled from the spec: "delete ... their unconfirmed-producer history
    rows". *)
Definition delete_history_unconfirmedByTxIds (txids : list string) : statement unit :=
  fun d => Ok (tt, with_history d
    (List.filter (fun r => negb (JS.mem (h_txid r) (map bytea txids)
                                 && negb (bool_decide (is_Some (h_height r)))))
                 (history d))).

(** Modelled from the spec: "null out input_* fields on history rows whose
    input_txid is being removed". *)
Definition update_history_deleteUnconfirmedInputsByTxIds (txids : list string)
  : statement unit :=
  fun d => Ok (tt, with_history d
    (map (fun r => match h_input_txid r with
                   | Some t => if JS.mem t (map bytea txids) then set_input None None r
                               else r
                   | None => r
                   end) (history d))).

(** *** the colored-coin tables *)

(** Modelled from the spec: "if present in color-scanned". *)
Definition select_ccScannedTxIds_isTxScanned (txid : string) : statement bool :=
  reading (fun d => existsb (fun c => String.eqb (c_txid c) (bytea txid)) (cc_scanned d)).

Definition insert_cc (txid : string) (blockhash : option string) (height : option Z)
  : statement unit :=
  fun d =>
    match insert_row (existsb (fun c => String.eqb (c_txid c) (bytea txid)) (cc_scanned d))
            {| c_txid := bytea txid; c_blockhash := blockhash; c_height := height |}
            (cc_scanned d) (on_conflict d) with
    | Ok t => Ok (tt, with_cc_scanned d t)
    | Err m => Err m
    end.

(** Modelled from the spec: "insert a color-scanned row as unconfirmed
    (blockhash null)". *)
Definition insert_ccScannedTxIds_unconfirmed (txid : string) : statement unit :=
  insert_cc txid None None.

(** Modelled from the spec: a color-scanned row with its block and height. *)
Definition insert_ccScannedTxIds_confirmed (txid blockhash : string) (height : Z)
  : statement unit :=
  insert_cc txid (Some (bytea blockhash)) (Some height).

(** Modelled from the spec: "delete the color-scanned row". *)
Definition delete_ccScannedTxIds_byTxId (txid : string) : statement unit :=
  fun d => Ok (tt, with_cc_scanned d
    (List.filter (fun c => negb (String.eqb (c_txid c) (bytea txid))) (cc_scanned d))).

(** Modelled from the spec: "the rescanner's latest scanned block
    (hash_s, height_s)": the confirmed row of greatest height. *)
Fixpoint max_cc (l : list cc_row) : option (string * Z) :=
  match l with
  | [] => None
  | c :: rest =>
      match c_blockhash c, c_height c, max_cc rest with
      | Some bh, Some h, Some (bh', h') =>
          if (h' <=? h)%Z then Some (bh, h) else Some (bh', h')
      | Some bh, Some h, None => Some (bh, h)
      | _, _, m => m
      end
  end.

Definition select_ccScannedTxIds_latestBlock : statement (list (string * Z)) :=
  reading (fun d => option_list (max_cc (cc_scanned d))).

(** Modelled from the spec: "reading color-scanned block mappings": the
    block hashes recorded for a height. *)
Definition select_ccScannedTxIds_blockHash (height : Z) : statement (list string) :=
  reading (fun d =>
    omap (fun c => match c_height c with
                   | Some h => if (h =? height)%Z then c_blockhash c else None
                   | None => None
                   end) (cc_scanned d)).

(** Modelled from the spec: "mark every color-scanned row with height > h_r
    as unconfirmed (blockhash=null, height=null)". *)
Definition update_ccScannedTxIds_makeUnconfirmed (height : Z) : statement unit :=
  fun d => Ok (tt, with_cc_scanned d
    (map (fun c => if above height (c_height c)
                   then {| c_txid := c_txid c; c_blockhash := None; c_height := None |}
                   else c) (cc_scanned d))).

(** Modelled from the spec: "mark that collected set as confirmed under the
    new (hash, height) in one statement". *)
Definition update_ccScannedTxIds_makeConfirmed (txids : list string) (blockhash : string)
    (height : Z) : statement unit :=
  fun d => Ok (tt, with_cc_scanned d
    (map (fun c => if JS.mem (c_txid c) (map bytea txids)
                   then {| c_txid := c_txid c; c_blockhash := Some (bytea blockhash);
                           c_height := Some height |}
                   else c) (cc_scanned d))).

(** Modelled from the spec: the unconfirmed color-scanned txids. *)
Definition select_ccScannedTxIds_unconfirmed : statement (list string) :=
  reading (fun d =>
    map c_txid (List.filter (fun c => negb (bool_decide (is_Some (c_height c))))
                            (cc_scanned d))).

(** *** color definitions, looked up by a pattern

    Modelled from the spec: "look up a color definition whose identifier
    string matches the ... pattern".  The pattern is a regular expression;
    of its syntax the model has what the pattern of the sources needs:
    characters that stand for themselves, the class [\d], and a following
    [+].  A match may start anywhere in the text. *)
Inductive atom : Type :=
| Lit (a : ascii)
| Digit.

Record piece := { p_atom : atom; p_plus : bool }.

Fixpoint parse (pattern : string) : list piece :=
  match pattern with
  | EmptyString => []
  | String "\" (String "d" (String "+" rest)) =>
      {| p_atom := Digit; p_plus := true |} :: parse rest
  | String "\" (String "d" rest) =>
      {| p_atom := Digit; p_plus := false |} :: parse rest
  | String c (String "+" rest) =>
      {| p_atom := Lit c; p_plus := true |} :: parse rest
  | String c rest =>
      {| p_atom := Lit c; p_plus := false |} :: parse rest
  end.

Definition is_digit (c : ascii) : bool :=
  ((48 <=? N_of_ascii c) && (N_of_ascii c <=? 57))%N.

Definition atom_matches (a : atom) (c : ascii) : bool :=
  match a with
  | Lit x => Ascii.eqb x c
  | Digit => is_digit c
  end.

Fixpoint match_here (ps : list piece) (text : string) {struct ps} : bool :=
  match ps with
  | [] => true
  | p :: ps' =>
      if p_plus p then
        (fix many (t : string) : bool :=
           match t with
           | EmptyString => false
           | String c t' => atom_matches (p_atom p) c && (many t' || match_here ps' t')
           end) text
      else
        match text with
        | EmptyString => false
        | String c t' => atom_matches (p_atom p) c && match_here ps' t'
        end
  end.

Fixpoint search (ps : list piece) (text : string) : bool :=
  match_here ps text
  || match text with
     | EmptyString => false
     | String _ t' => search ps t'
     end.

Definition matches (pattern text : string) : bool := search (parse pattern) text.

Definition select_ccDefinitions_colorId (pattern : string) : statement (list Z) :=
  reading (fun d =>
    map d_id (List.filter (fun c => matches pattern (d_desc c)) (cc_definitions d))).

End SQL.

(** ** The process: its state, and asynchronous code as state passing

    One [env] holds everything the two [Sync] objects and their
    collaborators can change.  A promise-returning function is a function
    from [env] to a result and the [env] after it; a rejected promise is
    [Err].  A call runs at the point where the sources make it, which is
    also the order in which one pg client executes the statements it is
    sent.  Where the sources hold the promise of a call and await it later,
    or never, the call is [started]: it runs there, and its outcome is a
    value that [await_all] looks at, or that nobody looks at. *)
Module Async.
Import Schema.

Record event := { channel : string; payload : JS.jsval }.

(** What [setImmediate] has queued. *)
Inductive task : Type :=
| RunTxImport (txid : string)
| ImportOrphaned (txid : string).

(** [Sync._orphanedTx] *)
Record OrphanedTx := {
  deps : gmap string (list string);       (* txid -> txid[] *)
  orphans : gmap string (list string) }.  (* txid -> txid[] *)

(** The node behind [Network]: what it answers.  [mempool_error] is the
    error with which the request for the mempool is rejected, when it is. *)
Record Node := {
  mempool : list string;
  mempool_error : option string;
  known : list Bitcore.Transaction }.

(** Calls into the colored-coin library. *)
Inductive color_call : Type :=
| FullScanTx (txid code : string)
| RemoveDefinition (id : Z)
| RemoveColorValues (txid code : string).

(** What was asked of the [SmartLock]: some keys, or everything. *)
Inductive lock : Type :=
| Keyed (keys : list string)
| Exclusive.

Record env := {
  db : database;                 (* the tables, as the running code sees them *)
  pending : list event;          (* notified through the client of the open transaction *)
  delivered : list event;        (* notifications that have reached the bus *)
  orphanedTx : OrphanedTx;
  immediates : list task;
  locked : list lock;            (* the locks taken so far, in order *)
  node : Node;
  color_calls : list color_call;
  parsable : string -> bool;     (* whether [bitcore.Transaction] accepts a raw transaction *)
  faults : list bool }.          (* whether the next statements sent to the store fail *)

Definition with_db (e : env) (x : database) : env :=
  {| db := x; pending := pending e; delivered := delivered e;
     orphanedTx := orphanedTx e; immediates := immediates e; locked := locked e;
     node := node e; color_calls := color_calls e; parsable := parsable e; faults := faults e |}.

Definition with_pending (e : env) (x : list event) : env :=
  {| db := db e; pending := x; delivered := delivered e;
     orphanedTx := orphanedTx e; immediates := immediates e; locked := locked e;
     node := node e; color_calls := color_calls e; parsable := parsable e; faults := faults e |}.

Definition with_delivered (e : env) (x : list event) : env :=
  {| db := db e; pending := pending e; delivered := x;
     orphanedTx := orphanedTx e; immediates := immediates e; locked := locked e;
     node := node e; color_calls := color_calls e; parsable := parsable e; faults := faults e |}.

Definition with_orphanedTx (e : env) (x : OrphanedTx) : env :=
  {| db := db e; pending := pending e; delivered := delivered e;
     orphanedTx := x; immediates := immediates e; locked := locked e;
     node := node e; color_calls := color_calls e; parsable := parsable e; faults := faults e |}.

Definition with_immediates (e : env) (x : list task) : env :=
  {| db := db e; pending := pending e; delivered := delivered e;
     orphanedTx := orphanedTx e; immediates := x; locked := locked e;
     node := node e; color_calls := color_calls e; parsable := parsable e; faults := faults e |}.

Definition with_locked (e : env) (x : list lock) : env :=
  {| db := db e; pending := pending e; delivered := delivered e;
     orphanedTx := orphanedTx e; immediates := immediates e; locked := x;
     node := node e; color_calls := color_calls e; parsable := parsable e; faults := faults e |}.

Definition with_color_calls (e : env) (x : list color_call) : env :=
  {| db := db e; pending := pending e; delivered := delivered e;
     orphanedTx := orphanedTx e; immediates := immediates e; locked := locked e;
     node := node e; color_calls := x; parsable := parsable e; faults := faults e |}.

Definition with_faults (e : env) (x : list bool) : env :=
  {| db := db e; pending := pending e; delivered := delivered e;
     orphanedTx := orphanedTx e; immediates := immediates e; locked := locked e;
     node := node e; color_calls := color_calls e; parsable := parsable e; faults := x |}.

Definition M (A : Type) : Type := env -> result A * env.

Definition ret {A : Type} (a : A) : M A := fun e => (Ok a, e).

Definition bind {A B : Type} (m : M A) (k : A -> M B) : M B :=
  fun e => match m e with
           | (Ok a, e') => k a e'
           | (Err msg, e') => (Err msg, e')
           end.

Definition throw {A : Type} (msg : string) : M A := fun e => (Err msg, e).

(** [try { m } catch (err) { handler }], and [promise.catch(handler)]. *)
Definition catch {A : Type} (m : M A) (handler : string -> M A) : M A :=
  fun e => match m e with
           | (Ok a, e') => (Ok a, e')
           | (Err msg, e') => handler msg e'
           end.

(** A change of the process state that cannot fail. *)
Definition modify (f : env -> env) : M unit := fun e => (Ok tt, f e).

Definition gets {A : Type} (f : env -> A) : M A := fun e => (Ok (f e), e).

Fixpoint forEach {A : Type} (f : A -> M unit) (l : list A) : M unit :=
  match l with
  | [] => ret tt
  | x :: rest => bind (f x) (fun _ => forEach f rest)
  end.

Fixpoint mapM {A B : Type} (f : A -> M B) (l : list A) : M (list B) :=
  match l with
  | [] => ret []
  | x :: rest => bind (f x) (fun y => bind (mapM f rest) (fun ys => ret (y :: ys)))
  end.

(** [rows[0]]: reading a field of it throws when there is no row. *)
Definition first_row {A : Type} (rows : list A) : M A :=
  match rows with
  | r :: _ => ret r
  | [] => throw "TypeError: Cannot read property of undefined"
  end.

(** [setImmediate(task)] *)
Definition setImmediate (t : task) : M unit :=
  modify (fun e => with_immediates e (immediates e ++ [t])).

(** A call whose promise the caller holds without awaiting it at once: the
    call runs, and what the caller has is the outcome of the promise,
    fulfilled or rejected.  Nothing is thrown at this point. *)
Definition started {A : Type} (m : M A) : M (result A) :=
  fun e => (Ok (fst (m e)), snd (m e)).

(** A call whose promise nobody awaits: a rejection is lost. *)
Definition unawaited {A : Type} (m : M A) : M unit :=
  fun e => (Ok tt, snd (m e)).

(** What [await*] sees of a promise. *)
Definition settled {A : Type} (p : result A) : result unit :=
  match p with
  | Ok _ => Ok tt
  | Err msg => Err msg
  end.

(** [await promise], for a promise that has been started. *)
Definition awaited {A : Type} (promise : result A) : M A :=
  match promise with
  | Ok a => ret a
  | Err msg => throw msg
  end.

(** [await* promises] over promises that have been started, listed in the
    order in which they were started: the first rejection is thrown. *)
Fixpoint await_all (promises : list (result unit)) : M unit :=
  match promises with
  | [] => ret tt
  | Ok _ :: rest => await_all rest
  | Err msg :: _ => throw msg
  end.

End Async.

Notation "x <- m ;; k" := (Async.bind m (fun x => k))
  (at level 100, m at next level, right associativity).
Notation "m ;; k" := (Async.bind m (fun _ => k))
  (at level 100, right associativity).

(** ** [Storage]: statements and transactions

    The storage wrapper is not part of the sources at hand.  Modelled from
    the spec: "execute_transaction(body) - body receives a transactional
    client; commits on success, rolls back on throw". *)
Module Storage.
Import Schema Async.

(** One statement sent to the store: it fails when the fault schedule says
    so or when the statement itself does. *)
Definition run_statement {A : Type} (stmt : SQL.statement A) : M A :=
  fun e =>
    match faults e with
    | true :: later => (Err "connection lost", with_faults e later)
    | _ =>
        let e1 := with_faults e (tail (faults e)) in
        match stmt (db e) with
        | Ok (a, d) => (Ok a, with_db e1 d)
        | Err msg => (Err msg, e1)
        end
    end.

(** [client.queryAsync(statement, params)] *)
Definition queryAsync {A : Type} (client : JS.jsval) (stmt : SQL.statement A) : M A :=
  run_statement stmt.

(** [storage.executeQuery(statement, params)] *)
Definition executeQuery {A : Type} (stmt : SQL.statement A) : M A :=
  run_statement stmt.

(** [storage.executeTransaction(body)]: on success the transaction commits
    and what was notified through its client is delivered; on a throw the
    tables are as before and those notifications are dropped. *)
Definition settle {A : Type} (e : env) (outcome : result A * env) : result A * env :=
  match outcome with
  | (Ok a, e') =>
      (Ok a, with_pending (with_delivered e' (delivered e' ++ pending e')) (pending e))
  | (Err msg, e') =>
      (Err msg, with_pending (with_db e' (db e)) (pending e))
  end.

Definition executeTransaction {A : Type} (body : JS.jsval -> M A) : M A :=
  fun e => settle e (body JS.JClient (with_pending e [])).

End Storage.

(** ** [Messages]

    The message bus is not part of the sources at hand.  Modelled from the
    spec: "notify(channel, payload, opts?) ... When opts.client is supplied,
    delivery must be deferred until the client's transaction commits."
    Without a client the notification is a statement of its own and is
    delivered at once. *)
Module Messages.
Import Async.

Definition NOTIFY : SQL.statement unit := SQL.reading (fun _ => tt).

Definition notify (channel : string) (payload opts : JS.jsval) : M unit :=
  let ev := {| channel := channel; payload := payload |} in
  if JS.has opts "client" then
    Storage.queryAsync (JS.get opts "client") NOTIFY ;;
    modify (fun e => with_pending e (pending e ++ [ev]))
  else
    Storage.executeQuery NOTIFY ;;
    modify (fun e => with_delivered e (delivered e ++ [ev])).

End Messages.

(** ** [Service] (service.js)

    Every method takes its arguments as JavaScript passes them: a caller
    that leaves an argument out passes [JUndefined] for it. *)
Module Service.
Import JS Async.

Definition sendTxResponse (id err opts : jsval) : M unit :=
  Messages.notify "sendtxresponse" (JObj [
    ("id", id);
    ("status", if is_null err then JStr "success" else JStr "fail");
    ("code", get err "code");
    ("message", escape (get err "message"))
  ]) opts.

Definition broadcastBlock (hash height opts : jsval) : M unit :=
  Messages.notify "broadcastblock" (JObj [
    ("hash", hash);
    ("height", height)
  ]) opts.

Definition broadcastTx (txId blockHash blockHeight opts : jsval) : M unit :=
  Messages.notify "broadcasttx" (JObj [
    ("txId", txId);
    ("blockHash", blockHash);
    ("blockHeight", blockHeight)
  ]) opts.

Definition broadcastAddress (address txId blockHash blockHeight opts : jsval) : M unit :=
  Messages.notify "broadcastaddress" (JObj [
    ("address", address);
    ("txId", txId);
    ("blockHash", blockHash);
    ("blockHeight", blockHeight)
  ]) opts.

Definition broadcastStatus (status opts : jsval) : M unit :=
  Messages.notify "broadcaststatus" status opts.

Definition addTx (txId isConfirmed opts : jsval) : M unit :=
  Messages.notify "addtx" (JObj [
    ("txId", txId);
    ("unconfirmed", not isConfirmed)
  ]) opts.

Definition removeTx (txId isConfirmed opts : jsval) : M unit :=
  Messages.notify "removetx" (JObj [
    ("txId", txId);
    ("unconfirmed", not isConfirmed)
  ]) opts.

Definition addBlock (hash opts : jsval) : M unit :=
  Messages.notify "addblock" (JObj [("hash", hash)]) opts.

Definition removeBlock (hash opts : jsval) : M unit :=
  Messages.notify "removeblock" (JObj [("hash", hash)]) opts.

End Service.

(** ** [Sync] of the scanner (sync.js)

    Logging, the stopwatch and the emitter's own ['tx'] and ['latest'] events
    change nothing that is kept in [env] and are left out. *)
Module ScannerSync.
Import JS Bitcore Schema Async.

Record Latest := { latest_hash : string; latest_height : Z }.

(** [util.SmartLock] is not part of the sources at hand.  Modelled from the
    spec: the body runs once the keys are free.  Nothing else runs in
    between here, so taking the lock only leaves a trace. *)
Definition withLock {A : Type} (keys : list string) (body : M A) : M A :=
  modify (fun e => with_locked e (locked e ++ [Keyed keys])) ;; body.

Definition reorgLock {A : Type} (body : M A) : M A :=
  modify (fun e => with_locked e (locked e ++ [Exclusive])) ;; body.

(** [{client: client}] *)
Definition client_opts (client : jsval) : jsval := JObj [("client", client)].

(** [network.getTx] and [network.getMempoolTxs]: the RPC client is not part
    of the sources at hand; asking for a transaction the node does not have
    is an error, and the request for the mempool is rejected when the node
    says so. *)
Definition getTx (txid : string) : M Transaction :=
  fun e => match List.find (fun t => String.eqb (id t) txid) (known (node e)) with
           | Some t => (Ok t, e)
           | None => (Err "No information available about transaction", e)
           end.

Definition getMempoolTxs : M (list string) :=
  fun e => match mempool_error (node e) with
           | Some msg => (Err msg, e)
           | None => (Ok (mempool (node e)), e)
           end.

(** An array with the index of each element, as [map((x, index) => ...)]
    hands them to its callback. *)
Definition indexed {A : Type} (l : list A) : list (A * Z) :=
  combine l (map Z.of_nat (seq 0 (length l))).

Definition _getLatest (opts : jsval) : M Latest :=
  let execute : (jsval -> M Latest) -> M Latest :=
    if has opts "client" then (fun fn => fn (get opts "client"))
    else Storage.executeTransaction in
  execute (fun client =>
    result <- Storage.queryAsync client SQL.select_blocks_latest ;;
    match result with
    | [] => ret {| latest_hash := ZERO_HASH; latest_height := -1 |}
    | row :: _ => ret {| latest_hash := b_hash row; latest_height := b_height row |}
    end).

Definition set_deps (txid : string) (value : option (list string)) (e : env) : env :=
  with_orphanedTx e {| deps := match value with
                               | Some v => <[txid := v]> (deps (orphanedTx e))
                               | None => delete txid (deps (orphanedTx e))
                               end;
                       orphans := orphans (orphanedTx e) |}.

Definition set_orphans (txid : string) (value : option (list string)) (e : env) : env :=
  with_orphanedTx e {| deps := deps (orphanedTx e);
                       orphans := match value with
                                  | Some v => <[txid := v]> (orphans (orphanedTx e))
                                  | None => delete txid (orphans (orphanedTx e))
                                  end |}.

Definition _importOrphaned (txid : string) : M unit :=
  (* are we have orphaned tx that depends from this txid? *)
  orphans_ <- gets (fun e => orphans (orphanedTx e) !! txid) ;;
  match orphans_ with
  | None => ret tt
  | Some orphans_ =>
      modify (set_orphans txid None) ;;
      (* check every orphaned tx *)
      forEach (fun orphaned =>
        (* all deps resolved? *)
        deps_ <- gets (fun e => without (deps (orphanedTx e) !! orphaned) txid) ;;
        if (0 <? length deps_)%nat then
          modify (set_deps orphaned (Some deps_))
        else
          (* run import if all resolved transactions *)
          modify (set_deps orphaned None) ;;
          setImmediate (RunTxImport orphaned)) orphans_
  end.

(** [_importUnconfirmedTx], lines 139-147: [// some input not exists yet,
    mark as orphaned and delay]. *)
Definition _importUnconfirmedTx_orphan (txid : string) (deps_ : list string) : M bool :=
  modify (set_deps txid (Some deps_)) ;;
  forEach (fun dep =>
    modify (fun e =>
      set_orphans dep (Some (union (orphans (orphanedTx e) !! dep) [txid])) e))
    deps_ ;;
  ret false.

(** [_importUnconfirmedTx], lines 169-184: the callback over the addresses
    of an output.  The insert and the broadcast are both started; the
    callback returns the two promises. *)
Definition _importUnconfirmedTx_output (txid : string) (client : jsval)
    (output : Output) (index : Z) (address : string) : M (list (result unit)) :=
  pImport <- started (Storage.queryAsync client
               (SQL.insert_history_unconfirmedOutput address (cook "\\x" +:+ txid)
                  index (satoshis output) (cook "\\x" +:+ script output))) ;;
  pBroadcast <- started (Service.broadcastAddress (JStr address) (JStr txid) JNull JNull
                           (client_opts client)) ;;
  ret [settled pImport; settled pBroadcast].

(** [_importUnconfirmedTx], lines 149-196.  Everything between
    [// import transaction] and the [await*] is started before any answer
    is awaited: a statement that fails keeps none of the others from being
    sent, and the [await*] throws the first failure.  The callback over an
    input goes on when its update has answered, which is after everything
    that is started here: it starts the broadcasts of the rows and returns
    their promises in an array, which nobody awaits. *)
Definition _importUnconfirmedTx_import (tx : Transaction) (client : jsval) : M bool :=
  let txid := id tx in
  (* import transaction *)
  pImportTx <- started (Storage.queryAsync client
                 (SQL.insert_transactions_unconfirmed (cook "\\x" +:+ txid)
                                                      (cook "\\x" +:+ raw tx))) ;;
  (* import intputs *)
  pImportInputs <- mapM (fun input =>
    started (Storage.queryAsync client
      (SQL.update_history_addUnconfirmedInput (cook "\\x" +:+ txid)
         (cook "\\x" +:+ prevTxId input) (outputIndex input)))) (inputs tx) ;;
  (* import outputs *)
  pImportOutputs <- mapM (fun '(output, index) =>
    mapM (_importUnconfirmedTx_output txid client output index) (addresses output))
    (indexed (outputs tx)) ;;
  pBroadcastTx <- started (Service.broadcastTx (JStr txid) JNull JNull
                             (client_opts client)) ;;
  pAddTx <- started (Service.addTx (JStr txid) (client_opts client) JUndefined) ;;
  forEach (fun pImportInput =>
    match pImportInput with
    | Ok rows =>
        forEach (fun address =>
          unawaited (Service.broadcastAddress (JStr address) (JStr txid) JNull JNull
                                              (client_opts client))) rows
    | Err _ => ret tt
    end) pImportInputs ;;
  (* wait all imports and broadcasts *)
  await_all (settled pImportTx :: map settled pImportInputs
             ++ concat (concat pImportOutputs)
             ++ [settled pBroadcastTx; settled pAddTx]) ;;
  ret true.

Definition _importUnconfirmedTx (tx : Transaction) : M bool :=
  let txid := id tx in
  let prevTxIds := uniq (map prevTxId (inputs tx)) in
  withLock (prevTxIds ++ [txid]) (
    catch (Storage.executeTransaction (fun client =>
      (* transaction already in database? *)
      count <- Storage.queryAsync client
                 (SQL.select_transactions_exists (cook "\\x" +:+ txid)) ;;
      if negb (count =? 0)%nat then ret true else
      (* all inputs exists? *)
      rows <- Storage.queryAsync client
                (SQL.select_transactions_existsMany
                   (map (fun i => cook "\\x" +:+ i) prevTxIds)) ;;
      let deps_ := difference prevTxIds rows in
      if (0 <? length deps_)%nat then _importUnconfirmedTx_orphan txid deps_
      else _importUnconfirmedTx_import tx client))
    (fun err => ret false)).

Definition _runTxImport (txid : string) : M unit :=
  catch (
    (* get tx from bitcoind *)
    tx <- getTx txid ;;
    (* ... and run import *)
    imported <- _importUnconfirmedTx tx ;;
    if imported then setImmediate (ImportOrphaned txid) else ret tt)
  (fun err => ret tt).

(** The test of [// skip coinbase] in [_importBlock]. *)
Definition is_coinbase (input : Input) (index : Z) : bool :=
  (index =? 0)%Z && (outputIndex input =? 4294967295 (* 0xFFFFFFFF *))%Z
  && String.eqb (prevTxId input) ZERO_HASH.

(** [_importBlock] maps three callbacks over the block; they are named
    here.  The first part of the one over [block.transactions] asks whether
    the transaction is stored.  All these questions are sent before any of
    the answers comes back, so [existingTx] is decided for every
    transaction before anything is written.

    Every statement of [_importBlock] goes to the one client, which
    executes what it is sent in order.  The callbacks await answers in the
    middle of their work, so the order in which their statements reach the
    client depends on when the answers come in; here the callbacks run one
    after the other, each to its end, which is the order of the statements
    that write.  Where in that order the notifications of one callback
    come among the statements of another is not modelled, and the import
    stops at the first statement that fails: the store refuses what the
    client sends after it, and the transaction of the caller is rolled
    back. *)
Definition _importBlock_exists (client : jsval) (tx : Transaction) : M nat :=
  (* tx already in storage ? *)
  Storage.queryAsync client (SQL.select_transactions_exists (cook "\\x" +:+ id tx)).

(** The rest of the callback over [block.transactions].  For a stored
    transaction the broadcasts of its rows are started when the two updates
    have answered, and returned in an array: nobody awaits them. *)
Definition _importBlock_tx (block : Block) (height : Z) (client : jsval)
    (existingTx : list string) (tx : Transaction) : M unit :=
  let txid := id tx in
  if mem txid existingTx then
    (* if already exist, mark output as confirmed and broadcast addresses *)
    Storage.queryAsync client
      (SQL.update_transactions_makeConfirmed height (cook "\\x" +:+ txid)) ;;
    rows <- Storage.queryAsync client
              (SQL.update_history_makeOutputConfirmed height (cook "\\x" +:+ txid)) ;;
    Service.broadcastTx (JStr txid) (JStr (hash block)) (JNum height)
                        (client_opts client) ;;
    Service.addTx (JStr txid) (client_opts client) JUndefined ;;
    forEach (fun address =>
      unawaited (Service.broadcastAddress (JStr address) (JStr txid) (JStr (hash block))
                                          (JNum height) (client_opts client))) rows
  else
    (* import transaction *)
    Storage.queryAsync client
      (SQL.insert_transactions_confirmed (cook "\\x" +:+ txid) height
                                         (cook "\\x" +:+ raw tx)) ;;
    (* import outputs only if transaction not imported yet *)
    forEach (fun '(output, index) =>
      forEach (fun address =>
        (* wait output import, it's important! *)
        Storage.queryAsync client
          (SQL.insert_history_confirmedOutput address (cook "\\x" +:+ txid)
             index (satoshis output) (cook "\\x" +:+ script output) height) ;;
        Service.broadcastAddress (JStr address) (JStr txid) (JStr (hash block))
                                 (JNum height) (client_opts client))
        (addresses output)) (indexed (outputs tx)) ;;
    Service.broadcastTx (JStr txid) (JStr (hash block)) (JNum height)
                        (client_opts client) ;;
    Service.addTx (JStr txid) (client_opts client) JUndefined.

(** The callback over the inputs of a transaction. *)
Definition _importBlock_input (block : Block) (height : Z) (client : jsval)
    (existingTx : list string) (txid : string) (input : Input) (index : Z) : M unit :=
  (* skip coinbase *)
  if is_coinbase input index then ret tt else
  result <- (if mem txid existingTx then
               Storage.queryAsync client
                 (SQL.update_history_makeInputConfirmed height
                    (cook "\\x" +:+ prevTxId input) (outputIndex input))
             else
               Storage.queryAsync client
                 (SQL.update_history_addConfirmedInput (cook "\\x" +:+ txid) height
                    (cook "\\x" +:+ prevTxId input) (outputIndex input))) ;;
  forEach (fun address =>
    Service.broadcastAddress (JStr address) (JStr txid) (JStr (hash block))
                             (JNum height) (client_opts client)) result.

(** [existingTx], as the txids whose entry is [true]. *)
Definition existing (txs : list Transaction) (counts : list nat) : list string :=
  map (fun '(tx, _) => id tx)
      (List.filter (fun '(_, count) => negb (count =? 0)%nat) (combine txs counts)).

(** The keys [_importBlock] locks. *)
Definition allTxIds (block : Block) : list string :=
  uniq (concat (map (fun tx => map prevTxId (inputs tx)) (Bitcore.transactions block))
        ++ map id (Bitcore.transactions block)).

Definition _importBlock (block : Block) (height : Z) (client : jsval) : M unit :=
  let txids := map id (Bitcore.transactions block) in
  withLock (allTxIds block) (
    (* import header *)
    Storage.queryAsync client
      (SQL.insert_blocks_row height (cook "\\x" +:+ hash block) (header block)
                             (cook "\\x" +:+ String.concat EmptyString txids)) ;;
    (* import transactions & outputs *)
    counts <- mapM (_importBlock_exists client) (Bitcore.transactions block) ;;
    let existingTx := existing (Bitcore.transactions block) counts in
    forEach (_importBlock_tx block height client existingTx)
            (Bitcore.transactions block) ;;
    (* import inputs *)
    forEach (fun tx =>
      forEach (fun '(input, index) =>
        _importBlock_input block height client existingTx (id tx) input index)
        (indexed (inputs tx)))
      (Bitcore.transactions block) ;;
    Service.broadcastBlock (JStr (hash block)) (JNum height) (client_opts client) ;;
    Service.addBlock (JStr (hash block)) (client_opts client)).

(** [_runBlockImport], lines 392-416: [// was reorg found?].  [this_latest]
    is [this._latest] and [latest] the block the walk back stopped at; the
    result is the new [this._latest].  The notifications are sent when
    [makeOutputsUnconfirmed] is under way and before [makeInputsUnconfirmed]
    starts. *)
Definition _runBlockImport_reorg (this_latest latest : Latest) : M Latest :=
  if negb (String.eqb (latest_hash latest) (latest_hash this_latest)) then
    reorgLock (
      Storage.executeTransaction (fun client =>
        let args := latest_height latest - 1 in
        rows <- Storage.queryAsync client (SQL.select_fromHeight args) ;;
        Storage.queryAsync client (SQL.delete_blocks_fromHeight args) ;;
        Storage.queryAsync client (SQL.update_transactions_makeUnconfirmed args) ;;
        Storage.queryAsync client (SQL.update_history_makeOutputsUnconfirmed args) ;;
        forEach (fun row =>
          Service.removeBlock (JStr (b_hash row)) (client_opts client)) rows ;;
        Storage.queryAsync client (SQL.update_history_makeInputsUnconfirmed args) ;;
        _getLatest (client_opts client)))
  else ret this_latest.

(** [_runBlockImport], lines 418-423: [// import block]. *)
Definition _runBlockImport_import (block : Block) (latest : Latest) : M Latest :=
  Storage.executeTransaction (fun client =>
    _importBlock block (latest_height latest + 1) client ;;
    _getLatest (client_opts client)).

(** [_runBlockImport], lines 468-477: the transaction that removes the
    transactions [rTxIds].  Each [await*] is over calls that have all been
    started. *)
Definition _runBlockImport_remove (rTxIds : list string) (client : jsval) : M unit :=
  pTransactions <- started (Storage.queryAsync client
                     (SQL.delete_transactions_unconfirmedByTxIds rTxIds)) ;;
  pHistory <- started (Storage.queryAsync client
                (SQL.delete_history_unconfirmedByTxIds rTxIds)) ;;
  await_all [settled pTransactions; settled pHistory] ;;
  pInputs <- started (Storage.queryAsync client
               (SQL.update_history_deleteUnconfirmedInputsByTxIds rTxIds)) ;;
  pRemoved <- mapM (fun txid =>
    started (Service.removeTx (JStr txid) (client_opts client) JUndefined)) rTxIds ;;
  await_all (settled pInputs :: map settled pRemoved).

(** [_runBlockImport], lines 453-487: one pass of [// sync with bitcoind
    mempool]. *)
Definition _runBlockImport_mempool : M unit :=
  pNode <- started getMempoolTxs ;;
  pStore <- started (Storage.executeQuery SQL.select_transactions_unconfirmed) ;;
  nTxIds <- awaited pNode ;;
  sTxIds <- awaited pStore ;;
  (* remove tx that not in mempool but in our storage *)
  let rTxIds := difference sTxIds nTxIds in
  (if (0 <? length rTxIds)%nat then
     let rTxIds := map (fun txid => cook "\\x" +:+ txid) rTxIds in
     Storage.executeTransaction (_runBlockImport_remove rTxIds)
   else ret tt) ;;
  (* add skipped tx in our storage *)
  forEach (fun txid => setImmediate (RunTxImport txid)) (difference nTxIds sTxIds).

End ScannerSync.

(** ** [Sync] of the colored-coin rescanner

    [withLock] serialises [addTxs], [removeTxs] and [updateBlocks]; one call
    at a time runs here anyway.  The classes that
    [cclib.definitions.Manager.getColorDefinitionClasses()] returns are a
    parameter, each class given by its color code. *)
Module ColorSync.
Import JS Schema Async.

Section WithClasses.

Variable cdefClss : list string.

(** The transaction comes back as [bitcore.Transaction] parses the stored
    bytes, which throws when they do not parse; bitcore is not part of the
    sources at hand, and which texts it accepts is given with the process.
    Of the transaction only its raw form is kept here. *)
Definition getTx (txId : string) : M string :=
  rows <- Storage.executeQuery (SQL.select_transactions_byTxId (cook "\\x" +:+ txId)) ;;
  match rows with
  | [] => throw ("Tx " +:+ txId +:+ " not found!")
  | row :: _ =>
      accepted <- gets (fun e => parsable e (t_tx row)) ;;
      if accepted then ret (t_tx row)
      else throw "bitcore.Transaction: the bytes do not parse"
  end.

(** [this._cdata.fullScanTx], [this._cdefManager.remove] and
    [this._cdata.removeColorValues] belong to the colored-coin library.
    Modelled from the spec: "drop the definition by id", "remove
    color-values associated with (txid, cdef_class)"; each call is recorded,
    and dropping a definition takes its row away.  That the library rejects
    a call is not modelled. *)
Definition fullScanTx (txId cdefCls : string) : M unit :=
  modify (fun e => with_color_calls e (color_calls e ++ [FullScanTx txId cdefCls])).

Definition cdefManager_remove (id : Z) : M unit :=
  modify (fun e =>
    with_color_calls
      (with_db e (with_cc_definitions (db e)
         (List.filter (fun d => negb (d_id d =? id)%Z) (cc_definitions (db e)))))
      (color_calls e ++ [RemoveDefinition id])).

Definition removeColorValues (txId cdefCls : string) : M unit :=
  modify (fun e => with_color_calls e (color_calls e ++ [RemoveColorValues txId cdefCls])).

(** [block] is [Some (blockhash, height)] when the caller passes both. *)
Definition _addTx (client : jsval) (txId : string) (block : option (string * Z)) : M bool :=
  scanned <- Storage.queryAsync client
               (SQL.select_ccScannedTxIds_isTxScanned (cook "\\x" +:+ txId)) ;;
  if scanned then ret false else
  tx <- getTx txId ;;
  forEach (fun cdefCls => fullScanTx txId cdefCls) cdefClss ;;
  Storage.queryAsync client
    (match block with
     | Some (blockhash, height) =>
         SQL.insert_ccScannedTxIds_confirmed (cook "\\x" +:+ txId)
                                             (cook "\\x" +:+ blockhash) height
     | None => SQL.insert_ccScannedTxIds_unconfirmed (cook "\\x" +:+ txId)
     end) ;;
  ret true.

Definition addTxs (txIds : list string) : M unit :=
  forEach (fun txId =>
    catch (
      added <- Storage.executeTransaction (fun client => _addTx client txId None) ;;
      ret tt)
    (fun err => ret tt)) txIds.

(** The body of the transaction in [removeTxs].  The callbacks over the
    classes are taken one after the other here, each to its end, and the
    body stops at the first that throws.  In the sources they are all
    started before any is awaited; with [epobc] as the only class this is
    the same.  With another class among them the body is rejected at once
    and rolled back while the callbacks of the [epobc] classes are still
    waiting for their answer: what they then ask of the library comes after
    the rollback, which is not modelled. *)
Definition removeTx (txId : string) (client : jsval) : M bool :=
  scanned <- Storage.queryAsync client
               (SQL.select_ccScannedTxIds_isTxScanned (cook "\\x" +:+ txId)) ;;
  if negb scanned then ret false else
  forEach (fun cdefCls =>
    params <- (if String.eqb cdefCls "epobc"
               then ret (cook "epobc:" +:+ txId +:+ cook ":\d+:0")
               else throw ("Unknow cdefCls: " +:+ cdefCls)) ;;
    rows <- Storage.queryAsync client (SQL.select_ccDefinitions_colorId params) ;;
    match rows with
    | id :: _ => cdefManager_remove id
    | [] => removeColorValues txId cdefCls
    end) cdefClss ;;
  Storage.queryAsync client (SQL.delete_ccScannedTxIds_byTxId (cook "\\x" +:+ txId)) ;;
  ret true.

Definition removeTxs (txIds : list string) : M unit :=
  forEach (fun txId =>
    catch (
      removed <- Storage.executeTransaction (removeTx txId) ;;
      ret tt)
    (fun err => ret tt)) txIds.

(** [txIds.slice(i * 64, (i + 1) * 64)] for [i] in [_.range(txIds.length / 64)] *)
Definition slices (txIds : string) : list string :=
  map (fun i => String.substring (i * 64) 64 txIds)
      (seq 0 ((String.length txIds + 63) / 64)%nat).

(** The inner [while (true)] of [updateBlocks]: walk back until the
    recorded hash is the parent of the core block one above.  Every turn
    that goes on has read a block row of a height not seen before, so
    [fuel] greater than the number of block rows is never used up. *)
Fixpoint walkBack (fuel : nat) (client : jsval) (hash : string) (height : Z)
  : M (option (string * Z * block_row)) :=
  match fuel with
  | O => ret None
  | S fuel' =>
      result <- Storage.queryAsync client (SQL.select_blocks_txIdsByHeight (height + 1)) ;;
      row <- first_row result ;;
      if String.eqb hash (Bitcore.prevHash (b_header row)) then
        ret (Some (hash, height, row))
      else
        let height := height - 1 in
        rows <- Storage.queryAsync client (SQL.select_ccScannedTxIds_blockHash height) ;;
        hash <- first_row rows ;;
        walkBack fuel' client hash height
  end.

(** The end of the transaction in [updateBlocks]: scan the block of [row]. *)
Definition scanBlock (client : jsval) (row : block_row) : M unit :=
  let hash := b_hash row in
  let height := b_height row in
  let txIds := b_txids row in
  toUpdate <- mapM (fun txId =>
    added <- _addTx client txId (Some (hash, height)) ;;
    if negb added then ret (Some txId) else ret None) (slices txIds) ;;
  Storage.queryAsync client
    (SQL.update_ccScannedTxIds_makeConfirmed
       (map (fun txId => cook "\\x" +:+ txId) (omap (fun x => x) toUpdate))
       (cook "\\x" +:+ hash) height).

(** [updateBlocks], from [let hash = latest.hash] to the end of the inner
    loop: the point to which the scan is rolled back, and the row of the
    core block above it that the last turn of the loop has read. *)
Definition rollbackPoint (client : jsval) (latest_hash : string) (latest_height : Z)
    (core : block_row) : M (string * Z * block_row) :=
  start <- (if (b_height core <=? latest_height)%Z then
              let height := b_height core - 1 in
              rows <- Storage.queryAsync client
                        (SQL.select_ccScannedTxIds_blockHash height) ;;
              hash <- first_row rows ;;
              ret (hash, height)
            else ret (latest_hash, latest_height)) ;;
  fuel <- gets (fun e => S (length (blocks (db e)))) ;;
  found <- walkBack fuel client (fst start) (snd start) ;;
  match found with
  | None => throw "walk back: out of fuel"
  | Some point => ret point
  end.

(** One turn of [while (running)] in [updateBlocks]; the result is
    [running] after it.  A throw is caught and logged by the caller, which
    then goes round again. *)
Definition updateBlocks_turn : M bool :=
  Storage.executeTransaction (fun client =>
    result <- Storage.queryAsync client SQL.select_ccScannedTxIds_latestBlock ;;
    match result with
    | (latest_hash, latest_height) :: _ =>
        result <- Storage.queryAsync client SQL.select_blocks_latest ;;
        core <- first_row result ;;
        if String.eqb latest_hash (b_hash core) then ret false else
        point <- rollbackPoint client latest_hash latest_height core ;;
        let '(hash, height, row) := point in
        (if negb (String.eqb hash latest_hash) then
           Storage.queryAsync client (SQL.update_ccScannedTxIds_makeUnconfirmed height)
         else ret tt) ;;
        scanBlock client row ;;
        ret true
    | [] =>
        result <- Storage.queryAsync client (SQL.select_blocks_txIdsByHeight 0) ;;
        row <- first_row result ;;
        scanBlock client row ;;
        ret true
    end).

End WithClasses.

End ColorSync.

(** ** Small worlds to run the code in *)
Module Examples.
Import JS Bitcore Schema Async.

Definition empty_db (c : conflict) : database :=
  {| blocks := []; transactions := []; history := []; cc_scanned := [];
     cc_definitions := []; on_conflict := c |}.

Definition fresh (d : database) : env :=
  {| db := d; pending := []; delivered := [];
     orphanedTx := {| deps := ∅; orphans := ∅ |};
     immediates := []; locked := [];
     node := {| mempool := []; mempool_error := None; known := [] |};
     color_calls := []; parsable := fun _ => true; faults := [] |}.

Definition with_node (e : env) (n : Node) : env :=
  {| db := db e; pending := pending e; delivered := delivered e;
     orphanedTx := orphanedTx e; immediates := immediates e; locked := locked e;
     node := n; color_calls := color_calls e; parsable := parsable e; faults := faults e |}.

(** A stored, confirmed transaction [a0] with one output to [addr1]. *)
Definition row_a0 : tx_row := {| t_txid := "a0"; t_height := Some 7; t_tx := "0100" |}.

Definition out_a0 : history_row :=
  {| h_address := "addr1"; h_txid := "a0"; h_index := 0; h_value := 5000;
     h_script := "76a9"; h_height := Some 7; h_input_txid := None;
     h_input_height := None |}.

Definition db_a0 : database :=
  with_history (with_transactions (empty_db Reject) [row_a0]) [out_a0].

(** [b1] spends [a0:0] and pays [addr2]. *)
Definition tx_b1 : Transaction :=
  {| id := "b1"; raw := "0200";
     inputs := [{| prevTxId := "a0"; outputIndex := 0 |}];
     outputs := [{| satoshis := 4000; script := "76a8"; addresses := ["addr2"] |}] |}.

(** [c2] spends [b1:0] and an output of [d3], which nobody has seen. *)
Definition tx_c2 : Transaction :=
  {| id := "c2"; raw := "0300";
     inputs := [{| prevTxId := "b1"; outputIndex := 0 |};
                {| prevTxId := "d3"; outputIndex := 1 |}];
     outputs := [] |}.

(** A coinbase transaction. *)
Definition tx_cb : Transaction :=
  {| id := "cb"; raw := "0400";
     inputs := [{| prevTxId := ZERO_HASH; outputIndex := 4294967295 |}];
     outputs := [{| satoshis := 50; script := "76a7"; addresses := ["miner"] |}] |}.

Definition unconfirmed_row (txid : string) : tx_row :=
  {| t_txid := txid; t_height := None; t_tx := "00" |}.

(** The store of scenario S4: unconfirmed [A], [B], [C]; the node's mempool
    has [B], [C], [D]. *)
Definition s4 : env :=
  with_node
    (fresh (with_transactions (empty_db Reject)
              [unconfirmed_row "A"; unconfirmed_row "B"; unconfirmed_row "C"]))
    {| mempool := ["B"; "C"; "D"]; mempool_error := None; known := [] |}.

End Examples.

(** ** Vocabulary of the statements below *)
Module Observe.
Import JS Schema Async.

(** The notifications on one channel. *)
Definition on_channel (c : string) (l : list event) : list event :=
  List.filter (fun ev => String.eqb (channel ev) c) l.

Definition stored (txid : string) (e : env) : bool := SQL.tx_exists txid (db e).

(** A computation leaves an observation of the process as it was, however
    it ends. *)
Definition keeps {A X : Type} (f : env -> X) (m : M A) : Prop :=
  forall e, f (snd (m e)) = f e.

(** When a computation started under [P] returns, [Q] holds of what it
    returns. *)
Definition ensures {A : Type} (P : env -> Prop) (m : M A) (Q : A -> env -> Prop) : Prop :=
  forall e a e', P e -> m e = (Ok a, e') -> Q a e'.

(** The orphan registry read as a relation, from either side. *)
Definition children (o : OrphanedTx) (p : string) : list string :=
  default [] (orphans o !! p).

Definition parents (o : OrphanedTx) (c : string) : list string :=
  default [] (deps o !! c).

Definition symmetric (o : OrphanedTx) : Prop :=
  forall c p, In c (children o p) <-> In p (parents o c).

(** The parents of a transaction that have no transaction row. *)
Definition missing (tx : Bitcore.Transaction) (e : env) : list string :=
  List.filter (fun p => negb (stored p e))
              (JS.uniq (map Bitcore.prevTxId (Bitcore.inputs tx))).

End Observe.

(** ** More vocabulary *)
Module Registry.
Import JS Schema Async Observe.

(** [symmetric], checked over the entries of the two maps. *)
Definition symmetricb (o : OrphanedTx) : bool :=
  forallb (fun '(p, cs) => forallb (fun c => mem p (parents o c)) cs)
          (map_to_list (orphans o))
  && forallb (fun '(c, ps) => forallb (fun p => mem c (children o p)) ps)
             (map_to_list (deps o)).

End Registry.

Module Worlds.
Import JS Bitcore Schema Async Examples.

(** The store holds [a0]; the node also knows [b1] and [c2]. *)
Definition world : env :=
  with_node (fresh db_a0)
    {| mempool := []; mempool_error := None; known := [tx_b1; tx_c2] |}.

(** [c2] has been announced and deferred: both its parents are missing. *)
Definition world_c2 : env := snd (ScannerSync._runTxImport "c2" world).

(** Then [b1] has been imported; [_importOrphaned("b1")] is queued. *)
Definition world_c2_b1 : env := snd (ScannerSync._runTxImport "b1" world_c2).

(** Then [c2] is announced again before the queued task has run. *)
Definition world_c2_b1_c2 : env := snd (ScannerSync._runTxImport "c2" world_c2_b1).

End Worlds.

Module Outcomes.
Import JS Bitcore Schema Async Examples.

(** The store after [b1] has been imported into [db_a0]. *)
Definition db_a0_b1 : database :=
  db (snd (ScannerSync._importUnconfirmedTx tx_b1 (fresh db_a0))).

End Outcomes.

Module Rollback.
Import JS Schema Async.

(** Without faults a computation goes through. *)
Definition flawless {A : Type} (m : M A) : Prop :=
  forall e, faults e = [] -> exists a e', m e = (Ok a, e') /\ faults e' = [].

(** What the claim says of one row after a rollback to height [f]. *)
Definition rolled_back_tx (f : Z) (t : tx_row) : tx_row :=
  {| t_txid := t_txid t;
     t_height := if SQL.above f (t_height t) then None else t_height t;
     t_tx := t_tx t |}.

Definition rolled_back_history (f : Z) (r : history_row) : history_row :=
  {| h_address := h_address r; h_txid := h_txid r; h_index := h_index r;
     h_value := h_value r; h_script := h_script r;
     h_height := if SQL.above f (h_height r) then None else h_height r;
     h_input_txid := h_input_txid r;
     h_input_height := if SQL.above f (h_input_height r) then None
                       else h_input_height r |}.

Definition removeblock (b : block_row) : event :=
  {| channel := "removeblock"; payload := JObj [("hash", JStr (b_hash b))] |}.

End Rollback.

Module Chain.
Import JS Bitcore Schema Async Examples.

Definition header_on (prev : string) : BlockHeader :=
  {| header_raw := "00"; prevHash := prev |}.

(** Three stored blocks with one transaction each: [t1] spends the output of
    [t0], [t2] that of [t1]; [tu] is unconfirmed. *)
Definition chain_db : database :=
  {| blocks :=
       [{| b_height := 0; b_hash := "h0"; b_header := header_on ZERO_HASH; b_txids := "t0" |};
        {| b_height := 1; b_hash := "h1"; b_header := header_on "h0"; b_txids := "t1" |};
        {| b_height := 2; b_hash := "h2"; b_header := header_on "h1"; b_txids := "t2" |}];
     transactions :=
       [{| t_txid := "t0"; t_height := Some 0; t_tx := "00" |};
        {| t_txid := "t1"; t_height := Some 1; t_tx := "01" |};
        {| t_txid := "t2"; t_height := Some 2; t_tx := "02" |};
        {| t_txid := "tu"; t_height := None; t_tx := "03" |}];
     history :=
       [{| h_address := "addr0"; h_txid := "t0"; h_index := 0; h_value := 50;
           h_script := "76"; h_height := Some 0;
           h_input_txid := Some "t1"; h_input_height := Some 1 |};
        {| h_address := "addr1"; h_txid := "t1"; h_index := 0; h_value := 40;
           h_script := "76"; h_height := Some 1;
           h_input_txid := Some "t2"; h_input_height := Some 2 |};
        {| h_address := "addr2"; h_txid := "t2"; h_index := 0; h_value := 30;
           h_script := "76"; h_height := Some 2;
           h_input_txid := None; h_input_height := None |}];
     cc_scanned := []; cc_definitions := []; on_conflict := Reject |}.

(** [this._latest] over this store. *)
Definition tip : ScannerSync.Latest :=
  {| ScannerSync.latest_hash := "h2"; ScannerSync.latest_height := 2 |}.

End Chain.

Module Colors.
Import JS Bitcore Schema Async Examples.

Definition genesis_txid : string :=
  "3f1c0e5a9b7d2e4f6a8c0b1d3e5f7a9c1b3d5f7e9a0c2e4f6b8d0a1c3e5f7b9d".

(** The transaction has been scanned, and it is the genesis of the color
    definition 1, [epobc:<txid>:0:0]. *)
Definition colored_db : database :=
  {| blocks := []; transactions := []; history := [];
     cc_scanned := [{| c_txid := genesis_txid; c_blockhash := None; c_height := None |}];
     cc_definitions := [{| d_id := 1; d_desc := "epobc:" +:+ genesis_txid +:+ ":0:0" |}];
     on_conflict := Reject |}.

End Colors.

Module Rescan.
Import JS Bitcore Schema Async Examples.

Definition new_txid : string :=
  "7b9d3f1c0e5a9b7d2e4f6a8c0b1d3e5f7a9c1b3d5f7e9a0c2e4f6b8d0a1c3e5f".

Definition core_block (height : Z) (hash prev txids : string) : block_row :=
  {| b_height := height; b_hash := hash;
     b_header := {| header_raw := "00"; prevHash := prev |}; b_txids := txids |}.

Definition scanned (txid hash : string) (height : Z) : cc_row :=
  {| c_txid := txid; c_blockhash := Some hash; c_height := Some height |}.

(** Scenario S6: the rescanner is caught up to [(k5, 5)]; the core store has
    been rolled back to height 3 and has the new block [k4b] at height 4. *)
Definition s6_db : database :=
  {| blocks := [core_block 0 "k0" ZERO_HASH "x0"; core_block 1 "k1" "k0" "x1";
                core_block 2 "k2" "k1" "x2"; core_block 3 "k3" "k2" "x3";
                core_block 4 "k4b" "k3" new_txid];
     transactions := [{| t_txid := new_txid; t_height := Some 4; t_tx := "0500" |}];
     history := [];
     cc_scanned := [scanned "x0" "k0" 0; scanned "x1" "k1" 1; scanned "x2" "k2" 2;
                    scanned "x3" "k3" 3; scanned "x4" "k4" 4; scanned "x5" "k5" 5];
     cc_definitions := [];
     on_conflict := Reject |}.

End Rescan.

Module Marking.
Import JS Schema Async.

(** What the claim says of one color-scanned row when the scan is rolled
    back to [height]. *)
Definition unconfirmed_above (height : Z) (c : cc_row) : cc_row :=
  if SQL.above height (c_height c)
  then {| c_txid := c_txid c; c_blockhash := None; c_height := None |}
  else c.

End Marking.

(** ** Vocabulary for the import of a block *)
Module Confirming.
Import JS Bitcore Schema Async.

Definition confirmed_row (h : Z) (t : tx_row) : tx_row :=
  {| t_txid := t_txid t; t_height := Some h; t_tx := t_tx t |}.

(** What the statements of [_importBlock] at height [h] can do to the
    tables once the header is in: set the height of transaction rows and of
    history rows to [h], add rows of height [h], and set the input height of
    history rows to [h]. *)
Inductive confirming (h : Z) : database -> database -> Prop :=
| confirming_refl (d : database) : confirming h d d
| confirming_trans (d1 d2 d3 : database) :
    confirming h d1 d2 -> confirming h d2 d3 -> confirming h d1 d3
| confirming_tx_update (d : database) (sel : tx_row -> bool) :
    confirming h d
      (with_transactions d
         (map (fun t => if sel t then confirmed_row h t else t) (transactions d)))
| confirming_tx_insert (d : database) (row : tx_row) :
    t_height row = Some h ->
    confirming h d (with_transactions d (transactions d ++ [row]))
| confirming_output_update (d : database) (sel : history_row -> bool) :
    confirming h d
      (with_history d
         (map (fun r => if sel r then SQL.set_height (Some h) r else r) (history d)))
| confirming_output_insert (d : database) (row : history_row) :
    h_height row = Some h ->
    confirming h d (with_history d (history d ++ [row]))
| confirming_input_update (d : database) (sel : history_row -> bool)
    (by_ : history_row -> option string) :
    confirming h d
      (with_history d
         (map (fun r => if sel r then SQL.set_input (by_ r) (Some h) r else r)
              (history d))).

(** The statements of the part of [_importBlock] that imports the inputs. *)
Inductive spending (h : Z) : database -> database -> Prop :=
| spending_refl (d : database) : spending h d d
| spending_trans (d1 d2 d3 : database) :
    spending h d1 d2 -> spending h d2 d3 -> spending h d1 d3
| spending_input_update (d : database) (sel : history_row -> bool)
    (by_ : history_row -> option string) :
    spending h d
      (with_history d
         (map (fun r => if sel r then SQL.set_input (by_ r) (Some h) r else r)
              (history d))).

(** A computation that returns has moved the tables along a relation. *)
Definition moves {A : Type} (R : database -> database -> Prop) (m : M A) : Prop :=
  forall e a e', m e = (Ok a, e') -> R (db e) (db e').

(** Every row of a transaction is confirmed at [h]. *)
Definition confirmed_tx (h : Z) (txid : string) (d : database) : Prop :=
  Forall (fun t => t_txid t = txid -> t_height t = Some h) (transactions d).

Definition confirmed_outputs (h : Z) (txid : string) (d : database) : Prop :=
  Forall (fun r => h_txid r = txid -> h_height r = Some h) (history d).

Definition confirmed_input (h : Z) (input : Input) (d : database) : Prop :=
  Forall (fun r => SQL.spends (prevTxId input) (outputIndex input) r = true ->
                   h_input_height r = Some h) (history d).

(** Every history row has the row of the transaction that made the output. *)
Definition produced (d : database) : Prop :=
  Forall (fun r => SQL.tx_exists (h_txid r) d = true) (history d).

(** The tables hold the block at height [h] with its transactions. *)
Definition imported (block : Block) (h : Z) (d : database) : Prop :=
  existsb (fun b => b_height b =? h) (blocks d) = true
  /\ forall tx, In tx (Bitcore.transactions block) ->
       SQL.tx_exists (id tx) d = true
       /\ confirmed_tx h (id tx) d
       /\ confirmed_outputs h (id tx) d
       /\ forall input index, In (input, index) (ScannerSync.indexed (inputs tx)) ->
            ScannerSync.is_coinbase input index = false ->
            confirmed_input h input d.

End Confirming.

Module Twice.
Import JS Bitcore Schema Async Examples.

(** A computation that leaves the tables [d] as they are, however it ends. *)
Definition fixes {A : Type} (d : database) (m : M A) : Prop :=
  forall e, db e = d -> db (snd (m e)) = d.

(** The store of [db_a0] under a schema whose inserts keep the row that is
    there. *)
Definition db_a0_keep : database :=
  {| blocks := []; transactions := [row_a0]; history := [out_a0];
     cc_scanned := []; cc_definitions := []; on_conflict := Keep |}.

(** Block 8: the coinbase transaction [cb] and [b1], which spends [a0:0]. *)
Definition block8 : Block :=
  {| hash := "h8";
     header := {| header_raw := "08"; prevHash := "h7" |};
     Bitcore.transactions := [tx_cb; tx_b1] |}.

End Twice.

(** ** [_runBlockImport] of the scanner: one round of the block loop

    [network.getBlock] belongs to the RPC client, which is not part of the
    sources at hand: the node's chain is a parameter, and asking for a
    height the node does not have is an error. *)
Module BlockLoop.
Import JS Bitcore Schema Async.

Section WithNode.

Variable chain : Z -> option Block.

Definition getBlock (height : Z) : M Block :=
  match chain height with
  | Some block => ret block
  | None => throw "Block height out of range"
  end.

(** Lines 374-390: [// find latest block in storage that located in
    blockchain].  Every turn that goes on has read the block row one below,
    so [fuel] greater than the number of block rows is never used up. *)
Fixpoint findLatest (fuel : nat) (latest : ScannerSync.Latest)
  : M (option (Block * ScannerSync.Latest)) :=
  match fuel with
  | O => ret None
  | S fuel' =>
      block <- getBlock (ScannerSync.latest_height latest + 1) ;;
      (* found latest that we need *)
      if String.eqb (ScannerSync.latest_hash latest) (prevHash (header block)) then
        ret (Some (block, latest))
      else
        (* update latest *)
        rows <- Storage.executeQuery
                  (SQL.select_blocks_byHeight (ScannerSync.latest_height latest - 1)) ;;
        row <- first_row rows ;;
        findLatest fuel' {| ScannerSync.latest_hash := b_hash row;
                            ScannerSync.latest_height := b_height row |}
  end.

(** Lines 374-433, one turn of the inner [while (true)] past the two tests
    at its head: walk back, roll back if the walk has moved, import the
    block, and queue [_importOrphaned] for each of its transactions.  The
    result is the new [this._latest]. *)
Definition _runBlockImport_round (this_latest : ScannerSync.Latest)
  : M ScannerSync.Latest :=
  fuel <- gets (fun e => S (length (blocks (db e)))) ;;
  found <- findLatest fuel this_latest ;;
  match found with
  | None => throw "walk back: out of fuel"
  | Some (block, latest) =>
      (* was reorg found? *)
      rolled <- ScannerSync._runBlockImport_reorg this_latest latest ;;
      (* import block *)
      imported <- ScannerSync._runBlockImport_import block latest ;;
      (* notify that tx was imported *)
      forEach (fun txid => setImmediate (ImportOrphaned txid))
              (map id (Bitcore.transactions block)) ;;
      ret imported
  end.

End WithNode.

End BlockLoop.

(** ** [updateBlocks] and [run] of the rescanner: the loops and the listeners *)
Module ColorLoop.
Import JS Schema Async.

Section WithClasses.

Variable cdefClss : list string.

(** Lines 170-239, [while (running)]: a turn that throws is logged and the
    loop goes round again; [None] when [turns] turns have not been enough. *)
Fixpoint updateBlocks_scan (turns : nat) : M (option unit) :=
  match turns with
  | O => ret None
  | S turns' =>
      running <- catch (ColorSync.updateBlocks_turn cdefClss) (fun err => ret true) ;;
      if running then updateBlocks_scan turns' else ret (Some tt)
  end.

(** Lines 242-265, one pass of [// update unconfirmed].  The two reads are
    started together and then awaited; when one of them fails the [catch]
    of line 262 logs it and the [while] takes the pass again, which is left
    to the caller here.  [removeTxs] and [addTxs] are called without being
    awaited, and both wait for the lock that [updateBlocks] holds: nothing
    of them has run when the pass returns, and how they end is seen by
    nobody.  The pass returns what it has called them with, [removeTxs]
    first. *)
Definition updateBlocks_unconfirmed : M (list string * list string) :=
  pScanned <- started (Storage.executeQuery SQL.select_ccScannedTxIds_unconfirmed) ;;
  pStored <- started (Storage.executeQuery SQL.select_transactions_unconfirmed) ;;
  ccTxIds <- awaited pScanned ;;
  txIds <- awaited pStored ;;
  ret (difference ccTxIds txIds, difference txIds ccTxIds).

(** The two calls of a pass, when the lock lets them run: one at a time,
    taken here in the order in which they were made, with nothing else in
    between; neither is awaited by anybody. *)
Definition updateBlocks_released (calls : list string * list string) : M unit :=
  unawaited (ColorSync.removeTxs cdefClss (fst calls)) ;;
  unawaited (ColorSync.addTxs cdefClss (snd calls)).

(** Lines 285-294: the listeners that [run] sets on ['addtx'] and
    ['removetx']. *)
Definition on_addtx (obj : jsval) : M unit :=
  if truthy (get obj "unconfirmed")
  then ColorSync.addTxs cdefClss [to_string (get obj "txId")]
  else ret tt.

Definition on_removetx (obj : jsval) : M unit :=
  if truthy (get obj "unconfirmed")
  then ColorSync.removeTxs cdefClss [to_string (get obj "txId")]
  else ret tt.

End WithClasses.

End ColorLoop.

Module MempoolWorld.
Import JS Bitcore Schema Async Examples.

(** Scenario S4 with history: the confirmed [Z] has an output that the
    unconfirmed [A] spends, [A] pays [addrA], and [B] pays [addrB], which
    [C] spends.  The node's mempool has [B], [C], [D]. *)
Definition s4_history : env :=
  with_db s4
    {| blocks := [];
       transactions := [{| t_txid := "Z"; t_height := Some 5; t_tx := "00" |};
                        unconfirmed_row "A"; unconfirmed_row "B"; unconfirmed_row "C"];
       history :=
         [{| h_address := "addrZ"; h_txid := "Z"; h_index := 0; h_value := 9;
             h_script := "76"; h_height := Some 5;
             h_input_txid := Some "A"; h_input_height := None |};
          {| h_address := "addrA"; h_txid := "A"; h_index := 0; h_value := 8;
             h_script := "76"; h_height := None;
             h_input_txid := None; h_input_height := None |};
          {| h_address := "addrB"; h_txid := "B"; h_index := 0; h_value := 7;
             h_script := "76"; h_height := None;
             h_input_txid := Some "C"; h_input_height := None |}];
       cc_scanned := []; cc_definitions := []; on_conflict := Reject |}.

End MempoolWorld.

Module Mempool.
Import JS Schema Async.

Definition unconfirmed_tx (t : tx_row) : bool :=
  negb (bool_decide (is_Some (t_height t))).

(** The unconfirmed transactions of the store that the node's mempool does
    not have. *)
Definition gone (e : env) : list string :=
  difference (map t_txid (List.filter unconfirmed_tx (transactions (db e))))
             (mempool (node e)).

(** A history row without its reference to a spending transaction that is
    in [ids]. *)
Definition unspent_by (ids : list string) (row : history_row) : history_row :=
  match h_input_txid row with
  | Some t => if mem t ids then SQL.set_input None None row else row
  | None => row
  end.

(** The tables without the unconfirmed transactions [ids]: their rows,
    the history rows of their outputs, and the references to them as
    spenders. *)
Definition evict (ids : list string) (d : database) : database :=
  with_history
    (with_transactions d
       (List.filter (fun t => negb (mem (t_txid t) ids && unconfirmed_tx t))
                    (transactions d)))
    (map (unspent_by ids)
         (List.filter
            (fun row => negb (mem (h_txid row) ids
                              && negb (bool_decide (is_Some (h_height row)))))
            (history d))).

End Mempool.

Module Scanning.
Import JS Schema Async.

Definition is_scanned (txId : string) (d : database) : bool :=
  existsb (fun c => String.eqb (c_txid c) txId) (cc_scanned d).

(** The color-scanned row of a transaction: with the block it was scanned
    in, or unconfirmed. *)
Definition scanned_row (txId : string) (block : option (string * Z)) : cc_row :=
  {| c_txid := txId; c_blockhash := option_map fst block;
     c_height := option_map snd block |}.

End Scanning.

Module Announcing.
Import JS Schema Async.

(** A computation delivers nothing but notifications that satisfy [P],
    however it ends. *)
Definition only_delivers {A : Type} (P : event -> Prop) (m : M A) : Prop :=
  forall e, exists more, delivered (snd (m e)) = delivered e ++ more /\ Forall P more.

(** A computation queues, on the client of its transaction, nothing but
    notifications that satisfy [P], however it ends. *)
Definition only_pends {A : Type} (P : event -> Prop) (m : M A) : Prop :=
  forall e, exists more, pending (snd (m e)) = pending e ++ more /\ Forall P more.

(** The two notifications that tell of a block, line 345 and 346 of
    [_importBlock]. *)
Definition of_block (ev : event) : bool :=
  String.eqb (channel ev) "broadcastblock" || String.eqb (channel ev) "addblock".

End Announcing.

(** ** Vocabulary for the unconfirmed import *)
Module Spending.
Import JS Bitcore Schema Async.

(** What the statements of the unconfirmed import of [txid] can do to the
    tables once the row of the transaction is in: name [txid] as the
    unconfirmed spender in history rows, and add history rows of [txid]. *)
Inductive importing (txid : string) : database -> database -> Prop :=
| importing_refl (d : database) : importing txid d d
| importing_trans (d1 d2 d3 : database) :
    importing txid d1 d2 -> importing txid d2 d3 -> importing txid d1 d3
| importing_input (d : database) (sel : history_row -> bool) :
    importing txid d
      (with_history d
         (map (fun r => if sel r then SQL.set_input (Some txid) None r else r)
              (history d)))
| importing_output (d : database) (row : history_row) :
    h_txid row = txid ->
    importing txid d (with_history d (history d ++ [row])).

(** Every history row of the output that [input] refers to names [txid] as
    its unconfirmed spender. *)
Definition spent_by (txid : string) (input : Input) (d : database) : Prop :=
  Forall (fun r => SQL.spends (prevTxId input) (outputIndex input) r = true ->
                   h_input_txid r = Some txid /\ h_input_height r = None)
         (history d).

Definition has_output (address txid : string) (index : Z) (d : database) : bool :=
  existsb (SQL.same_output address txid index) (history d).

End Spending.

Module Keeping.
Import JS Schema Async.

(** What identifies a history row and what it says of the output; the
    heights and the spender are left out. *)
Definition output_of (r : history_row) : string * string * Z * Z * string :=
  (h_address r, h_txid r, h_index r, h_value r, h_script r).

(** The tables [d'] have the rows of [d], in their order and with their
    txid, raw transaction and output as in [d], and perhaps more rows after
    them. *)
Definition extends (d d' : database) : Prop :=
  (exists more, blocks d' = blocks d ++ more)
  /\ (exists more, map (fun t => (t_txid t, t_tx t)) (transactions d')
                   = map (fun t => (t_txid t, t_tx t)) (transactions d) ++ more)
  /\ (exists more, map output_of (history d') = map output_of (history d) ++ more).

End Keeping.

(** ** Vocabulary for coinbase inputs *)
Module Coinbase.
Import JS Bitcore Schema Async.

(** Who a history row names as the spender of its output, and at which
    height. *)
Definition spender_of (r : history_row) : option string * option Z :=
  (h_input_txid r, h_input_height r).

(** The spenders that the history rows of the output [(prev, index)] name,
    row by row. *)
Definition spenders (prev : string) (index : Z) (d : database)
  : list (option string * option Z) :=
  map spender_of (List.filter (SQL.spends prev index) (history d)).

(** An input that looks like the input of a coinbase is the first input of
    its transaction, throughout the block. *)
Definition coinbase_first (block : Block) : Prop :=
  forall tx input index,
    In tx (Bitcore.transactions block) ->
    In (input, index) (ScannerSync.indexed (inputs tx)) ->
    prevTxId input = ZERO_HASH -> outputIndex input = 4294967295 ->
    index = 0.

(** The tables [d'] name, for the rows of the output that [d] has, the
    spenders that [d] names; rows of the output that are new come after. *)
Definition spares (prev : string) (index : Z) (d d' : database) : Prop :=
  exists more, spenders prev index d' = spenders prev index d ++ more.

(** The store of [db_a0] with a history row for the output that the input
    of a coinbase refers to. *)
Definition db_a0_zero : database :=
  with_history Examples.db_a0
    [Examples.out_a0;
     {| h_address := "nobody"; h_txid := ZERO_HASH; h_index := 4294967295;
        h_value := 0; h_script := "00"; h_height := Some 1; h_input_txid := None;
        h_input_height := None |}].

End Coinbase.

(** ** Scenario S2: a reorg of depth 1 *)
Module S2.
Import JS Bitcore Schema Async Examples.

Definition paying (txid address : string) : Transaction :=
  {| id := txid; raw := "00"; inputs := [];
     outputs := [{| satoshis := 50; script := "76"; addresses := [address] |}] |}.

Definition B0 : Block :=
  {| hash := "b0"; header := {| header_raw := "00"; prevHash := ZERO_HASH |};
     Bitcore.transactions := [paying "c0" "addr0"] |}.

Definition B1b : Block :=
  {| hash := "b1b"; header := {| header_raw := "01"; prevHash := "b0" |};
     Bitcore.transactions := [paying "c1b" "addr1b"] |}.

Definition B2b : Block :=
  {| hash := "b2b"; header := {| header_raw := "02"; prevHash := "b1b" |};
     Bitcore.transactions := [paying "c2b" "addr2b"] |}.

(** The node has switched to [B0, B1b, B2b]. *)
Definition node_chain (height : Z) : option Block :=
  if height =? 0 then Some B0
  else if height =? 1 then Some B1b
  else if height =? 2 then Some B2b
  else None.

Definition paid (txid address : string) (height : Z) : history_row :=
  {| h_address := address; h_txid := txid; h_index := 0; h_value := 50;
     h_script := "76"; h_height := Some height; h_input_txid := None;
     h_input_height := None |}.

(** The store holds [B0, B1a]. *)
Definition store : database :=
  {| blocks :=
       [{| b_height := 0; b_hash := "b0"; b_header := header B0; b_txids := "c0" |};
        {| b_height := 1; b_hash := "b1a";
           b_header := {| header_raw := "01"; prevHash := "b0" |}; b_txids := "c1a" |}];
     transactions :=
       [{| t_txid := "c0"; t_height := Some 0; t_tx := "00" |};
        {| t_txid := "c1a"; t_height := Some 1; t_tx := "00" |}];
     history := [paid "c0" "addr0" 0; paid "c1a" "addr1a" 1];
     cc_scanned := []; cc_definitions := []; on_conflict := Reject |}.

(** [this._latest] is [B1a]. *)
Definition stored_latest : ScannerSync.Latest :=
  {| ScannerSync.latest_hash := "b1a"; ScannerSync.latest_height := 1 |}.

End S2.

(** * Properties *)

Import JS Bitcore Schema Async Examples Observe.

(** ** Reasoning about computations *)

Section Frames.

Context {X : Type} (f : env -> X).

Lemma keeps_ret {A : Type} (a : A) : keeps f (ret a).
Proof. intros e. reflexivity. Qed.

Lemma keeps_throw {A : Type} (msg : string) : keeps f (@throw A msg).
Proof. intros e. reflexivity. Qed.

Lemma keeps_bind {A B : Type} (m : M A) (k : A -> M B) :
  keeps f m -> (forall a, keeps f (k a)) -> keeps f (bind m k).
Proof.
  intros Hm Hk e. unfold bind. specialize (Hm e).
  destruct (m e) as [[a | msg] e1]; simpl in *.
  - rewrite Hk. exact Hm.
  - exact Hm.
Qed.

Lemma keeps_catch {A : Type} (m : M A) (handler : string -> M A) :
  keeps f m -> (forall msg, keeps f (handler msg)) -> keeps f (catch m handler).
Proof.
  intros Hm Hh e. unfold catch. specialize (Hm e).
  destruct (m e) as [[a | msg] e1]; simpl in *.
  - exact Hm.
  - rewrite Hh. exact Hm.
Qed.

Lemma keeps_forEach {A : Type} (g : A -> M unit) (l : list A) :
  (forall x, keeps f (g x)) -> keeps f (forEach g l).
Proof.
  intros Hg. induction l as [| x l IH]; simpl.
  - apply keeps_ret.
  - apply keeps_bind; [apply Hg | intros _; exact IH].
Qed.

Lemma keeps_mapM {A B : Type} (g : A -> M B) (l : list A) :
  (forall x, keeps f (g x)) -> keeps f (mapM g l).
Proof.
  intros Hg. induction l as [| x l IH]; simpl.
  - apply keeps_ret.
  - apply keeps_bind; [apply Hg |].
    intros y. apply keeps_bind; [exact IH | intros ys; apply keeps_ret].
Qed.

Lemma keeps_first_row {A : Type} (rows : list A) : keeps f (first_row rows).
Proof. destruct rows; [apply keeps_throw | apply keeps_ret]. Qed.

Lemma keeps_modify (g : env -> env) :
  (forall e, f (g e) = f e) -> keeps f (modify g).
Proof. intros Hg e. apply Hg. Qed.

Lemma keeps_gets {A : Type} (g : env -> A) : keeps f (gets g).
Proof. intros e. reflexivity. Qed.

Lemma keeps_started {A : Type} (m : M A) : keeps f m -> keeps f (started m).
Proof. intros Hm e. apply Hm. Qed.

Lemma keeps_unawaited {A : Type} (m : M A) : keeps f m -> keeps f (unawaited m).
Proof. intros Hm e. apply Hm. Qed.

Lemma keeps_await_all (promises : list (result unit)) : keeps f (await_all promises).
Proof.
  intros e. induction promises as [| [[] | msg] rest IH]; simpl; try reflexivity.
  exact IH.
Qed.

(** A statement changes the tables and uses up the fault schedule. *)
Lemma keeps_run_statement {A : Type} (stmt : SQL.statement A) :
  (forall e x, f (with_faults e x) = f e) ->
  (forall e a d, stmt (db e) = Ok (a, d) -> f (with_db e d) = f e) ->
  keeps f (Storage.run_statement stmt).
Proof.
  intros Hf Hd e. unfold Storage.run_statement.
  destruct (faults e) as [| [|] later] eqn:Ef; simpl.
  - destruct (stmt (db e)) as [[a d] | msg] eqn:Es; simpl.
    + etransitivity; [apply (Hd (with_faults e []) a d); exact Es | apply Hf].
    + apply Hf.
  - apply Hf.
  - destruct (stmt (db e)) as [[a d] | msg] eqn:Es; simpl.
    + etransitivity; [apply (Hd (with_faults e later) a d); exact Es | apply Hf].
    + apply Hf.
Qed.

End Frames.

(** ** The service *)

(** C10: the status that [sendTxResponse] publishes is ['success'] exactly
    when [err] is [null] (an [err] that is [undefined], as when the argument
    is left out, gives ['fail']), and when [err] is [null] or has no
    [message] the message field is the string ["undefined"]: [_.get] gives
    [undefined] and [escape] turns it into that text. *)
Theorem sendTxResponse_status_and_message (id err opts : jsval) :
  exists status message : string,
    (forall e, Service.sendTxResponse id err opts e
               = Messages.notify "sendtxresponse"
                   (JObj [("id", id); ("status", JStr status);
                          ("code", get err "code"); ("message", JStr message)])
                   opts e)
    /\ (status = "success" <-> err = JNull)
    /\ (status = "success" \/ status = "fail")
    /\ (err = JUndefined -> status = "fail")
    /\ (err = JNull -> message = "undefined")
    /\ (get err "message" = JUndefined -> message = "undefined").
Proof.
  exists (if is_null err then "success" else "fail"),
         (escape_string (to_string (get err "message"))).
  split; [|split; [|split; [|split; [|split]]]].
  - intros e. unfold Service.sendTxResponse, escape.
    destruct (is_null err); reflexivity.
  - destruct err; simpl; split; intros H; try reflexivity; discriminate H.
  - destruct (is_null err); [left | right]; reflexivity.
  - intros ->. reflexivity.
  - intros ->. reflexivity.
  - intros ->. reflexivity.
Qed.

(** ** Events of the unconfirmed import and of the mempool pass *)


(** C1: [_importUnconfirmedTx] calls [addTx(txid, {client: client})], and
    [addTx] takes [(txId, isConfirmed, opts)]: the options object lands in
    [isConfirmed], so the payload has [unconfirmed = false] and the
    notification is sent without a client.  On [b1], which spends the stored
    [a0:0], the import commits and the ['addtx'] that went out says
    [unconfirmed: false]; when the insertion of the row of [b1] fails (the
    third statement sent: the two checks come first), the transaction is
    rolled back and [b1] is not stored, and the ['addtx'], started with the
    other statements of the import, has gone out all the same. *)
Theorem addTx_in_import_not_unconfirmed_not_transactional :
  (forall (txid : string) (client : jsval) (e : env),
      Service.addTx (JStr txid) (ScannerSync.client_opts client) JUndefined e
      = Messages.notify "addtx"
          (JObj [("txId", JStr txid); ("unconfirmed", JBool false)]) JUndefined e)
  /\ (let r := ScannerSync._importUnconfirmedTx tx_b1 (fresh db_a0) in
      fst r = Ok true
      /\ stored "b1" (snd r) = true
      /\ on_channel "addtx" (delivered (snd r))
         = [{| channel := "addtx";
               payload := JObj [("txId", JStr "b1"); ("unconfirmed", JBool false)] |}])
  /\ (let r := ScannerSync._importUnconfirmedTx tx_b1
                 (with_faults (fresh db_a0) [false; false; true]) in
      fst r = Ok false
      /\ stored "b1" (snd r) = false
      /\ delivered (snd r)
         = [{| channel := "addtx";
               payload := JObj [("txId", JStr "b1"); ("unconfirmed", JBool false)] |}]).
Proof.
  split; [|split].
  - intros txid client e. reflexivity.
  - vm_compute. repeat split; reflexivity.
  - vm_compute. repeat split; reflexivity.
Qed.

(** C2: the mempool pass calls [removeTx(txid, {client: client})] with the
    ids it has just prefixed for the statements, and [removeTx] takes
    [(txId, isConfirmed, opts)].  In scenario S4 the one ['removetx'] that
    goes out has the txid with the [\x] prefix, [unconfirmed = false], and is
    sent without the transaction's client. *)
Theorem removeTx_in_mempool_pass_prefixed_not_unconfirmed :
  (forall (txid : string) (client : jsval) (e : env),
      Service.removeTx (JStr (cook "\\x" +:+ txid)) (ScannerSync.client_opts client)
                       JUndefined e
      = Messages.notify "removetx"
          (JObj [("txId", JStr (String "\" (String "x" txid)));
                 ("unconfirmed", JBool false)]) JUndefined e)
  /\ (let r := ScannerSync._runBlockImport_mempool s4 in
      fst r = Ok tt
      /\ map t_txid (transactions (db (snd r))) = ["B"; "C"]
      /\ immediates (snd r) = [RunTxImport "D"]
      /\ delivered (snd r)
         = [{| channel := "removetx";
               payload := JObj [("txId", JStr (String "\" (String "x" "A")));
                                ("unconfirmed", JBool false)] |}]).
Proof.
  split.
  - intros txid client e. reflexivity.
  - vm_compute. repeat split; reflexivity.
Qed.

(** ** lodash and parameters *)

Lemma bytea_hex (t : string) : SQL.bytea (cook "\\x" +:+ t) = t.
Proof. reflexivity. Qed.

Lemma map_bytea_hex (l : list string) :
  map SQL.bytea (map (fun i => cook "\\x" +:+ i) l) = l.
Proof.
  induction l as [| x l IH]; simpl; [reflexivity |].
  f_equal. exact IH.
Qed.

Lemma mem_In (x : string) (l : list string) : mem x l = true <-> In x l.
Proof.
  unfold mem. rewrite existsb_exists. split.
  - intros [y [Hy Heq]]. apply String.eqb_eq in Heq. subst y. exact Hy.
  - intros H. exists x. split; [exact H | apply String.eqb_refl].
Qed.

Lemma mem_false (x : string) (l : list string) : mem x l = false <-> ~ In x l.
Proof. rewrite <- mem_In. destruct (mem x l); intuition congruence. Qed.

Lemma uniq_acc_In (x : string) (l seen : list string) :
  In x (uniq_acc seen l) <-> In x l /\ ~ In x seen.
Proof.
  revert seen. induction l as [| y l IH]; intros seen; simpl.
  - tauto.
  - destruct (mem y seen) eqn:Hm.
    + apply mem_In in Hm. rewrite IH. split.
      * intros [H1 H2]. tauto.
      * intros [[-> | H1] H2]; [contradiction | tauto].
    + apply mem_false in Hm. simpl. rewrite IH. simpl. split.
      * intros [-> | [H1 H2]]; [tauto |]. tauto.
      * intros [[-> | H1] H2]; [tauto |].
        destruct (String.eqb_spec y x) as [-> | Hne]; [tauto |].
        right. split; [exact H1 |]. intros [H | H]; [contradiction | contradiction].
Qed.

Lemma uniq_In (x : string) (l : list string) : In x (uniq l) <-> In x l.
Proof. unfold uniq. rewrite uniq_acc_In. simpl. tauto. Qed.

Lemma difference_In (x : string) (a b : list string) :
  In x (difference a b) <-> In x a /\ ~ In x b.
Proof.
  unfold difference. rewrite filter_In, negb_true_iff, mem_false. tauto.
Qed.

Lemma without_In (y x : string) (a : option (list string)) :
  In y (without a x) <-> In y (default [] a) /\ y <> x.
Proof.
  unfold without. rewrite filter_In, negb_true_iff, String.eqb_neq. tauto.
Qed.

Lemma union_In (c t : string) (a : option (list string)) :
  In c (union a [t]) <-> In c (default [] a) \/ c = t.
Proof.
  unfold union. rewrite uniq_In, in_app_iff. simpl. intuition congruence.
Qed.

(** ** What the notifications and the statements leave alone *)

Lemma keeps_notify {X : Type} (f : env -> X) (ch : string) (p opts : jsval) :
  (forall e x, f (with_faults e x) = f e) ->
  (forall e, f (with_db e (db e)) = f e) ->
  (forall e x, f (with_pending e x) = f e) ->
  (forall e x, f (with_delivered e x) = f e) ->
  keeps f (Messages.notify ch p opts).
Proof.
  intros Hf Hd Hp Hl. unfold Messages.notify.
  destruct (has opts "client").
  - apply keeps_bind.
    + apply keeps_run_statement; [exact Hf |].
      intros e a d H. unfold Messages.NOTIFY, SQL.reading in H.
      injection H as _ <-. apply Hd.
    + intros _. apply keeps_modify. intros e. apply Hp.
  - apply keeps_bind.
    + apply keeps_run_statement; [exact Hf |].
      intros e a d H. unfold Messages.NOTIFY, SQL.reading in H.
      injection H as _ <-. apply Hd.
    + intros _. apply keeps_modify. intros e. apply Hl.
Qed.

(** Through the client of a transaction nothing is delivered yet. *)
Lemma keeps_delivered_notify (ch : string) (p client : jsval) :
  keeps delivered (Messages.notify ch p (ScannerSync.client_opts client)).
Proof.
  unfold Messages.notify, ScannerSync.client_opts. simpl.
  apply keeps_bind.
  - apply keeps_run_statement; reflexivity.
  - intros _. apply keeps_modify. reflexivity.
Qed.

(** Splitting goals of the form [keeps f m] along the shape of [m]. *)
Ltac frame_step :=
  match goal with
  | |- keeps _ (ret _) => apply keeps_ret
  | |- keeps _ (throw _) => apply keeps_throw
  | |- keeps _ (gets _) => apply keeps_gets
  | |- keeps _ (first_row _) => apply keeps_first_row
  | |- keeps _ (bind _ _) => apply keeps_bind; [| intros ?]
  | |- keeps _ (forEach _ _) => apply keeps_forEach; intros ?
  | |- keeps _ (mapM _ _) => apply keeps_mapM; intros ?
  | |- keeps _ (catch _ _) => apply keeps_catch; [| intros ?]
  | |- keeps _ (started _) => apply keeps_started
  | |- keeps _ (unawaited _) => apply keeps_unawaited
  | |- keeps _ (await_all _) => apply keeps_await_all
  | |- keeps _ (ScannerSync._importUnconfirmedTx_output _ _ _ _ _) =>
      unfold ScannerSync._importUnconfirmedTx_output
  | |- keeps _ (let '(_, _) := ?x in _) => destruct x
  | |- keeps _ (if ?b then _ else _) => destruct b
  | |- keeps _ (match ?x with _ => _ end) => destruct x
  | |- keeps _ (Storage.queryAsync _ _) => unfold Storage.queryAsync
  | |- keeps _ (Storage.executeQuery _) => unfold Storage.executeQuery
  | |- keeps _ (Service.broadcastAddress _ _ _ _ _) => unfold Service.broadcastAddress
  | |- keeps _ (Service.broadcastTx _ _ _ _) => unfold Service.broadcastTx
  | |- keeps _ (Service.broadcastBlock _ _ _) => unfold Service.broadcastBlock
  | |- keeps _ (Service.addTx _ _ _) => unfold Service.addTx
  | |- keeps _ (Service.removeTx _ _ _) => unfold Service.removeTx
  | |- keeps _ (Service.addBlock _ _) => unfold Service.addBlock
  | |- keeps _ (Service.removeBlock _ _) => unfold Service.removeBlock
  | |- keeps _ (Storage.run_statement _) =>
      apply keeps_run_statement; [reflexivity | intros; reflexivity]
  | |- keeps _ (Messages.notify _ _ _) =>
      apply keeps_notify; intros; reflexivity
  end.

Ltac frame := repeat frame_step.

Lemma keeps_orphanedTx_import (tx : Transaction) (client : jsval) :
  keeps orphanedTx (ScannerSync._importUnconfirmedTx_import tx client).
Proof. unfold ScannerSync._importUnconfirmedTx_import. frame. Qed.

Lemma keeps_locked_import (tx : Transaction) (client : jsval) :
  keeps locked (ScannerSync._importUnconfirmedTx_import tx client).
Proof. unfold ScannerSync._importUnconfirmedTx_import. frame. Qed.

(** ** Running a computation step by step *)

Lemma bind_modify {B : Type} (g : env -> env) (k : unit -> M B) (e : env) :
  bind (modify g) k e = k tt (g e).
Proof. reflexivity. Qed.

Lemma bind_gets {A B : Type} (g : env -> A) (k : A -> M B) (e : env) :
  bind (gets g) k e = k (g e) e.
Proof. reflexivity. Qed.

Lemma bind_ret {A B : Type} (a : A) (k : A -> M B) (e : env) :
  bind (ret a) k e = k a e.
Proof. reflexivity. Qed.

Lemma bind_ok {A B : Type} (m : M A) (k : A -> M B) (e e1 : env) (a : A) :
  m e = (Ok a, e1) -> bind m k e = k a e1.
Proof. intros H. unfold bind. rewrite H. reflexivity. Qed.

Lemma bind_err {A B : Type} (m : M A) (k : A -> M B) (e e1 : env) (msg : string) :
  m e = (Err msg, e1) -> bind m k e = (Err msg, e1).
Proof. intros H. unfold bind. rewrite H. reflexivity. Qed.

Lemma bind_ok_inv {A B : Type} (m : M A) (k : A -> M B) (e e' : env) (b : B) :
  bind m k e = (Ok b, e') -> exists a e1, m e = (Ok a, e1) /\ k a e1 = (Ok b, e').
Proof.
  unfold bind. destruct (m e) as [[a | msg] e1]; intros H; [| discriminate].
  exists a, e1. split; [reflexivity | exact H].
Qed.

(** A promise that was started and has been fulfilled: the call returned. *)
Lemma started_run {A : Type} (m : M A) (e e1 : env) (p : result A) :
  started m e = (Ok p, e1) -> m e = (p, e1).
Proof.
  unfold started. intros H. injection H as <- <-. destruct (m e); reflexivity.
Qed.

Lemma settled_ok {A : Type} (p : result A) :
  settled p = Ok tt -> exists a, p = Ok a.
Proof. destruct p as [a | msg]; [eauto | discriminate]. Qed.

(** [await*] returns when every promise has been fulfilled. *)
Lemma await_all_ok (promises : list (result unit)) (e e' : env) (u : unit) :
  await_all promises e = (Ok u, e') ->
  e' = e /\ Forall (fun p => p = Ok tt) promises.
Proof.
  induction promises as [| [[] | msg] rest IH]; simpl; intros H.
  - injection H as _ <-. split; [reflexivity | constructor].
  - destruct (IH H) as [-> Hall]. split; [reflexivity |]. constructor; [reflexivity | exact Hall].
  - discriminate.
Qed.

Lemma await_all_fulfilled (promises : list (result unit)) (e : env) :
  Forall (fun p => p = Ok tt) promises -> await_all promises e = (Ok tt, e).
Proof.
  induction 1 as [| p rest -> _ IH]; simpl; [reflexivity | exact IH].
Qed.

(** ** The orphan registry *)

Lemma children_set_orphans (dep : string) (v : list string) (e : env) (p : string) :
  children (orphanedTx (ScannerSync.set_orphans dep (Some v) e)) p
  = if decide (dep = p) then v else children (orphanedTx e) p.
Proof.
  unfold children, ScannerSync.set_orphans. simpl.
  rewrite lookup_insert. destruct (decide (dep = p)); reflexivity.
Qed.

Lemma parents_set_deps (x : string) (v : list string) (e : env) (c : string) :
  parents (orphanedTx (ScannerSync.set_deps x (Some v) e)) c
  = if decide (x = c) then v else parents (orphanedTx e) c.
Proof.
  unfold parents, ScannerSync.set_deps. simpl.
  rewrite lookup_insert. destruct (decide (x = c)); reflexivity.
Qed.

Lemma parents_delete_deps (x : string) (e : env) (c : string) :
  parents (orphanedTx (ScannerSync.set_deps x None e)) c
  = if decide (x = c) then [] else parents (orphanedTx e) c.
Proof.
  unfold parents, ScannerSync.set_deps. simpl.
  rewrite lookup_delete. destruct (decide (x = c)); reflexivity.
Qed.

(** The loop of the registration: [txid] joins the children of every
    dependency, and [deps] is not touched. *)
Lemma register_loop (txid : string) (l : list string) (e : env) :
  exists e',
    forEach (fun dep =>
      modify (fun e =>
        ScannerSync.set_orphans dep
          (Some (union (orphans (orphanedTx e) !! dep) [txid])) e)) l e = (Ok tt, e')
    /\ deps (orphanedTx e') = deps (orphanedTx e)
    /\ (forall c p, In c (children (orphanedTx e') p)
                    <-> In c (children (orphanedTx e) p) \/ (In p l /\ c = txid)).
Proof.
  revert e. induction l as [| dep l IH]; intros e.
  - exists e. simpl. repeat split; tauto.
  - cbn [forEach]. rewrite bind_modify.
    set (e1 := ScannerSync.set_orphans dep _ e).
    destruct (IH e1) as (e' & Hrun & Hdeps & Hch).
    exists e'. split; [exact Hrun | split; [exact Hdeps |]].
    intros c p. rewrite Hch. unfold e1. rewrite children_set_orphans.
    destruct (decide (dep = p)) as [-> | Hne].
    + rewrite union_In. fold (children (orphanedTx e) p). simpl. intuition congruence.
    + simpl. intuition congruence.
Qed.

Lemma orphan_registers (txid : string) (deps_ : list string) (e : env) :
  exists e',
    ScannerSync._importUnconfirmedTx_orphan txid deps_ e = (Ok false, e')
    /\ (forall c, parents (orphanedTx e') c
                  = if decide (txid = c) then deps_ else parents (orphanedTx e) c)
    /\ (forall c p, In c (children (orphanedTx e') p)
                    <-> In c (children (orphanedTx e) p) \/ (In p deps_ /\ c = txid)).
Proof.
  unfold ScannerSync._importUnconfirmedTx_orphan. rewrite bind_modify.
  set (e1 := ScannerSync.set_deps txid (Some deps_) e).
  destruct (register_loop txid deps_ e1) as (e' & Hrun & Hdeps & Hch).
  exists e'. rewrite (bind_ok _ _ _ _ _ Hrun). split; [reflexivity | split].
  - intros c. unfold parents. rewrite Hdeps. apply (parents_set_deps txid deps_ e c).
  - intros c p. rewrite Hch. reflexivity.
Qed.

Lemma register_symmetric (o o' : OrphanedTx) (txid : string) (deps_ : list string) :
  symmetric o ->
  (forall p, In p (parents o txid) -> In p deps_) ->
  (forall c, parents o' c = if decide (txid = c) then deps_ else parents o c) ->
  (forall c p, In c (children o' p) <-> In c (children o p) \/ (In p deps_ /\ c = txid)) ->
  symmetric o'.
Proof.
  intros Hsym Hold Hp Hc c p. rewrite Hc, Hp.
  destruct (decide (txid = c)) as [<- | Hne].
  - split.
    + intros [H | [H _]]; [| exact H]. apply Hold, Hsym, H.
    + intros H. right. split; [exact H | reflexivity].
  - rewrite (Hsym c p). split.
    + intros [H | [_ H]]; [exact H | congruence].
    + intros H. left. exact H.
Qed.

(** The loop of [_importOrphaned]: the resolved parent leaves the
    dependencies of every orphan in the list. *)
Lemma resolve_loop (txid : string) (l : list string) (e : env) :
  exists e',
    forEach (fun orphaned =>
      deps_ <- gets (fun e => without (deps (orphanedTx e) !! orphaned) txid) ;;
      if (0 <? length deps_)%nat then
        modify (ScannerSync.set_deps orphaned (Some deps_))
      else
        modify (ScannerSync.set_deps orphaned None) ;;
        setImmediate (RunTxImport orphaned)) l e = (Ok tt, e')
    /\ orphans (orphanedTx e') = orphans (orphanedTx e)
    /\ (forall c p, In p (parents (orphanedTx e') c)
                    <-> In p (parents (orphanedTx e) c) /\ (In c l -> p <> txid)).
Proof.
  revert e. induction l as [| x l IH]; intros e.
  - exists e. simpl. repeat split; tauto.
  - cbn [forEach].
    set (deps_ := without (deps (orphanedTx e) !! x) txid).
    assert (Hstep : exists e1,
      (deps_ <- gets (fun e => without (deps (orphanedTx e) !! x) txid) ;;
       if (0 <? length deps_)%nat
       then modify (ScannerSync.set_deps x (Some deps_))
       else modify (ScannerSync.set_deps x None) ;; setImmediate (RunTxImport x)) e
      = (Ok tt, e1)
      /\ orphans (orphanedTx e1) = orphans (orphanedTx e)
      /\ forall c, parents (orphanedTx e1) c
                   = if decide (x = c) then deps_ else parents (orphanedTx e) c).
    { rewrite bind_gets. fold deps_. destruct deps_ as [| d ds] eqn:Ed; simpl.
      - eexists. split; [reflexivity | split; [reflexivity |]].
        intros c. apply (parents_delete_deps x e c).
      - eexists. split; [reflexivity | split; [reflexivity |]].
        intros c. apply (parents_set_deps x (d :: ds) e c). }
    destruct Hstep as (e1 & Hrun1 & Ho & Hp).
    destruct (IH e1) as (e' & Hrun & Horph & Hpar).
    exists e'. rewrite (bind_ok _ _ _ _ _ Hrun1).
    split; [exact Hrun | split; [congruence |]].
    intros c p. rewrite Hpar, Hp.
    destruct (decide (x = c)) as [-> | Hne].
    + unfold deps_. rewrite without_In. fold (parents (orphanedTx e) c).
      simpl. intuition congruence.
    + simpl. intuition congruence.
Qed.

Lemma importOrphaned_resolves (txid : string) (e : env) :
  exists e',
    ScannerSync._importOrphaned txid e = (Ok tt, e')
    /\ (forall p, children (orphanedTx e') p
                  = if decide (txid = p) then [] else children (orphanedTx e) p)
    /\ (forall c p, In p (parents (orphanedTx e') c)
                    <-> In p (parents (orphanedTx e) c)
                        /\ (In c (children (orphanedTx e) txid) -> p <> txid)).
Proof.
  unfold ScannerSync._importOrphaned. rewrite bind_gets.
  destruct (orphans (orphanedTx e) !! txid) as [orphans_ |] eqn:El.
  - rewrite bind_modify.
    set (e1 := ScannerSync.set_orphans txid None e).
    destruct (resolve_loop txid orphans_ e1) as (e' & Hrun & Horph & Hpar).
    exists e'. split; [exact Hrun | split].
    + intros p. unfold children. rewrite Horph. unfold e1, ScannerSync.set_orphans. simpl.
      rewrite lookup_delete. destruct (decide (txid = p)); reflexivity.
    + intros c p. rewrite Hpar. unfold children at 1. rewrite El. simpl. reflexivity.
  - exists e. split; [reflexivity | split].
    + intros p. destruct (decide (txid = p)) as [<- |]; [| reflexivity].
      unfold children. rewrite El. reflexivity.
    + intros c p. unfold children. rewrite El. simpl. tauto.
Qed.

Lemma importOrphaned_symmetric (txid : string) (e : env) :
  symmetric (orphanedTx e) ->
  symmetric (orphanedTx (snd (ScannerSync._importOrphaned txid e))).
Proof.
  intros Hsym. destruct (importOrphaned_resolves txid e) as (e' & -> & Hc & Hp).
  intros c p. simpl. rewrite Hc, Hp.
  destruct (decide (txid = p)) as [<- | Hne].
  - simpl. split; [tauto |]. intros [H1 H2].
    apply H2; [apply Hsym; exact H1 | reflexivity].
  - rewrite (Hsym c p). split.
    + intros H. split; [exact H | congruence].
    + tauto.
Qed.

(** ** What a computation ensures when it returns *)

Lemma ensures_ret {A : Type} (P : env -> Prop) (a : A) (Q : A -> env -> Prop) :
  (forall e, P e -> Q a e) -> ensures P (ret a) Q.
Proof. intros H e a' e' HP Hrun. injection Hrun as <- <-. apply H, HP. Qed.

Lemma ensures_bind {A B : Type} (P : env -> Prop) (R : A -> env -> Prop)
    (Q : B -> env -> Prop) (m : M A) (k : A -> M B) :
  ensures P m R -> (forall a, ensures (R a) (k a) Q) -> ensures P (bind m k) Q.
Proof.
  intros Hm Hk e b e' HP Hrun. unfold bind in Hrun.
  destruct (m e) as [[a | msg] e1] eqn:Em; [| discriminate].
  exact (Hk a e1 b e' (Hm e a e1 HP Em) Hrun).
Qed.

Lemma ensures_weaken {A : Type} (P P' : env -> Prop) (Q Q' : A -> env -> Prop) (m : M A) :
  ensures P' m Q' -> (forall e, P e -> P' e) -> (forall a e, Q' a e -> Q a e) ->
  ensures P m Q.
Proof. intros H HP HQ e a e' Hpre Hrun. apply HQ, (H e a e'); auto. Qed.

Lemma ensures_any {A : Type} (P : env -> Prop) (m : M A) :
  ensures P m (fun _ _ => True).
Proof. intros e a e' _ _. exact I. Qed.

Lemma ensures_conj {A : Type} (P : env -> Prop) (Q1 Q2 : A -> env -> Prop) (m : M A) :
  ensures P m Q1 -> ensures P m Q2 -> ensures P m (fun a e => Q1 a e /\ Q2 a e).
Proof. intros H1 H2 e a e' HP Hrun. split; [eapply H1 | eapply H2]; eauto. Qed.

Lemma ensures_keeps {A X : Type} (f : env -> X) (x : X) (m : M A) :
  keeps f m -> ensures (fun e => f e = x) m (fun _ e' => f e' = x).
Proof.
  intros Hk e a e' HP Hrun. specialize (Hk e). rewrite Hrun in Hk. simpl in Hk.
  congruence.
Qed.

(** ** A statement that only reads *)

Lemma run_reading {A : Type} (g : database -> A) (e : env) :
  Storage.run_statement (SQL.reading g) e
  = match faults e with
    | true :: later => (Err "connection lost", with_faults e later)
    | _ => (Ok (g (db e)), with_db (with_faults e (tail (faults e))) (db e))
    end.
Proof.
  unfold Storage.run_statement, SQL.reading.
  destruct (faults e) as [| [|] later]; reflexivity.
Qed.

Lemma run_reading_ok {A : Type} (g : database -> A) (e e1 : env) (a : A) :
  Storage.run_statement (SQL.reading g) e = (Ok a, e1) ->
  a = g (db e) /\ e1 = with_db (with_faults e (tail (faults e))) (db e).
Proof.
  rewrite run_reading. destruct (faults e) as [| [|] later]; intros H;
    try discriminate; injection H as <- <-; split; reflexivity.
Qed.

Lemma run_reading_err {A : Type} (g : database -> A) (e e1 : env) (msg : string) :
  Storage.run_statement (SQL.reading g) e = (@Err A msg, e1) ->
  faults e <> [] /\ e1 = with_faults e (tail (faults e)).
Proof.
  rewrite run_reading. destruct (faults e) as [| [|] later]; intros H;
    try discriminate; injection H as <- <-; split; [discriminate | reflexivity].
Qed.

(** ** The checks at the start of the unconfirmed import *)

Lemma count_is_zero (txid : string) (d : database) :
  (length (List.filter (fun t => String.eqb (t_txid t) txid) (transactions d)) =? 0)%nat
  = negb (SQL.tx_exists txid d).
Proof.
  unfold SQL.tx_exists. induction (transactions d) as [| t l IH]; simpl.
  - reflexivity.
  - destruct (String.eqb (t_txid t) txid); simpl; [reflexivity | exact IH].
Qed.

Lemma existing_rows_mem (x : string) (P : list string) (d : database) :
  In x P ->
  mem x (map t_txid (List.filter (fun t => mem (t_txid t) P) (transactions d)))
  = SQL.tx_exists x d.
Proof.
  intros Hx. unfold SQL.tx_exists.
  induction (transactions d) as [| t l IH]; simpl; [reflexivity |].
  destruct (mem (t_txid t) P) eqn:Hm; simpl.
  - unfold mem in *. simpl. rewrite (String.eqb_sym x (t_txid t)). rewrite IH. reflexivity.
  - rewrite IH. destruct (String.eqb_spec (t_txid t) x) as [Heq | Hne]; [| reflexivity].
    subst x. apply mem_In in Hx. congruence.
Qed.

Lemma deps_are_missing (tx : Transaction) (e : env) :
  difference (uniq (map prevTxId (inputs tx)))
    (map t_txid
       (List.filter
          (fun t => mem (t_txid t)
             (map SQL.bytea (map (fun i => cook "\\x" +:+ i)
                                 (uniq (map prevTxId (inputs tx))))))
          (transactions (db e))))
  = missing tx e.
Proof.
  rewrite map_bytea_hex. unfold difference, missing, stored.
  apply filter_ext_in. intros x Hx. f_equal. apply existing_rows_mem, Hx.
Qed.

Lemma missing_In (tx : Transaction) (e : env) (p : string) :
  In p (missing tx e) <-> In p (map prevTxId (inputs tx)) /\ stored p e = false.
Proof.
  unfold missing. rewrite filter_In, uniq_In, negb_true_iff. reflexivity.
Qed.

(** ** Statements on the history table leave the other tables alone *)

Lemma update_returning_tables (sel : history_row -> bool) (g : history_row -> history_row)
    (d d' : database) (a : list string) :
  SQL.update_returning sel g d = Ok (a, d') ->
  d' = with_history d (map (fun r => if sel r then g r else r) (history d)).
Proof. unfold SQL.update_returning. intros H. injection H as _ <-. reflexivity. Qed.

Lemma insert_output_tables (address txid : string) (index value : Z) (script : string)
    (height : option Z) (d d' : database) (a : unit) :
  SQL.insert_output address txid index value script height d = Ok (a, d') ->
  exists h, d' = with_history d h.
Proof.
  unfold SQL.insert_output. destruct (SQL.insert_row _ _ _ _) as [h | msg]; intros H;
    [| discriminate]. injection H as _ <-. exists h. reflexivity.
Qed.

(** For an observation of the transaction rows: the statements of the
    import that come after the insertion of the transaction. *)
Ltac history_only :=
  let H := fresh "H" in
  intros ? ? ? H;
  first
    [ apply update_returning_tables in H; subst; reflexivity
    | apply insert_output_tables in H; destruct H as [? ->]; reflexivity ].

Ltac frame_stored_step :=
  match goal with
  | |- keeps _ (Storage.run_statement _) =>
      apply keeps_run_statement; [reflexivity | history_only]
  | _ => frame_step
  end.

Lemma stored_after_insert (txid raw_ : string) (height : option Z) (client : jsval) :
  ensures (fun _ => True)
    (Storage.queryAsync client
       (SQL.insert_tx (cook "\\x" +:+ txid) height (cook "\\x" +:+ raw_)))
    (fun _ e' => stored txid e' = true).
Proof.
  intros e a e' _ Hrun. unfold Storage.queryAsync, Storage.run_statement in Hrun.
  unfold SQL.insert_tx, SQL.insert_row in Hrun. rewrite !bytea_hex in Hrun.
  assert (Hnew : stored txid
            (with_db (with_faults e (tail (faults e)))
               (with_transactions (db e)
                  (transactions (db e)
                   ++ [{| t_txid := txid; t_height := height; t_tx := raw_ |}]))) = true).
  { unfold stored, SQL.tx_exists. simpl. rewrite existsb_app. simpl.
    rewrite String.eqb_refl. apply orb_true_iff. right. reflexivity. }
  destruct (faults e) as [| [|] later]; try discriminate;
    destruct (SQL.tx_exists txid (db e)) eqn:Ex;
    try (destruct (on_conflict (db e)); try discriminate);
    injection Hrun as _ <-; try exact Hnew; unfold stored; simpl;
    destruct (db e); exact Ex.
Qed.

(** A run of the import proper that returns: the transaction row has been
    inserted, every update of an input and every insert of an output has
    answered, and what comes after them does not touch the tables. *)
Lemma import_run (tx : Transaction) (client : jsval) (e e' : env) (b : bool) :
  ScannerSync._importUnconfirmedTx_import tx client e = (Ok b, e') ->
  exists e1 pImportInputs e2 pImportOutputs e3,
    b = true
    /\ Storage.run_statement
         (SQL.insert_transactions_unconfirmed (cook "\\x" +:+ id tx)
                                              (cook "\\x" +:+ raw tx)) e = (Ok tt, e1)
    /\ mapM (fun input =>
          started (Storage.run_statement
            (SQL.update_history_addUnconfirmedInput (cook "\\x" +:+ id tx)
               (cook "\\x" +:+ prevTxId input) (outputIndex input))))
          (inputs tx) e1 = (Ok pImportInputs, e2)
    /\ Forall (fun p => settled p = Ok tt) pImportInputs
    /\ mapM (fun '(output, index) =>
          mapM (ScannerSync._importUnconfirmedTx_output (id tx) client output index)
               (addresses output))
          (ScannerSync.indexed (outputs tx)) e2 = (Ok pImportOutputs, e3)
    /\ Forall (fun p => p = Ok tt) (concat (concat pImportOutputs))
    /\ db e' = db e3.
Proof.
  intros Hrun. unfold ScannerSync._importUnconfirmedTx_import in Hrun.
  unfold Storage.queryAsync in Hrun.
  apply bind_ok_inv in Hrun as (p1 & e1 & H1 & Hrun). apply started_run in H1.
  apply bind_ok_inv in Hrun as (p2 & e2 & H2 & Hrun).
  apply bind_ok_inv in Hrun as (p3 & e3 & H3 & Hrun).
  assert (Hd : db e' = db e3).
  { match type of Hrun with
    | ?m e3 = _ => assert (K : keeps db m) by frame; specialize (K e3);
                   rewrite Hrun in K; exact K
    end. }
  apply bind_ok_inv in Hrun as (p4 & e4 & _ & Hrun).
  apply bind_ok_inv in Hrun as (p5 & e5 & _ & Hrun).
  apply bind_ok_inv in Hrun as ([] & e6 & _ & Hrun).
  apply bind_ok_inv in Hrun as ([] & e7 & H7 & Hrun).
  injection Hrun as <- _.
  apply await_all_ok in H7 as [_ Hall].
  apply Forall_cons_iff in Hall as [Hp1 Hall].
  apply Forall_app in Hall as [Hp2 Hall].
  apply Forall_app in Hall as [Hp3 _].
  destruct p1 as [[] | msg]; [| discriminate Hp1].
  exists e1, p2, e2, p3, e3. repeat split; try assumption.
  apply Forall_map in Hp2. exact Hp2.
Qed.

Lemma import_stores (tx : Transaction) (client : jsval) :
  ensures (fun _ => True) (ScannerSync._importUnconfirmedTx_import tx client)
          (fun b e' => b = true /\ stored (id tx) e' = true).
Proof.
  intros e b e' _ Hrun.
  apply import_run in Hrun as (e1 & p2 & e2 & p3 & e3 & -> & H1 & H2 & _ & H3 & _ & Hd).
  split; [reflexivity |].
  pose proof (stored_after_insert (id tx) (raw tx) None client e tt e1 I H1) as Hst.
  assert (K2 : keeps (stored (id tx))
            (mapM (fun input =>
               started (Storage.run_statement
                 (SQL.update_history_addUnconfirmedInput (cook "\\x" +:+ id tx)
                    (cook "\\x" +:+ prevTxId input) (outputIndex input))))
               (inputs tx))) by repeat frame_stored_step.
  assert (K3 : keeps (stored (id tx))
            (mapM (fun '(output, index) =>
               mapM (ScannerSync._importUnconfirmedTx_output (id tx) client output index)
                    (addresses output))
               (ScannerSync.indexed (outputs tx)))) by repeat frame_stored_step.
  specialize (K2 e1). rewrite H2 in K2. specialize (K3 e2). rewrite H3 in K3.
  simpl in K2, K3. unfold stored in *. rewrite Hd. congruence.
Qed.

Lemma keeps_db_orphan (txid : string) (deps_ : list string) :
  keeps db (ScannerSync._importUnconfirmedTx_orphan txid deps_).
Proof.
  unfold ScannerSync._importUnconfirmedTx_orphan.
  apply keeps_bind; [apply keeps_modify; reflexivity | intros _].
  apply keeps_bind; [| intros _; apply keeps_ret].
  apply keeps_forEach. intros dep. apply keeps_modify. reflexivity.
Qed.

Lemma keeps_locked_orphan (txid : string) (deps_ : list string) :
  keeps locked (ScannerSync._importUnconfirmedTx_orphan txid deps_).
Proof.
  unfold ScannerSync._importUnconfirmedTx_orphan.
  apply keeps_bind; [apply keeps_modify; reflexivity | intros _].
  apply keeps_bind; [| intros _; apply keeps_ret].
  apply keeps_forEach. intros dep. apply keeps_modify. reflexivity.
Qed.

(** ** The four ways in which the unconfirmed import ends *)

Lemma bind_cases {A B : Type} (m : M A) (k : A -> M B) (e : env) :
  (exists a e1, m e = (Ok a, e1) /\ bind m k e = k a e1)
  \/ (exists msg e1, m e = (Err msg, e1) /\ bind m k e = (Err msg, e1)).
Proof.
  unfold bind. destruct (m e) as [[a | msg] e1]; [left | right]; eauto.
Qed.

(** Case analysis on the first computation of the sequence that is run. *)
Ltac step_bind H :=
  match goal with
  | |- context [bind ?m ?k ?e] =>
      let a := fresh "a" in
      let e1 := fresh "e" in
      let msg := fresh "msg" in
      let Hb := fresh "Hb" in
      destruct (bind_cases m k e) as [(a & e1 & H & Hb) | (msg & e1 & H & Hb)];
      rewrite Hb; clear Hb; cbv beta
  end.

Lemma import_outcome (tx : Transaction) (e : env) :
  exists b e',
    ScannerSync._importUnconfirmedTx tx e = (Ok b, e')
    /\ locked e' = locked e ++ [Keyed (uniq (map prevTxId (inputs tx)) ++ [id tx])]
    /\ ((b = true /\ stored (id tx) e = true /\ db e' = db e
         /\ orphanedTx e' = orphanedTx e)
        \/ (b = false /\ stored (id tx) e = false /\ missing tx e <> []
            /\ db e' = db e
            /\ (forall c, parents (orphanedTx e') c
                          = if decide (id tx = c) then missing tx e
                            else parents (orphanedTx e) c)
            /\ (forall c p, In c (children (orphanedTx e') p)
                            <-> In c (children (orphanedTx e) p)
                                \/ (In p (missing tx e) /\ c = id tx)))
        \/ (b = true /\ stored (id tx) e = false /\ missing tx e = []
            /\ stored (id tx) e' = true /\ orphanedTx e' = orphanedTx e)
        \/ (b = false /\ db e' = db e /\ orphanedTx e' = orphanedTx e
            /\ (faults e <> [] \/ (stored (id tx) e = false /\ missing tx e = [])))).
Proof.
  unfold ScannerSync._importUnconfirmedTx, ScannerSync.withLock.
  rewrite bind_modify.
  set (keys := uniq (map prevTxId (inputs tx)) ++ [id tx]).
  set (e0 := with_locked e (locked e ++ [Keyed keys])).
  unfold catch, Storage.executeTransaction, Storage.settle, Storage.queryAsync.
  set (ei := with_pending e0 []).
  unfold SQL.select_transactions_exists, SQL.select_transactions_existsMany.
  step_bind H1.
  - apply run_reading_ok in H1 as [-> ->].
    rewrite bytea_hex, count_is_zero, negb_involutive.
    change (SQL.tx_exists (id tx) (db ei)) with (stored (id tx) e).
    destruct (stored (id tx) e) eqn:Est.
    + (* the transaction is stored already *)
      eexists _, _. split; [reflexivity |]. split; [reflexivity |].
      left. repeat split; reflexivity.
    + step_bind H2.
      * apply run_reading_ok in H2 as [-> ->].
        change (db (with_db (with_faults ei (tail (faults ei))) (db ei))) with (db e).
        rewrite (deps_are_missing tx e).
        match goal with
        | |- context [(if _ then _ else ScannerSync._importUnconfirmedTx_import _ _) ?x] =>
            set (e2 := x)
        end.
        destruct (missing tx e) as [| p ps] eqn:Em.
        -- (* every parent is stored: import *)
           cbn [length Nat.ltb Nat.leb].
           pose proof (keeps_orphanedTx_import tx JClient e2) as Ho.
           pose proof (keeps_locked_import tx JClient e2) as Hl.
           destruct (ScannerSync._importUnconfirmedTx_import tx JClient e2)
             as [[b | msg] e3] eqn:H3; simpl in Ho, Hl.
           ++ destruct (import_stores tx JClient e2 b e3 I H3) as [-> Hst].
              eexists _, _. split; [reflexivity |]. split; [exact Hl |].
              right. right. left. repeat split; [exact Hst | exact Ho].
           ++ eexists _, _. split; [reflexivity |]. split; [exact Hl |].
              right. right. right. repeat split; [exact Ho |]. right. split; reflexivity.
        -- (* a parent is missing: register as an orphan *)
           cbn [length Nat.ltb Nat.leb].
           destruct (orphan_registers (id tx) (p :: ps) e2) as (e3 & Hrun & Hp & Hc).
           pose proof (keeps_db_orphan (id tx) (p :: ps) e2) as Hd.
           pose proof (keeps_locked_orphan (id tx) (p :: ps) e2) as Hl.
           rewrite Hrun in Hd, Hl |- *. simpl in Hd, Hl.
           eexists _, _. split; [reflexivity |]. split; [exact Hl |].
           right. left. repeat split; [discriminate | exact Hd | exact Hp | apply Hc | apply Hc].
      * apply run_reading_err in H2 as [Hf ->].
        eexists _, _. split; [reflexivity |]. split; [reflexivity |].
        right. right. right. repeat split. left.
        simpl in Hf. destruct (faults e); [exact Hf | discriminate].
  - apply run_reading_err in H1 as [Hf ->].
    eexists _, _. split; [reflexivity |]. split; [reflexivity |].
    right. right. right. repeat split. left. exact Hf.
Qed.

Import Registry Worlds.

(** ** The claims about the unconfirmed import and the registry *)

Lemma symmetricb_sound (o : OrphanedTx) : symmetricb o = true -> symmetric o.
Proof.
  unfold symmetricb. rewrite andb_true_iff, !forallb_forall. intros [H1 H2] c p. split.
  - intros Hc. unfold children in Hc.
    destruct (orphans o !! p) as [cs |] eqn:E; simpl in Hc; [| contradiction].
    assert (Hin : In (p, cs) (map_to_list (orphans o))).
    { apply list_elem_of_In, elem_of_map_to_list, E. }
    specialize (H1 _ Hin). simpl in H1. rewrite forallb_forall in H1.
    apply mem_In, H1, Hc.
  - intros Hp. unfold parents in Hp.
    destruct (deps o !! c) as [ps |] eqn:E; simpl in Hp; [| contradiction].
    assert (Hin : In (c, ps) (map_to_list (deps o))).
    { apply list_elem_of_In, elem_of_map_to_list, E. }
    specialize (H2 _ Hin). simpl in H2. rewrite forallb_forall in H2.
    apply mem_In, H2, Hp.
Qed.

Lemma import_symmetric (tx : Transaction) (e : env) :
  symmetric (orphanedTx e) ->
  (forall p, In p (parents (orphanedTx e) (id tx)) -> In p (missing tx e)) ->
  symmetric (orphanedTx (snd (ScannerSync._importUnconfirmedTx tx e))).
Proof.
  intros Hsym Hold.
  destruct (import_outcome tx e) as (b & e' & -> & _ & Hcase). simpl.
  destruct Hcase as [(_ & _ & _ & ->) | [(_ & _ & _ & _ & Hp & Hc) |
                     [(_ & _ & _ & _ & ->) | (_ & _ & -> & _)]]]; try exact Hsym.
  exact (register_symmetric _ _ _ _ Hsym Hold Hp Hc).
Qed.

(** C6, as the code has it: resolution in [_importOrphaned] keeps the
    registry symmetric; registration in [_importUnconfirmedTx] keeps it
    symmetric when every parent recorded for the transaction so far is still
    among the missing ones (as when the transaction is not registered yet).
    Registration replaces [deps[txid]] and only ever adds to the [orphans]
    lists. *)
Theorem orphan_registry_symmetry_preserved (e : env)
    (Hsym : symmetric (orphanedTx e)) :
  (forall txid, symmetric (orphanedTx (snd (ScannerSync._importOrphaned txid e))))
  /\ (forall tx,
        (forall p, In p (parents (orphanedTx e) (id tx)) -> In p (missing tx e)) ->
        symmetric (orphanedTx (snd (ScannerSync._importUnconfirmedTx tx e)))).
Proof.
  split.
  - intros txid. apply importOrphaned_symmetric, Hsym.
  - intros tx Hold. apply import_symmetric; assumption.
Qed.

(** The theorem at the world in which [c2] waits for [b1] and [d3]. *)
Lemma orphan_registry_symmetry_preserved_witness :
  symmetric (orphanedTx world_c2)
  /\ (forall txid, symmetric (orphanedTx (snd (ScannerSync._importOrphaned txid world_c2))))
  /\ (forall tx,
        (forall p, In p (parents (orphanedTx world_c2) (id tx))
                   -> In p (missing tx world_c2)) ->
        symmetric (orphanedTx (snd (ScannerSync._importUnconfirmedTx tx world_c2)))).
Proof.
  assert (H : symmetric (orphanedTx world_c2)).
  { apply symmetricb_sound. vm_compute. reflexivity. }
  split; [exact H | apply (orphan_registry_symmetry_preserved world_c2 H)].
Defined.

(** C6 as stated fails: [c2] is deferred on [b1] and [d3]; [b1] is then
    imported, which queues [_importOrphaned("b1")]; when [c2] is announced
    again before that task runs, its registration overwrites [deps["c2"]]
    with [["d3"]] and leaves it in [orphans["b1"]]. *)
Lemma orphan_registry_asymmetric_after_reregistration :
  symmetric (orphanedTx world_c2_b1)
  /\ immediates world_c2_b1 = [ImportOrphaned "b1"]
  /\ In "c2" (children (orphanedTx world_c2_b1_c2) "b1")
  /\ ~ In "b1" (parents (orphanedTx world_c2_b1_c2) "c2")
  /\ ~ symmetric (orphanedTx world_c2_b1_c2).
Proof.
  assert (Hc : In "c2" (children (orphanedTx world_c2_b1_c2) "b1")).
  { vm_compute. left. reflexivity. }
  assert (Hp : ~ In "b1" (parents (orphanedTx world_c2_b1_c2) "c2")).
  { vm_compute. intros [H | []]. discriminate H. }
  split; [apply symmetricb_sound; vm_compute; reflexivity |].
  split; [vm_compute; reflexivity |].
  split; [exact Hc | split; [exact Hp |]].
  intros Hsym. exact (Hp (proj1 (Hsym "c2" "b1") Hc)).
Qed.

Import Registry Worlds Outcomes.

(** C3, as the code has it: [_importUnconfirmedTx] never rejects; it
    resolves to a boolean.  [true] means that the transaction is stored when
    it returns: it was stored already (nothing is written), or it has just
    been imported.  [false] means that nothing has been written: a parent is
    missing and the transaction has been registered as an orphan, or a
    statement failed, the transaction was rolled back and the error was
    caught (and logged) inside. *)
Theorem importUnconfirmedTx_resolves_to_boolean (tx : Transaction) (e : env) :
  exists b e',
    ScannerSync._importUnconfirmedTx tx e = (Ok b, e')
    /\ (b = true -> stored (id tx) e' = true)
    /\ (b = false -> db e' = db e)
    /\ (faults e = [] -> stored (id tx) e = true -> b = true /\ db e' = db e)
    /\ (faults e = [] -> stored (id tx) e = false -> missing tx e <> [] ->
        b = false /\ parents (orphanedTx e') (id tx) = missing tx e)
    /\ (stored (id tx) e = false -> b = true -> missing tx e = []).
Proof.
  destruct (import_outcome tx e) as (b & e' & Hrun & _ & Hcase).
  exists b, e'. split; [exact Hrun |].
  destruct Hcase as [(-> & Hst & Hdb & _) | [(-> & Hst & Hm & Hdb & Hp & _) |
                     [(-> & Hst & Hm & Hst' & _) | (-> & Hdb & _ & Hwhy)]]].
  - repeat split; intros; try congruence.
    unfold stored in *. rewrite Hdb. exact Hst.
  - repeat split; intros; try congruence.
    rewrite Hp. destruct (decide (id tx = id tx)); congruence.
  - repeat split; intros; congruence.
  - repeat split; intros; try congruence; destruct Hwhy as [? | [? ?]]; congruence.
Qed.

(** C3 as stated fails: importing [b1] and finding it stored give the same
    [true]; deferring [c2] and losing the connection give the same [false],
    and the lost connection is not surfaced. *)
Lemma importUnconfirmedTx_outcomes_not_distinguished :
  stored "b1" (fresh db_a0) = false
  /\ fst (ScannerSync._importUnconfirmedTx tx_b1 (fresh db_a0)) = Ok true
  /\ stored "b1" (fresh db_a0_b1) = true
  /\ fst (ScannerSync._importUnconfirmedTx tx_b1 (fresh db_a0_b1)) = Ok true
  /\ missing tx_c2 (fresh db_a0) = ["b1"; "d3"]
  /\ fst (ScannerSync._importUnconfirmedTx tx_c2 (fresh db_a0)) = Ok false
  /\ fst (ScannerSync._importUnconfirmedTx tx_b1 (with_faults (fresh db_a0) [true]))
     = Ok false.
Proof. vm_compute. repeat split; reflexivity. Qed.

(** ** Coinbase inputs *)

Ltac frame_more_step :=
  match goal with
  | |- keeps _ (modify _) => apply keeps_modify; intros; reflexivity
  | |- keeps _ (ScannerSync._importBlock_exists _ _) =>
      unfold ScannerSync._importBlock_exists
  | |- keeps _ (ScannerSync._importBlock_tx _ _ _ _ _) =>
      unfold ScannerSync._importBlock_tx
  | |- keeps _ (ScannerSync._importBlock_input _ _ _ _ _ _ _) =>
      unfold ScannerSync._importBlock_input
  | |- keeps _ (ScannerSync._getLatest _) => unfold ScannerSync._getLatest
  | |- keeps _ (ScannerSync._runBlockImport_remove _ _) =>
      unfold ScannerSync._runBlockImport_remove
  | _ => frame_step
  end.

Ltac frame_more := repeat frame_more_step.

Lemma keeps_orphanedTx_importBlock (block : Block) (height : Z) (client : jsval) :
  keeps orphanedTx (ScannerSync._importBlock block height client).
Proof. unfold ScannerSync._importBlock, ScannerSync.withLock. frame_more. Qed.

Lemma importBlock_locks (block : Block) (height : Z) (client : jsval) (e : env) :
  locked (snd (ScannerSync._importBlock block height client e))
  = locked e ++ [Keyed (ScannerSync.allTxIds block)].
Proof.
  unfold ScannerSync._importBlock, ScannerSync.withLock. rewrite bind_modify.
  match goal with
  | |- locked (snd (?m ?x)) = _ =>
      assert (K : keeps locked m) by frame_more; rewrite K
  end.
  reflexivity.
Qed.

Lemma allTxIds_has_parents (block : Block) (tx : Transaction) (input : Input) :
  In tx (Bitcore.transactions block) -> In input (inputs tx) ->
  In (prevTxId input) (ScannerSync.allTxIds block).
Proof.
  intros Htx Hin. unfold ScannerSync.allTxIds. rewrite uniq_In, in_app_iff. left.
  apply in_concat. exists (map prevTxId (inputs tx)). split.
  - apply in_map_iff. exists tx. split; [reflexivity | exact Htx].
  - apply in_map, Hin.
Qed.

(** C5 as stated fails in the unconfirmed path: for the coinbase transaction
    [cb] the zero hash is one of the keys locked, it is looked up as a
    parent, and [cb] is deferred as an orphan that waits for it. *)
Lemma coinbase_input_defers_unconfirmed_import :
  let r := ScannerSync._importUnconfirmedTx tx_cb (fresh db_a0) in
  fst r = Ok false
  /\ locked (snd r) = [Keyed [ZERO_HASH; "cb"]]
  /\ parents (orphanedTx (snd r)) "cb" = [ZERO_HASH]
  /\ children (orphanedTx (snd r)) ZERO_HASH = ["cb"]
  /\ stored "cb" (snd r) = false.
Proof. vm_compute. repeat split; reflexivity. Qed.

Import Rollback.

(** ** Statements, one at a time *)

Lemma run_statement_ok {A : Type} (stmt : SQL.statement A) (e e1 : env) (a : A) :
  Storage.run_statement stmt e = (Ok a, e1) ->
  stmt (db e) = Ok (a, db e1) /\ e1 = with_db (with_faults e (tail (faults e))) (db e1).
Proof.
  unfold Storage.run_statement.
  destruct (faults e) as [| [|] later]; try discriminate;
    destruct (stmt (db e)) as [[a' d] | msg]; intros H; try discriminate;
    injection H as <- <-; split; reflexivity.
Qed.

Lemma ensures_statement {A : Type} (stmt : SQL.statement A) (d : database)
    (p : list event) :
  ensures (fun e => db e = d /\ pending e = p) (Storage.run_statement stmt)
          (fun a e' => stmt d = Ok (a, db e') /\ pending e' = p).
Proof.
  intros e a e' [<- <-] Hrun. apply run_statement_ok in Hrun as [Hs He].
  split; [exact Hs |]. rewrite He. reflexivity.
Qed.

Lemma ensures_notify_client (ch : string) (payload_ client : jsval) (d : database)
    (p : list event) :
  ensures (fun e => db e = d /\ pending e = p)
          (Messages.notify ch payload_ (ScannerSync.client_opts client))
          (fun _ e' => db e' = d
                       /\ pending e' = p ++ [{| channel := ch; payload := payload_ |}]).
Proof.
  unfold Messages.notify, ScannerSync.client_opts. simpl.
  eapply ensures_bind.
  - apply ensures_statement.
  - intros []. intros e a e' [Hs Hp] Hrun. unfold Messages.NOTIFY, SQL.reading in Hs.
    injection Hs as Hd. unfold modify in Hrun. injection Hrun as _ <-. simpl.
    split; [congruence | rewrite Hp; reflexivity].
Qed.

(** ** Going through without faults *)

Lemma flawless_ret {A : Type} (a : A) : flawless (ret a).
Proof. intros e Hf. exists a, e. split; [reflexivity | exact Hf]. Qed.

Lemma flawless_bind {A B : Type} (m : M A) (k : A -> M B) :
  flawless m -> (forall a, flawless (k a)) -> flawless (bind m k).
Proof.
  intros Hm Hk e Hf. destruct (Hm e Hf) as (a & e1 & Hrun & Hf1).
  rewrite (bind_ok _ _ _ _ _ Hrun). apply Hk, Hf1.
Qed.

Lemma flawless_forEach {A : Type} (g : A -> M unit) (l : list A) :
  (forall x, flawless (g x)) -> flawless (forEach g l).
Proof.
  intros Hg. induction l as [| x l IH]; simpl.
  - apply flawless_ret.
  - apply flawless_bind; [apply Hg | intros _; exact IH].
Qed.

Lemma flawless_modify (g : env -> env) :
  (forall e, faults (g e) = faults e) -> flawless (modify g).
Proof. intros Hg e Hf. exists tt, (g e). split; [reflexivity | congruence]. Qed.

(** A statement that cannot fail by itself. *)
Lemma flawless_statement {A : Type} (stmt : SQL.statement A) :
  (forall d, exists a d', stmt d = Ok (a, d')) -> flawless (Storage.run_statement stmt).
Proof.
  intros Htotal e Hf. destruct (Htotal (db e)) as (a & d' & Hs).
  unfold Storage.run_statement. rewrite Hf, Hs. simpl.
  eexists _, _. split; reflexivity.
Qed.

Lemma flawless_notify (ch : string) (p opts : jsval) : flawless (Messages.notify ch p opts).
Proof.
  unfold Messages.notify. destruct (has opts "client").
  - apply flawless_bind.
    + apply flawless_statement. intros d. eexists _, _. reflexivity.
    + intros _. apply flawless_modify. reflexivity.
  - apply flawless_bind.
    + apply flawless_statement. intros d. eexists _, _. reflexivity.
    + intros _. apply flawless_modify. reflexivity.
Qed.

(** Without faults a call that has been started is fulfilled. *)
Lemma started_flawless {A : Type} (m : M A) (e : env) :
  flawless m -> faults e = [] ->
  exists a e', started m e = (Ok (Ok a), e') /\ faults e' = [].
Proof.
  intros Hm Hf. destruct (Hm e Hf) as (a & e' & Hrun & Hf').
  exists a, e'. unfold started. rewrite Hrun. split; [reflexivity | exact Hf'].
Qed.

Lemma started_all_flawless {A B : Type} (g : A -> M B) (l : list A) (e : env) :
  (forall x, flawless (g x)) -> faults e = [] ->
  exists ps e',
    mapM (fun x => started (g x)) l e = (Ok ps, e') /\ faults e' = []
    /\ Forall (fun p => p = Ok tt) (map settled ps).
Proof.
  intros Hg. revert e. induction l as [| x l IH]; intros e Hf; simpl.
  - exists [], e. repeat split; [exact Hf | constructor].
  - destruct (started_flawless (g x) e (Hg x) Hf) as (a & e1 & H1 & Hf1).
    destruct (IH e1 Hf1) as (ps & e2 & H2 & Hf2 & Hall).
    exists (Ok a :: ps), e2. rewrite (bind_ok _ _ _ _ _ H1), (bind_ok _ _ _ _ _ H2).
    repeat split; [exact Hf2 |]. constructor; [reflexivity | exact Hall].
Qed.

Import Rollback.

(** ** The rollback of a reorg *)

Lemma removeBlock_each (client : jsval) (rows : list block_row) (e e' : env) :
  forEach (fun row => Service.removeBlock (JStr (b_hash row)) (ScannerSync.client_opts client))
          rows e = (Ok tt, e') ->
  db e' = db e /\ pending e' = pending e ++ map removeblock rows.
Proof.
  revert e. induction rows as [| row rows IH]; intros e Hrun; simpl in Hrun.
  - injection Hrun as <-. rewrite app_nil_r. split; reflexivity.
  - apply bind_ok_inv in Hrun as ([] & e1 & H1 & Hrest).
    unfold Service.removeBlock in H1.
    destruct (ensures_notify_client _ _ _ (db e) (pending e) e tt e1
                (conj eq_refl eq_refl) H1) as [Hd Hp].
    destruct (IH e1 Hrest) as [Hd' Hp'].
    split; [congruence |]. rewrite Hp', Hp, <- app_assoc. reflexivity.
Qed.

Lemma rolled_back_blocks (f : Z) (l : list block_row) :
  List.filter (fun b => negb (f <? b_height b)) l
  = List.filter (fun b => b_height b <=? f) l.
Proof.
  apply filter_ext. intros b. rewrite Z.leb_antisym. reflexivity.
Qed.

Lemma rolled_back_tx_rows (f : Z) (l : list tx_row) :
  map (fun t => if SQL.above f (t_height t)
                then {| t_txid := t_txid t; t_height := None; t_tx := t_tx t |}
                else t) l
  = map (rolled_back_tx f) l.
Proof.
  apply map_ext. intros [txid height raw_]. unfold rolled_back_tx. simpl.
  destruct (SQL.above f height); reflexivity.
Qed.

Lemma rolled_back_history_rows (f : Z) (l : list history_row) :
  map (fun r => if SQL.above f (h_input_height r)
                then SQL.set_input (h_input_txid r) None r else r)
      (map (fun r => if SQL.above f (h_height r) then SQL.set_height None r else r) l)
  = map (rolled_back_history f) l.
Proof.
  rewrite map_map. apply map_ext. intros r. destruct r as [a t i v s h it ih].
  unfold rolled_back_history. simpl.
  destruct (SQL.above f h); simpl; destruct (SQL.above f ih); reflexivity.
Qed.

(** The rollback, lines 392-416, when the walk back has stopped at a block
    other than the stored latest one; [f] is the height that it hands to
    its statements. *)
Lemma reorg_rollback_run (this_latest latest : ScannerSync.Latest)
    (e : env)
    (Hreorg : ScannerSync.latest_hash latest <> ScannerSync.latest_hash this_latest) :
  let f := ScannerSync.latest_height latest - 1 in
  let r := ScannerSync._runBlockImport_reorg this_latest latest e in
  locked (snd r) = locked e ++ [Exclusive]
  /\ (forall l, fst r = Ok l ->
        blocks (db (snd r)) = List.filter (fun b => b_height b <=? f) (blocks (db e))
        /\ transactions (db (snd r)) = map (rolled_back_tx f) (transactions (db e))
        /\ history (db (snd r)) = map (rolled_back_history f) (history (db e))
        /\ delivered (snd r)
           = delivered e
             ++ map removeblock (List.filter (fun b => f <? b_height b) (blocks (db e)))
        /\ pending (snd r) = pending e)
  /\ (forall msg, fst r = Err msg ->
        db (snd r) = db e /\ delivered (snd r) = delivered e /\ pending (snd r) = pending e)
  /\ (faults e = [] -> exists l, fst r = Ok l).
Proof.
  intros f r. subst r. unfold ScannerSync._runBlockImport_reorg.
  apply String.eqb_neq in Hreorg. rewrite Hreorg. cbn [negb].
  unfold ScannerSync.reorgLock. rewrite bind_modify.
  set (e0 := with_locked e (locked e ++ [Exclusive])).
  match goal with
  | |- context [Storage.executeTransaction ?b e0] => set (body_ := b)
  end.
  unfold Storage.executeTransaction, Storage.settle.
  set (body := body_ JClient). set (ei := with_pending e0 []).
  assert (Kd : keeps delivered body).
  { subst body body_. cbv beta. unfold ScannerSync._getLatest. simpl.
    repeat (frame_more_step || apply keeps_delivered_notify). }
  assert (Kl : keeps locked body).
  { subst body body_. cbv beta. unfold ScannerSync._getLatest. simpl. frame_more. }
  assert (F : flawless body).
  { subst body body_. cbv beta. unfold ScannerSync._getLatest, Storage.queryAsync. simpl.
    repeat first
      [ apply flawless_bind; [| intros ?]
      | apply flawless_forEach; intros ?
      | apply flawless_notify
      | apply flawless_ret
      | apply flawless_statement; intros ?; eexists _, _; reflexivity
      | apply flawless_modify; reflexivity
      | match goal with |- flawless (match ?x with _ => _ end) => destruct x end ]. }
  specialize (Kd ei). specialize (Kl ei).
  destruct (body ei) as [[l | msg] e'] eqn:Hrun; simpl in Kd, Kl |- *.
  - split; [exact Kl |]. split; [| split; [discriminate | eauto]].
    intros l' _. subst body body_. cbv beta in Hrun.
    unfold Storage.queryAsync in Hrun.
    apply bind_ok_inv in Hrun as (rows & e1 & H1 & Hrun).
    apply run_statement_ok in H1 as [Hs1 He1].
    unfold SQL.select_fromHeight, SQL.reading in Hs1. injection Hs1 as Hrows Hd1.
    apply bind_ok_inv in Hrun as ([] & e2 & H2 & Hrun).
    apply run_statement_ok in H2 as [Hs2 He2].
    unfold SQL.delete_blocks_fromHeight in Hs2. injection Hs2 as Hd2.
    apply bind_ok_inv in Hrun as ([] & e3 & H3 & Hrun).
    apply run_statement_ok in H3 as [Hs3 He3].
    unfold SQL.update_transactions_makeUnconfirmed in Hs3. injection Hs3 as Hd3.
    apply bind_ok_inv in Hrun as ([] & e4 & H4 & Hrun).
    apply run_statement_ok in H4 as [Hs4 He4].
    unfold SQL.update_history_makeOutputsUnconfirmed in Hs4. injection Hs4 as Hd4.
    apply bind_ok_inv in Hrun as ([] & e5 & H5 & Hrun).
    apply removeBlock_each in H5 as [Hd5 Hp5].
    apply bind_ok_inv in Hrun as ([] & e6 & H6 & Hrun).
    apply run_statement_ok in H6 as [Hs6 He6].
    unfold SQL.update_history_makeInputsUnconfirmed in Hs6. injection Hs6 as Hd6.
    assert (Kdb : keeps db (ScannerSync._getLatest (ScannerSync.client_opts JClient))).
    { unfold ScannerSync._getLatest. simpl. frame_more.
      apply keeps_run_statement; [reflexivity |].
      intros x a d H. unfold SQL.select_blocks_latest, SQL.reading in H.
      injection H as _ <-. destruct x; reflexivity. }
    assert (Kp : keeps pending (ScannerSync._getLatest (ScannerSync.client_opts JClient))).
    { unfold ScannerSync._getLatest. simpl. frame_more. }
    specialize (Kdb e6). specialize (Kp e6). rewrite Hrun in Kdb, Kp. simpl in Kdb, Kp.
    assert (Hp6 : pending e6 = map removeblock rows).
    { rewrite He6. simpl. rewrite Hp5, He4, He3, He2, He1. reflexivity. }
    assert (Hdb1 : db e1 = db e) by (rewrite <- Hd1; reflexivity).
    rewrite Kdb, <- Hd6, Hd5, <- Hd4, <- Hd3, <- Hd2, Hdb1. simpl.
    rewrite rolled_back_blocks, rolled_back_tx_rows, rolled_back_history_rows.
    repeat split; try reflexivity.
    rewrite Kd, Kp, Hp6, <- Hrows. reflexivity.
  - split; [exact Kl |]. split; [discriminate |]. split.
    + intros _ _. repeat split. exact Kd.
    + intros Hf. destruct (F ei Hf) as (a & e'' & Hok & _). congruence.
Qed.

Import Rollback Chain.

Import Colors.

(** ** The colored-coin rescanner *)

(** C4: the template literal in [removeTxs] is [`epobc:${txId}:\d+:0`], and
    in a template literal [\d] is the letter [d]: the pattern handed to the
    statement is [epobc:<txid>:d+:0], a run of the letter [d] in the third
    field, not a run of digits.  For a scanned transaction that is the
    genesis of the definition [epobc:<txid>:0:0] the lookup finds nothing:
    the definition is not dropped, [removeColorValues] is called instead,
    and the color-scanned row is deleted.  The pattern with a digit class
    would have found the definition. *)
Theorem removeTxs_pattern_has_no_digit_class :
  (forall txId : string,
      cook "epobc:" +:+ txId +:+ cook ":\d+:0" = "epobc:" +:+ txId +:+ ":d+:0")
  /\ SQL.matches (cook "epobc:" +:+ genesis_txid +:+ cook ":\d+:0")
                 ("epobc:" +:+ genesis_txid +:+ ":0:0") = false
  /\ SQL.matches (cook "epobc:" +:+ genesis_txid +:+ cook ":\d+:0")
                 ("epobc:" +:+ genesis_txid +:+ ":dd:0") = true
  /\ SQL.matches ("epobc:" +:+ genesis_txid +:+ ":\d+:0")
                 ("epobc:" +:+ genesis_txid +:+ ":0:0") = true
  /\ (let r := ColorSync.removeTxs ["epobc"] [genesis_txid] (fresh colored_db) in
      fst r = Ok tt
      /\ color_calls (snd r) = [RemoveColorValues genesis_txid "epobc"]
      /\ cc_definitions (db (snd r)) = cc_definitions colored_db
      /\ cc_scanned (db (snd r)) = []).
Proof.
  split; [intros txId; reflexivity |].
  vm_compute. repeat split; reflexivity.
Qed.

Import Rescan Marking.

(** ** The walk back of the rescanner *)

Lemma keeps_db_reading {A : Type} (g : database -> A) :
  keeps db (Storage.run_statement (SQL.reading g)).
Proof.
  apply keeps_run_statement; [reflexivity |].
  intros e a d H. unfold SQL.reading in H. injection H as _ <-.
  destruct e; reflexivity.
Qed.

Lemma keeps_db_walkBack (fuel : nat) (client : jsval) (hash : string) (height : Z) :
  keeps db (ColorSync.walkBack fuel client hash height).
Proof.
  revert hash height. induction fuel as [| fuel IH]; intros hash height; simpl.
  - apply keeps_ret.
  - apply keeps_bind; [apply keeps_db_reading | intros rows].
    apply keeps_bind; [apply keeps_first_row | intros row].
    destruct (String.eqb hash (prevHash (b_header row))); [apply keeps_ret |].
    apply keeps_bind; [apply keeps_db_reading | intros rows'].
    apply keeps_bind; [apply keeps_first_row | intros hash'].
    apply IH.
Qed.

Lemma keeps_db_rollbackPoint (client : jsval) (latest_hash : string) (latest_height : Z)
    (core : block_row) :
  keeps db (ColorSync.rollbackPoint client latest_hash latest_height core).
Proof.
  unfold ColorSync.rollbackPoint.
  apply keeps_bind.
  - destruct (b_height core <=? latest_height); [| apply keeps_ret].
    apply keeps_bind; [apply keeps_db_reading | intros rows].
    apply keeps_bind; [apply keeps_first_row | intros hash; apply keeps_ret].
  - intros start. apply keeps_bind; [apply keeps_gets | intros fuel].
    apply keeps_bind; [apply keeps_db_walkBack | intros found].
    destruct found; [apply keeps_ret | apply keeps_throw].
Qed.

Lemma filter_length_lt {A : Type} (p q : A -> bool) (l : list A) (x : A) :
  (forall y, p y = true -> q y = true) ->
  In x l -> q x = true -> p x = false ->
  (length (List.filter p l) < length (List.filter q l))%nat.
Proof.
  intros Hpq Hin Hq Hp. induction l as [| y l IH]; [destruct Hin |].
  assert (Hle : forall l', (length (List.filter p l') <= length (List.filter q l'))%nat).
  { induction l' as [| z l' IH']; simpl; [lia |].
    destruct (p z) eqn:Ep.
    - rewrite (Hpq z Ep). simpl. lia.
    - destruct (q z); simpl; lia. }
  simpl. destruct Hin as [-> | Hin].
  - rewrite Hp, Hq. simpl. specialize (Hle l). lia.
  - specialize (IH Hin). destruct (p y) eqn:Ep.
    + rewrite (Hpq y Ep). simpl. lia.
    + destruct (q y); simpl; lia.
Qed.

(** The walk back comes to an end: with more fuel than there are block rows
    at or below the height it looks at, it never runs out. *)
Lemma walkBack_has_fuel (fuel : nat) (client : jsval) (hash : string) (height : Z)
    (e : env) :
  (length (List.filter (fun b => (b_height b <=? height + 1)%Z) (blocks (db e))) < fuel)%nat ->
  fst (ColorSync.walkBack fuel client hash height e) <> Ok None.
Proof.
  revert hash height e. induction fuel as [| fuel IH]; intros hash height e Hlen; [lia |].
  cbn [ColorSync.walkBack]. unfold Storage.queryAsync.
  destruct (bind_cases
              (Storage.run_statement (SQL.select_blocks_txIdsByHeight (height + 1)))
              (fun result =>
                 row <- first_row result ;;
                 if String.eqb hash (prevHash (b_header row))
                 then ret (Some (hash, height, row))
                 else
                   rows <- Storage.run_statement
                             (SQL.select_ccScannedTxIds_blockHash (height - 1)) ;;
                   hash0 <- first_row rows ;;
                   ColorSync.walkBack fuel client hash0 (height - 1)) e)
    as [(rows & e1 & H1 & ->) | (msg & e1 & _ & ->)]; [| discriminate].
  apply run_reading_ok in H1 as [-> ->].
  destruct (List.filter (fun b => b_height b =? height + 1) (blocks (db e)))
    as [| row rows] eqn:Erows; [discriminate |].
  cbn [first_row]. rewrite bind_ret.
  destruct (String.eqb hash (prevHash (b_header row))); [discriminate |].
  match goal with
  | |- fst (bind ?m ?k ?x) <> _ =>
      destruct (bind_cases m k x) as [(rows' & e2 & H2 & ->) | (msg & e2 & _ & ->)];
        [| discriminate]
  end.
  apply run_reading_ok in H2 as [-> ->].
  match goal with
  | |- fst (bind (first_row ?l) _ _) <> _ => destruct l as [| hash' ?]; [discriminate |]
  end.
  cbn [first_row]. rewrite bind_ret. apply IH. simpl.
  assert (Hrow : In row (blocks (db e)) /\ b_height row = height + 1).
  { assert (Hin : In row (List.filter (fun b => b_height b =? height + 1) (blocks (db e)))).
    { rewrite Erows. left. reflexivity. }
    apply filter_In in Hin as [Hin Heq]. split; [exact Hin | lia]. }
  destruct Hrow as [Hin Hh].
  pose proof (filter_length_lt (fun b => b_height b <=? height - 1 + 1)
                               (fun b => b_height b <=? height + 1)
                               (blocks (db e)) row) as Hlt.
  assert (length (List.filter (fun b => (b_height b <=? height - 1 + 1)%Z) (blocks (db e)))
          < length (List.filter (fun b => (b_height b <=? height + 1)%Z)
                                (blocks (db e))))%nat.
  { apply Hlt; [intros y Hy; lia | exact Hin | lia | lia]. }
  lia.
Qed.

(** The fuel that [rollbackPoint] hands over is enough. *)
Lemma rollbackPoint_has_fuel (client : jsval) (hash : string) (height : Z) (e : env) :
  fst (ColorSync.walkBack (S (length (blocks (db e)))) client hash height e) <> Ok None.
Proof.
  apply walkBack_has_fuel.
  pose proof (filter_length_le (fun b => (b_height b <=? height + 1)%Z) (blocks (db e))).
  lia.
Qed.

Import Rescan Marking.

Lemma unconfirmed_above_none (height : Z) (l : list cc_row) :
  Forall (fun c => SQL.above height (c_height c) = false)
         (map (unconfirmed_above height) l).
Proof.
  apply List.Forall_forall. intros c Hin. apply in_map_iff in Hin as (c0 & <- & _).
  unfold unconfirmed_above. destruct (SQL.above height (c_height c0)) eqn:Ea.
  - reflexivity.
  - exact Ea.
Qed.

Lemma run_as_pair {A : Type} (m : M A) (e : env) (a : A) :
  fst (m e) = Ok a -> m e = (Ok a, snd (m e)).
Proof. destruct (m e) as [r e']. simpl. intros ->. reflexivity. Qed.

Lemma bind_statement {A B : Type} (stmt : SQL.statement A) (k : A -> M B) (e : env) :
  bind (Storage.run_statement stmt) k e
  = match faults e with
    | true :: later => (Err "connection lost", with_faults e later)
    | _ => match stmt (db e) with
           | Ok (a, d) => k a (with_db (with_faults e (tail (faults e))) d)
           | Err msg => (Err msg, with_faults e (tail (faults e)))
           end
    end.
Proof.
  unfold bind, Storage.run_statement.
  destruct (faults e) as [| [|] later]; try reflexivity;
    destruct (stmt (db e)) as [[a d] | msg]; reflexivity.
Qed.

(** C8: in a turn of [updateBlocks] that reads the latest scanned block
    [(latest_hash, latest_height)], finds the core's latest block to be
    another one, and walks back to a point [(hash, height)] whose hash is not
    [latest_hash]: the statement that marks the rows above [height] as
    unconfirmed is sent next.  If it fails the turn fails, and its
    transaction leaves the tables as they were; otherwise the scan of the
    next block, which is the only part of the turn that adds or confirms
    color-scanned rows, starts from tables in which every color-scanned row
    above [height] has blockhash and height null. *)
Theorem updateBlocks_unconfirms_before_scanning (cdefClss : list string) (e : env)
    (latest_hash : string) (latest_height : Z) (others : list (string * Z))
    (core : block_row) (more : list block_row)
    (hash : string) (height : Z) (row : block_row) :
  let r1 := Storage.queryAsync JClient SQL.select_ccScannedTxIds_latestBlock
              (with_pending e []) in
  let r2 := Storage.queryAsync JClient SQL.select_blocks_latest (snd r1) in
  let r3 := ColorSync.rollbackPoint JClient latest_hash latest_height core (snd r2) in
  let marked := with_cc_scanned (db e)
                  (map (unconfirmed_above height) (cc_scanned (db e))) in
  fst r1 = Ok ((latest_hash, latest_height) :: others) ->
  fst r2 = Ok (core :: more) ->
  latest_hash <> b_hash core ->
  fst r3 = Ok (hash, height, row) ->
  hash <> latest_hash ->
  db (snd r3) = db e
  /\ Forall (fun c => SQL.above height (c_height c) = false) (cc_scanned marked)
  /\ ((exists later,
         faults (snd r3) = true :: later
         /\ fst (ColorSync.updateBlocks_turn cdefClss e) = Err "connection lost"
         /\ db (snd (ColorSync.updateBlocks_turn cdefClss e)) = db e)
      \/ (hd false (faults (snd r3)) = false
          /\ ColorSync.updateBlocks_turn cdefClss e
             = Storage.settle e
                 ((ColorSync.scanBlock cdefClss JClient row ;; ret true)
                    (with_db (with_faults (snd r3) (tail (faults (snd r3)))) marked)))).
Proof.
  intros r1 r2 r3 marked H1 H2 Hcore H3 Hreorg.
  assert (Hdb : db (snd r3) = db e).
  { unfold r3. rewrite keeps_db_rollbackPoint.
    unfold r2, Storage.queryAsync, SQL.select_blocks_latest. rewrite keeps_db_reading.
    unfold r1, Storage.queryAsync, SQL.select_ccScannedTxIds_latestBlock.
    rewrite keeps_db_reading. reflexivity. }
  split; [exact Hdb |]. split; [apply unconfirmed_above_none |].
  apply run_as_pair in H1, H2, H3. fold r1 in H1. fold r2 in H2. fold r3 in H3.
  apply String.eqb_neq in Hcore, Hreorg.
  assert (Hturn : ColorSync.updateBlocks_turn cdefClss e
                  = Storage.settle e
                      ((Storage.queryAsync JClient
                          (SQL.update_ccScannedTxIds_makeUnconfirmed height) ;;
                        ColorSync.scanBlock cdefClss JClient row ;; ret true) (snd r3))).
  { unfold ColorSync.updateBlocks_turn, Storage.executeTransaction. f_equal.
    rewrite (bind_ok _ _ _ _ _ H1). cbv beta iota.
    rewrite (bind_ok _ _ _ _ _ H2). cbn [first_row]. rewrite bind_ret.
    rewrite Hcore. rewrite (bind_ok _ _ _ _ _ H3). cbv beta iota.
    rewrite Hreorg. reflexivity. }
  rewrite Hturn. unfold Storage.queryAsync. rewrite bind_statement.
  unfold SQL.update_ccScannedTxIds_makeUnconfirmed.
  destruct (faults (snd r3)) as [| [|] later] eqn:Ef.
  - right. split; [reflexivity |]. rewrite Hdb. reflexivity.
  - left. exists later. repeat split; reflexivity.
  - right. split; [reflexivity |]. rewrite Hdb. reflexivity.
Qed.

(** The theorem in scenario S6: the scan is rolled back to [(k3, 3)]. *)
Lemma updateBlocks_unconfirms_before_scanning_witness :
  let e := fresh s6_db in
  let core := core_block 4 "k4b" "k3" new_txid in
  let r1 := Storage.queryAsync JClient SQL.select_ccScannedTxIds_latestBlock
              (with_pending e []) in
  let r2 := Storage.queryAsync JClient SQL.select_blocks_latest (snd r1) in
  let r3 := ColorSync.rollbackPoint JClient "k5" 5 core (snd r2) in
  let marked := with_cc_scanned (db e) (map (unconfirmed_above 3) (cc_scanned (db e))) in
  (fst r1 = Ok [("k5", 5)]
   /\ fst r2 = Ok [core]
   /\ "k5" <> b_hash core
   /\ fst r3 = Ok ("k3", 3, core)
   /\ "k3" <> "k5")
  /\ (db (snd r3) = db e
      /\ Forall (fun c => SQL.above 3 (c_height c) = false) (cc_scanned marked)
      /\ ((exists later,
             faults (snd r3) = true :: later
             /\ fst (ColorSync.updateBlocks_turn ["epobc"] e) = Err "connection lost"
             /\ db (snd (ColorSync.updateBlocks_turn ["epobc"] e)) = db e)
          \/ (hd false (faults (snd r3)) = false
              /\ ColorSync.updateBlocks_turn ["epobc"] e
                 = Storage.settle e
                     ((ColorSync.scanBlock ["epobc"] JClient core ;; ret true)
                        (with_db (with_faults (snd r3) (tail (faults (snd r3))))
                                 marked))))).
Proof.
  intros e core r1 r2 r3 marked.
  assert (H1 : fst r1 = Ok [("k5", 5)]) by (vm_compute; reflexivity).
  assert (H2 : fst r2 = Ok [core]) by (vm_compute; reflexivity).
  assert (H3 : "k5" <> b_hash core) by (simpl; discriminate).
  assert (H4 : fst r3 = Ok ("k3", 3, core)) by (vm_compute; reflexivity).
  assert (H5 : "k3" <> "k5") by discriminate.
  split; [repeat split; assumption |].
  exact (updateBlocks_unconfirms_before_scanning ["epobc"] e "k5" 5 [] core []
           "k3" 3 core H1 H2 H3 H4 H5).
Defined.

Import Confirming.

(** ** Importing a block: what the statements can do *)

Lemma spending_confirming (h : Z) (d d' : database) :
  spending h d d' -> confirming h d d'.
Proof.
  induction 1.
  - apply confirming_refl.
  - eapply confirming_trans; eassumption.
  - apply confirming_input_update.
Qed.

Lemma confirming_frame (h : Z) (d d' : database) :
  confirming h d d' ->
  blocks d' = blocks d /\ on_conflict d' = on_conflict d.
Proof.
  induction 1; try (split; reflexivity).
  destruct IHconfirming1, IHconfirming2. split; congruence.
Qed.

Lemma spending_frame (h : Z) (d d' : database) :
  spending h d d' -> transactions d' = transactions d.
Proof. induction 1; try reflexivity. congruence. Qed.

Lemma Forall_map_if {A : Type} (P : A -> Prop) (sel : A -> bool) (g : A -> A)
    (l : list A) :
  (forall x, P x -> P (g x)) -> Forall P l ->
  Forall P (map (fun x => if sel x then g x else x) l).
Proof.
  intros Hg Hl. induction Hl as [| x l Hx Hl IH]; simpl; constructor.
  - destruct (sel x); [apply Hg, Hx | exact Hx].
  - exact IH.
Qed.

Lemma Forall_snoc {A : Type} (P : A -> Prop) (l : list A) (x : A) :
  Forall P l -> P x -> Forall P (l ++ [x]).
Proof. intros Hl Hx. apply Forall_app. split; [exact Hl | constructor; [exact Hx | constructor]]. Qed.

(** A property of transaction rows that setting the height to [h] keeps and
    that rows of height [h] have, is kept. *)
Lemma confirming_tx_rows (h : Z) (P : tx_row -> Prop) (d d' : database) :
  confirming h d d' ->
  (forall t, P t -> P (confirmed_row h t)) ->
  (forall t, t_height t = Some h -> P t) ->
  Forall P (transactions d) -> Forall P (transactions d').
Proof.
  intros Hstep Hup Hnew. induction Hstep; intros Hall; simpl; auto.
  - apply Forall_map_if; assumption.
  - apply Forall_snoc; auto.
Qed.

Lemma confirming_history_rows (h : Z) (P : history_row -> Prop) (d d' : database) :
  confirming h d d' ->
  (forall r, P r -> P (SQL.set_height (Some h) r)) ->
  (forall r by_, P r -> P (SQL.set_input by_ (Some h) r)) ->
  (forall r, h_height r = Some h -> P r) ->
  Forall P (history d) -> Forall P (history d').
Proof.
  intros Hstep Hup Hin Hnew. induction Hstep; intros Hall; simpl; auto.
  - apply Forall_map_if; assumption.
  - apply Forall_snoc; auto.
  - apply Forall_map_if; [| assumption]. intros r Hr. apply Hin, Hr.
Qed.

Lemma spending_history_rows (h : Z) (P : history_row -> Prop) (d d' : database) :
  spending h d d' ->
  (forall r by_, P r -> P (SQL.set_input by_ (Some h) r)) ->
  Forall P (history d) -> Forall P (history d').
Proof.
  intros Hstep Hin. induction Hstep; intros Hall; simpl; auto.
  apply Forall_map_if; [| assumption]. intros r Hr. apply Hin, Hr.
Qed.

Lemma existsb_map_if {A : Type} (p : A -> bool) (sel : A -> bool) (g : A -> A)
    (l : list A) :
  (forall x, p (g x) = p x) ->
  existsb p (map (fun x => if sel x then g x else x) l) = existsb p l.
Proof.
  intros Hg. induction l as [| x l IH]; simpl; [reflexivity |].
  rewrite IH. destruct (sel x); [rewrite Hg |]; reflexivity.
Qed.

Lemma confirming_exists (h : Z) (txid : string) (d d' : database) :
  confirming h d d' -> SQL.tx_exists txid d = true -> SQL.tx_exists txid d' = true.
Proof.
  unfold SQL.tx_exists. induction 1; intros Hex; simpl; auto.
  - rewrite existsb_map_if; [exact Hex | reflexivity].
  - rewrite existsb_app, Hex. reflexivity.
Qed.

Lemma confirming_confirmed_tx (h : Z) (txid : string) (d d' : database) :
  confirming h d d' -> confirmed_tx h txid d -> confirmed_tx h txid d'.
Proof.
  intros Hstep. apply (confirming_tx_rows h _ d d' Hstep).
  - intros t _ _. reflexivity.
  - intros t Ht _. exact Ht.
Qed.

Lemma confirming_confirmed_outputs (h : Z) (txid : string) (d d' : database) :
  confirming h d d' -> confirmed_outputs h txid d -> confirmed_outputs h txid d'.
Proof.
  intros Hstep. apply (confirming_history_rows h _ d d' Hstep).
  - intros r _ _. reflexivity.
  - intros r by_ Hr. exact Hr.
  - intros r Hr _. exact Hr.
Qed.

Lemma spending_confirmed_input (h : Z) (input : Input) (d d' : database) :
  spending h d d' -> confirmed_input h input d -> confirmed_input h input d'.
Proof.
  intros Hstep. apply (spending_history_rows h _ d d' Hstep).
  intros r by_ _ _. reflexivity.
Qed.

(** ** Computations that move the tables along a relation *)

Section Moves.

Context (R : database -> database -> Prop).
Hypothesis R_refl : forall d, R d d.
Hypothesis R_trans : forall d1 d2 d3, R d1 d2 -> R d2 d3 -> R d1 d3.

Lemma moves_ret {A : Type} (a : A) : moves R (ret a).
Proof. intros e a' e' H. injection H as _ <-. apply R_refl. Qed.

Lemma moves_bind {A B : Type} (m : M A) (k : A -> M B) :
  moves R m -> (forall a, moves R (k a)) -> moves R (bind m k).
Proof.
  intros Hm Hk e b e' Hrun. apply bind_ok_inv in Hrun as (a & e1 & H1 & H2).
  eapply R_trans; [eapply Hm | eapply Hk]; eassumption.
Qed.

Lemma moves_forEach {A : Type} (g : A -> M unit) (l : list A) :
  (forall x, moves R (g x)) -> moves R (forEach g l).
Proof.
  intros Hg. induction l as [| x l IH]; simpl.
  - apply moves_ret.
  - apply moves_bind; [apply Hg | intros _; exact IH].
Qed.

Lemma moves_statement {A : Type} (stmt : SQL.statement A) :
  (forall d a d', stmt d = Ok (a, d') -> R d d') -> moves R (Storage.run_statement stmt).
Proof.
  intros Hs e a e' Hrun. apply run_statement_ok in Hrun as [Hrun _].
  eapply Hs, Hrun.
Qed.

Lemma moves_notify (ch : string) (p opts : jsval) : moves R (Messages.notify ch p opts).
Proof.
  intros e a e' Hrun.
  pose proof (keeps_notify db ch p opts) as K.
  rewrite <- (K (fun _ _ => eq_refl) (fun e0 => ltac:(destruct e0; reflexivity))
                (fun _ _ => eq_refl) (fun _ _ => eq_refl) e).
  rewrite Hrun. apply R_refl.
Qed.

(** A computation that leaves the tables alone, however it ends. *)
Lemma moves_kept {A : Type} (m : M A) : keeps db m -> moves R m.
Proof.
  intros K e a e' Hrun. specialize (K e). rewrite Hrun in K. simpl in K.
  rewrite K. apply R_refl.
Qed.

(** A statement that has been started moves the tables when it answers
    and leaves them when it fails. *)
Lemma moves_started_statement {A : Type} (stmt : SQL.statement A) :
  (forall d a d', stmt d = Ok (a, d') -> R d d') ->
  moves R (started (Storage.run_statement stmt)).
Proof.
  intros Hs e p e' Hrun. apply started_run in Hrun. destruct p as [a | msg].
  - apply run_statement_ok in Hrun as [Hrun _]. eapply Hs, Hrun.
  - unfold Storage.run_statement in Hrun.
    destruct (faults e) as [| [|] later];
      try (injection Hrun as _ <-; apply R_refl);
      destruct (stmt (db e)) as [[a d] | msg']; try discriminate;
      injection Hrun as _ <-; apply R_refl.
Qed.

Lemma moves_mapM {A B : Type} (g : A -> M B) (l : list A) :
  (forall x, moves R (g x)) -> moves R (mapM g l).
Proof.
  intros Hg. induction l as [| x l IH]; simpl.
  - apply moves_ret.
  - apply moves_bind; [apply Hg | intros y].
    apply moves_bind; [exact IH | intros ys]. apply moves_ret.
Qed.

(** What each call of a [mapM] that returns has established of its element
    and its result still holds at the end, when the calls that follow
    preserve it. *)
Lemma mapM_results {A B : Type} (g : A -> M B) (Q : A -> B -> database -> Prop)
    (l : list A) :
  (forall x, moves R (g x)) ->
  (forall x b d d', R d d' -> Q x b d -> Q x b d') ->
  (forall x e b e', In x l -> g x e = (Ok b, e') -> Q x b (db e')) ->
  forall e bs e', mapM g l e = (Ok bs, e') ->
    forall x, In x l -> exists b, In b bs /\ Q x b (db e').
Proof.
  intros Hmoves Hkeep.
  induction l as [| y l IH]; intros Hest e bs e' Hrun x Hin; [destruct Hin |].
  simpl in Hrun. apply bind_ok_inv in Hrun as (b & e1 & H1 & Hrest).
  apply bind_ok_inv in Hrest as (bs' & e2 & H2 & Hret). injection Hret as <- <-.
  destruct Hin as [<- | Hin].
  - exists b. split; [left; reflexivity |].
    apply (Hkeep y b (db e1) (db e2)).
    + apply (moves_mapM g l Hmoves e1 bs' e2 H2).
    + apply (Hest y e b e1); [left; reflexivity | exact H1].
  - destruct (IH (fun x0 e0 b0 e0' Hx => Hest x0 e0 b0 e0' (or_intror Hx)) e1 bs' e2 H2 x Hin)
      as (b' & Hb' & Hq).
    exists b'. split; [right; exact Hb' | exact Hq].
Qed.

End Moves.

Import Confirming.

(** ** The statements of [_importBlock], one by one *)

Lemma insert_tx_confirming (h : Z) (txid raw_ : string) (d d' : database) (a : unit) :
  SQL.insert_tx txid (Some h) raw_ d = Ok (a, d') -> confirming h d d'.
Proof.
  unfold SQL.insert_tx, SQL.insert_row.
  destruct (SQL.tx_exists (SQL.bytea txid) d).
  - destruct (on_conflict d); intros H; [discriminate |]. injection H as _ <-.
    destruct d; apply confirming_refl.
  - intros H. injection H as _ <-. apply confirming_tx_insert. reflexivity.
Qed.

Lemma makeConfirmed_confirming (h : Z) (txid : string) (d d' : database) (a : unit) :
  SQL.update_transactions_makeConfirmed h txid d = Ok (a, d') -> confirming h d d'.
Proof.
  unfold SQL.update_transactions_makeConfirmed. intros H. injection H as _ <-.
  apply (confirming_tx_update h d (fun t => String.eqb (t_txid t) (SQL.bytea txid))).
Qed.

Lemma makeOutputConfirmed_confirming (h : Z) (txid : string) (d d' : database)
    (a : list string) :
  SQL.update_history_makeOutputConfirmed h txid d = Ok (a, d') -> confirming h d d'.
Proof.
  unfold SQL.update_history_makeOutputConfirmed. intros H.
  apply update_returning_tables in H. subst d'. apply confirming_output_update.
Qed.

Lemma insert_output_confirming (h : Z) (address txid : string) (index value : Z)
    (script_ : string) (d d' : database) (a : unit) :
  SQL.insert_output address txid index value script_ (Some h) d = Ok (a, d') ->
  confirming h d d'.
Proof.
  unfold SQL.insert_output, SQL.insert_row.
  destruct (existsb _ (history d)).
  - destruct (on_conflict d); intros H; [discriminate |]. injection H as _ <-.
    destruct d; apply confirming_refl.
  - intros H. injection H as _ <-. apply confirming_output_insert. reflexivity.
Qed.

Lemma makeInputConfirmed_spending (h : Z) (prev : string) (index : Z) (d d' : database)
    (a : list string) :
  SQL.update_history_makeInputConfirmed h prev index d = Ok (a, d') -> spending h d d'.
Proof.
  unfold SQL.update_history_makeInputConfirmed. intros H.
  apply update_returning_tables in H. subst d'.
  apply (spending_input_update h d _ h_input_txid).
Qed.

Lemma addConfirmedInput_spending (h : Z) (txid prev : string) (index : Z)
    (d d' : database) (a : list string) :
  SQL.update_history_addConfirmedInput txid h prev index d = Ok (a, d') ->
  spending h d d'.
Proof.
  unfold SQL.update_history_addConfirmedInput. intros H.
  apply update_returning_tables in H. subst d'.
  apply (spending_input_update h d _ (fun _ => Some (SQL.bytea txid))).
Qed.

(** Splitting goals of the form [moves R m] for the callbacks of
    [_importBlock]. *)
Ltac moves_step :=
  match goal with
  | |- moves _ (ret _) => apply moves_ret; [first [apply confirming_refl | apply spending_refl | reflexivity]]
  | |- moves _ (bind _ _) =>
      apply moves_bind;
        [first [apply confirming_trans | apply spending_trans | intros; congruence]
        | | intros ?]
  | |- moves _ (forEach _ _) =>
      apply moves_forEach;
        [first [apply confirming_refl | apply spending_refl | reflexivity]
        |first [apply confirming_trans | apply spending_trans | intros; congruence]
        | intros ?]
  | |- moves _ (let '(_, _) := ?x in _) => destruct x
  | |- moves _ (Service.broadcastAddress _ _ _ _ _) => unfold Service.broadcastAddress
  | |- moves _ (Service.broadcastTx _ _ _ _) => unfold Service.broadcastTx
  | |- moves _ (Service.addTx _ _ _) => unfold Service.addTx
  | |- moves _ (Messages.notify _ _ _) =>
      apply moves_notify; first [apply confirming_refl | apply spending_refl | reflexivity]
  | |- moves _ (unawaited _) =>
      apply moves_kept;
        [first [apply confirming_refl | apply spending_refl | reflexivity] | frame]
  | |- moves _ (Storage.queryAsync _ _) => unfold Storage.queryAsync
  | |- moves _ (Storage.run_statement _) =>
      let H := fresh "H" in
      apply moves_statement; intros ? ? ? H;
      unfold SQL.insert_transactions_confirmed, SQL.insert_history_confirmedOutput in H;
      first [ eapply insert_tx_confirming; exact H
            | eapply makeConfirmed_confirming; exact H
            | eapply makeOutputConfirmed_confirming; exact H
            | eapply insert_output_confirming; exact H
            | eapply makeInputConfirmed_spending; exact H
            | eapply addConfirmedInput_spending; exact H ]
  end.

Lemma importBlock_tx_moves (block : Block) (h : Z) (client : jsval)
    (existingTx : list string) (tx : Transaction) :
  moves (confirming h) (ScannerSync._importBlock_tx block h client existingTx tx).
Proof.
  unfold ScannerSync._importBlock_tx.
  destruct (mem (id tx) existingTx); repeat moves_step.
Qed.

Lemma importBlock_input_moves (block : Block) (h : Z) (client : jsval)
    (existingTx : list string) (txid : string) (input : Input) (index : Z) :
  moves (spending h)
        (ScannerSync._importBlock_input block h client existingTx txid input index).
Proof.
  unfold ScannerSync._importBlock_input.
  destruct (ScannerSync.is_coinbase input index); [repeat moves_step |].
  destruct (mem txid existingTx); repeat moves_step.
Qed.

Import Confirming.

(** ** What each callback of [_importBlock] establishes *)

Lemma forEach_establishes {A : Type} (R : database -> database -> Prop)
    (g : A -> M unit) (Q : A -> database -> Prop) (l : list A) :
  (forall d, R d d) ->
  (forall d1 d2 d3, R d1 d2 -> R d2 d3 -> R d1 d3) ->
  (forall x, moves R (g x)) ->
  (forall x d d', R d d' -> Q x d -> Q x d') ->
  (forall x e e', In x l -> g x e = (Ok tt, e') -> Q x (db e')) ->
  forall e e', forEach g l e = (Ok tt, e') -> forall x, In x l -> Q x (db e').
Proof.
  intros Hrefl Htrans Hmoves Hkeep.
  induction l as [| y l IH]; intros Hest e e' Hrun x Hin; [destruct Hin |].
  simpl in Hrun. apply bind_ok_inv in Hrun as ([] & e1 & H1 & Hrest).
  destruct Hin as [<- | Hin].
  - apply (Hkeep y (db e1) (db e')).
    + apply (moves_forEach R Hrefl Htrans g l Hmoves e1 tt e' Hrest).
    + apply (Hest y e e1); [left; reflexivity | exact H1].
  - apply (IH (fun x0 e0 e0' Hx => Hest x0 e0 e0' (or_intror Hx)) e1 e' Hrest x Hin).
Qed.

Lemma tail_of_notifications_keeps_db {A : Type} (m : M A) (e e' : env) (a : A) :
  moves eq m -> m e = (Ok a, e') -> db e' = db e.
Proof. intros Hm Hrun. symmetry. exact (Hm e a e' Hrun). Qed.

Lemma importBlock_tx_existing (block : Block) (h : Z) (client : jsval)
    (existingTx : list string) (tx : Transaction) (e e' : env) :
  mem (id tx) existingTx = true ->
  ScannerSync._importBlock_tx block h client existingTx tx e = (Ok tt, e') ->
  confirmed_tx h (id tx) (db e') /\ confirmed_outputs h (id tx) (db e').
Proof.
  intros HE Hrun. unfold ScannerSync._importBlock_tx in Hrun. rewrite HE in Hrun.
  unfold Storage.queryAsync in Hrun.
  apply bind_ok_inv in Hrun as ([] & e1 & H1 & Hrun).
  apply run_statement_ok in H1 as [Hs1 _].
  unfold SQL.update_transactions_makeConfirmed in Hs1. rewrite bytea_hex in Hs1.
  injection Hs1 as Hd1.
  apply bind_ok_inv in Hrun as (rows & e2 & H2 & Hrun).
  apply run_statement_ok in H2 as [Hs2 _].
  unfold SQL.update_history_makeOutputConfirmed in Hs2. rewrite bytea_hex in Hs2.
  apply update_returning_tables in Hs2.
  assert (Hd : db e' = db e2).
  { refine (tail_of_notifications_keeps_db _ e2 e' tt _ Hrun).
    repeat moves_step. }
  rewrite Hd, Hs2, <- Hd1. split.
  - unfold confirmed_tx. simpl. apply List.Forall_forall. intros t Hin Ht.
    apply in_map_iff in Hin as (t0 & <- & _).
    destruct (String.eqb (t_txid t0) (id tx)) eqn:Eq; [reflexivity |].
    apply String.eqb_neq in Eq. contradiction.
  - unfold confirmed_outputs. simpl. apply List.Forall_forall. intros r Hin Hr.
    apply in_map_iff in Hin as (r0 & <- & _).
    destruct (String.eqb (h_txid r0) (id tx)) eqn:Eq; [reflexivity |].
    apply String.eqb_neq in Eq. contradiction.
Qed.

Lemma importBlock_tx_new (block : Block) (h : Z) (client : jsval)
    (existingTx : list string) (tx : Transaction) (e e' : env) :
  mem (id tx) existingTx = false ->
  ScannerSync._importBlock_tx block h client existingTx tx e = (Ok tt, e') ->
  SQL.tx_exists (id tx) (db e') = true.
Proof.
  intros HE Hrun. unfold ScannerSync._importBlock_tx in Hrun. rewrite HE in Hrun.
  apply bind_ok_inv in Hrun as ([] & e1 & H1 & Hrun).
  pose proof (stored_after_insert (id tx) (raw tx) (Some h) client e tt e1 I H1) as Hst.
  refine (confirming_exists h (id tx) (db e1) (db e') _ Hst).
  match type of Hrun with
  | ?m e1 = _ => assert (Hm : moves (confirming h) m) by repeat moves_step
  end.
  exact (Hm e1 tt e' Hrun).
Qed.

Lemma importBlock_input_confirms (block : Block) (h : Z) (client : jsval)
    (existingTx : list string) (txid : string) (input : Input) (index : Z)
    (e e' : env) :
  ScannerSync.is_coinbase input index = false ->
  ScannerSync._importBlock_input block h client existingTx txid input index e
  = (Ok tt, e') ->
  confirmed_input h input (db e').
Proof.
  intros Hcb Hrun. unfold ScannerSync._importBlock_input in Hrun. rewrite Hcb in Hrun.
  apply bind_ok_inv in Hrun as (rows & e1 & H1 & Hrun).
  assert (Hd : db e' = db e1).
  { refine (tail_of_notifications_keeps_db _ e1 e' tt _ Hrun). repeat moves_step. }
  rewrite Hd. unfold Storage.queryAsync in H1.
  assert (Hmap : exists by_,
    db e1 = with_history (db e)
              (map (fun r => if SQL.spends (prevTxId input) (outputIndex input) r
                             then SQL.set_input (by_ r) (Some h) r else r)
                   (history (db e)))).
  { destruct (mem txid existingTx);
      apply run_statement_ok in H1 as [Hs _];
      apply update_returning_tables in Hs; rewrite bytea_hex in Hs;
      eexists; exact Hs. }
  destruct Hmap as (by_ & ->). unfold confirmed_input. simpl.
  apply List.Forall_forall. intros r Hin Hr.
  apply in_map_iff in Hin as (r0 & <- & _).
  destruct (SQL.spends (prevTxId input) (outputIndex input) r0) eqn:Es.
  - reflexivity.
  - unfold SQL.spends in Hr, Es. simpl in Hr. congruence.
Qed.

(** ** Which transactions of the block are stored *)

Lemma exists_all (client : jsval) (txs : list Transaction) (e e' : env)
    (counts : list nat) :
  mapM (ScannerSync._importBlock_exists client) txs e = (Ok counts, e') ->
  db e' = db e
  /\ counts = map (fun tx => length (List.filter
                                       (fun t => String.eqb (t_txid t) (id tx))
                                       (transactions (db e)))) txs.
Proof.
  revert e counts. induction txs as [| tx txs IH]; intros e counts Hrun; simpl in Hrun.
  - injection Hrun as <- <-. split; reflexivity.
  - apply bind_ok_inv in Hrun as (count & e1 & H1 & Hrun).
    apply bind_ok_inv in Hrun as (rest & e2 & H2 & Hrun).
    injection Hrun as <- <-.
    unfold ScannerSync._importBlock_exists, Storage.queryAsync,
      SQL.select_transactions_exists in H1.
    apply run_reading_ok in H1 as [-> ->]. rewrite bytea_hex.
    destruct (IH _ _ H2) as [Hd ->]. split; [exact Hd |]. reflexivity.
Qed.

Lemma existing_of_counts (txs : list Transaction) (c : Transaction -> nat) :
  ScannerSync.existing txs (map c txs)
  = map id (List.filter (fun tx => negb (c tx =? 0)%nat) txs).
Proof.
  unfold ScannerSync.existing. induction txs as [| tx txs IH]; simpl; [reflexivity |].
  destruct (c tx =? 0)%nat; simpl; [exact IH | f_equal; exact IH].
Qed.

Lemma existing_mem (txs : list Transaction) (d : database) (tx : Transaction) :
  In tx txs ->
  mem (id tx)
      (ScannerSync.existing txs
         (map (fun tx => length (List.filter
                                   (fun t => String.eqb (t_txid t) (id tx))
                                   (transactions d))) txs))
  = SQL.tx_exists (id tx) d.
Proof.
  intros Hin. rewrite existing_of_counts.
  destruct (SQL.tx_exists (id tx) d) eqn:Ex.
  - apply mem_In, in_map_iff. exists tx. split; [reflexivity |].
    apply filter_In. split; [exact Hin |]. rewrite count_is_zero, Ex. reflexivity.
  - apply mem_false. intros H. apply in_map_iff in H as (tx' & Hid & H).
    apply filter_In in H as [_ H]. rewrite count_is_zero, Hid, Ex in H. discriminate H.
Qed.

Import Confirming.

(** ** The first import of a block *)

Lemma header_inserted (h : Z) (hash_ : string) (hdr : BlockHeader) (txids : string)
    (d d' : database) (a : unit) :
  SQL.insert_blocks_row h hash_ hdr txids d = Ok (a, d') ->
  existsb (fun b => b_height b =? h) (blocks d') = true
  /\ transactions d' = transactions d /\ history d' = history d
  /\ on_conflict d' = on_conflict d.
Proof.
  unfold SQL.insert_blocks_row, SQL.insert_row.
  destruct (existsb (fun b => b_height b =? h) (blocks d)) eqn:Ex.
  - destruct (on_conflict d) eqn:Ec; intros H; [discriminate |]. injection H as _ <-.
    simpl. repeat split; try reflexivity; assumption.
  - intros H. injection H as _ <-. simpl. repeat split; try reflexivity.
    rewrite existsb_app. simpl. rewrite Z.eqb_refl. apply orb_true_iff. right. reflexivity.
Qed.

Lemma rows_exist (d : database) :
  Forall (fun t => SQL.tx_exists (t_txid t) d = true) (transactions d).
Proof.
  apply List.Forall_forall. intros t Hin. unfold SQL.tx_exists.
  apply existsb_exists. exists t. split; [exact Hin | apply String.eqb_refl].
Qed.

(** Rows of a transaction that was not stored when the import began can
    only have been written by the import, at its height. *)
Lemma new_rows_confirmed (h : Z) (d1 d : database) (txid : string) :
  confirming h d1 d -> produced d1 -> SQL.tx_exists txid d1 = false ->
  confirmed_tx h txid d /\ confirmed_outputs h txid d.
Proof.
  intros Hstep Hprod Hnew. split.
  - assert (Hall : Forall (fun t => t_height t = Some h
                                    \/ SQL.tx_exists (t_txid t) d1 = true)
                          (transactions d)).
    { apply (confirming_tx_rows h _ d1 d Hstep).
      - intros t [Ht | Ht]; [left; reflexivity | right; exact Ht].
      - intros t Ht. left. exact Ht.
      - eapply List.Forall_impl; [| apply rows_exist]. intros t Ht. right. exact Ht. }
    unfold confirmed_tx. eapply List.Forall_impl; [| exact Hall].
    intros t [Ht | Ht] Heq; [exact Ht | congruence].
  - assert (Hall : Forall (fun r => h_height r = Some h
                                    \/ SQL.tx_exists (h_txid r) d1 = true)
                          (history d)).
    { apply (confirming_history_rows h _ d1 d Hstep).
      - intros r [Hr | Hr]; [left; reflexivity | right; exact Hr].
      - intros r by_ Hr. exact Hr.
      - intros r Hr. left. exact Hr.
      - eapply List.Forall_impl; [| exact Hprod]. intros r Hr. right. exact Hr. }
    unfold confirmed_outputs. eapply List.Forall_impl; [| exact Hall].
    intros r [Hr | Hr] Heq; [exact Hr | congruence].
Qed.

Lemma importBlock_imports (block : Block) (h : Z) (client : jsval) (e e' : env) :
  ScannerSync._importBlock block h client e = (Ok tt, e') ->
  existsb (fun b => b_height b =? h) (blocks (db e')) = true
  /\ on_conflict (db e') = on_conflict (db e)
  /\ (produced (db e) -> imported block h (db e')).
Proof.
  intros Hrun. unfold ScannerSync._importBlock, ScannerSync.withLock in Hrun.
  rewrite bind_modify in Hrun.
  set (e0 := with_locked e (locked e ++ [Keyed (ScannerSync.allTxIds block)])) in Hrun.
  set (txs := Bitcore.transactions block) in *.
  unfold Storage.queryAsync in Hrun.
  apply bind_ok_inv in Hrun as ([] & e1 & H1 & Hrun).
  apply run_statement_ok in H1 as [Hs1 _].
  apply header_inserted in Hs1 as (Hb1 & Ht1 & Hh1 & Hc1).
  apply bind_ok_inv in Hrun as (counts & e2 & H2 & Hrun).
  apply exists_all in H2 as [Hd2 ->].
  set (E := ScannerSync.existing txs _) in Hrun.
  apply bind_ok_inv in Hrun as ([] & e3 & H3 & Hrun).
  apply bind_ok_inv in Hrun as ([] & e4 & H4 & Hrun).
  assert (Hd5 : db e' = db e4).
  { refine (tail_of_notifications_keeps_db _ e4 e' tt _ Hrun).
    unfold Service.broadcastBlock, Service.addBlock. repeat moves_step. }
  assert (R3 : confirming h (db e2) (db e3)).
  { refine (moves_forEach (confirming h) (confirming_refl h) (confirming_trans h)
              _ txs _ e2 tt e3 H3).
    intros tx. apply importBlock_tx_moves. }
  assert (R4 : spending h (db e3) (db e4)).
  { refine (moves_forEach (spending h) (spending_refl h) (spending_trans h)
              _ txs _ e3 tt e4 H4).
    intros tx. apply moves_forEach; [apply spending_refl | apply spending_trans |].
    intros [input index]. apply importBlock_input_moves. }
  pose proof (spending_confirming h _ _ R4) as R4'.
  pose proof (confirming_trans h _ _ _ R3 R4') as R34.
  destruct (confirming_frame h _ _ R34) as [Hblocks Hconf].
  rewrite Hd5. split; [| split].
  - rewrite Hblocks, Hd2. exact Hb1.
  - rewrite Hconf, Hd2. exact Hc1.
  - intros Hprod.
    assert (Hprod1 : produced (db e2)).
    { rewrite Hd2. unfold produced, SQL.tx_exists. rewrite Hh1, Ht1. exact Hprod. }
    assert (HE : forall tx, In tx txs -> mem (id tx) E = SQL.tx_exists (id tx) (db e2)).
    { intros tx Hin. unfold E. rewrite Hd2. apply existing_mem, Hin. }
    assert (Q3 : forall tx, In tx txs ->
              (mem (id tx) E = false -> SQL.tx_exists (id tx) (db e3) = true)
              /\ (mem (id tx) E = true ->
                  confirmed_tx h (id tx) (db e3) /\ confirmed_outputs h (id tx) (db e3))).
    { refine (forEach_establishes (confirming h) _
                (fun tx d =>
                   (mem (id tx) E = false -> SQL.tx_exists (id tx) d = true)
                   /\ (mem (id tx) E = true ->
                       confirmed_tx h (id tx) d /\ confirmed_outputs h (id tx) d))
                txs (confirming_refl h) (confirming_trans h) _ _ _ e2 e3 H3).
      - intros tx. apply importBlock_tx_moves.
      - intros tx d d' Hstep [Hn He]. split.
        + intros Hm. apply (confirming_exists h _ d d' Hstep), Hn, Hm.
        + intros Hm. destruct (He Hm) as [Hx Hy]. split.
          * apply (confirming_confirmed_tx h _ d d' Hstep Hx).
          * apply (confirming_confirmed_outputs h _ d d' Hstep Hy).
      - intros tx ea eb _ Hstep. split; intros Hm.
        + apply (importBlock_tx_new block h client E tx ea eb Hm Hstep).
        + apply (importBlock_tx_existing block h client E tx ea eb Hm Hstep). }
    assert (Q4 : forall tx, In tx txs ->
              forall p, In p (ScannerSync.indexed (inputs tx)) ->
                ScannerSync.is_coinbase (fst p) (snd p) = false ->
                confirmed_input h (fst p) (db e4)).
    { refine (forEach_establishes (spending h) _
                (fun tx d => forall p, In p (ScannerSync.indexed (inputs tx)) ->
                   ScannerSync.is_coinbase (fst p) (snd p) = false ->
                   confirmed_input h (fst p) d)
                txs (spending_refl h) (spending_trans h) _ _ _ e3 e4 H4).
      - intros tx. apply moves_forEach; [apply spending_refl | apply spending_trans |].
        intros [input index]. apply importBlock_input_moves.
      - intros tx d d' Hstep Hq p Hp Hcb.
        apply (spending_confirmed_input h _ d d' Hstep), Hq; assumption.
      - intros tx ea eb _ Hinner.
        refine (forEach_establishes (spending h) _
                  (fun p d => ScannerSync.is_coinbase (fst p) (snd p) = false ->
                              confirmed_input h (fst p) d)
                  (ScannerSync.indexed (inputs tx))
                  (spending_refl h) (spending_trans h) _ _ _ ea eb Hinner).
        + intros [input index]. apply importBlock_input_moves.
        + intros p d d' Hstep Hq Hcb.
          apply (spending_confirmed_input h _ d d' Hstep), Hq, Hcb.
        + intros [input index] ec ed _ Hstep Hcb. simpl in *.
          apply (importBlock_input_confirms block h client E (id tx) input index
                   ec ed Hcb Hstep). }
    split; [rewrite Hblocks, Hd2; exact Hb1 |].
    intros tx Hin. destruct (Q3 tx Hin) as [Hnew Hold].
    assert (Hparts : SQL.tx_exists (id tx) (db e4) = true
                     /\ confirmed_tx h (id tx) (db e4)
                     /\ confirmed_outputs h (id tx) (db e4)).
    { destruct (mem (id tx) E) eqn:Hm.
      - destruct (Hold eq_refl) as [Hx Hy]. split; [| split].
        + apply (confirming_exists h _ _ _ R34). rewrite <- HE; assumption.
        + apply (confirming_confirmed_tx h _ _ _ R4' Hx).
        + apply (confirming_confirmed_outputs h _ _ _ R4' Hy).
      - split.
        + apply (confirming_exists h _ _ _ R4'), Hnew. reflexivity.
        + apply (new_rows_confirmed h (db e2) (db e4) (id tx) R34 Hprod1).
          rewrite <- HE; assumption. }
    destruct Hparts as (Hx & Hy & Hz). repeat split; try assumption.
    intros input index Hp Hcb. apply (Q4 tx Hin (input, index) Hp Hcb).
Qed.


Import Confirming Twice.

(** ** The second import of a block *)

Lemma fixes_ret {A : Type} (d : database) (a : A) : fixes d (ret a).
Proof. intros e He. exact He. Qed.

Lemma fixes_bind_aware {A B : Type} (d : database) (m : M A) (k : A -> M B) :
  fixes d m ->
  (forall e a e1, db e = d -> m e = (Ok a, e1) -> fixes d (k a)) ->
  fixes d (bind m k).
Proof.
  intros Hm Hk e He. specialize (Hm e He). unfold bind.
  destruct (m e) as [[a | msg] e1] eqn:Em; simpl in Hm.
  - apply (Hk e a e1 He Em e1 Hm).
  - exact Hm.
Qed.

Lemma fixes_bind {A B : Type} (d : database) (m : M A) (k : A -> M B) :
  fixes d m -> (forall a, fixes d (k a)) -> fixes d (bind m k).
Proof. intros Hm Hk. apply fixes_bind_aware; [exact Hm | intros; apply Hk]. Qed.

Lemma fixes_forEach_in {A : Type} (d : database) (g : A -> M unit) (l : list A) :
  (forall x, In x l -> fixes d (g x)) -> fixes d (forEach g l).
Proof.
  induction l as [| x l IH]; intros Hg; simpl.
  - apply fixes_ret.
  - apply fixes_bind.
    + apply Hg. left. reflexivity.
    + intros _. apply IH. intros y Hy. apply Hg. right. exact Hy.
Qed.

Lemma fixes_forEach {A : Type} (d : database) (g : A -> M unit) (l : list A) :
  (forall x, fixes d (g x)) -> fixes d (forEach g l).
Proof. intros Hg. apply fixes_forEach_in. intros x _. apply Hg. Qed.

Lemma fixes_keeps {A : Type} (d : database) (m : M A) : keeps db m -> fixes d m.
Proof. intros K e He. rewrite K. exact He. Qed.

Lemma keeps_db_notify (ch : string) (p opts : jsval) : keeps db (Messages.notify ch p opts).
Proof. apply keeps_notify; intros; reflexivity. Qed.

Lemma fixes_statement {A : Type} (d : database) (stmt : SQL.statement A) :
  (forall a d', stmt d = Ok (a, d') -> d' = d) ->
  fixes d (Storage.run_statement stmt).
Proof.
  intros Hs e He. unfold Storage.run_statement.
  destruct (faults e) as [| [|] later]; simpl; try exact He.
  all: destruct (stmt (db e)) as [[a d'] | msg] eqn:Es; simpl; try exact He.
  all: rewrite He in Es; apply (Hs a d' Es).
Qed.

Lemma map_if_same {A : Type} (sel : A -> bool) (g : A -> A) (l : list A) :
  Forall (fun x => sel x = true -> g x = x) l ->
  map (fun x => if sel x then g x else x) l = l.
Proof.
  induction 1 as [| x l Hx Hl IH]; simpl; [reflexivity |].
  rewrite IH. destruct (sel x); [rewrite Hx |]; reflexivity.
Qed.

Lemma makeConfirmed_same (h : Z) (txid : string) (d d' : database) (a : unit) :
  confirmed_tx h txid d ->
  SQL.update_transactions_makeConfirmed h (cook "\\x" +:+ txid) d = Ok (a, d') -> d' = d.
Proof.
  intros Hc H. unfold SQL.update_transactions_makeConfirmed in H.
  rewrite bytea_hex in H. injection H as _ <-.
  rewrite map_if_same; [destruct d; reflexivity |].
  eapply List.Forall_impl; [| exact Hc]. intros t Ht Heq.
  apply String.eqb_eq in Heq. specialize (Ht Heq).
  destruct t as [x y z]. simpl in *. subst y. reflexivity.
Qed.

Lemma makeOutputConfirmed_same (h : Z) (txid : string) (d d' : database)
    (a : list string) :
  confirmed_outputs h txid d ->
  SQL.update_history_makeOutputConfirmed h (cook "\\x" +:+ txid) d = Ok (a, d') -> d' = d.
Proof.
  intros Hc H. unfold SQL.update_history_makeOutputConfirmed in H.
  rewrite bytea_hex in H. apply update_returning_tables in H. subst d'.
  rewrite map_if_same; [destruct d; reflexivity |].
  eapply List.Forall_impl; [| exact Hc]. intros r Hr Heq.
  apply String.eqb_eq in Heq. specialize (Hr Heq).
  destruct r. simpl in *. subst. reflexivity.
Qed.

Lemma makeInputConfirmed_same (h : Z) (input : Input) (d d' : database)
    (a : list string) :
  confirmed_input h input d ->
  SQL.update_history_makeInputConfirmed h (cook "\\x" +:+ prevTxId input)
    (outputIndex input) d = Ok (a, d') -> d' = d.
Proof.
  intros Hc H. unfold SQL.update_history_makeInputConfirmed in H.
  rewrite bytea_hex in H. apply update_returning_tables in H. subst d'.
  rewrite map_if_same; [destruct d; reflexivity |].
  eapply List.Forall_impl; [| exact Hc]. intros r Hr Heq. specialize (Hr Heq).
  destruct r. simpl in *. subst. reflexivity.
Qed.

Lemma header_same (h : Z) (hash_ : string) (hdr : BlockHeader) (txids : string)
    (d d' : database) (a : unit) :
  existsb (fun b => b_height b =? h) (blocks d) = true ->
  SQL.insert_blocks_row h hash_ hdr txids d = Ok (a, d') -> d' = d.
Proof.
  intros Hex. unfold SQL.insert_blocks_row, SQL.insert_row. rewrite Hex.
  destruct (on_conflict d); intros H; [discriminate |]. injection H as _ <-.
  destruct d; reflexivity.
Qed.

Ltac fixes_notifications :=
  repeat first
    [ apply fixes_keeps, keeps_db_notify
    | apply fixes_ret
    | apply fixes_forEach; intros ?
    | apply fixes_bind; [| intros ?] ].

Lemma imported_fixed (block : Block) (h : Z) (client : jsval) (d : database) :
  imported block h d -> fixes d (ScannerSync._importBlock block h client).
Proof.
  intros [Hblock Htxs]. unfold ScannerSync._importBlock, ScannerSync.withLock.
  apply fixes_bind; [apply fixes_keeps, keeps_modify; reflexivity | intros _].
  unfold Storage.queryAsync.
  apply fixes_bind; [apply fixes_statement; intros a d'; apply header_same, Hblock |].
  intros _. apply fixes_bind_aware.
  { apply fixes_keeps, keeps_mapM. intros tx.
    unfold ScannerSync._importBlock_exists, Storage.queryAsync,
      SQL.select_transactions_exists.
    apply keeps_db_reading. }
  intros e counts e1 He Hcounts. apply exists_all in Hcounts as [_ ->]. rewrite He.
  assert (HE : forall tx, In tx (Bitcore.transactions block) ->
            mem (id tx)
                (ScannerSync.existing (Bitcore.transactions block)
                   (map (fun tx0 => length (List.filter
                                              (fun t => String.eqb (t_txid t) (id tx0))
                                              (transactions d)))
                        (Bitcore.transactions block))) = true).
  { intros tx Hin. rewrite existing_mem by exact Hin. apply Htxs, Hin. }
  set (E := ScannerSync.existing _ _) in *.
  apply fixes_bind; [| intros _; apply fixes_bind; [| intros _]].
  - apply fixes_forEach_in. intros tx Hin.
    destruct (Htxs tx Hin) as (_ & Hx & Hy & _).
    unfold ScannerSync._importBlock_tx. rewrite (HE tx Hin).
    unfold Storage.queryAsync, Service.broadcastTx, Service.addTx,
      Service.broadcastAddress.
    apply fixes_bind;
      [apply fixes_statement; intros a d'; apply makeConfirmed_same, Hx | intros _].
    apply fixes_bind;
      [apply fixes_statement; intros a d'; apply makeOutputConfirmed_same, Hy |].
    intros rows. fixes_notifications.
  - apply fixes_forEach_in. intros tx Hin.
    destruct (Htxs tx Hin) as (_ & _ & _ & Hz).
    apply fixes_forEach_in. intros [input index] Hp.
    unfold ScannerSync._importBlock_input.
    destruct (ScannerSync.is_coinbase input index) eqn:Hcb; [apply fixes_ret |].
    rewrite (HE tx Hin). unfold Storage.queryAsync, Service.broadcastAddress.
    apply fixes_bind;
      [apply fixes_statement; intros a d';
       apply makeInputConfirmed_same, (Hz input index Hp Hcb) |].
    intros rows. fixes_notifications.
  - unfold Service.broadcastBlock, Service.addBlock. fixes_notifications.
Qed.

Lemma rejected_fixed (block : Block) (h : Z) (client : jsval) (d : database) :
  on_conflict d = Reject ->
  existsb (fun b => b_height b =? h) (blocks d) = true ->
  fixes d (ScannerSync._importBlock block h client).
Proof.
  intros Hpolicy Hblock e He. unfold ScannerSync._importBlock, ScannerSync.withLock.
  rewrite bind_modify. unfold Storage.queryAsync. rewrite bind_statement.
  unfold SQL.insert_blocks_row, SQL.insert_row. simpl db. rewrite He, Hblock, Hpolicy.
  destruct (faults _) as [| [|] later]; simpl; exact He.
Qed.

(** C9: when [_importBlock] has returned for a block at a height, running it
    again for the same block at the same height, from any state that holds
    the tables the first run left, leaves every table as it is: no row is
    added and no row is changed, whether the second run returns or fails.
    The tables before the first run are such that every history row has the
    row of its transaction. *)
Theorem importBlock_twice_leaves_database (block : Block) (height : Z)
    (client client' : jsval) (e e2 : env)
    (Hprod : on_conflict (db e) = Keep -> produced (db e))
    (Hfirst : fst (ScannerSync._importBlock block height client e) = Ok tt)
    (Hstate : db e2 = db (snd (ScannerSync._importBlock block height client e))) :
  db (snd (ScannerSync._importBlock block height client' e2)) = db e2.
Proof.
  destruct (ScannerSync._importBlock block height client e) as [r e1] eqn:Hrun.
  simpl in Hfirst, Hstate. subst r.
  destruct (importBlock_imports block height client e e1 Hrun) as (Hblock & Hpol & Himp).
  rewrite <- Hstate in Hblock, Hpol, Himp.
  destruct (on_conflict (db e)) eqn:Ec.
  - exact (rejected_fixed block height client' (db e2) Hpol Hblock e2 eq_refl).
  - exact (imported_fixed block height client' (db e2) (Himp (Hprod eq_refl)) e2 eq_refl).
Qed.

(** The theorem on block [block8] at height 8 over [db_a0_keep]: the second
    run returns and the tables are those of the first run. *)
Lemma importBlock_twice_leaves_database_witness :
  let e := fresh db_a0_keep in
  let first := ScannerSync._importBlock block8 8 JClient e in
  (fst first = Ok tt
   /\ fst (ScannerSync._importBlock block8 8 JClient (snd first)) = Ok tt)
  /\ db (snd (ScannerSync._importBlock block8 8 JClient (snd first))) = db (snd first).
Proof.
  intros e first. split; [split; vm_compute; reflexivity |].
  apply (importBlock_twice_leaves_database block8 8 JClient JClient e (snd first)).
  - intros _. repeat constructor.
  - vm_compute. reflexivity.
  - reflexivity.
Defined.

Import Confirming Twice.

(** * More of the code

    ** [_getLatest] *)

Lemma max_block_top (l : list block_row) :
  match SQL.max_block l with
  | None => l = []
  | Some m => In m l /\ Forall (fun b => b_height b <= b_height m) l
  end.
Proof.
  induction l as [| b rest IH]; simpl; [reflexivity |].
  destruct (SQL.max_block rest) as [m |].
  - destruct IH as [Hin Hall]. destruct (b_height m <=? b_height b) eqn:Hle.
    + apply Z.leb_le in Hle. split; [left; reflexivity |].
      constructor; [lia |]. eapply List.Forall_impl; [| exact Hall].
      intros x Hx. simpl in Hx. lia.
    + apply Z.leb_gt in Hle. split; [right; exact Hin |].
      constructor; [lia | exact Hall].
  - subst rest. split; [left; reflexivity |]. constructor; [lia | constructor].
Qed.

Lemma latest_of_rows (client : jsval) (e : env) :
  let body :=
    (result <- Storage.queryAsync client SQL.select_blocks_latest ;;
     match result with
     | [] => ret {| ScannerSync.latest_hash := ZERO_HASH; ScannerSync.latest_height := -1 |}
     | row :: _ => ret {| ScannerSync.latest_hash := b_hash row;
                          ScannerSync.latest_height := b_height row |}
     end) in
  snd (body e) = with_faults e (tail (faults e))
  /\ (forall l, fst (body e) = Ok l ->
        l = match SQL.max_block (blocks (db e)) with
            | None => {| ScannerSync.latest_hash := ZERO_HASH;
                         ScannerSync.latest_height := -1 |}
            | Some row => {| ScannerSync.latest_hash := b_hash row;
                             ScannerSync.latest_height := b_height row |}
            end)
  /\ (faults e = [] -> exists l, fst (body e) = Ok l).
Proof.
  intros body. subst body. unfold Storage.queryAsync, SQL.select_blocks_latest.
  unfold bind. rewrite run_reading.
  destruct (faults e) as [| [|] later] eqn:Hf; simpl;
    try (destruct (SQL.max_block (blocks (db e))); simpl;
         repeat split; intros; try congruence; eauto).
Qed.

(** [_getLatest], with or without a client, leaves the tables and the
    notifications as they are.  When it returns, it returns
    [{hash: ZERO_HASH, height: -1}] if there is no block row, and otherwise
    the hash and height of a block row that no other row is above.  It
    fails only when the store does. *)
Theorem getLatest_reads_the_top_block (opts : jsval) (e : env) :
  let r := ScannerSync._getLatest opts e in
  db (snd r) = db e /\ pending (snd r) = pending e /\ delivered (snd r) = delivered e
  /\ locked (snd r) = locked e /\ orphanedTx (snd r) = orphanedTx e
  /\ (forall l, fst r = Ok l ->
        (blocks (db e) = []
         /\ l = {| ScannerSync.latest_hash := ZERO_HASH; ScannerSync.latest_height := -1 |})
        \/ (exists row,
              In row (blocks (db e))
              /\ l = {| ScannerSync.latest_hash := b_hash row;
                        ScannerSync.latest_height := b_height row |}
              /\ Forall (fun b => b_height b <= b_height row) (blocks (db e))))
  /\ (faults e = [] -> exists l, fst r = Ok l).
Proof.
  intros r.
  assert (Htop : forall l,
             l = match SQL.max_block (blocks (db e)) with
                 | None => {| ScannerSync.latest_hash := ZERO_HASH;
                              ScannerSync.latest_height := -1 |}
                 | Some row => {| ScannerSync.latest_hash := b_hash row;
                                  ScannerSync.latest_height := b_height row |}
                 end ->
             (blocks (db e) = []
              /\ l = {| ScannerSync.latest_hash := ZERO_HASH;
                        ScannerSync.latest_height := -1 |})
             \/ (exists row,
                   In row (blocks (db e))
                   /\ l = {| ScannerSync.latest_hash := b_hash row;
                             ScannerSync.latest_height := b_height row |}
                   /\ Forall (fun b => b_height b <= b_height row) (blocks (db e)))).
  { intros l ->. pose proof (max_block_top (blocks (db e))) as Hm.
    destruct (SQL.max_block (blocks (db e))) as [row |].
    - right. exists row. destruct Hm. repeat split; assumption.
    - left. split; [exact Hm | reflexivity]. }
  subst r. unfold ScannerSync._getLatest. destruct (has opts "client").
  - destruct (latest_of_rows (get opts "client") e) as (Hs & Hr & Hok).
    cbv zeta in Hs, Hr, Hok. rewrite Hs. simpl.
    repeat split; try reflexivity; [intros l H; apply Htop, Hr, H | exact Hok].
  - unfold Storage.executeTransaction, Storage.settle.
    destruct (latest_of_rows JClient (with_pending e [])) as (Hs & Hr & Hok).
    cbv zeta in Hs, Hr, Hok.
    destruct (bind _ _ (with_pending e [])) as [[l | msg] e1]; simpl in *; subst e1; simpl.
    + rewrite app_nil_r. repeat split; try reflexivity.
      * intros l' H. injection H as <-. apply Htop, Hr. reflexivity.
      * intros _. eauto.
    + repeat split; try reflexivity; [intros l' H; discriminate | exact Hok].
Qed.


(** ** The keys that the imports lock *)

Lemma uniq_acc_NoDup (l seen : list string) : List.NoDup (uniq_acc seen l).
Proof.
  revert seen. induction l as [| x l IH]; intros seen; simpl; [constructor |].
  destruct (mem x seen) eqn:Hm; [apply IH |].
  constructor; [| apply IH].
  intros Hin. apply uniq_acc_In in Hin as [_ Hnot]. apply Hnot. left. reflexivity.
Qed.

Lemma uniq_NoDup (l : list string) : List.NoDup (uniq l).
Proof. apply uniq_acc_NoDup. Qed.

(** The keys that the two imports ask the lock for: [_importBlock] the
    ids of the block's transactions and the ids that their inputs refer to,
    without repetition; [_importUnconfirmedTx] the id of the transaction
    and the ids that its inputs refer to. *)
Lemma imports_lock_what_they_touch :
  (forall (block : Block) (height : Z) (client : jsval) (e : env),
      exists keys,
        locked (snd (ScannerSync._importBlock block height client e))
        = locked e ++ [Keyed keys]
        /\ List.NoDup keys
        /\ forall x, In x keys <->
             exists tx, In tx (Bitcore.transactions block)
                        /\ (x = id tx
                            \/ exists input, In input (inputs tx) /\ x = prevTxId input))
  /\ (forall (tx : Transaction) (e : env),
        exists keys,
          locked (snd (ScannerSync._importUnconfirmedTx tx e)) = locked e ++ [Keyed keys]
          /\ forall x, In x keys <->
               x = id tx \/ exists input, In input (inputs tx) /\ x = prevTxId input).
Proof.
  split.
  - intros block height client e. exists (ScannerSync.allTxIds block).
    split; [apply importBlock_locks |]. split; [apply uniq_NoDup |].
    intros x. unfold ScannerSync.allTxIds. rewrite uniq_In, in_app_iff, in_concat.
    split.
    + intros [(l & Hl & Hx) | Hx].
      * apply in_map_iff in Hl as (tx & <- & Htx).
        apply in_map_iff in Hx as (input & <- & Hin).
        exists tx. split; [exact Htx |]. right. exists input. split; [exact Hin | reflexivity].
      * apply in_map_iff in Hx as (tx & <- & Htx). exists tx. split; [exact Htx |].
        left. reflexivity.
    + intros (tx & Htx & [-> | (input & Hin & ->)]).
      * right. apply in_map. exact Htx.
      * left. exists (map prevTxId (inputs tx)).
        split; [apply in_map_iff; exists tx; split; [reflexivity | exact Htx] |].
        apply in_map. exact Hin.
  - intros tx e. destruct (import_outcome tx e) as (b & e' & Hrun & Hl & _).
    exists (uniq (map prevTxId (inputs tx)) ++ [id tx]). rewrite Hrun. simpl.
    split; [exact Hl |]. intros x. rewrite in_app_iff, uniq_In, in_map_iff. simpl.
    split.
    + intros [(input & <- & Hin) | [<- | []]].
      * right. exists input. split; [exact Hin | reflexivity].
      * left. reflexivity.
    + intros [-> | (input & Hin & ->)].
      * right. left. reflexivity.
      * left. exists input. split; [reflexivity | exact Hin].
Qed.

(** ** The txids of a block row, written by the scanner and read by the
    rescanner *)

Lemma app_cons (c : ascii) (s r : string) : String c s +:+ r = String c (s +:+ r).
Proof. reflexivity. Qed.

Lemma app_nil (r : string) : EmptyString +:+ r = r.
Proof. reflexivity. Qed.

Lemma substring_whole (s r : string) :
  String.substring 0 (String.length s) (s +:+ r) = s.
Proof.
  induction s as [| c s IH].
  - rewrite app_nil. destruct r; reflexivity.
  - rewrite app_cons. simpl. f_equal. exact IH.
Qed.

Lemma substring_skip (s r : string) (k n : nat) :
  String.substring (String.length s + k) n (s +:+ r) = String.substring k n r.
Proof.
  induction s as [| c s IH]; [reflexivity |]. rewrite app_cons. simpl. exact IH.
Qed.

Lemma app_empty (s : string) : s +:+ EmptyString = s.
Proof.
  induction s as [| c s IH]; [reflexivity |]. rewrite app_cons, IH. reflexivity.
Qed.

Lemma concat_cons (x : string) (xs : list string) :
  String.concat EmptyString (x :: xs) = x +:+ String.concat EmptyString xs.
Proof.
  destruct xs as [| y ys]; simpl; [symmetry; apply app_empty | reflexivity].
Qed.

Lemma length_app (s r : string) :
  String.length (s +:+ r) = (String.length s + String.length r)%nat.
Proof.
  induction s as [| c s IH]; [reflexivity |]. rewrite app_cons. simpl. f_equal. exact IH.
Qed.

Lemma chunks_cons (n : nat) (x r : string) (k : nat) :
  String.length x = n ->
  map (fun i => String.substring (i * n) n (x +:+ r)) (seq 0 (S k))
  = x :: map (fun i => String.substring (i * n) n r) (seq 0 k).
Proof.
  intros Hx. simpl seq. rewrite <- seq_shift, map_cons, map_map. f_equal.
  - rewrite Nat.mul_0_l. rewrite <- Hx. apply substring_whole.
  - apply map_ext. intros i. subst n.
    replace (S i * String.length x)%nat with (String.length x + i * String.length x)%nat
      by lia.
    apply substring_skip.
Qed.

Lemma chunks_of_concat (n : nat) (ids : list string) :
  Forall (fun s => String.length s = n) ids ->
  String.length (String.concat EmptyString ids) = (length ids * n)%nat
  /\ map (fun i => String.substring (i * n) n (String.concat EmptyString ids))
         (seq 0 (length ids)) = ids.
Proof.
  induction 1 as [| x ids Hx Hall [IHl IHm]].
  - split; reflexivity.
  - rewrite concat_cons. split.
    + rewrite length_app, IHl, Hx. simpl. lia.
    + simpl length. rewrite (chunks_cons n x _ _ Hx), IHm. reflexivity.
Qed.

(** What [_importBlock] writes as the txids of a block row,
    ['\\x' + txids.join('')], is cut by [updateBlocks] into the ids of the
    block's transactions, in order, when every id has 64 characters. *)
Theorem block_txids_read_back (block : Block)
    (Hids : Forall (fun tx => String.length (id tx) = 64%nat) (Bitcore.transactions block)) :
  ColorSync.slices
    (SQL.bytea (cook "\\x" +:+ String.concat EmptyString
                                 (map id (Bitcore.transactions block))))
  = map id (Bitcore.transactions block).
Proof.
  rewrite bytea_hex. unfold ColorSync.slices.
  assert (H : Forall (fun s => String.length s = 64%nat)
                     (map id (Bitcore.transactions block))).
  { apply Forall_map. exact Hids. }
  destruct (chunks_of_concat 64 _ H) as [Hl Hm].
  rewrite Hl.
  replace ((length (map id (Bitcore.transactions block)) * 64 + 63) / 64)%nat
    with (length (map id (Bitcore.transactions block))).
  - exact Hm.
  - symmetry. rewrite Nat.add_comm, Nat.div_add by discriminate.
    rewrite (Nat.div_small 63 64) by lia. reflexivity.
Qed.

(** The theorem on a block of two transactions. *)
Lemma block_txids_read_back_witness :
  let tx1 := {| id := Colors.genesis_txid; raw := "01"; inputs := []; outputs := [] |} in
  let tx2 := {| id := Rescan.new_txid; raw := "02"; inputs := []; outputs := [] |} in
  let block := {| hash := "k4b"; header := Chain.header_on "k3";
                  Bitcore.transactions := [tx1; tx2] |} in
  Forall (fun tx => String.length (id tx) = 64%nat) (Bitcore.transactions block)
  /\ ColorSync.slices
       (SQL.bytea (cook "\\x" +:+ String.concat EmptyString
                                    (map id (Bitcore.transactions block))))
     = [Colors.genesis_txid; Rescan.new_txid].
Proof.
  intros tx1 tx2 block.
  assert (H : Forall (fun tx => String.length (id tx) = 64%nat)
                     (Bitcore.transactions block)).
  { repeat constructor. }
  split; [exact H |]. exact (block_txids_read_back block H).
Defined.


(** ** [_importOrphaned] and [_runTxImport] *)

Lemma keeps_executeTransaction {A X : Type} (f : env -> X) (body : jsval -> M A) :
  (forall client, keeps f (body client)) ->
  (forall e x, f (with_pending e x) = f e) ->
  (forall e x, f (with_delivered e x) = f e) ->
  (forall e x, f (with_db e x) = f e) ->
  keeps f (Storage.executeTransaction body).
Proof.
  intros Hb Hp Hd Hdb e. unfold Storage.executeTransaction, Storage.settle.
  pose proof (Hb JClient (with_pending e [])) as K.
  destruct (body JClient (with_pending e [])) as [[a | msg] e1]; simpl in *.
  - rewrite Hp, Hd, K. apply Hp.
  - rewrite Hp, Hdb, K. apply Hp.
Qed.

Lemma without_without (a : option (list string)) (x : string) :
  without (Some (without a x)) x = without a x.
Proof.
  unfold without. simpl. induction (default [] a) as [| y l IH]; simpl; [reflexivity |].
  destruct (negb (String.eqb y x)) eqn:Hy; simpl; [rewrite Hy |]; rewrite IH; reflexivity.
Qed.

(** The loop of [_importOrphaned] over the orphans of [txid]. *)
Lemma resolve_loop_schedules (txid : string) (l : list string) (e : env) :
  exists e',
    forEach (fun orphaned =>
      deps_ <- gets (fun e => without (deps (orphanedTx e) !! orphaned) txid) ;;
      if (0 <? length deps_)%nat then
        modify (ScannerSync.set_deps orphaned (Some deps_))
      else
        modify (ScannerSync.set_deps orphaned None) ;;
        setImmediate (RunTxImport orphaned)) l e = (Ok tt, e')
    /\ immediates e'
       = immediates e
         ++ map RunTxImport
              (List.filter
                 (fun c => (length (without (deps (orphanedTx e) !! c) txid) =? 0)%nat) l)
    /\ (forall c, deps (orphanedTx e') !! c
                  = if mem c l
                    then (if (length (without (deps (orphanedTx e) !! c) txid) =? 0)%nat
                          then None
                          else Some (without (deps (orphanedTx e) !! c) txid))
                    else deps (orphanedTx e) !! c).
Proof.
  revert e. induction l as [| x l IH]; intros e.
  - exists e. simpl. rewrite app_nil_r. repeat split.
  - cbn [forEach].
    set (deps_ := without (deps (orphanedTx e) !! x) txid).
    assert (Hstep : exists e1,
      (deps_ <- gets (fun e => without (deps (orphanedTx e) !! x) txid) ;;
       if (0 <? length deps_)%nat
       then modify (ScannerSync.set_deps x (Some deps_))
       else modify (ScannerSync.set_deps x None) ;; setImmediate (RunTxImport x)) e
      = (Ok tt, e1)
      /\ immediates e1
         = immediates e ++ (if (length deps_ =? 0)%nat then [RunTxImport x] else [])
      /\ forall c, deps (orphanedTx e1) !! c
                   = if decide (x = c)
                     then (if (length deps_ =? 0)%nat then None else Some deps_)
                     else deps (orphanedTx e) !! c).
    { rewrite bind_gets. fold deps_. destruct deps_ as [| d ds] eqn:Ed; simpl.
      - eexists. split; [reflexivity | split; [reflexivity |]].
        intros c. simpl. rewrite lookup_delete. reflexivity.
      - eexists. split; [reflexivity | split; [rewrite app_nil_r; reflexivity |]].
        intros c. simpl. rewrite lookup_insert. reflexivity. }
    destruct Hstep as (e1 & Hrun1 & Hi1 & Hd1).
    assert (HW : forall c, without (deps (orphanedTx e1) !! c) txid
                           = without (deps (orphanedTx e) !! c) txid).
    { intros c. rewrite Hd1. destruct (decide (x = c)) as [<- | Hne]; [| reflexivity].
      fold deps_. destruct (length deps_ =? 0)%nat eqn:Hlen.
      - apply Nat.eqb_eq in Hlen. destruct deps_; [reflexivity | discriminate].
      - apply without_without. }
    destruct (IH e1) as (e' & Hrun & Hi & Hd).
    exists e'. rewrite (bind_ok _ _ _ _ _ Hrun1).
    split; [exact Hrun |]. split.
    + rewrite Hi, Hi1. simpl List.filter. fold deps_. rewrite <- app_assoc. f_equal.
      rewrite (filter_ext _ _ (fun c => f_equal (fun w => (length w =? 0)%nat) (HW c))).
      destruct (length deps_ =? 0)%nat; reflexivity.
    + intros c. rewrite Hd, HW, Hd1. unfold mem. simpl existsb. fold (mem c l).
      destruct (mem c l); [rewrite orb_true_r; reflexivity |]. rewrite orb_false_r.
      destruct (decide (x = c)) as [<- | Hne].
      * rewrite String.eqb_refl. reflexivity.
      * destruct (String.eqb c x) eqn:Heq; [| reflexivity].
        apply String.eqb_eq in Heq. congruence.
Qed.

Lemma keeps_importOrphaned {X : Type} (f : env -> X) (txid : string) :
  (forall e x, f (with_orphanedTx e x) = f e) ->
  (forall e x, f (with_immediates e x) = f e) ->
  keeps f (ScannerSync._importOrphaned txid).
Proof.
  intros Ho Hi. unfold ScannerSync._importOrphaned, setImmediate.
  repeat first
    [ apply keeps_modify; intros; first [apply Ho | apply Hi]
    | frame_step ].
Qed.

(** [_importOrphaned(txid)] always returns.  When nothing waits for [txid]
    it changes nothing.  Otherwise the entry [orphans[txid]] is gone, and of
    the transactions that waited for [txid] exactly those with no other
    parent left in [deps] (also those that have no [deps] entry at all) are
    handed to [_runTxImport], in the order of the entry; their [deps] entry
    is gone, and the others keep their entry without [txid].  The tables
    and the notifications are not touched. *)
Theorem importOrphaned_schedules_the_resolved (txid : string) (e : env) :
  let r := ScannerSync._importOrphaned txid e in
  let waiting := children (orphanedTx e) txid in
  let left_ := fun c => without (deps (orphanedTx e) !! c) txid in
  fst r = Ok tt
  /\ (orphans (orphanedTx e) !! txid = None -> snd r = e)
  /\ orphans (orphanedTx (snd r)) !! txid = None
  /\ (forall p, p <> txid ->
        orphans (orphanedTx (snd r)) !! p = orphans (orphanedTx e) !! p)
  /\ immediates (snd r)
     = immediates e
       ++ map RunTxImport (List.filter (fun c => (length (left_ c) =? 0)%nat) waiting)
  /\ (forall c, deps (orphanedTx (snd r)) !! c
                = if mem c waiting
                  then (if (length (left_ c) =? 0)%nat then None else Some (left_ c))
                  else deps (orphanedTx e) !! c)
  /\ db (snd r) = db e /\ pending (snd r) = pending e /\ delivered (snd r) = delivered e.
Proof.
  intros r waiting left_.
  pose proof (keeps_importOrphaned db txid (fun _ _ => eq_refl) (fun _ _ => eq_refl) e) as Hdb.
  pose proof (keeps_importOrphaned pending txid (fun _ _ => eq_refl) (fun _ _ => eq_refl) e)
    as Hpe.
  pose proof (keeps_importOrphaned delivered txid (fun _ _ => eq_refl) (fun _ _ => eq_refl) e)
    as Hde.
  subst r waiting left_. revert Hdb Hpe Hde.
  unfold ScannerSync._importOrphaned, children. rewrite bind_gets.
  destruct (orphans (orphanedTx e) !! txid) as [l |] eqn:Ho.
  - rewrite bind_modify.
    destruct (resolve_loop txid l (ScannerSync.set_orphans txid None e))
      as (e0 & Hrun0 & Horph & _).
    destruct (resolve_loop_schedules txid l (ScannerSync.set_orphans txid None e))
      as (e' & Hrun & Hi & Hd).
    rewrite Hrun in *. injection Hrun0 as <-. simpl in *. intros Hdb Hpe Hde.
    split; [reflexivity |]. split; [discriminate |].
    rewrite Horph. split; [apply lookup_delete_eq |].
    split; [intros p Hp; apply lookup_delete_ne; congruence |].
    split; [exact Hi |]. split; [exact Hd |]. repeat split; assumption.
  - simpl. intros _ _ _. split; [reflexivity |]. split; [reflexivity |]. split; [exact Ho |].
    split; [reflexivity |]. split; [rewrite app_nil_r; reflexivity |].
    split; [intros c; reflexivity |].
    repeat split.
Qed.

Lemma keeps_immediates_import (tx : Transaction) :
  keeps immediates (ScannerSync._importUnconfirmedTx tx).
Proof.
  unfold ScannerSync._importUnconfirmedTx, ScannerSync.withLock.
  apply keeps_bind; [apply keeps_modify; reflexivity | intros _].
  apply keeps_catch; [| intros ?; apply keeps_ret].
  apply keeps_executeTransaction; try reflexivity. intros client.
  unfold ScannerSync._importUnconfirmedTx_orphan, ScannerSync._importUnconfirmedTx_import.
  frame_more.
Qed.

(** [_runTxImport(txid)] never rejects.  When the node does not have the
    transaction it changes nothing.  It queues [_importOrphaned(txid)] only
    when the transaction is stored, and, as long as the store answers, it
    does so whenever the node has the transaction and it is stored
    afterwards; it queues nothing else. *)
Theorem runTxImport_never_rejects (txid : string) (e : env) :
  let r := ScannerSync._runTxImport txid e in
  let known_ := List.find (fun t => String.eqb (id t) txid) (known (node e)) in
  fst r = Ok tt
  /\ (known_ = None -> snd r = e)
  /\ (immediates (snd r) = immediates e
      \/ (immediates (snd r) = immediates e ++ [ImportOrphaned txid]
          /\ stored txid (snd r) = true))
  /\ (faults e = [] -> known_ <> None -> stored txid (snd r) = true ->
      immediates (snd r) = immediates e ++ [ImportOrphaned txid]).
Proof.
  intros r known_. subst r known_.
  unfold ScannerSync._runTxImport, catch, bind, ScannerSync.getTx.
  destruct (List.find _ (known (node e))) as [tx |] eqn:Hfind.
  - apply find_some in Hfind as [_ Hid]. apply String.eqb_eq in Hid. subst txid.
    destruct (import_outcome tx e) as (b & e' & Hrun & _ & Hcases).
    pose proof (keeps_immediates_import tx e) as Hi. rewrite Hrun in *. simpl in Hi.
    destruct b; simpl.
    + assert (Hs : stored (id tx) e' = true).
      { destruct Hcases as [(_ & Hs & Hd & _) | [(Hb & _) | [(_ & _ & _ & Hs & _) | (Hb & _)]]];
          try discriminate; try exact Hs.
        unfold stored in *. rewrite Hd. exact Hs. }
      split; [reflexivity |]. split; [discriminate |].
      split; [right; split; [congruence | exact Hs] | intros; congruence].
    + split; [reflexivity |]. split; [discriminate |]. split; [left; exact Hi |].
      intros Hf _ Hs. exfalso.
      destruct Hcases as [(Hb & _) | [(_ & Hn & _ & Hd & _) | [(Hb & _) | (_ & Hd & _ & Hwhy)]]];
        try discriminate.
      * unfold stored in *. rewrite Hd in Hs. congruence.
      * destruct Hwhy as [Hne | [Hn _]]; [contradiction |].
        unfold stored in *. rewrite Hd in Hs. congruence.
  - simpl. split; [reflexivity |]. split; [reflexivity |]. split; [left; reflexivity |].
    intros _ Hk. contradiction.
Qed.

Import Rollback Confirming Twice Registry MempoolWorld Mempool.

(** ** The mempool pass of [_runBlockImport] *)

Lemma flawless_executeTransaction {A : Type} (body : jsval -> M A) :
  (forall client, flawless (body client)) -> flawless (Storage.executeTransaction body).
Proof.
  intros Hb e Hf. unfold Storage.executeTransaction, Storage.settle.
  destruct (Hb JClient (with_pending e []) Hf) as (a & e' & Hrun & Hf').
  rewrite Hrun. eexists _, _. split; [reflexivity | exact Hf'].
Qed.

Lemma queue_all {A : Type} (f : A -> task) (l : list A) (e : env) :
  forEach (fun x => setImmediate (f x)) l e
  = (Ok tt, with_immediates e (immediates e ++ map f l)).
Proof.
  revert e. induction l as [| x l IH]; intros e; simpl.
  - rewrite app_nil_r. destruct e; reflexivity.
  - unfold setImmediate at 1. rewrite bind_modify, IH. simpl.
    rewrite <- app_assoc. reflexivity.
Qed.

Lemma mem_difference (x : string) (a b : list string) :
  mem x (difference a b) = mem x a && negb (mem x b).
Proof.
  apply eq_true_iff_eq. rewrite andb_true_iff, negb_true_iff, !mem_In, mem_false.
  apply difference_In.
Qed.

(** The transaction of the pass, lines 468-477, over the ids [gone]. *)
Lemma mempool_removal (gone : list string) (e : env) :
  let r := Storage.executeTransaction
             (ScannerSync._runBlockImport_remove
                (map (fun txid => cook "\\x" +:+ txid) gone)) e in
  immediates (snd r) = immediates e /\ locked (snd r) = locked e
  /\ (forall u, fst r = Ok u ->
        db (snd r)
        = with_history
            (with_transactions (db e)
               (List.filter
                  (fun t => negb (mem (t_txid t) gone
                                  && negb (bool_decide (is_Some (t_height t)))))
                  (transactions (db e))))
            (map (fun row => match h_input_txid row with
                             | Some t => if mem t gone then SQL.set_input None None row
                                         else row
                             | None => row
                             end)
                 (List.filter
                    (fun row => negb (mem (h_txid row) gone
                                      && negb (bool_decide (is_Some (h_height row)))))
                    (history (db e)))))
  /\ (forall msg, fst r = Err msg -> db (snd r) = db e)
  /\ (faults e = [] -> fst r = Ok tt /\ faults (snd r) = []).
Proof.
  intros r. subst r.
  set (ids := map (fun txid => cook "\\x" +:+ txid) gone).
  set (body := ScannerSync._runBlockImport_remove ids).
  split; [| split].
  - apply (keeps_executeTransaction immediates body); try reflexivity.
    intros client. subst body. frame_more.
  - apply (keeps_executeTransaction locked body); try reflexivity.
    intros client. subst body. frame_more.
  - assert (F : flawless (Storage.executeTransaction body)).
    { apply flawless_executeTransaction. intros client e0 Hf. subst body.
      unfold ScannerSync._runBlockImport_remove, Storage.queryAsync.
      assert (S : forall A (stmt : SQL.statement A),
                (forall d, exists a d', stmt d = Ok (a, d')) ->
                flawless (Storage.run_statement stmt)) by (intros; apply flawless_statement; assumption).
      destruct (started_flawless _ e0
                  (S _ (SQL.delete_transactions_unconfirmedByTxIds ids)
                     ltac:(intros ?; eexists _, _; reflexivity)) Hf)
        as (a1 & e1 & H1 & Hf1).
      destruct (started_flawless _ e1
                  (S _ (SQL.delete_history_unconfirmedByTxIds ids)
                     ltac:(intros ?; eexists _, _; reflexivity)) Hf1)
        as (a2 & e2 & H2 & Hf2).
      destruct (started_flawless _ e2
                  (S _ (SQL.update_history_deleteUnconfirmedInputsByTxIds ids)
                     ltac:(intros ?; eexists _, _; reflexivity)) Hf2)
        as (a3 & e3 & H3 & Hf3).
      destruct (started_all_flawless
                  (fun txid => Service.removeTx (JStr txid) (ScannerSync.client_opts client)
                                                JUndefined) ids e3
                  ltac:(intros ?; apply flawless_notify) Hf3)
        as (ps & e4 & H4 & Hf4 & Hall).
      rewrite (bind_ok _ _ _ _ _ H1), (bind_ok _ _ _ _ _ H2).
      cbn [settled await_all]. rewrite bind_ret.
      rewrite (bind_ok _ _ _ _ _ H3), (bind_ok _ _ _ _ _ H4).
      cbn [settled await_all]. rewrite await_all_fulfilled by exact Hall.
      eexists _, _. split; [reflexivity | exact Hf4]. }
    unfold Storage.executeTransaction, Storage.settle in *.
    destruct (body JClient (with_pending e [])) as [[u | msg] e1] eqn:Hbody; simpl.
    + split; [| split; [intros ? H; discriminate |]].
      * intros _ _. subst body.
        unfold ScannerSync._runBlockImport_remove, Storage.queryAsync in Hbody.
        apply bind_ok_inv in Hbody as (p1 & e2 & H1 & Hbody). apply started_run in H1.
        apply bind_ok_inv in Hbody as (p2 & e3 & H2 & Hbody). apply started_run in H2.
        apply bind_ok_inv in Hbody as ([] & e4 & Hw & Hbody).
        apply await_all_ok in Hw as [-> Hw].
        apply Forall_cons_iff in Hw as [Hp1 Hw]. apply Forall_cons_iff in Hw as [Hp2 _].
        apply settled_ok in Hp1 as [a1 ->]. apply settled_ok in Hp2 as [a2 ->].
        apply bind_ok_inv in Hbody as (p3 & e5 & H3 & Hbody). apply started_run in H3.
        apply bind_ok_inv in Hbody as (ps & e6 & H4 & Hbody).
        apply await_all_ok in Hbody as [-> Hw].
        apply Forall_cons_iff in Hw as [Hp3 _]. apply settled_ok in Hp3 as [a3 ->].
        apply run_statement_ok in H1 as [H1 _].
        apply run_statement_ok in H2 as [H2 _].
        apply run_statement_ok in H3 as [H3 _].
        assert (Hd : db e6 = db e5).
        { pose proof ((ltac:(frame_more) : keeps db
             (mapM (fun txid =>
                started (Service.removeTx (JStr txid) (ScannerSync.client_opts JClient)
                                          JUndefined)) ids)) e5) as K.
          rewrite H4 in K. exact K. }
        rewrite Hd.
        unfold SQL.delete_transactions_unconfirmedByTxIds in H1.
        unfold SQL.delete_history_unconfirmedByTxIds in H2.
        unfold SQL.update_history_deleteUnconfirmedInputsByTxIds in H3.
        subst ids. rewrite map_bytea_hex in H1, H2, H3. simpl in H1.
        destruct a1, a2, a3.
        injection H1 as H1. injection H2 as H2. injection H3 as H3.
        rewrite <- H3, <- H2, <- H1. reflexivity.
      * intros Hf. destruct (F e Hf) as (a & e' & Hrun & Hf').
        rewrite Hbody in Hrun. simpl in Hrun. injection Hrun as <- <-.
        destruct u. split; [reflexivity | exact Hf'].
    + split; [intros ? H; discriminate |]. split; [reflexivity |].
      intros Hf. destruct (F e Hf) as (a & e' & Hrun & _).
      rewrite Hbody in Hrun. discriminate.
Qed.

Lemma filter_all {A : Type} (p : A -> bool) (l : list A) :
  (forall x, p x = true) -> List.filter p l = l.
Proof.
  intros Hp. induction l as [| x l IH]; simpl; [reflexivity |].
  rewrite Hp, IH. reflexivity.
Qed.

Lemma evict_none (d : database) : evict [] d = d.
Proof.
  unfold evict. rewrite !filter_all by (intros; reflexivity).
  rewrite (map_ext (unspent_by []) (fun r => r)), map_id; [destruct d; reflexivity |].
  intros r. unfold unspent_by. destruct (h_input_txid r); reflexivity.
Qed.

Lemma bind_started {A B : Type} (m : M A) (k : result A -> M B) (e : env) :
  bind (started m) k e = k (fst (m e)) (snd (m e)).
Proof. reflexivity. Qed.

(** The pass as a whole. *)
Lemma mempool_pass_run (e : env) :
  let r := ScannerSync._runBlockImport_mempool e in
  locked (snd r) = locked e
  /\ (forall u, fst r = Ok u ->
        db (snd r) = evict (gone e) (db e)
        /\ immediates (snd r)
           = immediates e
             ++ map RunTxImport
                  (difference (mempool (node e))
                     (map t_txid (List.filter unconfirmed_tx (transactions (db e))))))
  /\ (forall msg, fst r = Err msg -> db (snd r) = db e /\ immediates (snd r) = immediates e)
  /\ (forall msg, mempool_error (node e) = Some msg -> fst r = Err msg)
  /\ (faults e = [] -> mempool_error (node e) = None -> fst r = Ok tt).
Proof.
  intros r. subst r.
  assert (Hgo : forall e1 : env,
            db e1 = db e -> immediates e1 = immediates e -> locked e1 = locked e ->
            (faults e = [] -> faults e1 = []) ->
            let r := bind
                       (if (0 <? length (gone e))%nat
                        then Storage.executeTransaction
                               (ScannerSync._runBlockImport_remove
                                  (map (fun txid => cook "\\x" +:+ txid) (gone e)))
                        else ret tt)
                       (fun _ =>
                          forEach (fun txid => setImmediate (RunTxImport txid))
                            (difference (mempool (node e))
                               (map t_txid
                                  (List.filter unconfirmed_tx (transactions (db e)))))) e1 in
            locked (snd r) = locked e
            /\ (forall u, fst r = Ok u ->
                  db (snd r) = evict (gone e) (db e)
                  /\ immediates (snd r)
                     = immediates e
                       ++ map RunTxImport
                            (difference (mempool (node e))
                               (map t_txid
                                  (List.filter unconfirmed_tx (transactions (db e))))))
            /\ (forall msg, fst r = Err msg ->
                  db (snd r) = db e /\ immediates (snd r) = immediates e)
            /\ (faults e = [] -> fst r = Ok tt)).
  { intros e1 Hd Hi Hl Hf r. subst r. destruct (0 <? length (gone e))%nat eqn:Hlen.
    - destruct (mempool_removal (gone e) e1) as (Hi' & Hl' & Hok & Herr & Hfl).
      cbv zeta in Hi', Hl', Hok, Herr, Hfl. unfold bind.
      destruct (Storage.executeTransaction _ e1) as [[u | msg] e2]; simpl in *.
      + rewrite queue_all. simpl.
        split; [congruence |]. split; [| split; [intros ? H; discriminate | destruct u; reflexivity]].
        intros _ _. split; [rewrite (Hok u eq_refl), Hd; reflexivity | congruence].
      + split; [congruence |]. split; [intros ? H; discriminate |].
        split; [intros _ _; split; [rewrite (Herr msg eq_refl); exact Hd | congruence] |].
        intros H. destruct (Hfl (Hf H)) as [H' _]. discriminate.
    - rewrite bind_ret, queue_all. simpl.
      apply Nat.ltb_ge in Hlen. destruct (gone e); [| simpl in Hlen; lia].
      rewrite evict_none.
      split; [exact Hl |]. split; [| split; [intros ? H; discriminate | reflexivity]].
      intros _ _. split; [exact Hd | congruence]. }
  unfold ScannerSync._runBlockImport_mempool. rewrite !bind_started.
  unfold Storage.executeQuery, SQL.select_transactions_unconfirmed.
  rewrite run_reading.
  assert (Hnode : snd (ScannerSync.getMempoolTxs e) = e).
  { unfold ScannerSync.getMempoolTxs. destruct (mempool_error (node e)); reflexivity. }
  rewrite Hnode. unfold ScannerSync.getMempoolTxs.
  destruct (mempool_error (node e)) as [err |] eqn:Herr; cbn [fst snd awaited].
  - (* the node does not answer *)
    destruct (faults e) as [| [|] later]; cbn [fst snd];
      (split; [reflexivity |]); (split; [intros ? H; discriminate |]);
      (split; [intros; split; reflexivity |]);
      (split; [intros ? H; injection H as <-; reflexivity | intros _ H; discriminate]).
  - rewrite bind_ret.
    destruct (faults e) as [| [|] later] eqn:Hfaults; cbn [fst snd awaited].
    + rewrite bind_ret.
      pose proof (Hgo (with_db (with_faults e (tail [])) (db e))
                    eq_refl eq_refl eq_refl (fun _ => eq_refl)) as G.
      cbv zeta in G. destruct G as (G1 & G2 & G3 & G4).
      split; [exact G1 |]. split; [exact G2 |]. split; [exact G3 |].
      split; [intros ? H; discriminate | intros H _; apply G4, H].
    + split; [reflexivity |]. split; [intros ? H; discriminate |].
      split; [intros; split; reflexivity |].
      split; [intros ? H; discriminate | intros H; discriminate].
    + rewrite bind_ret.
      pose proof (Hgo (with_db (with_faults e (tail (false :: later))) (db e))
                    eq_refl eq_refl eq_refl) as G.
      cbv zeta in G. destruct G as (G1 & G2 & G3 & G4); [discriminate |].
      split; [exact G1 |]. split; [exact G2 |]. split; [exact G3 |].
      split; [intros ? H; discriminate | intros H; discriminate].
Qed.


(** When a pass of the mempool sync returns, the history has lost the rows
    of the outputs of the unconfirmed transactions that left the mempool,
    as far as those rows are unconfirmed, and no row of the history names
    such a transaction as the spender of its output any more; the other
    rows are as they were. *)
Theorem mempool_pass_cleans_history (e : env) (u : unit)
    (Hrun : fst (ScannerSync._runBlockImport_mempool e) = Ok u) :
  let after := history (db (snd (ScannerSync._runBlockImport_mempool e))) in
  after
  = map (unspent_by (gone e))
        (List.filter
           (fun row => negb (mem (h_txid row) (gone e)
                             && negb (bool_decide (is_Some (h_height row)))))
           (history (db e)))
  /\ Forall (fun row => forall t, h_input_txid row = Some t -> ~ In t (gone e)) after
  /\ Forall (fun row => h_height row = None -> ~ In (h_txid row) (gone e)) after.
Proof.
  intros after. subst after.
  destruct (mempool_pass_run e) as (_ & Hok & _). cbv zeta in Hok.
  destruct (Hok u Hrun) as [Hd _]. rewrite Hd. unfold evict. simpl.
  split; [reflexivity |]. split.
  - apply Forall_map, List.Forall_forall. intros row _ t Ht.
    unfold unspent_by in Ht. destruct (h_input_txid row) as [t' |] eqn:Hin; [| congruence].
    destruct (mem t' (gone e)) eqn:Hm; [simpl in Ht; discriminate |].
    rewrite Hin in Ht. injection Ht as <-. apply mem_false. exact Hm.
  - apply Forall_map, List.Forall_forall. intros row Hrow Hh.
    apply filter_In in Hrow as [_ Hkeep].
    assert (Hsame : h_txid (unspent_by (gone e) row) = h_txid row
                    /\ h_height (unspent_by (gone e) row) = h_height row).
    { unfold unspent_by. destruct (h_input_txid row); [| split; reflexivity].
      destruct (mem s (gone e)); split; reflexivity. }
    destruct Hsame as [Ht Hh']. rewrite Ht. rewrite Hh' in Hh. rewrite Hh in Hkeep.
    simpl in Hkeep. rewrite andb_true_r in Hkeep. apply negb_true_iff in Hkeep.
    apply mem_false. exact Hkeep.
Qed.

(** The theorem in scenario S4 with history: [A] has left the mempool. *)
Lemma mempool_pass_cleans_history_witness :
  fst (ScannerSync._runBlockImport_mempool s4_history) = Ok tt
  /\ gone s4_history = ["A"]
  /\ map (fun row => (h_txid row, h_input_txid row))
         (history (db (snd (ScannerSync._runBlockImport_mempool s4_history))))
     = [("Z", None); ("B", Some "C")].
Proof.
  assert (H : fst (ScannerSync._runBlockImport_mempool s4_history) = Ok tt).
  { vm_compute. reflexivity. }
  split; [exact H |]. split; [vm_compute; reflexivity |].
  rewrite (proj1 (mempool_pass_cleans_history s4_history tt H)).
  vm_compute. reflexivity.
Defined.

Import Rollback Confirming Twice Registry MempoolWorld Mempool.

(** ** [_importBlock] and the import of the next block *)

(** The block rows after [_importBlock]: only the insertion of the header
    touches them. *)
Lemma importBlock_blocks (block : Block) (h : Z) (client : jsval) (e e' : env) :
  ScannerSync._importBlock block h client e = (Ok tt, e') ->
  exists d1,
    SQL.insert_blocks_row h (cook "\\x" +:+ hash block) (header block)
      (cook "\\x" +:+ String.concat EmptyString (map id (Bitcore.transactions block)))
      (db e) = Ok (tt, d1)
    /\ blocks (db e') = blocks d1.
Proof.
  intros Hrun. unfold ScannerSync._importBlock, ScannerSync.withLock in Hrun.
  rewrite bind_modify in Hrun.
  set (txs := Bitcore.transactions block) in *.
  unfold Storage.queryAsync in Hrun.
  apply bind_ok_inv in Hrun as ([] & e1 & H1 & Hrun).
  apply run_statement_ok in H1 as [Hs1 _]. simpl db in Hs1.
  apply bind_ok_inv in Hrun as (counts & e2 & H2 & Hrun).
  apply exists_all in H2 as [Hd2 ->].
  set (E := ScannerSync.existing txs _) in Hrun.
  apply bind_ok_inv in Hrun as ([] & e3 & H3 & Hrun).
  apply bind_ok_inv in Hrun as ([] & e4 & H4 & Hrun).
  assert (Hd5 : db e' = db e4).
  { refine (tail_of_notifications_keeps_db _ e4 e' tt _ Hrun).
    unfold Service.broadcastBlock, Service.addBlock. repeat moves_step. }
  assert (R3 : confirming h (db e2) (db e3)).
  { refine (moves_forEach (confirming h) (confirming_refl h) (confirming_trans h)
              _ txs _ e2 tt e3 H3).
    intros tx. apply importBlock_tx_moves. }
  assert (R4 : spending h (db e3) (db e4)).
  { refine (moves_forEach (spending h) (spending_refl h) (spending_trans h)
              _ txs _ e3 tt e4 H4).
    intros tx. apply moves_forEach; [apply spending_refl | apply spending_trans |].
    intros [input index]. apply importBlock_input_moves. }
  pose proof (spending_confirming h _ _ R4) as R4'.
  pose proof (confirming_trans h _ _ _ R3 R4') as R34.
  destruct (confirming_frame h _ _ R34) as [Hblocks _].
  exists (db e1). split; [exact Hs1 |]. rewrite Hd5, Hblocks, Hd2. reflexivity.
Qed.

Lemma max_block_snoc (l : list block_row) (row : block_row) :
  Forall (fun b => b_height b < b_height row) l ->
  SQL.max_block (l ++ [row]) = Some row.
Proof.
  induction 1 as [| b l Hb Hall IH]; simpl; [reflexivity |].
  rewrite IH. destruct (b_height row <=? b_height b) eqn:Hle; [| reflexivity].
  apply Z.leb_le in Hle. lia.
Qed.

Lemma no_row_above (l : list block_row) (top h : Z) :
  Forall (fun b => b_height b <= top) l -> top < h ->
  existsb (fun b => b_height b =? h) l = false.
Proof.
  intros Hall Hlt. apply not_true_iff_false. intros Hex.
  apply existsb_exists in Hex as (b & Hin & Heq). apply Z.eqb_eq in Heq.
  rewrite List.Forall_forall in Hall. specialize (Hall b Hin). lia.
Qed.

(** The import of the next block, lines 418-423. *)
Lemma import_advances (block : Block) (latest : ScannerSync.Latest)
    (e : env)
    (Htop : Forall (fun b => b_height b <= ScannerSync.latest_height latest)
                   (blocks (db e))) :
  let r := ScannerSync._runBlockImport_import block latest e in
  let height := ScannerSync.latest_height latest + 1 in
  locked (snd r) = locked e ++ [Keyed (ScannerSync.allTxIds block)]
  /\ (forall l, fst r = Ok l ->
        l = {| ScannerSync.latest_hash := hash block; ScannerSync.latest_height := height |}
        /\ blocks (db (snd r))
           = blocks (db e)
             ++ [{| b_height := height; b_hash := hash block; b_header := header block;
                    b_txids := String.concat EmptyString
                                 (map id (Bitcore.transactions block)) |}])
  /\ (forall msg, fst r = Err msg -> db (snd r) = db e /\ pending (snd r) = pending e).
Proof.
  intros r height. subst r. unfold ScannerSync._runBlockImport_import.
  match goal with |- context [Storage.executeTransaction ?b e] => set (body := b) end.
  assert (Kl : locked (snd (body JClient (with_pending e [])))
               = locked e ++ [Keyed (ScannerSync.allTxIds block)]).
  { subst body. cbv beta. unfold bind.
    pose proof (importBlock_locks block height JClient (with_pending e [])) as Hl.
    fold height.
    destruct (ScannerSync._importBlock block height JClient (with_pending e []))
      as [[[] | msg] e1]; simpl in Hl |- *; [| exact Hl].
    assert (K : keeps locked (ScannerSync._getLatest (ScannerSync.client_opts JClient))).
    { unfold ScannerSync._getLatest. simpl. frame_more. }
    rewrite K. exact Hl. }
  unfold Storage.executeTransaction, Storage.settle.
  destruct (body JClient (with_pending e [])) as [[l | msg] e'] eqn:Hrun; simpl in Kl |- *.
  - split; [exact Kl |]. split; [| intros ? H; discriminate].
    intros l' Hl'. injection Hl' as <-. subst body. cbv beta in Hrun.
    apply bind_ok_inv in Hrun as ([] & e1 & H1 & Hrun). fold height in H1.
    apply importBlock_blocks in H1 as (d1 & Hins & Hblocks).
    unfold SQL.insert_blocks_row, SQL.insert_row in Hins. simpl db in Hins.
    rewrite (no_row_above _ _ height Htop) in Hins by (unfold height; lia).
    rewrite !bytea_hex in Hins. injection Hins as <-. simpl in Hblocks.
    destruct (latest_of_rows JClient e1) as (Hs & Hr & _). cbv zeta in Hs, Hr.
    unfold ScannerSync._getLatest in Hrun. simpl in Hrun.
    rewrite Hrun in Hs, Hr. simpl in Hs, Hr. subst e'. simpl.
    rewrite Hblocks. split; [| reflexivity].
    rewrite (Hr l eq_refl), Hblocks, max_block_snoc; [reflexivity |].
    eapply List.Forall_impl; [| exact Htop]. intros b Hb. simpl in *. unfold height. lia.
  - split; [exact Kl |]. split; [intros ? H; discriminate |].
    intros _ _. split; reflexivity.
Qed.

(** [// import block], lines 418-423: when no block row is above
    [latest.height], a run that commits has added the row of the block at
    [latest.height + 1], after the rows that were there, and the new
    [this._latest] is this block.  A run that fails leaves the tables as
    they were.  The keys of the block are locked either way. *)
Theorem block_import_advances_latest (block : Block) (latest : ScannerSync.Latest)
    (e : env)
    (Htop : Forall (fun b => b_height b <= ScannerSync.latest_height latest)
                   (blocks (db e))) :
  let r := ScannerSync._runBlockImport_import block latest e in
  let height := ScannerSync.latest_height latest + 1 in
  locked (snd r) = locked e ++ [Keyed (ScannerSync.allTxIds block)]
  /\ (forall l, fst r = Ok l ->
        l = {| ScannerSync.latest_hash := hash block; ScannerSync.latest_height := height |}
        /\ blocks (db (snd r))
           = blocks (db e)
             ++ [{| b_height := height; b_hash := hash block; b_header := header block;
                    b_txids := String.concat EmptyString
                                 (map id (Bitcore.transactions block)) |}])
  /\ (forall msg, fst r = Err msg -> db (snd r) = db e /\ pending (snd r) = pending e).
Proof. exact (import_advances block latest e Htop). Qed.

(** The theorem on [block8] over the store [db_a0], whose latest block is
    taken to be at height 7. *)
Lemma block_import_advances_latest_witness :
  let latest := {| ScannerSync.latest_hash := "h7"; ScannerSync.latest_height := 7 |} in
  let r := ScannerSync._runBlockImport_import block8 latest (fresh db_a0) in
  Forall (fun b => b_height b <= 7) (blocks db_a0)
  /\ fst r = Ok {| ScannerSync.latest_hash := "h8"; ScannerSync.latest_height := 8 |}
  /\ map b_txids (blocks (db (snd r))) = ["cbb1"].
Proof.
  intros latest r.
  assert (H : Forall (fun b => b_height b <= ScannerSync.latest_height latest)
                     (blocks (db (fresh db_a0)))).
  { constructor. }
  split; [exact H |].
  destruct (block_import_advances_latest block8 latest (fresh db_a0) H) as (_ & Hok & _).
  assert (Hr : fst r = Ok {| ScannerSync.latest_hash := "h8";
                             ScannerSync.latest_height := 8 |}).
  { vm_compute. reflexivity. }
  split; [exact Hr |]. destruct (Hok _ Hr) as [_ Hb]. subst r. rewrite Hb. reflexivity.
Defined.

(** When [_importBlock] returns, over tables in which every history row has
    the row of its transaction: there is a block row at the height; every
    transaction of the block has a row, all its rows and the history rows of
    its outputs are at the height; and the history rows of the outputs that
    its inputs spend, a coinbase input apart, have their input height at the
    height.  This holds for the transactions that were stored unconfirmed
    as for the new ones. *)
Theorem importBlock_confirms_the_block (block : Block) (height : Z) (client : jsval)
    (e : env)
    (Hprod : produced (db e))
    (Hrun : fst (ScannerSync._importBlock block height client e) = Ok tt) :
  let d := db (snd (ScannerSync._importBlock block height client e)) in
  existsb (fun b => b_height b =? height) (blocks d) = true
  /\ forall tx, In tx (Bitcore.transactions block) ->
       SQL.tx_exists (id tx) d = true
       /\ Forall (fun t => t_txid t = id tx -> t_height t = Some height) (transactions d)
       /\ Forall (fun r => h_txid r = id tx -> h_height r = Some height) (history d)
       /\ forall input index,
            In (input, index) (ScannerSync.indexed (inputs tx)) ->
            ScannerSync.is_coinbase input index = false ->
            Forall (fun r => SQL.spends (prevTxId input) (outputIndex input) r = true ->
                             h_input_height r = Some height) (history d).
Proof.
  intros d. subst d.
  destruct (importBlock_imports block height client e _ (run_as_pair _ e tt Hrun))
    as (_ & _ & Himp).
  exact (Himp Hprod).
Qed.

(** The theorem on [block8], whose transaction [b1] spends the stored
    output [a0:0]. *)
Lemma importBlock_confirms_the_block_witness :
  let d := db (snd (ScannerSync._importBlock block8 8 JClient (fresh db_a0))) in
  produced db_a0
  /\ fst (ScannerSync._importBlock block8 8 JClient (fresh db_a0)) = Ok tt
  /\ SQL.tx_exists "b1" d = true
  /\ Forall (fun r => SQL.spends "a0" 0 r = true -> h_input_height r = Some 8) (history d).
Proof.
  intros d.
  assert (Hp : produced (db (fresh db_a0))) by (repeat constructor).
  assert (Hr : fst (ScannerSync._importBlock block8 8 JClient (fresh db_a0)) = Ok tt).
  { vm_compute. reflexivity. }
  split; [exact Hp |]. split; [exact Hr |].
  destruct (importBlock_confirms_the_block block8 8 JClient (fresh db_a0) Hp Hr)
    as [_ Htx].
  destruct (Htx tx_b1 (or_intror (or_introl eq_refl))) as (Hex & _ & _ & Hin).
  split; [exact Hex |].
  exact (Hin {| prevTxId := "a0"; outputIndex := 0 |} 0 (or_introl eq_refl) eq_refl).
Defined.

Import Rollback Confirming Twice Registry MempoolWorld Mempool.

(** ** The walk back of [_runBlockImport] and one round of its loop *)

Section WalkBack.

Variable chain : Z -> option Block.

Lemma keeps_findLatest {X : Type} (f : env -> X) (fuel : nat)
    (latest : ScannerSync.Latest) :
  (forall e x, f (with_faults e x) = f e) ->
  (forall e, f (with_db e (db e)) = f e) ->
  keeps f (BlockLoop.findLatest chain fuel latest).
Proof.
  intros Hf Hd. revert latest. induction fuel as [| fuel IH]; intros latest; simpl.
  - apply keeps_ret.
  - unfold BlockLoop.getBlock, Storage.executeQuery, SQL.select_blocks_byHeight.
    repeat first
      [ apply IH
      | apply keeps_run_statement;
        [exact Hf | intros ? ? ? H; unfold SQL.reading in H; injection H as _ <-; apply Hd]
      | frame_step ].
Qed.

Lemma findLatest_found (fuel : nat) (latest : ScannerSync.Latest) (e e' : env)
    (block : Block) (latest' : ScannerSync.Latest) :
  BlockLoop.findLatest chain fuel latest e = (Ok (Some (block, latest')), e') ->
  chain (ScannerSync.latest_height latest' + 1) = Some block
  /\ ScannerSync.latest_hash latest' = prevHash (header block)
  /\ (latest' = latest
      \/ exists row,
           In row (blocks (db e))
           /\ latest' = {| ScannerSync.latest_hash := b_hash row;
                           ScannerSync.latest_height := b_height row |}
           /\ b_height row < ScannerSync.latest_height latest).
Proof.
  revert latest e. induction fuel as [| fuel IH]; intros latest e Hrun; [discriminate |].
  cbn [BlockLoop.findLatest] in Hrun.
  apply bind_ok_inv in Hrun as (block0 & e1 & H1 & Hrun).
  unfold BlockLoop.getBlock in H1.
  destruct (chain (ScannerSync.latest_height latest + 1)) as [b0 |] eqn:Hchain;
    [| discriminate].
  injection H1 as <- <-.
  destruct (String.eqb (ScannerSync.latest_hash latest) (prevHash (header b0))) eqn:Heq.
  - injection Hrun as <- <- <-. apply String.eqb_eq in Heq.
    split; [exact Hchain |]. split; [exact Heq |]. left. reflexivity.
  - apply bind_ok_inv in Hrun as (rows & e2 & H2 & Hrun).
    unfold Storage.executeQuery, SQL.select_blocks_byHeight in H2.
    apply run_reading_ok in H2 as [-> ->].
    destruct (List.filter _ (blocks (db e))) as [| row rows] eqn:Erows; [discriminate |].
    cbn [first_row] in Hrun. rewrite bind_ret in Hrun.
    assert (Hrow : In row (blocks (db e))
                   /\ b_height row = ScannerSync.latest_height latest - 1).
    { assert (Hin : In row (List.filter
                              (fun b => b_height b =? ScannerSync.latest_height latest - 1)
                              (blocks (db e)))).
      { rewrite Erows. left. reflexivity. }
      apply filter_In in Hin as [Hin Hh]. split; [exact Hin | lia]. }
    destruct Hrow as [Hin Hh].
    apply IH in Hrun as (Hc & Hp & Hwhich). simpl db in Hwhich.
    split; [exact Hc |]. split; [exact Hp |]. right.
    destruct Hwhich as [-> | (row' & Hin' & -> & Hlt)].
    + exists row. split; [exact Hin |]. split; [reflexivity | lia].
    + exists row'. split; [exact Hin' |]. split; [reflexivity |]. simpl in Hlt. lia.
Qed.

Lemma findLatest_has_fuel (fuel : nat) (latest : ScannerSync.Latest) (e : env) :
  (length (List.filter (fun b => (b_height b <? ScannerSync.latest_height latest)%Z)
                       (blocks (db e))) < fuel)%nat ->
  fst (BlockLoop.findLatest chain fuel latest e) <> Ok None.
Proof.
  revert latest e. induction fuel as [| fuel IH]; intros latest e Hlen; [lia |].
  cbn [BlockLoop.findLatest]. unfold BlockLoop.getBlock.
  destruct (chain (ScannerSync.latest_height latest + 1)) as [b0 |];
    [| discriminate].
  rewrite bind_ret.
  destruct (String.eqb (ScannerSync.latest_hash latest) (prevHash (header b0)));
    [discriminate |].
  unfold Storage.executeQuery, SQL.select_blocks_byHeight.
  match goal with
  | |- fst (bind ?m ?k ?x) <> _ =>
      destruct (bind_cases m k x) as [(rows & e1 & H1 & ->) | (msg & e1 & _ & ->)];
        [| discriminate]
  end.
  apply run_reading_ok in H1 as [-> ->].
  destruct (List.filter (fun b => b_height b =? ScannerSync.latest_height latest - 1)
                        (blocks (db e))) as [| row rows] eqn:Erows; [discriminate |].
  cbn [first_row]. rewrite bind_ret. apply IH. simpl.
  assert (Hrow : In row (blocks (db e))
                 /\ b_height row = ScannerSync.latest_height latest - 1).
  { assert (Hin : In row (List.filter
                            (fun b => b_height b =? ScannerSync.latest_height latest - 1)
                            (blocks (db e)))).
    { rewrite Erows. left. reflexivity. }
    apply filter_In in Hin as [Hin Hh]. split; [exact Hin | lia]. }
  destruct Hrow as [Hin Hh].
  pose proof (filter_length_lt (fun b => (b_height b <? b_height row)%Z)
                               (fun b => (b_height b <? ScannerSync.latest_height latest)%Z)
                               (blocks (db e)) row) as Hlt.
  assert (length (List.filter (fun b => (b_height b <? b_height row)%Z) (blocks (db e)))
          < length (List.filter (fun b => (b_height b <? ScannerSync.latest_height latest)%Z)
                                (blocks (db e))))%nat.
  { apply Hlt; [intros y Hy; lia | exact Hin | lia | lia]. }
  lia.
Qed.

(** The walk back, lines 374-390, started with more fuel than there are
    block rows, only reads, and it ends: with an error (the node has no
    block at the height asked for, the store fails, or there is no block
    row one below), or with a block [block] of the node and a [latest] such
    that [block] is the node's block at [latest.height + 1] and builds on
    [latest.hash].  This [latest] is the one it was started with, or it is
    read from a block row below it.  When the block that the node has at
    the next height builds on [latest], nothing is read from the store. *)
Theorem walk_back_finds_the_fork (latest : ScannerSync.Latest) (e : env) :
  let r := BlockLoop.findLatest chain (S (length (blocks (db e)))) latest e in
  db (snd r) = db e /\ delivered (snd r) = delivered e /\ locked (snd r) = locked e
  /\ fst r <> Ok None
  /\ (forall block latest',
        fst r = Ok (Some (block, latest')) ->
        chain (ScannerSync.latest_height latest' + 1) = Some block
        /\ ScannerSync.latest_hash latest' = prevHash (header block)
        /\ (latest' = latest
            \/ exists row,
                 In row (blocks (db e))
                 /\ latest' = {| ScannerSync.latest_hash := b_hash row;
                                 ScannerSync.latest_height := b_height row |}
                 /\ b_height row < ScannerSync.latest_height latest))
  /\ (forall block,
        chain (ScannerSync.latest_height latest + 1) = Some block ->
        ScannerSync.latest_hash latest = prevHash (header block) ->
        r = (Ok (Some (block, latest)), e)).
Proof.
  intros r. subst r.
  split; [apply (keeps_findLatest db); intros; [reflexivity | destruct e0; reflexivity] |].
  split; [apply (keeps_findLatest delivered); reflexivity |].
  split; [apply (keeps_findLatest locked); reflexivity |].
  split.
  - apply findLatest_has_fuel.
    pose proof (filter_length_le (fun b => (b_height b <? ScannerSync.latest_height latest)%Z)
                                 (blocks (db e))).
    lia.
  - split.
    + intros block latest' Hr. eapply findLatest_found. apply run_as_pair. exact Hr.
    + intros block Hc Hh. cbn [BlockLoop.findLatest]. unfold BlockLoop.getBlock.
      rewrite Hc, bind_ret. apply String.eqb_eq in Hh. rewrite Hh. reflexivity.
Qed.

End WalkBack.

Import Rollback Confirming Twice Registry MempoolWorld Mempool.

Lemma keeps_immediates_getLatest (client : jsval) :
  keeps immediates (ScannerSync._getLatest (ScannerSync.client_opts client)).
Proof. unfold ScannerSync._getLatest. simpl. frame_more. Qed.

Lemma keeps_immediates_importBlock (block : Block) (height : Z) (client : jsval) :
  keeps immediates (ScannerSync._importBlock block height client).
Proof. unfold ScannerSync._importBlock, ScannerSync.withLock. frame_more. Qed.

Lemma keeps_immediates_block_import (block : Block) (latest : ScannerSync.Latest) :
  keeps immediates (ScannerSync._runBlockImport_import block latest).
Proof.
  unfold ScannerSync._runBlockImport_import.
  apply keeps_executeTransaction; try reflexivity. intros client.
  apply keeps_bind; [apply keeps_immediates_importBlock |].
  intros _. apply keeps_immediates_getLatest.
Qed.

(** The rollback, lines 392-416, as far as the next import depends on it. *)
Lemma reorg_leaves_room (this_latest latest : ScannerSync.Latest) (e e' : env)
    (l : ScannerSync.Latest) :
  ScannerSync._runBlockImport_reorg this_latest latest e = (Ok l, e') ->
  immediates e' = immediates e
  /\ (ScannerSync.latest_hash latest = ScannerSync.latest_hash this_latest -> db e' = db e)
  /\ (ScannerSync.latest_hash latest <> ScannerSync.latest_hash this_latest ->
      Forall (fun b => b_height b <= ScannerSync.latest_height latest - 1) (blocks (db e'))).
Proof.
  unfold ScannerSync._runBlockImport_reorg.
  destruct (String.eqb (ScannerSync.latest_hash latest)
                       (ScannerSync.latest_hash this_latest)) eqn:Heq; simpl.
  - intros H. injection H as _ <-. apply String.eqb_eq in Heq.
    split; [reflexivity |]. split; [reflexivity | contradiction].
  - apply String.eqb_neq in Heq. unfold ScannerSync.reorgLock. rewrite bind_modify.
    set (e0 := with_locked e (locked e ++ [Exclusive])).
    match goal with
    | |- context [Storage.executeTransaction ?b e0] => set (body := b)
    end.
    intros Hrun.
    assert (Ki : immediates e' = immediates e).
    { assert (K : keeps immediates (Storage.executeTransaction body)).
      { apply keeps_executeTransaction; try reflexivity.
        intros client. subst body. cbv beta.
        repeat first [apply keeps_immediates_getLatest | frame_more_step]. }
      specialize (K e0). rewrite Hrun in K. exact K. }
    split; [exact Ki |]. split; [contradiction |]. intros _.
    unfold Storage.executeTransaction, Storage.settle in Hrun.
    destruct (body JClient (with_pending e0 [])) as [[l' | msg] e1] eqn:Hbody;
      [| discriminate].
    injection Hrun as _ <-. simpl. subst body. cbv beta in Hbody.
    unfold Storage.queryAsync in Hbody.
    apply bind_ok_inv in Hbody as (rows & e2 & H1 & Hbody).
    apply run_statement_ok in H1 as [Hs1 _].
    unfold SQL.select_fromHeight, SQL.reading in Hs1. injection Hs1 as _ Hd1.
    apply bind_ok_inv in Hbody as ([] & e3 & H2 & Hbody).
    apply run_statement_ok in H2 as [Hs2 _].
    unfold SQL.delete_blocks_fromHeight in Hs2. injection Hs2 as Hd2.
    apply bind_ok_inv in Hbody as ([] & e4 & H3 & Hbody).
    apply run_statement_ok in H3 as [Hs3 _].
    unfold SQL.update_transactions_makeUnconfirmed in Hs3. injection Hs3 as Hd3.
    apply bind_ok_inv in Hbody as ([] & e5 & H4 & Hbody).
    apply run_statement_ok in H4 as [Hs4 _].
    unfold SQL.update_history_makeOutputsUnconfirmed in Hs4. injection Hs4 as Hd4.
    apply bind_ok_inv in Hbody as ([] & e6 & H5 & Hbody).
    apply removeBlock_each in H5 as [Hd5 _].
    apply bind_ok_inv in Hbody as ([] & e7 & H6 & Hbody).
    apply run_statement_ok in H6 as [Hs6 _].
    unfold SQL.update_history_makeInputsUnconfirmed in Hs6. injection Hs6 as Hd6.
    destruct (latest_of_rows JClient e7) as (Hs & _). cbv zeta in Hs.
    unfold ScannerSync._getLatest in Hbody. simpl in Hbody. rewrite Hbody in Hs.
    simpl in Hs. subst e1. simpl.
    rewrite <- Hd6, Hd5, <- Hd4, <- Hd3, <- Hd2, <- Hd1. simpl.
    apply List.Forall_forall. intros b Hb. apply filter_In in Hb as [_ Hb].
    apply negb_true_iff, Z.ltb_ge in Hb. exact Hb.
Qed.

Section Round.

Variable chain : Z -> option Block.

(** One round of the block loop, lines 374-433, from a [this._latest] that
    no block row is above and whose hash is that of no block row at another
    height.  When the round returns, the new [this._latest] is a block of
    the node: the node's block at that height, which is at most one above
    the old latest; its row is the last of the block rows; and
    [_importOrphaned] has been queued once for each of its transactions, in
    their order, and nothing else has. *)
Theorem round_puts_the_tip_on_the_chain (this_latest : ScannerSync.Latest) (e : env)
    (l : ScannerSync.Latest)
    (Htop : Forall (fun b => b_height b <= ScannerSync.latest_height this_latest)
                   (blocks (db e)))
    (Hhash : Forall (fun b => b_hash b = ScannerSync.latest_hash this_latest ->
                              b_height b = ScannerSync.latest_height this_latest)
                    (blocks (db e)))
    (Hrun : fst (BlockLoop._runBlockImport_round chain this_latest e) = Ok l) :
  let e' := snd (BlockLoop._runBlockImport_round chain this_latest e) in
  exists block,
    chain (ScannerSync.latest_height l) = Some block
    /\ ScannerSync.latest_hash l = hash block
    /\ ScannerSync.latest_height l <= ScannerSync.latest_height this_latest + 1
    /\ (exists rows,
          blocks (db e')
          = rows ++ [{| b_height := ScannerSync.latest_height l; b_hash := hash block;
                        b_header := header block;
                        b_txids := String.concat EmptyString
                                     (map id (Bitcore.transactions block)) |}])
    /\ immediates e'
       = immediates e ++ map ImportOrphaned (map id (Bitcore.transactions block)).
Proof.
  intros e'. subst e'. apply run_as_pair in Hrun. revert Hrun.
  generalize (snd (BlockLoop._runBlockImport_round chain this_latest e)). intros e' Hrun.
  simpl. unfold BlockLoop._runBlockImport_round in Hrun. rewrite bind_gets in Hrun.
  apply bind_ok_inv in Hrun as (found & e1 & H1 & Hrun).
  destruct found as [[block latest] |]; [| discriminate].
  pose proof (keeps_findLatest chain db (S (length (blocks (db e)))) this_latest
                (fun _ _ => eq_refl) (fun e0 => ltac:(destruct e0; reflexivity)) e) as Kd.
  pose proof (keeps_findLatest chain immediates (S (length (blocks (db e)))) this_latest
                (fun _ _ => eq_refl) (fun _ => eq_refl) e) as Ki.
  rewrite H1 in Kd, Ki. simpl in Kd, Ki.
  apply findLatest_found in H1 as (Hchain & Hprev & Hwhich).
  apply bind_ok_inv in Hrun as (rolled & e2 & H2 & Hrun).
  apply reorg_leaves_room in H2 as (Hi2 & Hsame & Hroll).
  assert (Hle : ScannerSync.latest_height latest <= ScannerSync.latest_height this_latest).
  { destruct Hwhich as [-> | (row & _ & -> & Hlt)]; simpl; lia. }
  assert (Htop2 : Forall (fun b => b_height b <= ScannerSync.latest_height latest)
                         (blocks (db e2))).
  { destruct (String.eqb (ScannerSync.latest_hash latest)
                         (ScannerSync.latest_hash this_latest)) eqn:Heq.
    - apply String.eqb_eq in Heq. rewrite (Hsame Heq), Kd.
      destruct Hwhich as [-> | (row & Hin & -> & Hlt)]; [exact Htop |].
      exfalso. rewrite List.Forall_forall in Hhash.
      specialize (Hhash row Hin Heq). lia.
    - apply String.eqb_neq in Heq. eapply List.Forall_impl; [| exact (Hroll Heq)].
      intros b Hb. simpl in Hb. lia. }
  apply bind_ok_inv in Hrun as (imported & e3 & H3 & Hrun).
  pose proof (keeps_immediates_block_import block latest e2) as Ki3.
  destruct (import_advances block latest e2 Htop2) as (_ & Hok & _).
  cbv zeta in Hok. rewrite H3 in Hok, Ki3. simpl in Hok, Ki3.
  destruct (Hok imported eq_refl) as [-> Hblocks].
  apply bind_ok_inv in Hrun as ([] & e4 & H4 & Hrun).
  rewrite queue_all in H4. injection H4 as <-. injection Hrun as <- <-. simpl.
  exists block. split; [exact Hchain |]. split; [reflexivity |]. split; [lia |].
  split; [eexists; exact Hblocks |]. congruence.
Qed.

End Round.

(** The theorem on the three-block chain, when the node has a block at
    height 3 that builds on the stored tip. *)
Lemma round_puts_the_tip_on_the_chain_witness :
  let block3 := {| hash := "h3"; header := Chain.header_on "h2";
                   Bitcore.transactions := [tx_cb; tx_b1] |} in
  let chain := fun height => if height =? 3 then Some block3 else None in
  let r := BlockLoop._runBlockImport_round chain Chain.tip (fresh Chain.chain_db) in
  fst r = Ok {| ScannerSync.latest_hash := "h3"; ScannerSync.latest_height := 3 |}
  /\ immediates (snd r) = [ImportOrphaned "cb"; ImportOrphaned "b1"]
  /\ map b_hash (blocks (db (snd r))) = ["h0"; "h1"; "h2"; "h3"].
Proof.
  intros block3 chain r.
  assert (Hr : fst r = Ok {| ScannerSync.latest_hash := "h3";
                             ScannerSync.latest_height := 3 |}).
  { vm_compute. reflexivity. }
  assert (Htop : Forall (fun b => b_height b <= ScannerSync.latest_height Chain.tip)
                        (blocks (db (fresh Chain.chain_db)))).
  { repeat constructor; simpl; lia. }
  assert (Hhash : Forall (fun b => b_hash b = ScannerSync.latest_hash Chain.tip ->
                                   b_height b = ScannerSync.latest_height Chain.tip)
                         (blocks (db (fresh Chain.chain_db)))).
  { repeat constructor; simpl; intros H; try discriminate H; reflexivity. }
  destruct (round_puts_the_tip_on_the_chain chain Chain.tip (fresh Chain.chain_db) _
              Htop Hhash Hr) as (block & Hchain & _ & _ & _ & Hi).
  assert (Hb : block = block3).
  { simpl in Hchain. injection Hchain as <-. reflexivity. }
  subst block. split; [exact Hr |]. split; [exact Hi |]. vm_compute. reflexivity.
Defined.

Import Rollback Confirming Twice Registry MempoolWorld Mempool Scanning.

(** ** The rescanner: [_addTx] and [addTxs] *)

Section Rescanner.

Variable cdefClss : list string.

Lemma full_scan_all (txId : string) (cls : list string) (e : env) :
  forEach (fun cdefCls => ColorSync.fullScanTx txId cdefCls) cls e
  = (Ok tt, with_color_calls e (color_calls e ++ map (FullScanTx txId) cls)).
Proof.
  revert e. induction cls as [| c cls IH]; intros e; simpl.
  - rewrite app_nil_r. destruct e; reflexivity.
  - unfold ColorSync.fullScanTx at 1. rewrite bind_modify, IH. simpl.
    rewrite <- app_assoc. reflexivity.
Qed.

Lemma tx_row_found (txId : string) (d : database) :
  SQL.tx_exists txId d
  = match List.filter (fun t => String.eqb (t_txid t) txId) (transactions d) with
    | [] => false
    | _ :: _ => true
    end.
Proof.
  unfold SQL.tx_exists. induction (transactions d) as [| t l IH]; simpl; [reflexivity |].
  destruct (String.eqb (t_txid t) txId); simpl; [reflexivity | exact IH].
Qed.

(** [_addTx] when it returns. *)
Lemma addTx_ok (client : jsval) (txId : string) (block : option (string * Z))
    (e e' : env) (b : bool) :
  ColorSync._addTx cdefClss client txId block e = (Ok b, e') ->
  (b = false /\ is_scanned txId (db e) = true /\ db e' = db e
   /\ color_calls e' = color_calls e)
  \/ (b = true /\ is_scanned txId (db e) = false /\ SQL.tx_exists txId (db e) = true
      /\ db e' = with_cc_scanned (db e) (cc_scanned (db e) ++ [scanned_row txId block])
      /\ color_calls e' = color_calls e ++ map (FullScanTx txId) cdefClss).
Proof.
  intros Hrun. unfold ColorSync._addTx in Hrun.
  apply bind_ok_inv in Hrun as (scanned & e1 & H1 & Hrun).
  unfold Storage.queryAsync, SQL.select_ccScannedTxIds_isTxScanned in H1.
  apply run_reading_ok in H1 as [-> ->]. rewrite bytea_hex in Hrun.
  fold (is_scanned txId (db e)) in Hrun.
  destruct (is_scanned txId (db e)) eqn:Hsc.
  - injection Hrun as <- <-. left. repeat split.
  - right. apply bind_ok_inv in Hrun as (tx & e2 & H2 & Hrun).
    unfold ColorSync.getTx in H2.
    apply bind_ok_inv in H2 as (rows & e2' & H2 & Hrows).
    unfold Storage.executeQuery, SQL.select_transactions_byTxId in H2.
    apply run_reading_ok in H2 as [-> ->]. rewrite bytea_hex in Hrows.
    cbn [db with_db with_faults] in Hrows.
    pose proof (tx_row_found txId (db e)) as Hex.
    destruct (List.filter _ (transactions (db e))) as [| row rows]; [discriminate |].
    rewrite bind_gets in Hrows.
    destruct (parsable _ (t_tx row)); [| discriminate].
    injection Hrows as <- <-.
    apply bind_ok_inv in Hrun as ([] & e3 & H3 & Hrun).
    rewrite full_scan_all in H3. injection H3 as <-.
    apply bind_ok_inv in Hrun as ([] & e4 & H4 & Hrun).
    injection Hrun as <- <-.
    unfold Storage.queryAsync in H4.
    apply run_statement_ok in H4 as [Hs4 He4]. rewrite He4. simpl in Hs4 |- *.
    assert (Hins : SQL.insert_cc (cook "\\x" +:+ txId) (option_map fst block)
                     (option_map snd block) (db e)
                   = Ok (tt, db e4)).
    { destruct block as [[blockhash height] |]; simpl; [| exact Hs4].
      unfold SQL.insert_ccScannedTxIds_confirmed in Hs4. rewrite bytea_hex in Hs4.
      exact Hs4. }
    unfold SQL.insert_cc, SQL.insert_row in Hins. rewrite bytea_hex in Hins.
    fold (is_scanned txId (db e)) in Hins. rewrite Hsc in Hins. injection Hins as <-.
    repeat split. exact Hex.
Qed.

Lemma bind_bind {A B C : Type} (m : M A) (g : A -> M B) (k : B -> M C) (e : env) :
  bind (bind m g) k e = bind m (fun a => bind (g a) k) e.
Proof. unfold bind. destruct (m e) as [[a | msg] e1]; reflexivity. Qed.

Lemma bind_throw {A B : Type} (msg : string) (k : A -> M B) (e : env) :
  bind (throw msg) k e = (Err msg, e).
Proof. reflexivity. Qed.

(** [_addTx] when the store answers. *)
Lemma addTx_answers (client : jsval) (txId : string) (block : option (string * Z))
    (e : env) :
  faults e = [] ->
  exists e',
    ColorSync._addTx cdefClss client txId block e
    = (if is_scanned txId (db e) then Ok false
       else match List.filter (fun t => String.eqb (t_txid t) txId)
                              (transactions (db e)) with
            | [] => Err ("Tx " +:+ txId +:+ " not found!")
            | row :: _ =>
                if parsable e (t_tx row) then Ok true
                else Err "bitcore.Transaction: the bytes do not parse"
            end, e')
    /\ faults e' = []
    /\ (is_scanned txId (db e) = false ->
        match List.filter (fun t => String.eqb (t_txid t) txId) (transactions (db e)) with
        | [] => True
        | row :: _ => parsable e (t_tx row) = false
        end ->
        db e' = db e /\ color_calls e' = color_calls e).
Proof.
  intros Hf. unfold ColorSync._addTx, Storage.queryAsync,
    SQL.select_ccScannedTxIds_isTxScanned.
  rewrite bind_statement, Hf. unfold SQL.reading. cbv beta iota. rewrite bytea_hex.
  fold (is_scanned txId (db e)). destruct (is_scanned txId (db e)) eqn:Hsc.
  - eexists. split; [reflexivity |]. split; [reflexivity | discriminate].
  - unfold ColorSync.getTx, Storage.executeQuery, SQL.select_transactions_byTxId.
    rewrite bind_bind, bind_statement. cbn [faults with_db with_faults tail db].
    unfold SQL.reading. cbv beta iota. rewrite bytea_hex.
    destruct (List.filter _ (transactions (db e))) as [| row rows].
    + rewrite bind_throw. eexists. split; [reflexivity |].
      split; [reflexivity | intros; split; reflexivity].
    + rewrite bind_bind, bind_gets. cbn [parsable with_db with_faults].
      destruct (parsable e (t_tx row)) eqn:Hp.
      * rewrite bind_ret. unfold bind at 1. rewrite full_scan_all.
        rewrite bind_statement.
        cbn [faults with_db with_faults with_color_calls tail db].
        assert (Hins : exists d',
                  match block with
                  | Some (blockhash, height) =>
                      SQL.insert_ccScannedTxIds_confirmed (cook "\\x" +:+ txId)
                        (cook "\\x" +:+ blockhash) height
                  | None => SQL.insert_ccScannedTxIds_unconfirmed (cook "\\x" +:+ txId)
                  end (db e) = Ok (tt, d')).
        { destruct block as [[blockhash height] |];
            unfold SQL.insert_ccScannedTxIds_confirmed,
              SQL.insert_ccScannedTxIds_unconfirmed, SQL.insert_cc, SQL.insert_row;
            rewrite bytea_hex; fold (is_scanned txId (db e)); rewrite Hsc;
            eexists; reflexivity. }
        destruct Hins as [d' Hd']. rewrite Hd'. eexists. split; [reflexivity |].
        split; [reflexivity | discriminate].
      * rewrite bind_throw. eexists. split; [reflexivity |].
        split; [reflexivity | intros; split; reflexivity].
Qed.

(** [_addTx(client, txId, blockhash, height)]: for a transaction that is
    scanned already it returns [false] and does nothing.  Otherwise, when
    it returns, it returns [true], the transaction has a row, each color
    definition class has been asked once for a full scan, in the order of
    the classes, and the color-scanned row of the transaction has been
    added, with the block given or unconfirmed; nothing else in the tables
    has changed.  With a store that answers, it returns [false] for a
    scanned transaction; for one that is not scanned it throws
    [Tx ... not found!] when the transaction has no row, and it throws when
    bitcore does not parse the row; in both cases nothing has been written
    and no scan has been asked for. *)
Theorem addTx_scans_a_transaction_once (client : jsval) (txId : string)
    (block : option (string * Z)) (e : env) :
  let r := ColorSync._addTx cdefClss client txId block e in
  (forall b, fst r = Ok b ->
     (b = false /\ is_scanned txId (db e) = true /\ db (snd r) = db e
      /\ color_calls (snd r) = color_calls e)
     \/ (b = true /\ is_scanned txId (db e) = false /\ SQL.tx_exists txId (db e) = true
         /\ db (snd r)
            = with_cc_scanned (db e) (cc_scanned (db e) ++ [scanned_row txId block])
         /\ color_calls (snd r) = color_calls e ++ map (FullScanTx txId) cdefClss))
  /\ (faults e = [] -> is_scanned txId (db e) = true -> fst r = Ok false)
  /\ (faults e = [] -> is_scanned txId (db e) = false ->
      SQL.tx_exists txId (db e) = false ->
      fst r = Err ("Tx " +:+ txId +:+ " not found!")
      /\ db (snd r) = db e /\ color_calls (snd r) = color_calls e)
  /\ (forall row rows,
        faults e = [] -> is_scanned txId (db e) = false ->
        List.filter (fun t => String.eqb (t_txid t) txId) (transactions (db e))
        = row :: rows ->
        parsable e (t_tx row) = false ->
        (exists msg, fst r = Err msg)
        /\ db (snd r) = db e /\ color_calls (snd r) = color_calls e).
Proof.
  intros r. subst r. split; [| split; [| split]].
  - intros b Hb. apply (addTx_ok client txId block e _ b). apply run_as_pair. exact Hb.
  - intros Hf Hsc. destruct (addTx_answers client txId block e Hf) as (e' & Hrun & _).
    rewrite Hrun, Hsc. reflexivity.
  - intros Hf Hsc Hex.
    destruct (addTx_answers client txId block e Hf) as (e' & Hrun & _ & Hsame).
    rewrite tx_row_found in Hex. rewrite Hrun, Hsc in *. simpl.
    destruct (List.filter _ (transactions (db e))); [| discriminate Hex].
    split; [reflexivity | apply Hsame; [reflexivity | exact I]].
  - intros row rows Hf Hsc Hrows Hp.
    destruct (addTx_answers client txId block e Hf) as (e' & Hrun & _ & Hsame).
    rewrite Hrun, Hsc, Hrows, Hp in *. simpl.
    split; [eexists; reflexivity | apply Hsame; reflexivity].
Qed.

Lemma addTx_scanned (client : jsval) (txId : string) (block : option (string * Z))
    (e : env) :
  is_scanned txId (db e) = true ->
  db (snd (ColorSync._addTx cdefClss client txId block e)) = db e
  /\ color_calls (snd (ColorSync._addTx cdefClss client txId block e)) = color_calls e.
Proof.
  intros Hsc.
  destruct (ColorSync._addTx cdefClss client txId block e) as [res e'] eqn:Hrun.
  unfold ColorSync._addTx, Storage.queryAsync, SQL.select_ccScannedTxIds_isTxScanned in Hrun.
  rewrite bind_statement in Hrun. unfold SQL.reading in Hrun. cbv beta iota in Hrun.
  rewrite bytea_hex in Hrun. fold (is_scanned txId (db e)) in Hrun. rewrite Hsc in Hrun.
  destruct (faults e) as [| [|] later]; injection Hrun as <- <-; split; reflexivity.
Qed.

Lemma with_cc_same (d : database) : with_cc_scanned d (cc_scanned d ++ []) = d.
Proof. rewrite app_nil_r. destruct d; reflexivity. Qed.

Lemma is_scanned_app (txId : string) (d : database) (more : list cc_row) :
  is_scanned txId (with_cc_scanned d (cc_scanned d ++ more))
  = is_scanned txId d || existsb (fun c => String.eqb (c_txid c) txId) more.
Proof. unfold is_scanned. simpl. apply existsb_app. Qed.

(** One turn of the loop of [addTxs]. *)
Lemma add_one (txId : string) (e : env) :
  exists e' added,
    catch (added <- Storage.executeTransaction
                      (fun client => ColorSync._addTx cdefClss client txId None) ;;
           ret tt)
          (fun err => ret tt) e = (Ok tt, e')
    /\ db e' = with_cc_scanned (db e) (cc_scanned (db e) ++ added)
    /\ (added = []
        \/ (added = [scanned_row txId None] /\ is_scanned txId (db e) = false
            /\ SQL.tx_exists txId (db e) = true))
    /\ (is_scanned txId (db e) = true -> added = [] /\ color_calls e' = color_calls e).
Proof.
  unfold catch, bind, Storage.executeTransaction, Storage.settle.
  pose proof (addTx_scanned JClient txId None (with_pending e [])) as Hsc.
  destruct (ColorSync._addTx cdefClss JClient txId None (with_pending e []))
    as [[b | msg] e1] eqn:Hrun; simpl in Hsc |- *.
  - apply addTx_ok in Hrun
      as [(-> & Hs & Hd & Hc) | (-> & Hs & Hex & Hd & Hc)]; simpl in Hs, Hd, Hc.
    + exists (with_pending (with_delivered e1 (delivered e1 ++ pending e1)) (pending e)), [].
      simpl. split; [reflexivity |]. split; [rewrite with_cc_same; exact Hd |].
      split; [left; reflexivity |]. intros _; split; [reflexivity | exact Hc].
    + exists (with_pending (with_delivered e1 (delivered e1 ++ pending e1)) (pending e)),
             [scanned_row txId None].
      simpl. split; [reflexivity |]. split; [exact Hd |].
      split; [right; repeat split; assumption |].
      intros H; rewrite H in Hs; discriminate.
  - exists (with_pending (with_db e1 (db e)) (pending e)), [].
    simpl. split; [reflexivity |]. split; [rewrite with_cc_same; reflexivity |].
    split; [left; reflexivity |].
    intros H; split; [reflexivity | apply (Hsc H)].
Qed.

(** [addTxs] as a whole. *)
Lemma addTxs_run (txIds : list string) (e : env) :
  let r := ColorSync.addTxs cdefClss txIds e in
  fst r = Ok tt
  /\ (exists added,
        db (snd r) = with_cc_scanned (db e) (cc_scanned (db e) ++ added)
        /\ Forall (fun c => In (c_txid c) txIds /\ c_blockhash c = None /\ c_height c = None
                            /\ is_scanned (c_txid c) (db e) = false
                            /\ SQL.tx_exists (c_txid c) (db e) = true) added)
  /\ (Forall (fun t => is_scanned t (db e) = true) txIds ->
      db (snd r) = db e /\ color_calls (snd r) = color_calls e).
Proof.
  intros r. subst r. revert e. induction txIds as [| t txIds IH]; intros e.
  - simpl. split; [reflexivity |]. split.
    + exists []. split; [symmetry; apply with_cc_same | constructor].
    + intros _; split; reflexivity.
  - unfold ColorSync.addTxs. cbn [forEach]. fold (ColorSync.addTxs cdefClss txIds).
    destruct (add_one t e) as (e1 & a1 & Hrun1 & Hd1 & Hwhich & Hsc1).
    rewrite (bind_ok _ _ _ _ _ Hrun1).
    destruct (IH e1) as (Hok & (added & Hd & Hall) & Hsame).
    split; [exact Hok |].
    assert (Hmono : forall x, is_scanned x (db e1) = false -> is_scanned x (db e) = false).
    { intros x. rewrite Hd1, is_scanned_app. intros H. apply orb_false_iff in H as [H _].
      exact H. }
    assert (Hex : forall x, SQL.tx_exists x (db e1) = SQL.tx_exists x (db e)).
    { intros x. rewrite Hd1. reflexivity. }
    split.
    + exists (a1 ++ added). split.
      * rewrite Hd, Hd1. simpl. rewrite <- app_assoc. reflexivity.
      * apply Forall_app. split.
        -- destruct Hwhich as [-> | (-> & Hs & Hx)]; [constructor |].
           constructor; [| constructor]. simpl.
           repeat split; try assumption. left. reflexivity.
        -- eapply List.Forall_impl; [| exact Hall].
           intros c (Hin & Hb & Hh & Hs & Hx). repeat split; try assumption.
           ++ right. exact Hin.
           ++ apply Hmono, Hs.
           ++ rewrite <- Hex. exact Hx.
    + intros Hscanned. inversion Hscanned as [| ? ? Ht Hrest]; subst.
      destruct (Hsc1 Ht) as [-> Hc1]. rewrite with_cc_same in Hd1.
      destruct Hsame as [Hdb Hcalls].
      { eapply List.Forall_impl; [| exact Hrest]. intros x Hx. rewrite Hd1. exact Hx. }
      split; congruence.
Qed.

(** [addTxs(txIds)] never rejects, and it only adds color-scanned rows: one
    unconfirmed row for some of the given transactions that had none and
    have a transaction row, with nothing else in the tables changed.  For
    transactions that are all scanned already it changes no table and asks
    for no scan. *)
Theorem addTxs_scans_what_is_stored (txIds : list string) (e : env) :
  let r := ColorSync.addTxs cdefClss txIds e in
  fst r = Ok tt
  /\ (exists added,
        db (snd r) = with_cc_scanned (db e) (cc_scanned (db e) ++ added)
        /\ Forall (fun c => In (c_txid c) txIds /\ c_blockhash c = None /\ c_height c = None
                            /\ is_scanned (c_txid c) (db e) = false
                            /\ SQL.tx_exists (c_txid c) (db e) = true) added)
  /\ (Forall (fun t => is_scanned t (db e) = true) txIds ->
      db (snd r) = db e /\ color_calls (snd r) = color_calls e).
Proof. exact (addTxs_run txIds e). Qed.

End Rescanner.

Import Rollback Confirming Twice Registry MempoolWorld Mempool Scanning.

(** ** The rescanner: [removeTxs] *)

Section Removal.

Variable cdefClss : list string.

(** The callback of [removeTxs] over the color definition classes. *)
Lemma unknown_class_throws (txId : string) (client : jsval) (cls : list string)
    (c : string) (e : env) :
  In c cls -> c <> "epobc" ->
  fst (forEach (fun cdefCls =>
         params <- (if String.eqb cdefCls "epobc"
                    then ret (cook "epobc:" +:+ txId +:+ cook ":\d+:0")
                    else throw ("Unknow cdefCls: " +:+ cdefCls)) ;;
         rows <- Storage.queryAsync client (SQL.select_ccDefinitions_colorId params) ;;
         match rows with
         | id :: _ => ColorSync.cdefManager_remove id
         | [] => ColorSync.removeColorValues txId cdefCls
         end) cls e) <> Ok tt.
Proof.
  intros Hin Hc. revert e. induction cls as [| x cls IH]; intros e; [contradiction |].
  cbn [forEach].
  match goal with
  | |- fst (bind ?m ?k ?x) <> _ =>
      destruct (bind_cases m k x) as [(a & e1 & H1 & ->) | (msg & e1 & _ & ->)];
        [| discriminate]
  end.
  destruct Hin as [-> | Hin]; [| apply IH, Hin].
  exfalso. apply String.eqb_neq in Hc. rewrite Hc in H1. rewrite bind_throw in H1.
  discriminate.
Qed.

(** The body of the transaction in [removeTxs], when a class other than
    [epobc] is among the classes. *)
Lemma removeTx_unknown_class (txId : string) (client : jsval) (c : string) (e : env) :
  In c cdefClss -> c <> "epobc" ->
  forall b, fst (ColorSync.removeTx cdefClss txId client e) = Ok b ->
            b = false /\ db (snd (ColorSync.removeTx cdefClss txId client e)) = db e.
Proof.
  intros Hin Hc b Hb. apply run_as_pair in Hb. revert Hb.
  generalize (snd (ColorSync.removeTx cdefClss txId client e)). intros e' Hrun.
  simpl. unfold ColorSync.removeTx in Hrun.
  apply bind_ok_inv in Hrun as (scanned & e1 & H1 & Hrun).
  unfold Storage.queryAsync, SQL.select_ccScannedTxIds_isTxScanned in H1.
  apply run_reading_ok in H1 as [-> ->].
  destruct (negb _) in Hrun.
  - injection Hrun as <- <-. split; reflexivity.
  - exfalso. apply bind_ok_inv in Hrun as ([] & e2 & H2 & _).
    eapply (unknown_class_throws txId client cdefClss c _ Hin Hc).
    rewrite H2. reflexivity.
Qed.

Lemma removeTxs_unknown_class (txIds : list string) (c : string) (e : env) :
  In c cdefClss -> c <> "epobc" ->
  fst (ColorSync.removeTxs cdefClss txIds e) = Ok tt
  /\ db (snd (ColorSync.removeTxs cdefClss txIds e)) = db e.
Proof.
  intros Hin Hc.
  revert e. induction txIds as [| t txIds IH]; intros e; [split; reflexivity |].
  unfold ColorSync.removeTxs. cbn [forEach]. fold (ColorSync.removeTxs cdefClss txIds).
  assert (Hone : exists e1,
            catch (removed <- Storage.executeTransaction (ColorSync.removeTx cdefClss t) ;;
                   ret tt)
                  (fun err => ret tt) e = (Ok tt, e1)
            /\ db e1 = db e).
  { unfold catch, bind, Storage.executeTransaction, Storage.settle.
    pose proof (removeTx_unknown_class t JClient c (with_pending e []) Hin Hc) as Hb.
    destruct (ColorSync.removeTx cdefClss t JClient (with_pending e []))
      as [[b | msg] e1]; simpl in *.
    - eexists. split; [reflexivity |]. simpl. apply (Hb b eq_refl).
    - eexists. split; reflexivity. }
  destruct Hone as (e1 & Hrun1 & Hd1). rewrite (bind_ok _ _ _ _ _ Hrun1).
  destruct (IH e1) as [Hok Hd]. split; [exact Hok | congruence].
Qed.

(** With a color definition class other than [epobc] among the classes,
    the [switch] of [removeTxs] throws for every transaction that is
    scanned, and the transaction with its [DELETE] is rolled back:
    [removeTxs] returns, and every color-scanned row is still there,
    whatever the transactions are; the block, transaction and history rows
    are not touched.  (What the callbacks of the other classes ask of the
    colored-coin library is another matter: nothing is said of it here.) *)
Theorem removeTxs_with_an_unknown_class_removes_nothing (txIds : list string) (c : string)
    (e : env)
    (Hin : In c cdefClss) (Hc : c <> "epobc") :
  let r := ColorSync.removeTxs cdefClss txIds e in
  fst r = Ok tt
  /\ cc_scanned (db (snd r)) = cc_scanned (db e)
  /\ blocks (db (snd r)) = blocks (db e)
  /\ transactions (db (snd r)) = transactions (db e)
  /\ history (db (snd r)) = history (db e).
Proof.
  intros r. subst r. destruct (removeTxs_unknown_class txIds c e Hin Hc) as [Hok Hd].
  rewrite Hd. repeat split. exact Hok.
Qed.

Lemma moves_modify (R : database -> database -> Prop) (g : env -> env) :
  (forall e, R (db e) (db (g e))) -> moves R (modify g).
Proof. intros Hg e a e' H. injection H as _ <-. apply Hg. Qed.

Lemma filter_twice {A : Type} (p q : A -> bool) (l : list A) :
  List.filter p (List.filter q l) = List.filter (fun x => q x && p x) l.
Proof.
  induction l as [| x l IH]; simpl; [reflexivity |].
  destruct (q x); simpl; [destruct (p x) |]; rewrite IH; reflexivity.
Qed.

Lemma filter_unscanned (txId : string) (d : database) :
  is_scanned txId d = false ->
  List.filter (fun c => negb (String.eqb (c_txid c) txId)) (cc_scanned d) = cc_scanned d.
Proof.
  unfold is_scanned. induction (cc_scanned d) as [| c l IH]; simpl; [reflexivity |].
  intros H. apply orb_false_iff in H as [Hc Hl]. rewrite Hc, IH by exact Hl. reflexivity.
Qed.

(** The body of the transaction in [removeTxs], when it returns. *)
Lemma removeTx_ok (txId : string) (client : jsval) (e e' : env) (b : bool) :
  ColorSync.removeTx cdefClss txId client e = (Ok b, e') ->
  cc_scanned (db e')
  = List.filter (fun c => negb (String.eqb (c_txid c) txId)) (cc_scanned (db e))
  /\ blocks (db e') = blocks (db e) /\ transactions (db e') = transactions (db e)
  /\ history (db e') = history (db e)
  /\ b = is_scanned txId (db e).
Proof.
  intros Hrun. unfold ColorSync.removeTx in Hrun.
  apply bind_ok_inv in Hrun as (scanned & e1 & H1 & Hrun).
  unfold Storage.queryAsync, SQL.select_ccScannedTxIds_isTxScanned in H1.
  apply run_reading_ok in H1 as [-> ->]. rewrite bytea_hex in Hrun.
  fold (is_scanned txId (db e)) in Hrun.
  destruct (is_scanned txId (db e)) eqn:Hsc; cbn [negb] in Hrun.
  - apply bind_ok_inv in Hrun as ([] & e2 & H2 & Hrun).
    apply bind_ok_inv in Hrun as ([] & e3 & H3 & Hrun).
    injection Hrun as <- <-.
    set (R := fun d d' : database =>
                blocks d' = blocks d /\ transactions d' = transactions d
                /\ history d' = history d /\ cc_scanned d' = cc_scanned d).
    assert (Rr : forall d, R d d) by (intros d; repeat split).
    assert (Rt : forall d1 d2 d3, R d1 d2 -> R d2 d3 -> R d1 d3).
    { intros d1 d2 d3 (A1 & A2 & A3 & A4) (B1 & B2 & B3 & B4).
      repeat split; congruence. }
    assert (M2 : R (db e) (db e2)).
    { refine (moves_forEach R Rr Rt _ cdefClss _ _ tt e2 H2).
      intros cdefCls. apply moves_bind; [exact Rt | |].
      - destruct (String.eqb cdefCls "epobc"); [apply moves_ret, Rr |].
        intros x a x' H. discriminate.
      - intros params. apply moves_bind; [exact Rt | |].
        + unfold Storage.queryAsync. apply moves_statement.
          intros d a d' H. unfold SQL.select_ccDefinitions_colorId, SQL.reading in H.
          injection H as _ <-. apply Rr.
        + intros [| id rows].
          * apply moves_modify. intros x. apply Rr.
          * apply moves_modify. intros x. repeat split. }
    destruct M2 as (A1 & A2 & A3 & A4).
    unfold Storage.queryAsync in H3. apply run_statement_ok in H3 as [H3 _].
    unfold SQL.delete_ccScannedTxIds_byTxId in H3. rewrite bytea_hex in H3.
    injection H3 as H3. rewrite <- H3. simpl. rewrite A4.
    repeat split; assumption.
  - injection Hrun as <- <-. simpl. rewrite filter_unscanned by exact Hsc.
    repeat split.
Qed.

Lemma flawless_removeTx (txId : string) (client : jsval) :
  Forall (fun c => c = "epobc") cdefClss ->
  flawless (ColorSync.removeTx cdefClss txId client).
Proof.
  intros Hcls. unfold ColorSync.removeTx, Storage.queryAsync.
  apply flawless_bind;
    [apply flawless_statement; intros ?; eexists _, _; reflexivity | intros scanned].
  destruct (negb scanned); [apply flawless_ret |].
  apply flawless_bind.
  - induction Hcls as [| c cls -> Hall IH]; [apply flawless_ret |].
    cbn [forEach]. apply flawless_bind; [| intros _; exact IH].
    rewrite String.eqb_refl.
    apply flawless_bind; [apply flawless_ret | intros params].
    apply flawless_bind;
      [apply flawless_statement; intros ?; eexists _, _; reflexivity | intros rows].
    destruct rows; apply flawless_modify; reflexivity.
  - intros _. apply flawless_bind; [| intros _; apply flawless_ret].
    apply flawless_statement. intros ?. eexists _, _. reflexivity.
Qed.

(** One turn of the loop of [removeTxs], when the store answers. *)
Lemma remove_one (txId : string) (e : env) :
  Forall (fun c => c = "epobc") cdefClss -> faults e = [] ->
  exists e',
    catch (removed <- Storage.executeTransaction (ColorSync.removeTx cdefClss txId) ;;
           ret tt)
          (fun err => ret tt) e = (Ok tt, e')
    /\ faults e' = []
    /\ cc_scanned (db e')
       = List.filter (fun c => negb (String.eqb (c_txid c) txId)) (cc_scanned (db e))
    /\ blocks (db e') = blocks (db e) /\ transactions (db e') = transactions (db e)
    /\ history (db e') = history (db e).
Proof.
  intros Hcls Hf. unfold catch, bind, Storage.executeTransaction, Storage.settle.
  destruct (flawless_removeTx txId JClient Hcls (with_pending e []) Hf)
    as (b & e1 & Hrun & Hf1).
  rewrite Hrun. eexists. split; [reflexivity |]. simpl.
  apply removeTx_ok in Hrun as (A & B & C & D & _). repeat split; assumption.
Qed.

(** [removeTxs] as a whole, with [epobc] as the only class. *)
Lemma removeTxs_run (txIds : list string) (e : env)
    (Hcls : Forall (fun c => c = "epobc") cdefClss)
    (Hf : faults e = []) :
  let r := ColorSync.removeTxs cdefClss txIds e in
  fst r = Ok tt
  /\ cc_scanned (db (snd r))
     = List.filter (fun c => negb (mem (c_txid c) txIds)) (cc_scanned (db e))
  /\ blocks (db (snd r)) = blocks (db e)
  /\ transactions (db (snd r)) = transactions (db e)
  /\ history (db (snd r)) = history (db e)
  /\ faults (snd r) = [].
Proof.
  intros r. subst r. revert e Hf. induction txIds as [| t txIds IH]; intros e Hf.
  - simpl. rewrite filter_all by reflexivity. repeat split. exact Hf.
  - unfold ColorSync.removeTxs. cbn [forEach]. fold (ColorSync.removeTxs cdefClss txIds).
    destruct (remove_one t e Hcls Hf) as (e1 & Hrun1 & Hf1 & A & B & C & D).
    rewrite (bind_ok _ _ _ _ _ Hrun1).
    destruct (IH e1 Hf1) as (Hok & A' & B' & C' & D' & Hf').
    split; [exact Hok |]. split; [| repeat split; congruence].
    rewrite A', A, filter_twice. apply filter_ext. intros c. unfold mem. simpl.
    rewrite negb_orb. reflexivity.
Qed.

(** With [epobc] as the only color definition class and a store that
    answers, [removeTxs(txIds)] returns, and the color-scanned rows left are
    those of the other transactions, as they were; the block, transaction
    and history rows are not touched. *)
Theorem removeTxs_removes_the_scanned_rows (txIds : list string) (e : env)
    (Hcls : Forall (fun c => c = "epobc") cdefClss)
    (Hf : faults e = []) :
  let r := ColorSync.removeTxs cdefClss txIds e in
  fst r = Ok tt
  /\ cc_scanned (db (snd r))
     = List.filter (fun c => negb (mem (c_txid c) txIds)) (cc_scanned (db e))
  /\ blocks (db (snd r)) = blocks (db e)
  /\ transactions (db (snd r)) = transactions (db e)
  /\ history (db (snd r)) = history (db e)
  /\ faults (snd r) = [].
Proof. exact (removeTxs_run txIds e Hcls Hf). Qed.

End Removal.

(** The theorem on the scanned genesis transaction of a color definition,
    with a second class beside [epobc]. *)
Lemma removeTxs_with_an_unknown_class_removes_nothing_witness :
  In "obc" ["epobc"; "obc"] /\ "obc" <> "epobc"
  /\ is_scanned Colors.genesis_txid Colors.colored_db = true
  /\ fst (ColorSync.removeTxs ["epobc"; "obc"] [Colors.genesis_txid]
            (fresh Colors.colored_db)) = Ok tt
  /\ cc_scanned (db (snd (ColorSync.removeTxs ["epobc"; "obc"] [Colors.genesis_txid]
                           (fresh Colors.colored_db))))
     = cc_scanned Colors.colored_db.
Proof.
  assert (Hin : In "obc" ["epobc"; "obc"]) by (right; left; reflexivity).
  assert (Hc : "obc" <> "epobc") by discriminate.
  split; [exact Hin |]. split; [exact Hc |]. split; [vm_compute; reflexivity |].
  destruct (removeTxs_with_an_unknown_class_removes_nothing
              ["epobc"; "obc"] [Colors.genesis_txid] "obc"
              (fresh Colors.colored_db) Hin Hc) as (Hok & Hrows & _).
  split; [exact Hok | exact Hrows].
Defined.

(** The theorem on the scanned genesis transaction of a color definition. *)
Lemma removeTxs_removes_the_scanned_rows_witness :
  let r := ColorSync.removeTxs ["epobc"] [Colors.genesis_txid] (fresh Colors.colored_db) in
  is_scanned Colors.genesis_txid Colors.colored_db = true
  /\ fst r = Ok tt /\ cc_scanned (db (snd r)) = [].
Proof.
  intros r. split; [vm_compute; reflexivity |].
  assert (Hcls : Forall (fun c => c = "epobc") ["epobc"]) by (repeat constructor).
  destruct (removeTxs_removes_the_scanned_rows ["epobc"] [Colors.genesis_txid]
              (fresh Colors.colored_db) Hcls eq_refl) as (Hok & Hrows & _).
  split; [exact Hok |]. subst r. rewrite Hrows. vm_compute. reflexivity.
Defined.

Import Rollback Confirming Twice Registry MempoolWorld Mempool Scanning.

(** ** The rescanner: the scan of a block *)

Section ScanBlock.

Variable cdefClss : list string.

Lemma is_scanned_In (txId : string) (d : database) :
  is_scanned txId d = true <-> exists c, In c (cc_scanned d) /\ c_txid c = txId.
Proof.
  unfold is_scanned. rewrite existsb_exists. split; intros (c & Hin & Hc); exists c;
    (split; [exact Hin |]); apply String.eqb_eq; exact Hc.
Qed.

(** The loop of the scan over the txids of the block. *)
Lemma scan_loop (client : jsval) (hash : string) (height : Z) (l : list string)
    (e e' : env) (toUpdate : list (option string)) :
  mapM (fun txId =>
          added <- ColorSync._addTx cdefClss client txId (Some (hash, height)) ;;
          if negb added then ret (Some txId) else ret None) l e = (Ok toUpdate, e') ->
  exists added,
    db e' = with_cc_scanned (db e) (cc_scanned (db e) ++ added)
    /\ Forall (fun c => c_blockhash c = Some hash /\ c_height c = Some height
                        /\ In (c_txid c) l) added
    /\ Forall (fun t => is_scanned t (db e') = true) l
    /\ (forall c, In c (cc_scanned (db e)) -> In (c_txid c) l ->
                  In (c_txid c) (omap (fun x => x) toUpdate))
    /\ Forall (fun t => In t l) (omap (fun x => x) toUpdate).
Proof.
  revert e toUpdate. induction l as [| x l IH]; intros e toUpdate Hrun.
  - injection Hrun as <- <-. exists []. rewrite with_cc_same.
    split; [reflexivity |]. split; [constructor |]. split; [constructor |].
    split; [intros c _ [] | constructor].
  - cbn [mapM] in Hrun.
    apply bind_ok_inv in Hrun as (y & e1 & H1 & Hrun).
    apply bind_ok_inv in Hrun as (ys & e2 & H2 & Hrun).
    injection Hrun as <- <-.
    apply bind_ok_inv in H1 as (b & e1' & H1 & Hy).
    apply IH in H2 as (added2 & Hd2 & Hall2 & Hsc2 & Hold2 & Hsub2).
    assert (Hstep : exists added1,
              db e1 = with_cc_scanned (db e) (cc_scanned (db e) ++ added1)
              /\ Forall (fun c => c_blockhash c = Some hash /\ c_height c = Some height
                                  /\ c_txid c = x) added1
              /\ is_scanned x (db e1) = true
              /\ (is_scanned x (db e) = true -> y = Some x)
              /\ (y = None \/ y = Some x)).
    { apply addTx_ok in H1 as [(-> & Hs & Hd & _) | (-> & Hs & _ & Hd & _)];
        cbn [negb] in Hy; injection Hy as <- <-.
      - exists []. rewrite with_cc_same. split; [exact Hd |]. split; [constructor |].
        split; [rewrite Hd; exact Hs |]. split; [reflexivity | right; reflexivity].
      - exists [scanned_row x (Some (hash, height))]. split; [exact Hd |].
        split; [repeat constructor |]. split.
        + rewrite Hd, is_scanned_app. simpl. rewrite String.eqb_refl.
          apply orb_true_iff. right. reflexivity.
        + split; [intros H; congruence | left; reflexivity]. }
    destruct Hstep as (added1 & Hd1 & Hall1 & Hsc1 & Hwas & Hy').
    exists (added1 ++ added2).
    split; [rewrite Hd2, Hd1; simpl; rewrite <- app_assoc; reflexivity |].
    split.
    { apply Forall_app. split.
      - eapply List.Forall_impl; [| exact Hall1]. intros c (A & B & C).
        repeat split; try assumption. left. symmetry. exact C.
      - eapply List.Forall_impl; [| exact Hall2]. intros c (A & B & C).
        repeat split; try assumption. right. exact C. }
    split.
    { constructor; [| exact Hsc2]. rewrite Hd2, is_scanned_app, Hsc1. reflexivity. }
    split.
    { intros c Hc Hin.
      assert (Hc1 : In c (cc_scanned (db e1))).
      { rewrite Hd1. simpl. apply in_or_app. left. exact Hc. }
      destruct (String.eqb (c_txid c) x) eqn:Heq.
      - apply String.eqb_eq in Heq. rewrite Heq.
        rewrite (Hwas (proj2 (is_scanned_In x (db e)) (ex_intro _ c (conj Hc Heq)))).
        simpl. left. reflexivity.
      - apply String.eqb_neq in Heq. destruct Hin as [Hx | Hin]; [congruence |].
        specialize (Hold2 c Hc1 Hin).
        destruct Hy' as [-> | ->]; simpl; [exact Hold2 | right; exact Hold2]. }
    assert (Hsub : Forall (fun t => In t (x :: l)) (omap (fun x => x) ys)).
    { eapply List.Forall_impl; [| exact Hsub2]. intros t Ht. right. exact Ht. }
    destruct Hy' as [-> | ->]; simpl; [exact Hsub |].
    constructor; [left; reflexivity | exact Hsub].
Qed.

(** The scan of a block, when it returns. *)
Lemma scanBlock_run (client : jsval) (row : block_row)
    (e : env)
    (Hrun : fst (ColorSync.scanBlock cdefClss client row e) = Ok tt) :
  let d := db (snd (ColorSync.scanBlock cdefClss client row e)) in
  let ids := ColorSync.slices (b_txids row) in
  Forall (fun t => is_scanned t d = true) ids
  /\ Forall (fun c => In (c_txid c) ids ->
                      c_blockhash c = Some (b_hash row)
                      /\ c_height c = Some (b_height row)) (cc_scanned d)
  /\ Forall (fun c => (c_blockhash c = Some (b_hash row)
                       /\ c_height c = Some (b_height row))
                      \/ In c (cc_scanned (db e))) (cc_scanned d)
  /\ transactions d = transactions (db e) /\ blocks d = blocks (db e)
  /\ history d = history (db e).
Proof.
  intros d ids. subst d. apply run_as_pair in Hrun. revert Hrun.
  generalize (snd (ColorSync.scanBlock cdefClss client row e)). intros e' Hrun.
  simpl. unfold ColorSync.scanBlock in Hrun.
  apply bind_ok_inv in Hrun as (toUpdate & e1 & H1 & Hrun).
  apply scan_loop in H1 as (added & Hd1 & Hall & Hsc & Hold & Hsub).
  fold ids in Hall, Hsc, Hold, Hsub.
  unfold Storage.queryAsync in Hrun. apply run_statement_ok in Hrun as [Hs _].
  unfold SQL.update_ccScannedTxIds_makeConfirmed in Hs.
  rewrite map_bytea_hex, bytea_hex in Hs. injection Hs as Hs. rewrite <- Hs, Hd1. simpl.
  split; [| split; [| split; [| repeat split]]].
  - eapply List.Forall_impl; [| exact Hsc]. intros t Ht.
    apply is_scanned_In in Ht as (c & Hin & Hc). rewrite Hd1 in Hin. simpl in Hin.
    apply is_scanned_In. simpl.
    eexists. split; [apply in_map, Hin |].
    destruct (mem (c_txid c) (omap (fun x => x) toUpdate)); exact Hc.
  - apply Forall_map, List.Forall_forall. intros c Hc.
    destruct (mem (c_txid c) (omap (fun x => x) toUpdate)) eqn:Hm; simpl.
    + intros _. split; reflexivity.
    + intros Hin. apply in_app_or in Hc as [Hc | Hc].
      * exfalso. apply mem_false in Hm. apply Hm, Hold; assumption.
      * rewrite List.Forall_forall in Hall. destruct (Hall c Hc) as (A & B & _).
        split; assumption.
  - apply Forall_map, List.Forall_forall. intros c Hc.
    destruct (mem (c_txid c) (omap (fun x => x) toUpdate)) eqn:Hm; simpl.
    + left. split; reflexivity.
    + apply in_app_or in Hc as [Hc | Hc]; [right; exact Hc |].
      rewrite List.Forall_forall in Hall. destruct (Hall c Hc) as (A & B & _).
      left. split; assumption.
Qed.

(** When the scan of a block returns (the end of a turn of [updateBlocks],
    lines 218-233): every transaction whose id is in the block row is
    color-scanned; each of their color-scanned rows, whether it was added
    by this scan or there before, carries the hash and the height of the
    block; any other color-scanned row is a row that was there; and the
    transaction, block and history rows are as they were. *)
Theorem scanBlock_confirms_every_transaction (client : jsval) (row : block_row)
    (e : env)
    (Hrun : fst (ColorSync.scanBlock cdefClss client row e) = Ok tt) :
  let d := db (snd (ColorSync.scanBlock cdefClss client row e)) in
  let ids := ColorSync.slices (b_txids row) in
  Forall (fun t => is_scanned t d = true) ids
  /\ Forall (fun c => In (c_txid c) ids ->
                      c_blockhash c = Some (b_hash row)
                      /\ c_height c = Some (b_height row)) (cc_scanned d)
  /\ Forall (fun c => (c_blockhash c = Some (b_hash row)
                       /\ c_height c = Some (b_height row))
                      \/ In c (cc_scanned (db e))) (cc_scanned d)
  /\ transactions d = transactions (db e) /\ blocks d = blocks (db e)
  /\ history d = history (db e).
Proof. exact (scanBlock_run client row e Hrun). Qed.

End ScanBlock.

(** The theorem on scenario S6, for the block [k4b] at height 4. *)
Lemma scanBlock_confirms_every_transaction_witness :
  let row := Rescan.core_block 4 "k4b" "k3" Rescan.new_txid in
  let r := ColorSync.scanBlock ["epobc"] JClient row (fresh Rescan.s6_db) in
  fst r = Ok tt
  /\ ColorSync.slices (b_txids row) = [Rescan.new_txid]
  /\ is_scanned Rescan.new_txid (db (snd r)) = true.
Proof.
  intros row r.
  assert (Hr : fst r = Ok tt) by (vm_compute; reflexivity).
  split; [exact Hr |]. split; [vm_compute; reflexivity |].
  destruct (scanBlock_confirms_every_transaction ["epobc"] JClient row
              (fresh Rescan.s6_db) Hr) as (Hsc & _).
  inversion Hsc as [| ? ? H _]. exact H.
Defined.

Import Rollback Confirming Twice Registry MempoolWorld Mempool Scanning.

(** ** The rescanner: the loop of [updateBlocks] *)

Section UpdateBlocks.

Variable cdefClss : list string.

(** A turn of the loop when the store has no block row. *)
Lemma turn_without_blocks (e : env) :
  blocks (db e) = [] ->
  exists msg e',
    ColorSync.updateBlocks_turn cdefClss e = (Err msg, e') /\ db e' = db e.
Proof.
  intros Hb. unfold ColorSync.updateBlocks_turn, Storage.executeTransaction, Storage.settle.
  match goal with
  | |- context [bind ?m ?k (with_pending e [])] =>
      assert (Hbody : exists msg e1, bind m k (with_pending e []) = (Err msg, e1))
  end.
  { unfold Storage.queryAsync.
    match goal with
    | |- exists msg e1, bind ?m ?k ?x = _ =>
        destruct (bind_cases m k x) as [(result & e1 & H1 & ->) | (msg & e1 & _ & ->)];
          [| eauto]
    end.
    apply run_reading_ok in H1 as [_ ->].
    destruct result as [| [latest_hash latest_height] others].
    - match goal with
      | |- exists msg e1, bind ?m ?k ?x = _ =>
          destruct (bind_cases m k x) as [(rows & e2 & H2 & ->) | (msg & e2 & _ & ->)];
            [| eauto]
      end.
      unfold SQL.select_blocks_txIdsByHeight, SQL.select_blocks_byHeight in H2.
      apply run_reading_ok in H2 as [-> _]. simpl. rewrite Hb. simpl.
      rewrite bind_throw. eauto.
    - match goal with
      | |- exists msg e1, bind ?m ?k ?x = _ =>
          destruct (bind_cases m k x) as [(rows & e2 & H2 & ->) | (msg & e2 & _ & ->)];
            [| eauto]
      end.
      unfold SQL.select_blocks_latest in H2.
      apply run_reading_ok in H2 as [-> _]. simpl. rewrite Hb. simpl.
      rewrite bind_throw. eauto. }
  destruct Hbody as (msg & e1 & ->). exists msg. eexists. split; reflexivity.
Qed.

(** As long as the store has no block row, [updateBlocks] does not get out
    of its first loop: every turn throws (with nothing scanned, reading the
    row of block 0; otherwise reading the latest block), the error is logged,
    [running] is still true, and the tables are as they were. *)
Theorem updateBlocks_without_blocks_never_ends (turns : nat) (e : env)
    (Hb : blocks (db e) = []) :
  fst (ColorLoop.updateBlocks_scan cdefClss turns e) = Ok None
  /\ db (snd (ColorLoop.updateBlocks_scan cdefClss turns e)) = db e.
Proof.
  revert e Hb. induction turns as [| turns IH]; intros e Hb; [split; reflexivity |].
  cbn [ColorLoop.updateBlocks_scan].
  destruct (turn_without_blocks e Hb) as (msg & e1 & Hrun & Hd).
  unfold bind, catch. rewrite Hrun. simpl.
  destruct (IH e1) as [Hok Hd1]; [rewrite Hd; exact Hb |].
  split; [exact Hok | congruence].
Qed.

(** A turn of the loop when the latest scanned block is the latest block. *)
Lemma turn_at_the_tip (e : env) (hash : string) (height : Z) (core : block_row) :
  SQL.max_cc (cc_scanned (db e)) = Some (hash, height) ->
  SQL.max_block (blocks (db e)) = Some core ->
  b_hash core = hash ->
  db (snd (ColorSync.updateBlocks_turn cdefClss e)) = db e
  /\ color_calls (snd (ColorSync.updateBlocks_turn cdefClss e)) = color_calls e
  /\ (forall running, fst (ColorSync.updateBlocks_turn cdefClss e) = Ok running ->
                      running = false)
  /\ (faults e = [] ->
      fst (ColorSync.updateBlocks_turn cdefClss e) = Ok false
      /\ faults (snd (ColorSync.updateBlocks_turn cdefClss e)) = []).
Proof.
  intros Hcc Hcore Hhash.
  destruct (ColorSync.updateBlocks_turn cdefClss e) as [res e'] eqn:Hrun.
  unfold ColorSync.updateBlocks_turn, Storage.executeTransaction, Storage.settle,
    Storage.queryAsync in Hrun.
  rewrite bind_statement in Hrun.
  unfold SQL.select_ccScannedTxIds_latestBlock, SQL.reading in Hrun.
  cbn [db with_pending faults] in Hrun. rewrite Hcc in Hrun. unfold option_list, option_rect in Hrun.
  destruct (faults e) as [| [|] later] eqn:Hf; cbv beta iota in Hrun.
  - rewrite bind_statement in Hrun.
    unfold SQL.select_blocks_latest, SQL.reading in Hrun.
    cbn [db with_pending with_db with_faults faults tail] in Hrun.
    rewrite Hcore in Hrun. unfold option_list, option_rect in Hrun. cbn [first_row] in Hrun.
    rewrite bind_ret, Hhash, String.eqb_refl in Hrun.
    injection Hrun as <- <-. simpl.
    repeat split; intros; congruence.
  - injection Hrun as <- <-. simpl. repeat split; intros; discriminate.
  - rewrite bind_statement in Hrun.
    unfold SQL.select_blocks_latest, SQL.reading in Hrun.
    cbn [db with_pending with_db with_faults faults tail] in Hrun.
    rewrite Hcore in Hrun. unfold option_list, option_rect in Hrun. cbn [first_row] in Hrun.
    destruct later as [| [|] later'] eqn:Hl; cbv beta iota in Hrun.
    + rewrite bind_ret, Hhash, String.eqb_refl in Hrun.
      injection Hrun as <- <-. simpl. repeat split; intros; congruence.
    + injection Hrun as <- <-. simpl. repeat split; intros; discriminate.
    + rewrite bind_ret, Hhash, String.eqb_refl in Hrun.
      injection Hrun as <- <-. simpl. repeat split; intros; congruence.
Qed.

(** When the latest scanned block is the latest block of the store, a turn
    of [updateBlocks] sets [running] to false if it returns, and changes no
    table and asks for no scan in any case; when the store answers, the loop
    ends with its first turn. *)
Theorem updateBlocks_stops_at_the_tip (e : env) (hash : string) (height : Z)
    (core : block_row) (turns : nat)
    (Hcc : SQL.max_cc (cc_scanned (db e)) = Some (hash, height))
    (Hcore : SQL.max_block (blocks (db e)) = Some core)
    (Hhash : b_hash core = hash) :
  db (snd (ColorLoop.updateBlocks_scan cdefClss turns e)) = db e
  /\ color_calls (snd (ColorLoop.updateBlocks_scan cdefClss turns e)) = color_calls e
  /\ (faults e = [] ->
      fst (ColorLoop.updateBlocks_scan cdefClss (S turns) e) = Ok (Some tt)).
Proof.
  split; [| split].
  - revert e Hcc Hcore. induction turns as [| turns IH]; intros e Hcc Hcore; [reflexivity |].
    cbn [ColorLoop.updateBlocks_scan]. unfold bind, catch.
    destruct (turn_at_the_tip e hash height core Hcc Hcore Hhash) as (Hd & _ & Hr & _).
    destruct (ColorSync.updateBlocks_turn cdefClss e) as [[running | msg] e1];
      simpl in Hd, Hr |- *.
    + rewrite (Hr running eq_refl). exact Hd.
    + rewrite IH; [exact Hd | rewrite Hd; exact Hcc | rewrite Hd; exact Hcore].
  - revert e Hcc Hcore. induction turns as [| turns IH]; intros e Hcc Hcore; [reflexivity |].
    cbn [ColorLoop.updateBlocks_scan]. unfold bind, catch.
    destruct (turn_at_the_tip e hash height core Hcc Hcore Hhash) as (Hd & Hc & Hr & _).
    destruct (ColorSync.updateBlocks_turn cdefClss e) as [[running | msg] e1];
      simpl in Hd, Hc, Hr |- *.
    + rewrite (Hr running eq_refl). exact Hc.
    + rewrite IH; [exact Hc | rewrite Hd; exact Hcc | rewrite Hd; exact Hcore].
  - intros Hf. cbn [ColorLoop.updateBlocks_scan]. unfold bind, catch.
    destruct (turn_at_the_tip e hash height core Hcc Hcore Hhash) as (_ & _ & _ & Hok).
    destruct (Hok Hf) as [Hfst _].
    destruct (ColorSync.updateBlocks_turn cdefClss e) as [[running | msg] e1];
      simpl in Hfst |- *; [| discriminate].
    injection Hfst as ->. reflexivity.
Qed.

End UpdateBlocks.

(** The theorem on a store without anything. *)
Lemma updateBlocks_without_blocks_never_ends_witness :
  blocks (db (fresh (empty_db Reject))) = []
  /\ fst (ColorLoop.updateBlocks_scan ["epobc"] 1000 (fresh (empty_db Reject))) = Ok None.
Proof.
  split; [reflexivity |].
  exact (proj1 (updateBlocks_without_blocks_never_ends ["epobc"] 1000
                  (fresh (empty_db Reject)) eq_refl)).
Defined.

(** The theorem on a store whose latest scanned block is its latest block
    [k4b]. *)
Lemma updateBlocks_stops_at_the_tip_witness :
  let e := fresh (with_cc_scanned Rescan.s6_db
                    [Rescan.scanned "x0" "k0" 0;
                     Rescan.scanned Rescan.new_txid "k4b" 4]) in
  let core := Rescan.core_block 4 "k4b" "k3" Rescan.new_txid in
  SQL.max_cc (cc_scanned (db e)) = Some ("k4b", 4)
  /\ SQL.max_block (blocks (db e)) = Some core
  /\ fst (ColorLoop.updateBlocks_scan ["epobc"] 1 e) = Ok (Some tt)
  /\ db (snd (ColorLoop.updateBlocks_scan ["epobc"] 1 e)) = db e.
Proof.
  intros e core.
  assert (Hcc : SQL.max_cc (cc_scanned (db e)) = Some ("k4b", 4)) by reflexivity.
  assert (Hcore : SQL.max_block (blocks (db e)) = Some core) by reflexivity.
  split; [exact Hcc |]. split; [exact Hcore |].
  split.
  - exact (proj2 (proj2 (updateBlocks_stops_at_the_tip ["epobc"] e "k4b" 4 core 0
                           Hcc Hcore eq_refl)) eq_refl).
  - exact (proj1 (updateBlocks_stops_at_the_tip ["epobc"] e "k4b" 4 core 1
                    Hcc Hcore eq_refl)).
Defined.

Import Rollback Confirming Twice Registry MempoolWorld Mempool Scanning.

(** ** The rescanner: the unconfirmed transactions and the listeners *)

Section Unconfirmed.

Variable cdefClss : list string.

Lemma no_height {A : Type} (h : option A) :
  negb (bool_decide (is_Some h)) = true <-> h = None.
Proof.
  destruct h as [x |]; simpl; split; intros H; try discriminate H; reflexivity.
Qed.

(** The pass over the unconfirmed transactions, lines 242-265.  The pass
    itself only reads: however it ends, it changes no table and asks for no
    scan.  With a store that answers it returns, having called [removeTxs]
    with the unconfirmed color-scanned transactions that are not
    unconfirmed transactions of the store, and [addTxs] with the
    unconfirmed transactions of the store that are not color-scanned
    unconfirmed.  When these two calls then run from the state that the
    pass has left, with [epobc] as the only color definition class and a
    store that answers: every color-scanned row that is left unconfirmed
    belongs to an unconfirmed transaction of the store, and the transaction
    rows are not touched. *)
Theorem unconfirmed_pass_aligns_the_scan (e : env) :
  let r := ColorLoop.updateBlocks_unconfirmed e in
  let stored_ := map t_txid (List.filter unconfirmed_tx (transactions (db e))) in
  let scanned_ := map c_txid (List.filter (fun c => negb (bool_decide (is_Some (c_height c))))
                                          (cc_scanned (db e))) in
  (db (snd r) = db e /\ color_calls (snd r) = color_calls e)
  /\ (forall calls, fst r = Ok calls ->
        calls = (difference scanned_ stored_, difference stored_ scanned_))
  /\ (faults e = [] ->
      fst r = Ok (difference scanned_ stored_, difference stored_ scanned_)
      /\ faults (snd r) = [])
  /\ (Forall (fun c => c = "epobc") cdefClss -> faults e = [] ->
      let after := snd (ColorLoop.updateBlocks_released cdefClss
                          (difference scanned_ stored_, difference stored_ scanned_)
                          (snd r)) in
      Forall (fun c => c_height c = None -> In (c_txid c) stored_) (cc_scanned (db after))
      /\ transactions (db after) = transactions (db e)).
Proof.
  intros r stored_ scanned_. subst r.
  unfold ColorLoop.updateBlocks_unconfirmed, Storage.executeQuery.
  rewrite !bind_started.
  unfold SQL.select_ccScannedTxIds_unconfirmed, SQL.select_transactions_unconfirmed.
  rewrite !run_reading. fold unconfirmed_tx.
  assert (Hafter : Forall (fun c => c = "epobc") cdefClss ->
            forall e2, db e2 = db e -> faults e2 = [] ->
            let after := snd (ColorLoop.updateBlocks_released cdefClss
                                (difference scanned_ stored_, difference stored_ scanned_)
                                e2) in
            Forall (fun c => c_height c = None -> In (c_txid c) stored_)
                   (cc_scanned (db after))
            /\ transactions (db after) = transactions (db e)).
  { intros Hcls e2 Hd2 Hf2 after. subst after.
    unfold ColorLoop.updateBlocks_released, unawaited, bind. cbn [fst snd].
    destruct (removeTxs_run cdefClss (difference scanned_ stored_) e2 Hcls Hf2)
      as (_ & A3 & _ & C3 & _ & _).
    cbv zeta in A3, C3.
    set (e3 := snd (ColorSync.removeTxs cdefClss (difference scanned_ stored_) e2)) in *.
    destruct (addTxs_run cdefClss (difference stored_ scanned_) e3)
      as (_ & (added & Hd4 & Hadded) & _).
    cbv zeta in Hd4.
    set (e4 := snd (ColorSync.addTxs cdefClss (difference stored_ scanned_) e3)) in *.
    rewrite Hd4. simpl. rewrite A3, C3, Hd2. split; [| reflexivity].
    apply Forall_app. split.
    - apply List.Forall_forall. intros c Hc Hh. apply filter_In in Hc as [Hin Hkeep].
      rewrite mem_difference in Hkeep.
      assert (Hs : mem (c_txid c) scanned_ = true).
      { apply mem_In. unfold scanned_. apply in_map, filter_In.
        split; [exact Hin | apply no_height; exact Hh]. }
      rewrite Hs in Hkeep. simpl in Hkeep. apply negb_true_iff, negb_false_iff in Hkeep.
      apply mem_In. exact Hkeep.
    - eapply List.Forall_impl; [| exact Hadded]. intros c (Hin & _) _.
      apply difference_In in Hin as [Hin _]. exact Hin. }
  destruct (faults e) as [| [|] [| [|] later]] eqn:Hfaults;
    cbn [fst snd awaited tail faults with_db with_faults db];
    rewrite ?bind_throw, ?bind_ret; rewrite ?bind_throw, ?bind_ret;
    unfold throw, ret; cbn [fst snd db with_db with_faults color_calls faults];
    (split; [split; reflexivity |]);
    (split; [intros calls H; first [discriminate H | injection H as <-; reflexivity] |]);
    (split; [intros H; first [discriminate H | split; reflexivity] |]);
    intros Hcls H; first [discriminate H | idtac].
  apply Hafter; [exact Hcls | reflexivity | reflexivity].
Qed.

(** What [Service.addTx] and [Service.removeTx] publish, and what the
    listeners of the rescanner make of it: the listener on ['addtx'] hands
    the transaction to [addTxs], and the one on ['removetx'] to [removeTxs],
    exactly when the [isConfirmed] that the service was called with is not
    truthy.  The scanner calls both with the options object in the place of
    [isConfirmed]: for what it publishes the listeners do nothing. *)
Theorem listeners_act_on_unconfirmed_only (txId isConfirmed : jsval) :
  let added := JObj [("txId", txId); ("unconfirmed", not isConfirmed)] in
  (forall opts e, Service.addTx txId isConfirmed opts e = Messages.notify "addtx" added opts e)
  /\ (forall opts e, Service.removeTx txId isConfirmed opts e
                     = Messages.notify "removetx" added opts e)
  /\ ColorLoop.on_addtx cdefClss added
     = (if truthy isConfirmed then ret tt
        else ColorSync.addTxs cdefClss [to_string txId])
  /\ ColorLoop.on_removetx cdefClss added
     = (if truthy isConfirmed then ret tt
        else ColorSync.removeTxs cdefClss [to_string txId])
  /\ (forall client,
        ColorLoop.on_addtx cdefClss
          (JObj [("txId", txId); ("unconfirmed", not (ScannerSync.client_opts client))])
        = ret tt
        /\ ColorLoop.on_removetx cdefClss
             (JObj [("txId", txId); ("unconfirmed", not (ScannerSync.client_opts client))])
           = ret tt).
Proof.
  intros added. subst added.
  split; [reflexivity |]. split; [reflexivity |].
  unfold ColorLoop.on_addtx, ColorLoop.on_removetx. simpl.
  destruct (truthy isConfirmed); simpl; repeat split.
Qed.

End Unconfirmed.

Import Rollback Confirming Twice Registry MempoolWorld Mempool Scanning.

(** ** The message of [sendTxResponse] *)

Lemma hex_digit_kept (n : N) : (n < 16)%N -> escape_keeps (hex_digit n) = true.
Proof.
  intros Hn.
  assert (H : forall k, (k < 16)%nat -> escape_keeps (hex_digit (N.of_nat k)) = true).
  { intros k Hk. do 16 (destruct k as [| k]; [reflexivity |]). lia. }
  rewrite <- (N2Nat.id n). apply H. lia.
Qed.

Lemma hex_digit_inj (n m : N) :
  (n < 16)%N -> (m < 16)%N -> hex_digit n = hex_digit m -> n = m.
Proof.
  intros Hn Hm H. apply (f_equal N_of_ascii) in H. unfold hex_digit in H.
  destruct (n <? 10)%N eqn:En; destruct (m <? 10)%N eqn:Em;
    rewrite !N_ascii_embedding in H
      by (try apply N.ltb_lt in En; try apply N.ltb_lt in Em;
          try apply N.ltb_ge in En; try apply N.ltb_ge in Em; lia);
    try apply N.ltb_lt in En; try apply N.ltb_lt in Em;
    try apply N.ltb_ge in En; try apply N.ltb_ge in Em; lia.
Qed.

Lemma code_below_256 (a : ascii) : (N_of_ascii a < 256)%N.
Proof. apply N_ascii_bounded. Qed.

Lemma escape_string_inj (s1 s2 : string) :
  escape_string s1 = escape_string s2 -> s1 = s2.
Proof.
  revert s2. induction s1 as [| a r1 IH]; intros [| b r2] H; simpl in H.
  - reflexivity.
  - destruct (escape_keeps b); discriminate.
  - destruct (escape_keeps a); discriminate.
  - destruct (escape_keeps a) eqn:Ka; destruct (escape_keeps b) eqn:Kb.
    + injection H as -> H. rewrite (IH r2 H). reflexivity.
    + injection H as -> _. discriminate Ka.
    + injection H as <- _. discriminate Kb.
    + injection H as Hhi Hlo H. rewrite (IH r2 H). f_equal.
      pose proof (code_below_256 a) as Ha. pose proof (code_below_256 b) as Hb.
      assert (Hdiv : (N_of_ascii a / 16 = N_of_ascii b / 16)%N).
      { apply hex_digit_inj; [| | exact Hhi];
          apply N.Div0.div_lt_upper_bound; lia. }
      assert (Hmod : (N_of_ascii a mod 16 = N_of_ascii b mod 16)%N).
      { apply hex_digit_inj; [| | exact Hlo]; apply N.mod_lt; discriminate. }
      rewrite <- (ascii_N_embedding a), <- (ascii_N_embedding b). f_equal.
      rewrite (N.div_mod (N_of_ascii a) 16), (N.div_mod (N_of_ascii b) 16) by discriminate.
      rewrite Hdiv, Hmod. reflexivity.
Qed.

Lemma hex_digit_not_u (n : N) : (n < 16)%N -> hex_digit n <> "u"%char.
Proof.
  intros Hn H.
  assert (K : forall k, (k < 16)%nat -> hex_digit (N.of_nat k) <> "u"%char).
  { intros k Hk. do 16 (destruct k as [| k]; [discriminate |]). lia. }
  apply (K (N.to_nat n)); [lia |]. rewrite N2Nat.id. exact H.
Qed.

Lemma escape_units_string (s : string) : escape_units (code_units s) = escape_string s.
Proof.
  unfold code_units. induction s as [| a r IH]; simpl; [reflexivity |].
  pose proof (N_ascii_bounded a) as Ha. apply N.ltb_lt in Ha. rewrite Ha.
  rewrite ascii_N_embedding, IH. reflexivity.
Qed.

Lemma escape_units_kept (units : list N) :
  Forall (fun n => (n < 65536)%N) units ->
  Forall (fun c => escape_keeps c = true \/ c = "%"%char)
         (list_ascii_of_string (escape_units units)).
Proof.
  induction 1 as [| n rest Hn _ IH]; simpl; [constructor |].
  destruct (n <? 256)%N eqn:Hsmall.
  - apply N.ltb_lt in Hsmall. destruct (escape_keeps (ascii_of_N n)) eqn:Kn; simpl.
    + constructor; [left; exact Kn | exact IH].
    + constructor; [right; reflexivity |].
      constructor; [left; apply hex_digit_kept, N.Div0.div_lt_upper_bound; lia |].
      constructor; [left; apply hex_digit_kept, N.mod_lt; discriminate | exact IH].
  - simpl. constructor; [right; reflexivity |].
    constructor; [left; reflexivity |].
    constructor; [left; apply hex_digit_kept, N.Div0.div_lt_upper_bound; lia |].
    constructor; [left; apply hex_digit_kept, N.mod_lt; discriminate |].
    constructor; [left; apply hex_digit_kept, N.mod_lt; discriminate |].
    constructor; [left; apply hex_digit_kept, N.mod_lt; discriminate | exact IH].
Qed.

Lemma escape_units_inj (units1 units2 : list N) :
  Forall (fun n => (n < 65536)%N) units1 -> Forall (fun n => (n < 65536)%N) units2 ->
  escape_units units1 = escape_units units2 -> units1 = units2.
Proof.
  intros H1. revert units2.
  induction H1 as [| n r1 Hn _ IH]; intros units2 H2 H;
    destruct H2 as [| m r2 Hm H2]; simpl in H.
  - reflexivity.
  - destruct (m <? 256)%N; [destruct (escape_keeps (ascii_of_N m)) |]; discriminate.
  - destruct (n <? 256)%N; [destruct (escape_keeps (ascii_of_N n)) |]; discriminate.
  - assert (Hkeep : forall k, escape_keeps k = true -> k <> "%"%char).
    { intros k Hk ->. discriminate Hk. }
    destruct (n <? 256)%N eqn:Sn; destruct (m <? 256)%N eqn:Sm;
      try apply N.ltb_lt in Sn; try apply N.ltb_lt in Sm;
      try apply N.ltb_ge in Sn; try apply N.ltb_ge in Sm.
    + destruct (escape_keeps (ascii_of_N n)) eqn:Kn;
        destruct (escape_keeps (ascii_of_N m)) eqn:Km.
      * injection H as Hc H. rewrite (IH r2 H2 H). f_equal.
        apply (f_equal N_of_ascii) in Hc. rewrite !N_ascii_embedding in Hc by lia.
        exact Hc.
      * injection H as Hc _. rewrite Hc in Kn. discriminate Kn.
      * injection H as Hc _. rewrite <- Hc in Km. discriminate Km.
      * injection H as Hhi Hlo H. rewrite (IH r2 H2 H). f_equal.
        assert (Hdiv : (n / 16 = m / 16)%N).
        { apply hex_digit_inj; [| | exact Hhi]; apply N.Div0.div_lt_upper_bound; lia. }
        assert (Hmod : (n mod 16 = m mod 16)%N).
        { apply hex_digit_inj; [| | exact Hlo]; apply N.mod_lt; discriminate. }
        rewrite (N.div_mod n 16), (N.div_mod m 16) by discriminate.
        rewrite Hdiv, Hmod. reflexivity.
    + destruct (escape_keeps (ascii_of_N n)) eqn:Kn.
      * injection H as Hc _. rewrite Hc in Kn. discriminate Kn.
      * injection H as Hu _. exfalso.
        apply (hex_digit_not_u (n / 16)); [apply N.Div0.div_lt_upper_bound; lia | exact Hu].
    + destruct (escape_keeps (ascii_of_N m)) eqn:Km.
      * injection H as Hc _. rewrite <- Hc in Km. discriminate Km.
      * injection H as Hu _. exfalso.
        apply (hex_digit_not_u (m / 16));
          [apply N.Div0.div_lt_upper_bound; lia | symmetry; exact Hu].
    + injection H as Ha Hb Hc Hd H. rewrite (IH r2 H2 H). f_equal.
      apply hex_digit_inj in Ha; [| apply N.Div0.div_lt_upper_bound; lia ..].
      apply hex_digit_inj in Hb; [| apply N.mod_lt; discriminate ..].
      apply hex_digit_inj in Hc; [| apply N.mod_lt; discriminate ..].
      apply hex_digit_inj in Hd; [| apply N.mod_lt; discriminate ..].
      pose proof (N.div_mod n 16 ltac:(discriminate)) as En.
      pose proof (N.div_mod m 16 ltac:(discriminate)) as Em.
      pose proof (N.div_mod (n / 16) 16 ltac:(discriminate)) as En1.
      pose proof (N.div_mod (m / 16) 16 ltac:(discriminate)) as Em1.
      pose proof (N.div_mod (n / 256) 16 ltac:(discriminate)) as En2.
      pose proof (N.div_mod (m / 256) 16 ltac:(discriminate)) as Em2.
      rewrite !N.Div0.div_div in En1, Em1, En2, Em2.
      change (16 * 16)%N with 256%N in *. change (256 * 16)%N with 4096%N in *.
      lia.
Qed.

Lemma escape_string_kept (s : string) :
  Forall (fun c => escape_keeps c = true \/ c = "%"%char)
         (list_ascii_of_string (escape_string s)).
Proof.
  induction s as [| a r IH]; simpl; [constructor |].
  destruct (escape_keeps a) eqn:Ka; simpl.
  - constructor; [left; exact Ka | exact IH].
  - pose proof (code_below_256 a) as Ha.
    constructor; [right; reflexivity |].
    constructor; [left; apply hex_digit_kept, N.Div0.div_lt_upper_bound; lia |].
    constructor; [left; apply hex_digit_kept, N.mod_lt; discriminate | exact IH].
Qed.

(** The message that [sendTxResponse] publishes, [escape(_.get(err,
    'message'))].  [escape] turns any sequence of 16-bit code units into a
    string made of the characters that it keeps and of [%] only, and two
    sequences that differ into different strings.  On the strings of this
    development, whose code units are below 256, [escape_string] is that
    function: what is published is made of the kept characters and of [%]
    only, whatever [err] is, and the message of the error can be told from
    it. *)
Theorem published_message_is_plain_and_faithful :
  (forall units : list N,
      Forall (fun n => (n < 65536)%N) units ->
      Forall (fun c => escape_keeps c = true \/ c = "%"%char)
             (list_ascii_of_string (escape_units units)))
  /\ (forall units1 units2 : list N,
        Forall (fun n => (n < 65536)%N) units1 ->
        Forall (fun n => (n < 65536)%N) units2 ->
        escape_units units1 = escape_units units2 -> units1 = units2)
  /\ (forall err : jsval,
        escape (get err "message")
        = JStr (escape_units (code_units (to_string (get err "message")))))
  /\ (forall err : jsval,
        exists s, escape (get err "message") = JStr s
                  /\ Forall (fun c => escape_keeps c = true \/ c = "%"%char)
                            (list_ascii_of_string s))
  /\ (forall message1 message2 : string,
        escape (get (JObj [("message", JStr message1)]) "message")
        = escape (get (JObj [("message", JStr message2)]) "message") ->
        message1 = message2).
Proof.
  split; [exact escape_units_kept |]. split; [exact escape_units_inj |].
  split; [intros err; unfold escape; rewrite escape_units_string; reflexivity |].
  split.
  - intros err. eexists. split; [reflexivity | apply escape_string_kept].
  - intros m1 m2 H. simpl in H. injection H as H. apply escape_string_inj, H.
Qed.

Import Rollback Confirming Twice Registry MempoolWorld Mempool Scanning Announcing.

(** ** What a block import delivers *)

Section Delivering.

Context (P : event -> Prop).

Lemma only_delivers_keeps {A : Type} (m : M A) : keeps delivered m -> only_delivers P m.
Proof. intros K e. exists []. rewrite K, app_nil_r. split; [reflexivity | constructor]. Qed.

Lemma only_delivers_bind {A B : Type} (m : M A) (k : A -> M B) :
  only_delivers P m -> (forall a, only_delivers P (k a)) -> only_delivers P (bind m k).
Proof.
  intros Hm Hk e. unfold bind. destruct (Hm e) as (more1 & H1 & P1).
  destruct (m e) as [[a | msg] e1]; simpl in H1.
  - destruct (Hk a e1) as (more2 & H2 & P2). exists (more1 ++ more2).
    rewrite H2, H1, <- app_assoc. split; [reflexivity | apply Forall_app; split; assumption].
  - exists more1. split; assumption.
Qed.

Lemma only_delivers_forEach {A : Type} (g : A -> M unit) (l : list A) :
  (forall x, only_delivers P (g x)) -> only_delivers P (forEach g l).
Proof.
  intros Hg. induction l as [| x l IH]; simpl.
  - apply only_delivers_keeps, keeps_ret.
  - apply only_delivers_bind; [apply Hg | intros _; exact IH].
Qed.

Lemma only_delivers_notify (ch : string) (p opts : jsval) :
  P {| channel := ch; payload := p |} -> only_delivers P (Messages.notify ch p opts).
Proof.
  intros Hp. unfold Messages.notify. destruct (has opts "client").
  - apply only_delivers_keeps. frame_more.
  - apply only_delivers_bind; [apply only_delivers_keeps; frame_more | intros _].
    intros e. eexists. split; [reflexivity |]. constructor; [exact Hp | constructor].
Qed.

End Delivering.

Lemma importBlock_delivers_addtx (block : Block) (height : Z) (client : jsval) :
  only_delivers (fun ev => channel ev = "addtx")
                (ScannerSync._importBlock block height client).
Proof.
  unfold ScannerSync._importBlock, ScannerSync.withLock.
  apply only_delivers_bind; [apply only_delivers_keeps; frame_more | intros _].
  apply only_delivers_bind; [apply only_delivers_keeps; frame_more | intros _].
  apply only_delivers_bind; [apply only_delivers_keeps; frame_more | intros counts].
  apply only_delivers_bind; [| intros _; apply only_delivers_keeps;
                               repeat (frame_more_step || apply keeps_delivered_notify)].
  apply only_delivers_forEach. intros tx. unfold ScannerSync._importBlock_tx.
  destruct (mem (id tx) _).
  - apply only_delivers_bind; [apply only_delivers_keeps; frame_more | intros _].
    apply only_delivers_bind; [apply only_delivers_keeps; frame_more | intros rows].
    apply only_delivers_bind;
      [apply only_delivers_keeps; unfold Service.broadcastTx; apply keeps_delivered_notify |].
    intros _. apply only_delivers_bind.
    + unfold Service.addTx. apply only_delivers_notify. reflexivity.
    + intros _. apply only_delivers_keeps.
      repeat (frame_more_step || apply keeps_delivered_notify).
  - apply only_delivers_bind; [apply only_delivers_keeps; frame_more | intros _].
    apply only_delivers_bind.
    + apply only_delivers_keeps.
      repeat (frame_more_step || apply keeps_delivered_notify).
    + intros _. apply only_delivers_bind;
        [apply only_delivers_keeps; unfold Service.broadcastTx;
         apply keeps_delivered_notify |].
      intros _. unfold Service.addTx. apply only_delivers_notify. reflexivity.
Qed.

(** ** What a block import queues on its client *)

Section Pending.

Context (P : event -> Prop).

Lemma only_pends_keeps {A : Type} (m : M A) : keeps pending m -> only_pends P m.
Proof. intros K e. exists []. rewrite K, app_nil_r. split; [reflexivity | constructor]. Qed.

Lemma only_pends_bind {A B : Type} (m : M A) (k : A -> M B) :
  only_pends P m -> (forall a, only_pends P (k a)) -> only_pends P (bind m k).
Proof.
  intros Hm Hk e. unfold bind. destruct (Hm e) as (more1 & H1 & P1).
  destruct (m e) as [[a | msg] e1]; simpl in H1.
  - destruct (Hk a e1) as (more2 & H2 & P2). exists (more1 ++ more2).
    rewrite H2, H1, <- app_assoc. split; [reflexivity | apply Forall_app; split; assumption].
  - exists more1. split; assumption.
Qed.

Lemma only_pends_forEach {A : Type} (g : A -> M unit) (l : list A) :
  (forall x, only_pends P (g x)) -> only_pends P (forEach g l).
Proof.
  intros Hg. induction l as [| x l IH]; simpl.
  - apply only_pends_keeps, keeps_ret.
  - apply only_pends_bind; [apply Hg | intros _; exact IH].
Qed.

Lemma only_pends_unawaited {A : Type} (m : M A) : only_pends P m -> only_pends P (unawaited m).
Proof. intros Hm e. exact (Hm e). Qed.

Lemma only_pends_notify (ch : string) (p opts : jsval) :
  P {| channel := ch; payload := p |} -> only_pends P (Messages.notify ch p opts).
Proof.
  intros Hp. unfold Messages.notify. destruct (has opts "client").
  - apply only_pends_bind; [apply only_pends_keeps; frame_more | intros _].
    intros e. eexists. split; [reflexivity |]. constructor; [exact Hp | constructor].
  - apply only_pends_keeps. frame_more.
Qed.

End Pending.

(** Splitting goals of the form [only_pends P m] along the shape of [m]. *)
Ltac pends_step :=
  match goal with
  | |- only_pends _ (bind _ _) => apply only_pends_bind; [| intros ?]
  | |- only_pends _ (forEach _ _) => apply only_pends_forEach; intros ?
  | |- only_pends _ (unawaited _) => apply only_pends_unawaited
  | |- only_pends _ (let '(_, _) := ?x in _) => destruct x
  | |- only_pends _ (if ?b then _ else _) => destruct b
  | |- only_pends _ (Service.broadcastAddress _ _ _ _ _) =>
      unfold Service.broadcastAddress; apply only_pends_notify; reflexivity
  | |- only_pends _ (Service.broadcastTx _ _ _ _) =>
      unfold Service.broadcastTx; apply only_pends_notify; reflexivity
  | |- only_pends _ (Service.addTx _ _ _) =>
      unfold Service.addTx; apply only_pends_notify; reflexivity
  | |- only_pends _ _ => apply only_pends_keeps; frame_more
  end.

(** The end of [_importBlock]: the two notifications of the block, queued
    once each, and no other notification of these two channels. *)
Lemma importBlock_pends (block : Block) (height : Z) (client : jsval) (e e' : env) :
  ScannerSync._importBlock block height client e = (Ok tt, e') ->
  exists before,
    pending e'
    = pending e ++ before
      ++ [{| channel := "broadcastblock";
             payload := JObj [("hash", JStr (hash block)); ("height", JNum height)] |};
          {| channel := "addblock"; payload := JObj [("hash", JStr (hash block))] |}]
    /\ Forall (fun ev => of_block ev = false) before.
Proof.
  intros Hrun. unfold ScannerSync._importBlock, ScannerSync.withLock in Hrun.
  rewrite bind_modify in Hrun.
  apply bind_ok_inv in Hrun as ([] & e1 & H1 & Hrun).
  apply bind_ok_inv in Hrun as (counts & e2 & H2 & Hrun).
  apply bind_ok_inv in Hrun as ([] & e3 & H3 & Hrun).
  apply bind_ok_inv in Hrun as ([] & e4 & H4 & Hrun).
  apply bind_ok_inv in Hrun as ([] & e5 & H5 & H6).
  unfold Service.broadcastBlock in H5. unfold Service.addBlock in H6.
  destruct (ensures_notify_client _ _ _ (db e4) (pending e4) e4 tt e5
              (conj eq_refl eq_refl) H5) as [Hd5 Hp5].
  destruct (ensures_notify_client _ _ _ (db e5) (pending e5) e5 tt e'
              (conj eq_refl eq_refl) H6) as [_ Hp6].
  set (Q := fun ev => of_block ev = false).
  assert (K1 : pending e1 = pending e).
  { match type of H1 with ?m ?e0 = _ =>
      assert (K : keeps pending m) by frame_more;
      pose proof (K e0) as K'; rewrite H1 in K'; exact K' end. }
  assert (K2 : pending e2 = pending e1).
  { match type of H2 with ?m ?e0 = _ =>
      assert (K : keeps pending m) by (unfold ScannerSync._importBlock_exists; frame_more);
      pose proof (K e0) as K'; rewrite H2 in K'; exact K' end. }
  assert (K3 : exists more, pending e3 = pending e2 ++ more /\ Forall Q more).
  { match type of H3 with ?m ?e0 = _ =>
      assert (K : only_pends Q m) end.
    { apply only_pends_forEach. intros tx. unfold ScannerSync._importBlock_tx.
      repeat pends_step. }
    destruct (K e2) as (more & Hm & HQ). rewrite H3 in Hm. exists more. split; assumption. }
  assert (K4 : exists more, pending e4 = pending e3 ++ more /\ Forall Q more).
  { match type of H4 with ?m ?e0 = _ =>
      assert (K : only_pends Q m) end.
    { apply only_pends_forEach. intros tx. apply only_pends_forEach. intros [input index].
      unfold ScannerSync._importBlock_input. repeat pends_step. }
    destruct (K e3) as (more & Hm & HQ). rewrite H4 in Hm. exists more. split; assumption. }
  destruct K3 as (more3 & K3 & Q3). destruct K4 as (more4 & K4 & Q4).
  exists (more3 ++ more4). split.
  - rewrite Hp6, Hp5, K4, K3, K2, K1, <- !app_assoc. reflexivity.
  - apply Forall_app. split; assumption.
Qed.

(** [// import block], lines 418-423, and the bus.  When the import
    commits, exactly one ['broadcastblock'] and one ['addblock'] are among
    the notifications it delivers: ['broadcastblock'] with the hash and the
    height of the block, then ['addblock'] with its hash.  (Where the
    ['broadcastaddress'] notifications of the block stand among them is not
    said: those of the input rows are queued when the statement of the
    input has answered, after line 346.)  When it fails, nothing has been
    delivered but ['addtx'] notifications: no ['broadcastblock'],
    ['addblock'], ['broadcasttx'] or ['broadcastaddress'] of a block whose
    import was rolled back is seen. *)
Theorem block_import_announces_the_block_once (block : Block)
    (latest : ScannerSync.Latest) (e : env) :
  let r := ScannerSync._runBlockImport_import block latest e in
  let height := ScannerSync.latest_height latest + 1 in
  (forall l, fst r = Ok l ->
     exists more,
       delivered (snd r) = delivered e ++ more
       /\ List.filter of_block more
          = [{| channel := "broadcastblock";
                payload := JObj [("hash", JStr (hash block)); ("height", JNum height)] |};
             {| channel := "addblock"; payload := JObj [("hash", JStr (hash block))] |}])
  /\ (forall msg, fst r = Err msg ->
        exists more,
          delivered (snd r) = delivered e ++ more
          /\ Forall (fun ev => channel ev = "addtx") more).
Proof.
  intros r height. subst r. unfold ScannerSync._runBlockImport_import.
  match goal with |- context [Storage.executeTransaction ?b e] => set (body := b) end.
  assert (Hbody : only_delivers (fun ev => channel ev = "addtx") (body JClient)).
  { subst body. cbv beta. apply only_delivers_bind; [apply importBlock_delivers_addtx |].
    intros _. apply only_delivers_keeps. unfold ScannerSync._getLatest. simpl. frame_more. }
  destruct (Hbody (with_pending e [])) as (more & Hmore & Hall). simpl in Hmore.
  unfold Storage.executeTransaction, Storage.settle.
  destruct (body JClient (with_pending e [])) as [[l | msg] e1] eqn:Hrun; simpl in Hmore |- *.
  - split; [| intros ? H; discriminate]. intros l' _.
    subst body. cbv beta in Hrun.
    apply bind_ok_inv in Hrun as ([] & e2 & H1 & H2). fold height in H1.
    apply importBlock_pends in H1 as (before & Hp & Hbefore). simpl in Hp.
    destruct (latest_of_rows JClient e2) as (Hs & _). cbv zeta in Hs.
    unfold ScannerSync._getLatest in H2. simpl in H2. rewrite H2 in Hs. simpl in Hs.
    subst e1. simpl in *. exists (more ++ pending e2). split.
    + rewrite Hmore, <- app_assoc. reflexivity.
    + rewrite Hp, !List.filter_app.
      assert (Hnone : forall l0, Forall (fun ev => of_block ev = false) l0 ->
                                 List.filter of_block l0 = []).
      { induction l0 as [| ev l0 IH]; intros HF; [reflexivity |].
        inversion HF as [| ? ? Hev Hrest]; subst. simpl. rewrite Hev. apply IH, Hrest. }
      rewrite (Hnone before Hbefore), (Hnone more); [reflexivity |].
      eapply List.Forall_impl; [| exact Hall]. intros ev Hev. unfold of_block.
      rewrite Hev. reflexivity.
  - split; [intros ? H; discriminate |]. intros _ _. exists more. split; assumption.
Qed.

Import Rollback Confirming Twice Registry MempoolWorld Mempool Scanning Announcing Spending.

(** ** What the unconfirmed import writes *)

Lemma importing_frame (txid : string) (d d' : database) :
  importing txid d d' ->
  blocks d' = blocks d /\ transactions d' = transactions d
  /\ on_conflict d' = on_conflict d.
Proof.
  induction 1 as [d | d1 d2 d3 _ (A1 & A2 & A3) _ (B1 & B2 & B3) | d sel | d row Hrow];
    repeat split; try reflexivity; congruence.
Qed.

Lemma importing_rows (txid : string) (P : history_row -> Prop) (d d' : database) :
  importing txid d d' ->
  (forall r, P r -> P (SQL.set_input (Some txid) None r)) ->
  (forall r, h_txid r = txid -> P r) ->
  Forall P (history d) -> Forall P (history d').
Proof.
  intros Hstep Hup Hnew. induction Hstep; intros Hall; simpl; auto.
  - apply Forall_map_if; assumption.
  - apply Forall_snoc; auto.
Qed.

Lemma importing_spent_by (txid : string) (input : Input) (d d' : database) :
  importing txid d d' -> prevTxId input <> txid ->
  spent_by txid input d -> spent_by txid input d'.
Proof.
  intros Hstep Hne. apply (importing_rows txid _ d d' Hstep).
  - intros r _ _. split; reflexivity.
  - intros r Hr Hsp. exfalso. unfold SQL.spends in Hsp.
    apply andb_true_iff in Hsp as [Hsp _]. apply String.eqb_eq in Hsp. congruence.
Qed.

Lemma importing_has_output (txid address t : string) (index : Z) (d d' : database) :
  importing txid d d' ->
  has_output address t index d = true -> has_output address t index d' = true.
Proof.
  unfold has_output. induction 1 as [d | d1 d2 d3 _ IH1 _ IH2 | d sel | d row Hrow];
    intros H; simpl; auto.
  - rewrite existsb_map_if; [exact H |]. intros r. reflexivity.
  - rewrite existsb_app, H. reflexivity.
Qed.

Lemma addUnconfirmedInput_importing (txid prev : string) (index : Z)
    (d d' : database) (a : list string) :
  SQL.update_history_addUnconfirmedInput (cook "\\x" +:+ txid) prev index d = Ok (a, d') ->
  importing txid d d'
  /\ Forall (fun r => SQL.spends (SQL.bytea prev) index r = true ->
                      h_input_txid r = Some txid /\ h_input_height r = None)
            (history d').
Proof.
  unfold SQL.update_history_addUnconfirmedInput. rewrite bytea_hex. intros H.
  apply update_returning_tables in H. subst d'. split; [apply importing_input |].
  simpl. apply Forall_map, List.Forall_forall. intros r _.
  destruct (SQL.spends (SQL.bytea prev) index r) eqn:Hsp.
  - intros _. split; reflexivity.
  - intros H. congruence.
Qed.

Lemma unconfirmedOutput_importing (address txid : string) (index value : Z)
    (script_ : string) (d d' : database) (a : unit) :
  SQL.insert_history_unconfirmedOutput address (cook "\\x" +:+ txid) index value script_ d
  = Ok (a, d') ->
  importing txid d d' /\ has_output address txid index d' = true.
Proof.
  unfold SQL.insert_history_unconfirmedOutput, SQL.insert_output, SQL.insert_row, has_output.
  rewrite bytea_hex.
  destruct (existsb (SQL.same_output address txid index) (history d)) eqn:Hex.
  - destruct (on_conflict d); intros H; [discriminate |]. injection H as _ <-.
    split; [destruct d; apply importing_refl |]. destruct d; exact Hex.
  - intros H. injection H as _ <-. split; [apply importing_output; reflexivity |].
    simpl. rewrite existsb_app. simpl. unfold SQL.same_output at 2. simpl.
    rewrite !String.eqb_refl, Z.eqb_refl. simpl. apply orb_true_r.
Qed.

Lemma moves_eq_notify (ch : string) (p opts : jsval) : moves eq (Messages.notify ch p opts).
Proof. apply moves_notify. reflexivity. Qed.

(** The import proper, lines 149-196, when it returns. *)
Lemma import_writes (tx : Transaction) (client : jsval) (e e' : env) (b : bool) :
  ScannerSync._importUnconfirmedTx_import tx client e = (Ok b, e') ->
  (forall input, In input (inputs tx) -> prevTxId input <> id tx) ->
  exists d1,
    SQL.insert_tx (cook "\\x" +:+ id tx) None (cook "\\x" +:+ raw tx) (db e) = Ok (tt, d1)
    /\ importing (id tx) d1 (db e')
    /\ (forall input, In input (inputs tx) -> spent_by (id tx) input (db e'))
    /\ (forall output index address,
          In (output, index) (ScannerSync.indexed (outputs tx)) ->
          In address (addresses output) ->
          has_output address (id tx) index (db e') = true).
Proof.
  intros Hrun Hne.
  apply import_run in Hrun as (e1 & p2 & e2 & p3 & e3 & _ & H1 & H2 & Hp2 & H3 & Hp3 & Hd).
  set (R := importing (id tx)).
  assert (Rr : forall d, R d d) by apply importing_refl.
  assert (Rt : forall d1 d2 d3, R d1 d2 -> R d2 d3 -> R d1 d3) by apply importing_trans.
  apply run_statement_ok in H1 as [Hs1 _].
  assert (Minput : forall input : Input,
            moves R (started (Storage.run_statement
                       (SQL.update_history_addUnconfirmedInput (cook "\\x" +:+ id tx)
                          (cook "\\x" +:+ prevTxId input) (outputIndex input))))).
  { intros input. apply moves_started_statement; [exact Rr |]. intros d a d' H.
    apply addUnconfirmedInput_importing in H as [H _]. exact H. }
  assert (Moutput : forall (p : Output * Z) (address : string),
            moves R (ScannerSync._importUnconfirmedTx_output (id tx) client
                       (fst p) (snd p) address)).
  { intros p address. unfold ScannerSync._importUnconfirmedTx_output, Storage.queryAsync.
    apply moves_bind; [exact Rt | | intros ?].
    - apply moves_started_statement; [exact Rr |]. intros d a d' H.
      apply unconfirmedOutput_importing in H as [H _]. exact H.
    - apply moves_bind; [exact Rt | | intros ?; apply moves_ret, Rr].
      apply moves_kept; [exact Rr |]. frame. }
  assert (Moutputs : forall p : Output * Z,
            moves R (let '(output, index) := p in
                     mapM (ScannerSync._importUnconfirmedTx_output (id tx) client
                             output index) (addresses output))).
  { intros [output index]. apply moves_mapM; [exact Rr | exact Rt |].
    intros address. apply (Moutput (output, index) address). }
  assert (R2 : R (db e1) (db e2)).
  { refine (moves_mapM R Rr Rt _ (inputs tx) _ e1 p2 e2 H2). exact Minput. }
  assert (R3 : R (db e2) (db e3)).
  { refine (moves_mapM R Rr Rt _ (ScannerSync.indexed (outputs tx)) _ e2 p3 e3 H3).
    exact Moutputs. }
  exists (db e1). split; [exact Hs1 |]. rewrite Hd.
  split; [exact (Rt _ _ _ R2 R3) |]. split.
  - intros input Hin. apply (importing_spent_by (id tx) input _ _ R3 (Hne input Hin)).
    destruct (mapM_results R Rr Rt _
                (fun input p d => settled p = Ok tt -> prevTxId input <> id tx ->
                                  spent_by (id tx) input d)
                (inputs tx) Minput) with (e := e1) (bs := p2) (e' := e2) (x := input)
      as (p & Hp & Hq); try assumption.
    + intros x p d d' Hstep Hq Hok Hx.
      apply (importing_spent_by (id tx) x d d' Hstep Hx (Hq Hok Hx)).
    + intros x ea p eb _ Hx Hok _. apply started_run in Hx.
      apply settled_ok in Hok as [a ->].
      apply run_statement_ok in Hx as [Hx _].
      apply addUnconfirmedInput_importing in Hx as [_ Hx]. rewrite bytea_hex in Hx.
      exact Hx.
    + apply Hq; [| apply Hne, Hin].
      rewrite List.Forall_forall in Hp2. apply Hp2, Hp.
  - intros output index address Hp Ha.
    destruct (mapM_results R Rr Rt _
                (fun (p : Output * Z) (ps : list (list (result unit))) d =>
                   Forall (fun r => r = Ok tt) (concat ps) ->
                   forall address, In address (addresses (fst p)) ->
                                   has_output address (id tx) (snd p) d = true)
                (ScannerSync.indexed (outputs tx)) Moutputs)
      with (e := e2) (bs := p3) (e' := e3) (x := (output, index))
      as (ps & Hps & Hq); try assumption.
    + intros p ps d d' Hstep Hq Hok a Hin.
      apply (importing_has_output _ _ _ _ d d' Hstep), Hq; assumption.
    + intros [o i] ea ps eb _ Hinner Hok a Hin. simpl.
      destruct (mapM_results R Rr Rt _
                  (fun (a : string) (rs : list (result unit)) d =>
                     Forall (fun r => r = Ok tt) rs -> has_output a (id tx) i d = true)
                  (addresses o) (Moutput (o, i)))
        with (e := ea) (bs := ps) (e' := eb) (x := a) as (rs & Hrs & Hr); try assumption.
      * intros x rs d d' Hstep Hq Hall.
        apply (importing_has_output _ _ _ _ d d' Hstep), Hq, Hall.
      * intros x ec rs ed _ Hx Hall.
        unfold ScannerSync._importUnconfirmedTx_output, Storage.queryAsync in Hx.
        apply bind_ok_inv in Hx as (pa & ef & Hx & Hn). apply started_run in Hx.
        apply bind_ok_inv in Hn as (pb & eg & Hn & Hret). injection Hret as <- <-.
        apply Forall_cons_iff in Hall as [Hpa _]. apply settled_ok in Hpa as [[] ->].
        apply run_statement_ok in Hx as [Hx _].
        apply unconfirmedOutput_importing in Hx as [_ Hx].
        assert (K : keeps db
                  (started (Service.broadcastAddress (JStr x) (JStr (id tx)) JNull JNull
                              (ScannerSync.client_opts client)))) by frame.
        specialize (K ef). rewrite Hn in K. simpl in K. rewrite K. exact Hx.
      * apply Hr. rewrite List.Forall_forall in Hok |- *. intros r Hin'.
        apply Hok, in_concat. exists rs. split; assumption.
    + apply Hq; [| exact Ha].
      rewrite List.Forall_forall in Hp3 |- *. intros r Hin'.
      apply in_concat in Hin' as (rs & Hrs & Hr).
      apply Hp3, in_concat. exists rs. split; [| exact Hr].
      apply in_concat. exists ps. split; assumption.
Qed.

(** [_importUnconfirmedTx] returns [true] for a transaction that was not
    stored only through the import proper. *)
Lemma import_branch (tx : Transaction) (e : env) :
  exists b e',
    ScannerSync._importUnconfirmedTx tx e = (Ok b, e')
    /\ (b = true -> stored (id tx) e = false ->
        missing tx e = []
        /\ exists e2 e3,
             db e2 = db e
             /\ ScannerSync._importUnconfirmedTx_import tx JClient e2 = (Ok true, e3)
             /\ db e' = db e3).
Proof.
  unfold ScannerSync._importUnconfirmedTx, ScannerSync.withLock.
  rewrite bind_modify.
  set (keys := uniq (map prevTxId (inputs tx)) ++ [id tx]).
  set (e0 := with_locked e (locked e ++ [Keyed keys])).
  unfold catch, Storage.executeTransaction, Storage.settle, Storage.queryAsync.
  set (ei := with_pending e0 []).
  unfold SQL.select_transactions_exists, SQL.select_transactions_existsMany.
  step_bind H1.
  - apply run_reading_ok in H1 as [-> ->].
    rewrite bytea_hex, count_is_zero, negb_involutive.
    change (SQL.tx_exists (id tx) (db ei)) with (stored (id tx) e).
    destruct (stored (id tx) e) eqn:Est.
    + eexists _, _. split; [reflexivity |]. intros _ H. discriminate.
    + step_bind H2.
      * apply run_reading_ok in H2 as [-> ->].
        change (db (with_db (with_faults ei (tail (faults ei))) (db ei))) with (db e).
        rewrite (deps_are_missing tx e).
        match goal with
        | |- context [(if _ then _ else ScannerSync._importUnconfirmedTx_import _ _) ?x] =>
            set (e2 := x)
        end.
        destruct (missing tx e) as [| p ps] eqn:Em.
        -- cbn [length Nat.ltb Nat.leb].
           destruct (ScannerSync._importUnconfirmedTx_import tx JClient e2)
             as [[b | msg] e3] eqn:H3.
           ++ eexists _, _. split; [reflexivity |]. intros -> _.
              split; [reflexivity |]. exists e2, e3. repeat split. exact H3.
           ++ eexists _, _. split; [reflexivity |]. intros H. discriminate.
        -- cbn [length Nat.ltb Nat.leb].
           destruct (orphan_registers (id tx) (p :: ps) e2) as (e3 & Hrun & _).
           rewrite Hrun. eexists _, _. split; [reflexivity |]. intros H. discriminate.
      * eexists _, _. split; [reflexivity |]. intros H. discriminate.
  - eexists _, _. split; [reflexivity |]. intros H. discriminate.
Qed.

(** When [_importUnconfirmedTx] returns [true] for a transaction that had
    no row: the transaction rows are those that were there and, after them,
    the unconfirmed row of the transaction with its raw form; for each of
    its inputs, every history row of the output that the input refers to
    names the transaction as its spender, with no input height; for each of
    its outputs there is a history row for each address of the output; and
    the block rows are not touched. *)
Theorem unconfirmed_import_writes (tx : Transaction) (e : env)
    (Hnew : stored (id tx) e = false)
    (Hrun : fst (ScannerSync._importUnconfirmedTx tx e) = Ok true) :
  let d := db (snd (ScannerSync._importUnconfirmedTx tx e)) in
  transactions d
  = transactions (db e) ++ [{| t_txid := id tx; t_height := None; t_tx := raw tx |}]
  /\ blocks d = blocks (db e)
  /\ (forall input, In input (inputs tx) -> spent_by (id tx) input d)
  /\ (forall output index address,
        In (output, index) (ScannerSync.indexed (outputs tx)) ->
        In address (addresses output) ->
        has_output address (id tx) index d = true).
Proof.
  intros d. subst d. destruct (import_branch tx e) as (b & e' & Hr & Hwhy).
  rewrite Hr in Hrun |- *. simpl in Hrun |- *. injection Hrun as ->.
  destruct (Hwhy eq_refl Hnew) as (Hmiss & e2 & e3 & Hd2 & Himport & Hd3).
  assert (Hne : forall input, In input (inputs tx) -> prevTxId input <> id tx).
  { intros input Hin Heq.
    assert (Hm : In (prevTxId input) (missing tx e)).
    { apply missing_In. split; [apply in_map, Hin | rewrite Heq; exact Hnew]. }
    rewrite Hmiss in Hm. destruct Hm. }
  destruct (import_writes tx JClient e2 e3 true Himport Hne)
    as (d1 & Hins & Hstep & Hin & Hout).
  destruct (importing_frame _ _ _ Hstep) as (Hb & Ht & _).
  unfold SQL.insert_tx, SQL.insert_row in Hins. rewrite !bytea_hex, Hd2 in Hins.
  unfold stored in Hnew. rewrite Hnew in Hins. injection Hins as <-.
  rewrite Hd3. repeat split; try assumption.
Qed.

(** The theorem on [b1], which spends the stored output [a0:0] and pays
    [addr2]. *)
Lemma unconfirmed_import_writes_witness :
  let d := db (snd (ScannerSync._importUnconfirmedTx tx_b1 (fresh db_a0))) in
  stored "b1" (fresh db_a0) = false
  /\ fst (ScannerSync._importUnconfirmedTx tx_b1 (fresh db_a0)) = Ok true
  /\ map t_txid (transactions d) = ["a0"; "b1"]
  /\ spent_by "b1" {| prevTxId := "a0"; outputIndex := 0 |} d
  /\ has_output "addr2" "b1" 0 d = true.
Proof.
  intros d.
  assert (Hnew : stored (id tx_b1) (fresh db_a0) = false) by reflexivity.
  assert (Hr : fst (ScannerSync._importUnconfirmedTx tx_b1 (fresh db_a0)) = Ok true).
  { vm_compute. reflexivity. }
  split; [exact Hnew |]. split; [exact Hr |].
  destruct (unconfirmed_import_writes tx_b1 (fresh db_a0) Hnew Hr) as (Ht & _ & Hin & Hout).
  split; [subst d; rewrite Ht; reflexivity |].
  split.
  - exact (Hin {| prevTxId := "a0"; outputIndex := 0 |} (or_introl eq_refl)).
  - exact (Hout {| satoshis := 4000; script := "76a8"; addresses := ["addr2"] |} 0 "addr2"
             (or_introl eq_refl) (or_introl eq_refl)).
Defined.

Import Rollback Confirming Twice Registry MempoolWorld Mempool Scanning Announcing Spending.

(** ** The rescanner: the point the scan is rolled back to *)

Lemma recorded_hash (height : Z) (cc : list cc_row) (hash : string) :
  In hash (omap (fun c => match c_height c with
                          | Some h => if (h =? height)%Z then c_blockhash c else None
                          | None => None
                          end) cc) ->
  exists c, In c cc /\ c_height c = Some height /\ c_blockhash c = Some hash.
Proof.
  intros Hin. apply list_elem_of_In, list_elem_of_omap in Hin as (c & Hc & Hf).
  exists c. split; [apply list_elem_of_In, Hc |].
  destruct (c_height c) as [h |]; [| discriminate].
  destruct (h =? height) eqn:Hh; [| discriminate].
  apply Z.eqb_eq in Hh. subst h. split; [reflexivity | exact Hf].
Qed.

Lemma walkBack_found (fuel : nat) (client : jsval) (hash : string) (height : Z)
    (e e' : env) (hash' : string) (height' : Z) (row : block_row) :
  ColorSync.walkBack fuel client hash height e = (Ok (Some (hash', height', row)), e') ->
  In row (blocks (db e)) /\ b_height row = height' + 1
  /\ prevHash (b_header row) = hash' /\ height' <= height
  /\ ((hash', height') = (hash, height)
      \/ exists c, In c (cc_scanned (db e)) /\ c_height c = Some height'
                   /\ c_blockhash c = Some hash').
Proof.
  revert hash height e. induction fuel as [| fuel IH]; intros hash height e Hrun;
    [discriminate |].
  cbn [ColorSync.walkBack] in Hrun. unfold Storage.queryAsync in Hrun.
  apply bind_ok_inv in Hrun as (rows & e1 & H1 & Hrun).
  unfold SQL.select_blocks_txIdsByHeight, SQL.select_blocks_byHeight in H1.
  apply run_reading_ok in H1 as [-> ->].
  destruct (List.filter (fun b => b_height b =? height + 1) (blocks (db e)))
    as [| row0 rows] eqn:Erows; [discriminate |].
  cbn [first_row] in Hrun. rewrite bind_ret in Hrun.
  assert (Hrow : In row0 (blocks (db e)) /\ b_height row0 = height + 1).
  { assert (Hin : In row0 (List.filter (fun b => b_height b =? height + 1)
                                       (blocks (db e)))).
    { rewrite Erows. left. reflexivity. }
    apply filter_In in Hin as [Hin Hh]. split; [exact Hin | lia]. }
  destruct Hrow as [Hin Hh].
  destruct (String.eqb hash (prevHash (b_header row0))) eqn:Heq.
  - injection Hrun as <- <- <- <-. apply String.eqb_eq in Heq.
    repeat split; try assumption; [symmetry; exact Heq | lia | left; reflexivity].
  - apply bind_ok_inv in Hrun as (hashes & e2 & H2 & Hrun).
    unfold SQL.select_ccScannedTxIds_blockHash in H2.
    apply run_reading_ok in H2 as [-> ->].
    match type of Hrun with
    | bind (first_row ?l) _ _ = _ => destruct l as [| hash1 hashes] eqn:Ehashes
    end; [discriminate |].
    cbn [first_row] in Hrun. rewrite bind_ret in Hrun.
    assert (Hrec : exists c, In c (cc_scanned (db e)) /\ c_height c = Some (height - 1)
                             /\ c_blockhash c = Some hash1).
    { apply recorded_hash. simpl db in Ehashes. rewrite Ehashes. left. reflexivity. }
    apply IH in Hrun as (A & B & C & D & E). simpl db in A, E.
    repeat split; try assumption; [lia |]. right.
    destruct E as [E | E]; [| exact E]. injection E as -> ->. exact Hrec.
Qed.

(** The point to which [updateBlocks] rolls the scan back, lines 188-206:
    finding it only reads.  When it is found, it is a hash and a height
    together with the block row one above that names the hash as its
    parent; the height is not above the height of the latest scanned block,
    and it is below the latest block of the store when the scan was not;
    and the hash with the height is the latest scanned block, or it is
    recorded in a color-scanned row. *)
Theorem rollbackPoint_finds_a_parent (client : jsval) (latest_hash : string)
    (latest_height : Z) (core : block_row) (e : env) :
  let r := ColorSync.rollbackPoint client latest_hash latest_height core e in
  db (snd r) = db e
  /\ forall hash height row,
       fst r = Ok (hash, height, row) ->
       In row (blocks (db e)) /\ b_height row = height + 1
       /\ prevHash (b_header row) = hash
       /\ height <= latest_height
       /\ (b_height core <= latest_height -> height < b_height core)
       /\ ((hash, height) = (latest_hash, latest_height)
           \/ exists c, In c (cc_scanned (db e)) /\ c_height c = Some height
                        /\ c_blockhash c = Some hash).
Proof.
  intros r. subst r. split; [apply keeps_db_rollbackPoint |].
  intros hash height row Hr. apply run_as_pair in Hr. revert Hr.
  generalize (snd (ColorSync.rollbackPoint client latest_hash latest_height core e)).
  intros e' Hrun. unfold ColorSync.rollbackPoint in Hrun.
  apply bind_ok_inv in Hrun as ([hash0 height0] & e1 & H1 & Hrun).
  rewrite bind_gets in Hrun.
  apply bind_ok_inv in Hrun as (found & e2 & H2 & Hrun).
  destruct found as [[[hash' height'] row'] |]; [| discriminate].
  injection Hrun as <- <- <- <-.
  destruct (b_height core <=? latest_height) eqn:Hle.
  - apply Z.leb_le in Hle. unfold Storage.queryAsync in H1.
    apply bind_ok_inv in H1 as (hashes & e3 & H1 & H1').
    unfold SQL.select_ccScannedTxIds_blockHash in H1.
    apply run_reading_ok in H1 as [-> ->].
    match type of H1' with
    | bind (first_row ?l) _ _ = _ => destruct l as [| hash1 hashes] eqn:Ehashes
    end; [discriminate |].
    cbn [first_row] in H1'. rewrite bind_ret in H1'. injection H1' as <- <- <-.
    assert (Hrec : exists c, In c (cc_scanned (db e))
                             /\ c_height c = Some (b_height core - 1)
                             /\ c_blockhash c = Some hash1).
    { apply recorded_hash. rewrite Ehashes. left. reflexivity. }
    apply walkBack_found in H2 as (A & B & C & D & E). simpl in A, D, E |- *.
    repeat split; try assumption; [lia | lia |]. right.
    destruct E as [E | E]; [| exact E]. injection E as -> ->. exact Hrec.
  - apply Z.leb_gt in Hle. injection H1 as <- <- <-.
    apply walkBack_found in H2 as (A & B & C & D & E). simpl in D, E.
    repeat split; try assumption. lia.
Qed.

(** ** The rescanner: a turn that advances the scan *)

Lemma max_cc_spec (cc : list cc_row) :
  match SQL.max_cc cc with
  | Some (bh, h) =>
      (exists c, In c cc /\ c_blockhash c = Some bh /\ c_height c = Some h)
      /\ Forall (fun c => forall bh' h', c_blockhash c = Some bh' ->
                                         c_height c = Some h' -> h' <= h) cc
  | None => Forall (fun c => c_blockhash c = None \/ c_height c = None) cc
  end.
Proof.
  induction cc as [| c cc IH]; simpl; [constructor |].
  destruct (c_blockhash c) as [bh |] eqn:Eb; destruct (c_height c) as [h |] eqn:Eh;
    destruct (SQL.max_cc cc) as [[bh' h'] |];
    try (destruct IH as [(c0 & Hin & A & B) Hall]).
  - destruct (h' <=? h) eqn:Hle.
    + apply Z.leb_le in Hle. split; [exists c; repeat split; try assumption; left; reflexivity |].
      constructor; [intros ? ? H1 H2; rewrite Eh in H2; injection H2 as <-; lia |].
      eapply List.Forall_impl; [| exact Hall]. intros x Hx b1 h1 H1 H2.
      specialize (Hx b1 h1 H1 H2). lia.
    + apply Z.leb_gt in Hle. split; [exists c0; repeat split; try assumption; right; exact Hin |].
      constructor; [intros ? ? H1 H2; rewrite Eh in H2; injection H2 as <-; lia | exact Hall].
  - split; [exists c; repeat split; try assumption; left; reflexivity |].
    constructor; [intros ? ? H1 H2; rewrite Eh in H2; injection H2 as <-; lia |].
    eapply List.Forall_impl; [| exact IH]. intros x [Hx | Hx] b1 h1 H1 H2; congruence.
  - split; [exists c0; repeat split; try assumption; right; exact Hin |].
    constructor; [intros ? ? H1 H2; congruence | exact Hall].
  - constructor; [right; exact Eh | exact IH].
  - split; [exists c0; repeat split; try assumption; right; exact Hin |].
    constructor; [intros ? ? H1 H2; congruence | exact Hall].
  - constructor; [left; exact Eb | exact IH].
  - split; [exists c0; repeat split; try assumption; right; exact Hin |].
    constructor; [intros ? ? H1 H2; congruence | exact Hall].
  - constructor; [left; exact Eb | exact IH].
Qed.

Lemma max_cc_top (cc : list cc_row) (hash : string) (height : Z) :
  (exists c, In c cc /\ c_blockhash c = Some hash /\ c_height c = Some height) ->
  Forall (fun c => forall bh h, c_blockhash c = Some bh -> c_height c = Some h ->
                                h <= height /\ (h = height -> bh = hash)) cc ->
  SQL.max_cc cc = Some (hash, height).
Proof.
  intros (c0 & Hin0 & Hb0 & Hh0) Hall. pose proof (max_cc_spec cc) as Hspec.
  rewrite List.Forall_forall in Hall.
  destruct (SQL.max_cc cc) as [[bh h] |].
  - destruct Hspec as [(c & Hin & Hb & Hh) Hle].
    rewrite List.Forall_forall in Hle.
    pose proof (Hle c0 Hin0 hash height Hb0 Hh0) as H1.
    destruct (Hall c Hin bh h Hb Hh) as [H2 H3].
    assert (h = height) by lia. subst h. rewrite (H3 eq_refl). reflexivity.
  - rewrite List.Forall_forall in Hspec. destruct (Hspec c0 Hin0); congruence.
Qed.

Section Advance.

Variable cdefClss : list string.

(** A turn of [updateBlocks] when the store is ahead of the scan and the
    block row one above the latest scanned block names that block as its
    parent: if the turn returns, it has scanned this block row and nothing
    has been marked unconfirmed; [running] stays true; every transaction of
    the row is color-scanned; the latest scanned block is now this row's
    block, one above the old one; and the transaction and block rows are as
    they were. *)
Theorem turn_advances_the_scan (e : env) (latest_hash : string) (latest_height : Z)
    (core row : block_row) (others : list block_row) (running : bool)
    (Hcc : SQL.max_cc (cc_scanned (db e)) = Some (latest_hash, latest_height))
    (Hcore : SQL.max_block (blocks (db e)) = Some core)
    (Hahead : latest_height < b_height core)
    (Hnot : b_hash core <> latest_hash)
    (Hrow : List.filter (fun b => b_height b =? latest_height + 1) (blocks (db e))
            = row :: others)
    (Hparent : prevHash (b_header row) = latest_hash)
    (Hids : ColorSync.slices (b_txids row) <> [])
    (Hrun : fst (ColorSync.updateBlocks_turn cdefClss e) = Ok running) :
  let d := db (snd (ColorSync.updateBlocks_turn cdefClss e)) in
  running = true
  /\ SQL.max_cc (cc_scanned d) = Some (b_hash row, latest_height + 1)
  /\ Forall (fun t => is_scanned t d = true) (ColorSync.slices (b_txids row))
  /\ transactions d = transactions (db e) /\ blocks d = blocks (db e).
Proof.
  intros d. subst d. apply run_as_pair in Hrun. revert Hrun.
  generalize (snd (ColorSync.updateBlocks_turn cdefClss e)). intros e' Hrun. simpl.
  unfold ColorSync.updateBlocks_turn, Storage.executeTransaction, Storage.settle in Hrun.
  match type of Hrun with
  | context [bind ?m ?k (with_pending e [])] =>
      destruct (bind m k (with_pending e [])) as [[b | msg] e1] eqn:Hbody
  end; [| discriminate].
  injection Hrun as -> <-. simpl. unfold Storage.queryAsync in Hbody.
  apply bind_ok_inv in Hbody as (result & e2 & H1 & Hbody).
  unfold SQL.select_ccScannedTxIds_latestBlock in H1.
  apply run_reading_ok in H1 as [-> ->]. cbn [db with_db with_faults with_pending] in Hbody.
  rewrite Hcc in Hbody. unfold option_list, option_rect in Hbody. cbv beta iota in Hbody.
  apply bind_ok_inv in Hbody as (result & e3 & H2 & Hbody).
  unfold SQL.select_blocks_latest in H2.
  apply run_reading_ok in H2 as [-> ->]. cbn [db with_db with_faults with_pending] in Hbody.
  rewrite Hcore in Hbody. unfold option_list, option_rect in Hbody.
  cbn [first_row] in Hbody. rewrite bind_ret in Hbody.
  assert (Hne : String.eqb latest_hash (b_hash core) = false).
  { apply String.eqb_neq. congruence. }
  rewrite Hne in Hbody.
  apply bind_ok_inv in Hbody as (point & e4 & H3 & Hbody).
  assert (Hpoint : point = (latest_hash, latest_height, row) /\ db e4 = db e).
  { unfold ColorSync.rollbackPoint in H3.
    assert (Hle : (b_height core <=? latest_height) = false) by (apply Z.leb_gt; lia).
    rewrite Hle, bind_ret, bind_gets in H3.
    cbn [ColorSync.walkBack fst snd] in H3. unfold Storage.queryAsync in H3.
    apply bind_ok_inv in H3 as (found & e5 & H3 & Hfound).
    apply bind_ok_inv in H3 as (rows & e6 & H3 & Hwalk).
    unfold SQL.select_blocks_txIdsByHeight, SQL.select_blocks_byHeight in H3.
    apply run_reading_ok in H3 as [-> ->]. cbn [db with_db with_faults with_pending] in Hwalk.
    rewrite Hrow in Hwalk. cbn [first_row] in Hwalk. rewrite bind_ret in Hwalk.
    rewrite Hparent, String.eqb_refl in Hwalk. injection Hwalk as <- <-.
    injection Hfound as <- <-. split; reflexivity. }
  destruct Hpoint as [-> Hd4]. cbv beta iota in Hbody.
  rewrite String.eqb_refl in Hbody. cbn [negb] in Hbody. rewrite bind_ret in Hbody.
  apply bind_ok_inv in Hbody as ([] & e5 & H4 & Hbody).
  injection Hbody as <- <-.
  assert (Hheight : b_height row = latest_height + 1).
  { assert (Hin : In row (List.filter (fun b => b_height b =? latest_height + 1)
                                      (blocks (db e)))).
    { rewrite Hrow. left. reflexivity. }
    apply filter_In in Hin as [_ Hh]. lia. }
  destruct (scanBlock_run cdefClss JClient row e4 (f_equal fst H4))
    as (Hsc & Hconf & Hrest & Ht & Hb & _).
  cbv zeta in Hsc, Hconf, Hrest, Ht, Hb. rewrite H4 in Hsc, Hconf, Hrest, Ht, Hb.
  simpl in Hsc, Hconf, Hrest, Ht, Hb. rewrite Hd4 in Hrest, Ht, Hb.
  split; [reflexivity |]. split; [| split; [exact Hsc | split; assumption]].
  apply max_cc_top.
  - destruct (ColorSync.slices (b_txids row)) as [| t ts] eqn:Eids; [contradiction |].
    inversion Hsc as [| ? ? Ht0 _]; subst.
    apply is_scanned_In in Ht0 as (c & Hin & Hc). exists c. split; [exact Hin |].
    rewrite List.Forall_forall in Hconf.
    destruct (Hconf c Hin) as [A B]; [rewrite Hc; left; reflexivity |].
    rewrite A, B, Hheight. split; reflexivity.
  - pose proof (max_cc_spec (cc_scanned (db e))) as Hspec. rewrite Hcc in Hspec.
    destruct Hspec as [_ Hold]. rewrite List.Forall_forall in Hold.
    apply List.Forall_forall. intros c Hc bh h Hbh Hh.
    rewrite List.Forall_forall in Hrest.
    destruct (Hrest c Hc) as [[A B] | Hwas].
    + rewrite A in Hbh. rewrite B in Hh. injection Hbh as <-. injection Hh as <-.
      split; [lia | reflexivity].
    + specialize (Hold c Hwas bh h Hbh Hh). split; lia.
Qed.

End Advance.

(** The theorem on a store where the scan is at [(k3, 3)] and the store has
    [k4b] at height 4. *)
Lemma turn_advances_the_scan_witness :
  let e := fresh (with_cc_scanned Rescan.s6_db
                    [Rescan.scanned "x0" "k0" 0; Rescan.scanned "x3" "k3" 3]) in
  let row := Rescan.core_block 4 "k4b" "k3" Rescan.new_txid in
  fst (ColorSync.updateBlocks_turn ["epobc"] e) = Ok true
  /\ SQL.max_cc (cc_scanned (db e)) = Some ("k3", 3)
  /\ SQL.max_cc (cc_scanned (db (snd (ColorSync.updateBlocks_turn ["epobc"] e))))
     = Some ("k4b", 4).
Proof.
  intros e row.
  assert (Hr : fst (ColorSync.updateBlocks_turn ["epobc"] e) = Ok true).
  { vm_compute. reflexivity. }
  split; [exact Hr |]. split; [reflexivity |].
  refine (proj1 (proj2 (turn_advances_the_scan ["epobc"] e "k3" 3 row row [] true
                          eq_refl eq_refl _ _ eq_refl eq_refl _ Hr))).
  - simpl. lia.
  - discriminate.
  - discriminate.
Defined.

Import Rollback Confirming Twice Registry MempoolWorld Mempool Scanning Announcing Spending.
Import Keeping.

(** ** The imports never take a row away *)

Lemma extends_refl (d : database) : extends d d.
Proof. repeat split; exists []; rewrite app_nil_r; reflexivity. Qed.

Lemma extends_trans (d1 d2 d3 : database) : extends d1 d2 -> extends d2 d3 -> extends d1 d3.
Proof.
  intros ((b1 & B1) & (t1 & T1) & (h1 & H1)) ((b2 & B2) & (t2 & T2) & (h2 & H2)).
  repeat split.
  - exists (b1 ++ b2). rewrite B2, B1, app_assoc. reflexivity.
  - exists (t1 ++ t2). rewrite T2, T1, app_assoc. reflexivity.
  - exists (h1 ++ h2). rewrite H2, H1, app_assoc. reflexivity.
Qed.

Lemma map_map_if {A B : Type} (f : A -> B) (sel : A -> bool) (g : A -> A) (l : list A) :
  (forall x, f (g x) = f x) ->
  map f (map (fun x => if sel x then g x else x) l) = map f l.
Proof.
  intros Hg. rewrite map_map. apply map_ext. intros x.
  destruct (sel x); [apply Hg | reflexivity].
Qed.

Lemma extends_history_update (d : database) (sel : history_row -> bool)
    (g : history_row -> history_row) :
  (forall r, output_of (g r) = output_of r) ->
  extends d (with_history d (map (fun r => if sel r then g r else r) (history d))).
Proof.
  intros Hg. repeat split; try (exists []; rewrite app_nil_r; reflexivity).
  exists []. rewrite app_nil_r. simpl. apply map_map_if, Hg.
Qed.

Lemma extends_history_insert (d : database) (row : history_row) :
  extends d (with_history d (history d ++ [row])).
Proof.
  repeat split; try (exists []; rewrite app_nil_r; reflexivity).
  exists [output_of row]. simpl. rewrite map_app. reflexivity.
Qed.

Lemma confirming_extends (h : Z) (d d' : database) : confirming h d d' -> extends d d'.
Proof.
  induction 1 as [d | d1 d2 d3 _ IH1 _ IH2 | d sel | d row Hrow | d sel | d row Hrow
                 | d sel by_].
  - apply extends_refl.
  - eapply extends_trans; eassumption.
  - repeat split; try (exists []; rewrite app_nil_r; reflexivity).
    exists []. rewrite app_nil_r. simpl. apply map_map_if. reflexivity.
  - repeat split; try (exists []; rewrite app_nil_r; reflexivity).
    exists [(t_txid row, t_tx row)]. simpl. rewrite map_app. reflexivity.
  - apply extends_history_update. reflexivity.
  - apply extends_history_insert.
  - apply extends_history_update. reflexivity.
Qed.

Lemma importing_extends (txid : string) (d d' : database) :
  importing txid d d' -> extends d d'.
Proof.
  induction 1 as [d | d1 d2 d3 _ IH1 _ IH2 | d sel | d row Hrow].
  - apply extends_refl.
  - eapply extends_trans; eassumption.
  - apply extends_history_update. reflexivity.
  - apply extends_history_insert.
Qed.

Lemma insert_tx_extends (txid : string) (height : option Z) (raw_ : string)
    (d d' : database) (a : unit) :
  SQL.insert_tx txid height raw_ d = Ok (a, d') -> extends d d'.
Proof.
  unfold SQL.insert_tx, SQL.insert_row. destruct (SQL.tx_exists (SQL.bytea txid) d).
  - destruct (on_conflict d); intros H; [discriminate |]. injection H as _ <-.
    destruct d; apply extends_refl.
  - intros H. injection H as _ <-.
    repeat split; try (exists []; rewrite app_nil_r; reflexivity).
    eexists. simpl. rewrite map_app. reflexivity.
Qed.

Lemma insert_blocks_row_extends (h : Z) (hash_ : string) (hdr : BlockHeader)
    (txids : string) (d d' : database) (a : unit) :
  SQL.insert_blocks_row h hash_ hdr txids d = Ok (a, d') -> extends d d'.
Proof.
  unfold SQL.insert_blocks_row, SQL.insert_row.
  destruct (existsb _ (blocks d)).
  - destruct (on_conflict d); intros H; [discriminate |]. injection H as _ <-.
    destruct d; apply extends_refl.
  - intros H. injection H as _ <-.
    repeat split; try (exists []; rewrite app_nil_r; reflexivity).
    eexists. reflexivity.
Qed.

(** [_importBlock] after the header. *)
Lemma importBlock_steps (block : Block) (h : Z) (client : jsval) (e e' : env) :
  ScannerSync._importBlock block h client e = (Ok tt, e') ->
  exists d1,
    SQL.insert_blocks_row h (cook "\\x" +:+ hash block) (header block)
      (cook "\\x" +:+ String.concat EmptyString (map id (Bitcore.transactions block)))
      (db e) = Ok (tt, d1)
    /\ confirming h d1 (db e').
Proof.
  intros Hrun. unfold ScannerSync._importBlock, ScannerSync.withLock in Hrun.
  rewrite bind_modify in Hrun.
  set (txs := Bitcore.transactions block) in *.
  unfold Storage.queryAsync in Hrun.
  apply bind_ok_inv in Hrun as ([] & e1 & H1 & Hrun).
  apply run_statement_ok in H1 as [Hs1 _]. simpl db in Hs1.
  apply bind_ok_inv in Hrun as (counts & e2 & H2 & Hrun).
  apply exists_all in H2 as [Hd2 ->].
  set (E := ScannerSync.existing txs _) in Hrun.
  apply bind_ok_inv in Hrun as ([] & e3 & H3 & Hrun).
  apply bind_ok_inv in Hrun as ([] & e4 & H4 & Hrun).
  assert (Hd5 : db e' = db e4).
  { refine (tail_of_notifications_keeps_db _ e4 e' tt _ Hrun).
    unfold Service.broadcastBlock, Service.addBlock. repeat moves_step. }
  assert (R3 : confirming h (db e2) (db e3)).
  { refine (moves_forEach (confirming h) (confirming_refl h) (confirming_trans h)
              _ txs _ e2 tt e3 H3).
    intros tx. apply importBlock_tx_moves. }
  assert (R4 : spending h (db e3) (db e4)).
  { refine (moves_forEach (spending h) (spending_refl h) (spending_trans h)
              _ txs _ e3 tt e4 H4).
    intros tx. apply moves_forEach; [apply spending_refl | apply spending_trans |].
    intros [input index]. apply importBlock_input_moves. }
  pose proof (spending_confirming h _ _ R4) as R4'.
  pose proof (confirming_trans h _ _ _ R3 R4') as R34.
  exists (db e1). split; [exact Hs1 |]. rewrite Hd5, <- Hd2. exact R34.
Qed.

(** Neither import takes a row away or rewrites what a row is about: after
    [_importBlock], when it returns, and after [_importUnconfirmedTx],
    however it ends, the block rows that were there are there, and so are
    the transaction rows with their txid and raw transaction and the
    history rows with their address, output and script, all in their order;
    new rows come after them. *)
Theorem imports_take_no_row_away :
  (forall (block : Block) (height : Z) (client : jsval) (e : env),
      fst (ScannerSync._importBlock block height client e) = Ok tt ->
      extends (db e) (db (snd (ScannerSync._importBlock block height client e))))
  /\ (forall (tx : Transaction) (e : env),
        extends (db e) (db (snd (ScannerSync._importUnconfirmedTx tx e)))).
Proof.
  split.
  - intros block height client e Hrun. apply run_as_pair in Hrun.
    apply importBlock_steps in Hrun as (d1 & Hins & Hstep).
    eapply extends_trans; [eapply insert_blocks_row_extends, Hins |].
    eapply confirming_extends, Hstep.
  - intros tx e. destruct (import_outcome tx e) as (b & e' & Hrun & _ & Hcases).
    destruct (import_branch tx e) as (b' & e'' & Hrun' & Hwhy).
    rewrite Hrun in Hrun' |- *. injection Hrun' as <- <-. simpl.
    destruct Hcases as [(_ & _ & Hd & _) | [(_ & _ & _ & Hd & _)
                       | [(-> & Hnew & Hmiss & _) | (_ & Hd & _)]]];
      try (rewrite Hd; apply extends_refl).
    destruct (Hwhy eq_refl Hnew) as (_ & e2 & e3 & Hd2 & Himport & Hd3).
    assert (Hne : forall input, In input (inputs tx) -> prevTxId input <> id tx).
    { intros input Hin Heq.
      assert (Hm : In (prevTxId input) (missing tx e)).
      { apply missing_In. split; [apply in_map, Hin | rewrite Heq; exact Hnew]. }
      rewrite Hmiss in Hm. destruct Hm. }
    destruct (import_writes tx JClient e2 e3 true Himport Hne) as (d1 & Hins & Hstep & _).
    rewrite Hd3, <- Hd2.
    eapply extends_trans; [eapply insert_tx_extends, Hins |].
    eapply importing_extends, Hstep.
Qed.

Import Coinbase.

(** ** Coinbase inputs in the block import *)

Lemma spares_refl (prev : string) (index : Z) (d : database) : spares prev index d d.
Proof. exists []. rewrite app_nil_r. reflexivity. Qed.

Lemma spares_trans (prev : string) (index : Z) (d1 d2 d3 : database) :
  spares prev index d1 d2 -> spares prev index d2 d3 -> spares prev index d1 d3.
Proof.
  intros [m1 H1] [m2 H2]. exists (m1 ++ m2). rewrite H2, H1, app_assoc. reflexivity.
Qed.

Lemma spares_same_history (prev : string) (index : Z) (d d' : database) :
  history d' = history d -> spares prev index d d'.
Proof. intros H. exists []. unfold spenders. rewrite H, app_nil_r. reflexivity. Qed.

Lemma spares_insert (prev : string) (index : Z) (d : database) (row : history_row) :
  spares prev index d (with_history d (history d ++ [row])).
Proof.
  unfold spares, spenders. simpl. rewrite List.filter_app, map_app. eexists. reflexivity.
Qed.

(** An update of rows leaves the spenders of the output alone when it
    keeps the output and the spender of the rows of that output. *)
Lemma spares_update (prev : string) (index : Z) (d : database)
    (sel : history_row -> bool) (g : history_row -> history_row) :
  (forall r, SQL.spends prev index (g r) = SQL.spends prev index r) ->
  (forall r, sel r = true -> SQL.spends prev index r = true ->
             spender_of (g r) = spender_of r) ->
  spares prev index d
    (with_history d (map (fun r => if sel r then g r else r) (history d))).
Proof.
  intros Hkey Hsp. exists []. rewrite app_nil_r. unfold spenders. simpl.
  induction (history d) as [| r l IH]; simpl; [reflexivity |].
  destruct (sel r) eqn:Hsel.
  - rewrite Hkey. destruct (SQL.spends prev index r) eqn:Hr; simpl.
    + rewrite (Hsp r Hsel Hr), IH. reflexivity.
    + exact IH.
  - destruct (SQL.spends prev index r); simpl; rewrite IH; reflexivity.
Qed.

Lemma spends_other (prev prev' : string) (index index' : Z) (r : history_row) :
  ~ (prev' = prev /\ index' = index) ->
  SQL.spends prev' index' r = true -> SQL.spends prev index r = true -> False.
Proof.
  unfold SQL.spends. intros Hne H1 H2.
  apply andb_true_iff in H1 as [A1 B1]. apply andb_true_iff in H2 as [A2 B2].
  apply String.eqb_eq in A1, A2. apply Z.eqb_eq in B1, B2.
  apply Hne. split; congruence.
Qed.

Lemma moves_forEach_in {A : Type} (R : database -> database -> Prop)
    (g : A -> M unit) (l : list A) :
  (forall d, R d d) -> (forall d1 d2 d3, R d1 d2 -> R d2 d3 -> R d1 d3) ->
  (forall x, In x l -> moves R (g x)) -> moves R (forEach g l).
Proof.
  intros Rr Rt. induction l as [| x l IH]; intros Hg; simpl.
  - apply moves_ret, Rr.
  - apply moves_bind; [exact Rt | apply Hg; left; reflexivity | intros _].
    apply IH. intros y Hy. apply Hg. right. exact Hy.
Qed.

Section Sparing.

Variables (prev : string) (index : Z).

Let R := spares prev index.

Lemma spares_statement_tx {A : Type} (stmt : SQL.statement A) :
  (forall d a d', stmt d = Ok (a, d') -> history d' = history d) ->
  moves R (Storage.run_statement stmt).
Proof.
  intros H. apply moves_statement. intros d a d' Hs.
  apply spares_same_history, (H d a d' Hs).
Qed.

Lemma importBlock_tx_spares (block : Block) (h : Z) (client : jsval)
    (existingTx : list string) (tx : Transaction) :
  moves R (ScannerSync._importBlock_tx block h client existingTx tx).
Proof.
  assert (Rr : forall d, R d d) by apply spares_refl.
  assert (Rt : forall d1 d2 d3, R d1 d2 -> R d2 d3 -> R d1 d3) by apply spares_trans.
  assert (N : forall ch p opts, moves R (Messages.notify ch p opts)).
  { intros. apply moves_notify, Rr. }
  unfold ScannerSync._importBlock_tx, Storage.queryAsync, Service.broadcastTx,
    Service.addTx, Service.broadcastAddress.
  destruct (mem (id tx) existingTx).
  - apply moves_bind; [exact Rt | | intros _].
    { apply spares_statement_tx. intros d a d' H.
      unfold SQL.update_transactions_makeConfirmed in H. injection H as _ <-. reflexivity. }
    apply moves_bind; [exact Rt | | intros rows].
    { apply moves_statement. intros d a d' H.
      apply update_returning_tables in H. subst d'.
      apply spares_update; intros r; reflexivity. }
    apply moves_bind; [exact Rt | apply N | intros _].
    apply moves_bind; [exact Rt | apply N | intros _].
    apply moves_forEach; [exact Rr | exact Rt | intros address].
    apply moves_kept; [exact Rr | frame].
  - apply moves_bind; [exact Rt | | intros _].
    { apply spares_statement_tx. intros d a d' H.
      unfold SQL.insert_transactions_confirmed, SQL.insert_tx in H.
      destruct (SQL.insert_row _ _ _ _); [| discriminate]. injection H as _ <-. reflexivity. }
    apply moves_bind; [exact Rt | | intros _].
    { apply moves_forEach; [exact Rr | exact Rt | intros [output i]].
      apply moves_forEach; [exact Rr | exact Rt | intros address].
      apply moves_bind; [exact Rt | | intros _; apply N].
      apply moves_statement. intros d a d' H.
      unfold SQL.insert_history_confirmedOutput, SQL.insert_output, SQL.insert_row in H.
      destruct (existsb _ _).
      - destruct (on_conflict d); [discriminate |]. injection H as _ <-.
        apply spares_same_history. reflexivity.
      - injection H as _ <-. apply spares_insert. }
    apply moves_bind; [exact Rt | apply N | intros _]. apply N.
Qed.

Lemma importBlock_input_spares (block : Block) (h : Z) (client : jsval)
    (existingTx : list string) (txid : string) (input : Input) (i : Z) :
  (ScannerSync.is_coinbase input i = false ->
   ~ (prevTxId input = prev /\ outputIndex input = index)) ->
  moves R (ScannerSync._importBlock_input block h client existingTx txid input i).
Proof.
  assert (Rr : forall d, R d d) by apply spares_refl.
  assert (Rt : forall d1 d2 d3, R d1 d2 -> R d2 d3 -> R d1 d3) by apply spares_trans.
  intros Hother. unfold ScannerSync._importBlock_input.
  destruct (ScannerSync.is_coinbase input i); [apply moves_ret, Rr |].
  specialize (Hother eq_refl).
  unfold Storage.queryAsync, Service.broadcastAddress.
  apply moves_bind; [exact Rt | | intros rows].
  - destruct (mem txid existingTx); apply moves_statement; intros d a d' H;
      apply update_returning_tables in H; subst d'; rewrite bytea_hex;
      (apply spares_update; [intros r; reflexivity |]);
      intros r Hsel Hr; exfalso;
      exact (spends_other prev (prevTxId input) index (outputIndex input) r Hother Hsel Hr).
  - apply moves_forEach; [exact Rr | exact Rt | intros address].
    apply moves_notify, Rr.
Qed.

End Sparing.

Lemma importBlock_spares (prev : string) (index : Z) (block : Block) (h : Z)
    (client : jsval) :
  (forall tx input i,
      In tx (Bitcore.transactions block) ->
      In (input, i) (ScannerSync.indexed (inputs tx)) ->
      ScannerSync.is_coinbase input i = false ->
      ~ (prevTxId input = prev /\ outputIndex input = index)) ->
  moves (spares prev index) (ScannerSync._importBlock block h client).
Proof.
  intros Hother. set (R := spares prev index).
  assert (Rr : forall d, R d d) by apply spares_refl.
  assert (Rt : forall d1 d2 d3, R d1 d2 -> R d2 d3 -> R d1 d3) by apply spares_trans.
  unfold ScannerSync._importBlock, ScannerSync.withLock.
  apply moves_bind; [exact Rt | apply moves_kept; [exact Rr | frame_more] | intros _].
  unfold Storage.queryAsync.
  apply moves_bind; [exact Rt | | intros _].
  { apply spares_statement_tx. intros d a d' H.
    unfold SQL.insert_blocks_row in H.
    destruct (SQL.insert_row _ _ _ _); [| discriminate]. injection H as _ <-. reflexivity. }
  apply moves_bind; [exact Rt | | intros counts].
  { apply moves_kept; [exact Rr |]. apply keeps_mapM. intros tx.
    unfold ScannerSync._importBlock_exists, Storage.queryAsync,
      SQL.select_transactions_exists.
    apply keeps_db_reading. }
  apply moves_bind; [exact Rt | | intros _].
  { apply moves_forEach; [exact Rr | exact Rt | intros tx].
    apply importBlock_tx_spares. }
  apply moves_bind; [exact Rt | | intros _].
  { apply moves_forEach_in; [exact Rr | exact Rt | intros tx Htx].
    apply moves_forEach_in; [exact Rr | exact Rt | intros [input i] Hin].
    apply importBlock_input_spares. intros Hcb. exact (Hother tx input i Htx Hin Hcb). }
  unfold Service.broadcastBlock, Service.addBlock.
  apply moves_bind; [exact Rt | apply moves_notify, Rr | intros _].
  apply moves_notify, Rr.
Qed.

Lemma indexed_cons {A : Type} (x : A) (l : list A) :
  exists others, ScannerSync.indexed (x :: l) = (x, 0) :: others.
Proof. unfold ScannerSync.indexed. simpl. eexists. reflexivity. Qed.

(** C5, as the code has it.  In the block path the callback over the
    inputs does nothing for a coinbase input at index 0, which is the index
    that the first input of a transaction gets; so when [_importBlock]
    returns for a block in which such inputs are first inputs, the history
    rows of the output that the input refers to name the spenders they
    named before.  The block path registers no orphan, and the previous
    hash of the input is among the locked keys all the same.  The
    unconfirmed path treats the input as any other: its previous hash is
    among the locked keys and is looked up as a parent, and as long as no
    transaction row has the zero hash as its id the transaction is deferred
    with the zero hash among its missing parents. *)
Theorem coinbase_input_handling (tx : Transaction) (input : Input)
    (Hin : In input (inputs tx))
    (Hzero : prevTxId input = ZERO_HASH)
    (Hindex : outputIndex input = 4294967295) :
  (forall block height client existingTx e,
      ScannerSync._importBlock_input block height client existingTx (id tx) input 0 e
      = (Ok tt, e))
  /\ (forall rest, inputs tx = input :: rest ->
        exists others, ScannerSync.indexed (inputs tx) = (input, 0) :: others)
  /\ (forall block height client e,
        In tx (Bitcore.transactions block) ->
        coinbase_first block ->
        fst (ScannerSync._importBlock block height client e) = Ok tt ->
        exists more,
          spenders (prevTxId input) (outputIndex input)
                   (db (snd (ScannerSync._importBlock block height client e)))
          = spenders (prevTxId input) (outputIndex input) (db e) ++ more)
  /\ (forall block height client e,
        orphanedTx (snd (ScannerSync._importBlock block height client e)) = orphanedTx e)
  /\ (forall block height client e,
        In tx (Bitcore.transactions block) ->
        exists keys,
          locked (snd (ScannerSync._importBlock block height client e))
          = locked e ++ [Keyed keys]
          /\ In ZERO_HASH keys)
  /\ (forall e, exists b e' keys,
        ScannerSync._importUnconfirmedTx tx e = (Ok b, e')
        /\ locked e' = locked e ++ [Keyed keys]
        /\ In ZERO_HASH keys
        /\ (faults e = [] -> stored (id tx) e = false -> stored ZERO_HASH e = false ->
            b = false /\ In ZERO_HASH (parents (orphanedTx e') (id tx))
            /\ db e' = db e)).
Proof.
  split; [| split; [| split; [| split; [| split]]]].
  - intros block height client existingTx e.
    unfold ScannerSync._importBlock_input, ScannerSync.is_coinbase.
    rewrite Hzero, Hindex, String.eqb_refl. reflexivity.
  - intros rest ->. apply indexed_cons.
  - intros block height client e _ Hfirst Hrun. apply run_as_pair in Hrun.
    refine (importBlock_spares _ _ block height client _ e tt _ Hrun).
    intros tx' input' i Htx' Hin' Hcb [Hp Ho].
    rewrite Hzero in Hp. rewrite Hindex in Ho.
    pose proof (Hfirst tx' input' i Htx' Hin' Hp Ho) as ->.
    unfold ScannerSync.is_coinbase in Hcb.
    rewrite Hp, Ho, String.eqb_refl in Hcb. discriminate Hcb.
  - intros block height client e. apply keeps_orphanedTx_importBlock.
  - intros block height client e Htx. exists (ScannerSync.allTxIds block). split.
    + apply importBlock_locks.
    + rewrite <- Hzero. apply (allTxIds_has_parents block tx input Htx Hin).
  - intros e. destruct (import_outcome tx e) as (b & e' & Hrun & Hl & Hcase).
    exists b, e', (uniq (map prevTxId (inputs tx)) ++ [id tx]).
    split; [exact Hrun | split; [exact Hl | split]].
    + rewrite in_app_iff, uniq_In. left. rewrite <- Hzero. apply in_map, Hin.
    + intros Hf Hst Hz.
      assert (Hm : In ZERO_HASH (missing tx e)).
      { apply missing_In. split; [rewrite <- Hzero; apply in_map, Hin | exact Hz]. }
      destruct Hcase as [(_ & Hst' & _) | [(-> & _ & _ & Hdb & Hp & _) |
                         [(_ & _ & Hm' & _) | (_ & _ & _ & [Hf' | [_ Hm']])]]].
      * congruence.
      * split; [reflexivity | split; [| exact Hdb]].
        rewrite Hp. destruct (decide (id tx = id tx)); [exact Hm | congruence].
      * rewrite Hm' in Hm. destruct Hm.
      * congruence.
      * rewrite Hm' in Hm. destruct Hm.
Qed.

(** The theorem at the coinbase transaction [cb], with block 8 imported
    over a store that has a history row for the output [(ZERO_HASH,
    0xFFFFFFFF)]: the row names no spender before, and none after. *)
Lemma coinbase_input_handling_witness :
  let input := {| prevTxId := ZERO_HASH; outputIndex := 4294967295 |} in
  let r := ScannerSync._importBlock block8 8 JClient (fresh db_a0_zero) in
  (In input (inputs tx_cb) /\ inputs tx_cb = [input] /\ coinbase_first block8
   /\ fst r = Ok tt)
  /\ ScannerSync.indexed (inputs tx_cb) = [(input, 0)]
  /\ spenders ZERO_HASH 4294967295 (db_a0_zero) = [(None, None)]
  /\ (exists more,
        spenders ZERO_HASH 4294967295 (db (snd r))
        = spenders ZERO_HASH 4294967295 db_a0_zero ++ more)
  /\ (forall e, exists b e' keys,
        ScannerSync._importUnconfirmedTx tx_cb e = (Ok b, e')
        /\ locked e' = locked e ++ [Keyed keys]
        /\ In ZERO_HASH keys
        /\ (faults e = [] -> stored "cb" e = false -> stored ZERO_HASH e = false ->
            b = false /\ In ZERO_HASH (parents (orphanedTx e') "cb")
            /\ db e' = db e)).
Proof.
  intros input r.
  assert (Hin : In input (inputs tx_cb)) by (left; reflexivity).
  assert (Hfirst : coinbase_first block8).
  { intros tx i index Htx Hi Hp Ho. simpl in Htx.
    destruct Htx as [<- | [<- | []]]; vm_compute in Hi;
      destruct Hi as [Hi | []]; injection Hi as <- <-;
      [reflexivity | discriminate Hp]. }
  assert (Hrun : fst r = Ok tt) by (vm_compute; reflexivity).
  destruct (coinbase_input_handling tx_cb input Hin eq_refl eq_refl)
    as (_ & _ & Hblock & _ & _ & Hun).
  split; [repeat split; assumption |].
  split; [reflexivity |]. split; [reflexivity |]. split.
  - exact (Hblock block8 8 JClient (fresh db_a0_zero) (or_introl eq_refl) Hfirst Hrun).
  - exact Hun.
Defined.

(** ** The rollback of a reorg and the block at the fork *)

(** C7: the rollback is one transaction, and it commits without faults, but
    the height it works with is [latest.height - 1], where [latest] is the
    block at which the walk back stopped: the stored block on which the
    node's next block builds.  The rollback therefore takes away the block
    rows at the height of [latest] and above, this block included,
    publishes ['removeblock'] for each of them, and makes unconfirmed what
    was confirmed at that height or above.  In scenario S2 (the store holds
    [B0, B1a], the node [B0, B1b, B2b]) the walk back stops at [B0]; the
    round deletes [B0] and [B1a], publishes two ['removeblock'], and imports
    [B1b] at height 1: no block row is left at height 0, and the
    transaction of [B0] is unconfirmed. *)
Theorem reorg_rollback_deletes_the_fork_block :
  (forall (this_latest latest : ScannerSync.Latest) (e : env),
      ScannerSync.latest_hash latest <> ScannerSync.latest_hash this_latest ->
      let fork := ScannerSync.latest_height latest in
      let r := ScannerSync._runBlockImport_reorg this_latest latest e in
      (forall l, fst r = Ok l ->
         blocks (db (snd r)) = List.filter (fun b => b_height b <? fork) (blocks (db e))
         /\ transactions (db (snd r))
            = map (rolled_back_tx (fork - 1)) (transactions (db e))
         /\ history (db (snd r)) = map (rolled_back_history (fork - 1)) (history (db e))
         /\ delivered (snd r)
            = delivered e
              ++ map removeblock
                   (List.filter (fun b => fork <=? b_height b) (blocks (db e))))
      /\ (forall msg, fst r = Err msg ->
            db (snd r) = db e /\ delivered (snd r) = delivered e)
      /\ (faults e = [] -> exists l, fst r = Ok l))
  /\ (let walk := BlockLoop.findLatest S2.node_chain 3 S2.stored_latest (fresh S2.store) in
      let r := BlockLoop._runBlockImport_round S2.node_chain S2.stored_latest
                 (fresh S2.store) in
      fst walk = Ok (Some (S2.B1b, {| ScannerSync.latest_hash := "b0";
                                      ScannerSync.latest_height := 0 |}))
      /\ fst r = Ok {| ScannerSync.latest_hash := "b1b"; ScannerSync.latest_height := 1 |}
      /\ map (fun b => (b_height b, b_hash b)) (blocks (db (snd r))) = [(1, "b1b")]
      /\ map (fun t => (t_txid t, t_height t)) (transactions (db (snd r)))
         = [("c0", None); ("c1a", None); ("c1b", Some 1)]
      /\ on_channel "removeblock" (delivered (snd r))
         = [{| channel := "removeblock"; payload := JObj [("hash", JStr "b0")] |};
            {| channel := "removeblock"; payload := JObj [("hash", JStr "b1a")] |}]).
Proof.
  split.
  - intros this_latest latest e Hreorg fork r.
    destruct (reorg_rollback_run this_latest latest e Hreorg) as (_ & Hok & Herr & Hgo).
    fold r in Hok, Herr, Hgo. split; [| split; [| exact Hgo]].
    + intros l Hl. destruct (Hok l Hl) as (Hb & Ht & Hh & Hd & _).
      split; [| split; [exact Ht | split; [exact Hh |]]].
      * rewrite Hb. apply filter_ext. intros b. subst fork.
        destruct (Z.leb_spec (b_height b) (ScannerSync.latest_height latest - 1));
          destruct (Z.ltb_spec (b_height b) (ScannerSync.latest_height latest));
          try reflexivity; lia.
      * rewrite Hd. f_equal. f_equal. apply filter_ext. intros b. subst fork.
        destruct (Z.ltb_spec (ScannerSync.latest_height latest - 1) (b_height b));
          destruct (Z.leb_spec (ScannerSync.latest_height latest) (b_height b));
          try reflexivity; lia.
    + intros msg Hmsg. destruct (Herr msg Hmsg) as (Hd & Hdel & _). split; assumption.
  - vm_compute. repeat split; reflexivity.
Qed.
